(* ===== verification/_CoqProject ===== *)
-Q . S2P
Prelude.v
GoLib.v
Records.v
Db.v
Queue.v
Sha256.v
Sends.v
Outbox.v
Dispatcher.v
OutboxSpec.v
Redelivery.v
Lifecycle.v
CertStore.v
JobStore.v
Worker.v
WorkerSpec.v
Issuers.v
ScanQueue.v
ScanRunner.v
Compliance.v
Report.v
Posture.v
Access.v
Renewal.v
Ip.v
Revocation.v
LaunchApi.v
LaunchSpec.v
Scanner.v
Json.v
Columns.v
Vault.v
VaultSpec.v
Aap.v
Connections.v
Settings.v
SettingsSpec.v
ScanWorker.v
Inventory.v
CertParse.v
Probe.v
Collectors.v
Markdown.v
ResourceApi.v
Cmd.v
ResourceSpec.v
History.v
Schema.v
Store.v
Server.v
Consent.v
Program.v
Main.v
ScanFlow.v
