(* ===== verification/Prelude.v ===== *)
(** * Verification of the HashiCorp Vault CLM Discovery service

    The service scans networks for TLS endpoints, keeps an inventory of the
    certificates it finds in Postgres, compares it with Vault, judges it
    (compliance, posture, revocation), and drives renewals and migrations to
    Vault through Ansible Automation Platform (AAP, "the Controller").  This
    library translates its Go code into executable definitions and proves
    what makes the parts, and the whole, correct.

    ** The parts and how they interact

    An operator's request passes the authentication and the permission matrix
    and reaches a handler.  Handlers and background workers share one Postgres
    database, which is also every queue of the program: scans waiting for a
    worker, lifecycle jobs waiting for AAP or for verification, outbox events
    waiting for delivery.  Several replicas may run; they meet only in the
    database, through leases and [FOR UPDATE SKIP LOCKED].

    - A request for a scan appends a row to the scan queue.  A scan worker
      claims it, expands its targets and probes them in goroutines; the
      certificates, observations, issuers and stapled revocations found are
      stored; then posture is recomputed and Vault reconciled.
    - A stored certificate announces itself by events of the outbox, appended
      in the transaction that changes it.  The dispatcher claims events and
      posts them to Event-Driven Ansible and to an ITSM webhook.
    - A renewal or migration is launched in AAP by a handler, which records a
      lifecycle job, or by the lifecycle worker from a recorded job; the worker
      polls the job and looks for the successor certificate in the inventory.

    ** Files

    Foundations, each required by the files below it:
    - Prelude.v: notations, tactics, lemmas on options, lists and results.
    - GoLib.v, Ip.v, Sha256.v, Json.v: what the code uses of Go's [strings],
      [time], [netip], [sha256], [hex] and [encoding/json].
    - Records.v: record update.  Db.v: the rows and tables (migrations/,
      internal/store), and the effects.  Queue.v: the claim pattern of every
      queue.  Sends.v: what a piece of code sends, and what only reads.

    The store (internal/store): Outbox.v (events), CertStore.v (certificates,
    with Lifecycle.v for internal/lifecycle and internal/governance),
    Issuers.v, ScanQueue.v (scans), JobStore.v (lifecycle jobs), Posture.v
    (findings, waivers, internal/posture), Connections.v (stored settings and
    internal/settings), Columns.v (the JSON columns of certificates and
    scans).  Schema.v: the invariant of all tables.  History.v: what no
    transaction forgets.  Store.v: laws, preorders on the database that every
    operation of the store follows ([Law]), and the cycles of a dispatcher too
    ([DispatchLaw]); the two files above and OutboxSpec.v give three.

    Workers: Dispatcher.v (internal/eventbus, internal/itsm) with its abstract
    machine in OutboxSpec.v and the bound on redelivery in Redelivery.v,
    Worker.v (internal/lifecyclejobs) with its
    abstract machine in WorkerSpec.v,
    ScanRunner.v (internal/scanrunner), Scanner.v and Probe.v
    (internal/scanner), ScanWorker.v (internal/api/scan_worker.go).

    Clients: Aap.v (internal/aap), Vault.v and VaultSpec.v (internal/vault),
    Revocation.v (internal/revocation), Collectors.v (internal/collectors and
    its endpoints), CertParse.v (internal/cert).

    The API (internal/api): Access.v (tokens, roles, audit and the routes),
    LaunchApi.v and LaunchSpec.v (handlers that change certificates and jobs),
    ResourceApi.v and ResourceSpec.v (all other handlers), Settings.v and
    SettingsSpec.v.  What they render: Renewal.v (internal/renewal),
    Inventory.v (internal/inventory), Compliance.v (internal/compliance),
    Report.v and Markdown.v (internal/report).

    The program: Cmd.v: the scan command (cmd/clm-scan, internal/cli), the
    adapters of cmd/clm-discovery, internal/logging and internal/demo.
    Server.v: the configuration (internal/config), [NewServer] and the router
    (internal/api/server.go), from an HTTP request through the middleware to
    the handler of its route.  Consent.v: which routes ask for consent, and
    what the others cannot do.  Program.v: requests, ticks and scans as one
    type of activities.  Main.v: the process of cmd/clm-discovery/main.go, its
    loops, the signal and the shutdown, as steps under any schedule; a run is
    a sequence of the activities of Program.v.  ScanFlow.v: a scan from the
    request, or the command line, to its end.

    A file keeps the names of the source: [handleRenewCertificate] of
    LaunchApi.v is the method of that name; a record has the fields of the Go
    struct behind a short prefix ([c_] certificate, [j_] job, [s_] scan, ...).

    ** State, effects and time

    [DB] is a record of tables, maps from primary keys to rows or lists in
    order of insertion.  A store call is one transaction ([txn]) that reads
    [NOW()], the rows other transactions hold locked and the tables, and
    returns the new tables or an error that leaves them.  [store_call] runs it
    in a [World]: database, clock, log of calls to other services, and
    environment, a list of steps with one entry per call, which says how long
    the call takes, whether it fails before or after its effect (committed,
    reply lost), which rows are locked, and what the other replicas commit
    meanwhile.  So a theorem over all environments covers delays, faults and
    interleavings at the granularity of transactions; a statement whose parts
    can interleave with others under READ COMMITTED is more than one step (the
    bounded creation of a scan counts in one and inserts in the next).
    "Undisturbed" in a
    theorem means an empty environment.  [net_call] appends to the log; the
    n-th answer of a service is a parameter.  The HTTP client of Vault follows
    redirects request by request ([http_follow]); the one of the dispatcher
    refuses them; what the others (AAP, Azure, revocation checks) are
    redirected to is part of the answer to one call.  [M] is the state monad over
    [World]; [<--] binds, [<-?] binds and returns early on an error, [<-!]
    binds inside a transaction.

    [moves R m] says that running [m] relates the worlds before and after by
    the preorder [R]; [evolves P] and [sends P] are such relations, and the
    tactics [moves_tac], [sends_tac], [reads_tac] and [lawful_tac] walk through
    a handler with the lemmas of the operations it calls.  A goroutine of a
    scan is a program counter whose steps lie between synchronisation points,
    and a run is any list of scheduling choices.

    Interfaces of the source are type classes, and clients are verified
    against the laws of the interface: [JobStore] and [EventStore] (Postgres is
    an instance), [PKIReader] with [ReaderLaws] (the Vault client is),
    [CertLister], [Prober] (the TLS probe is), [Controller], [AuditSink].

    ** What the theorems show

    - The lifecycle worker refines an abstract machine of a job: it reaches
      verified only with a suitable successor in the inventory, does so when
      there is one, launches once as long as its store does not fail and
      nobody else writes the table of jobs, and times out (WorkerSpec.v).
    - Queues: exclusive claims of jobs, leases that hold, a scan queue that is
      bounded but for the creations at work at once and those without a bound,
      bounded slots, redelivery bounded but for failing marks (JobStore.v,
      ScanQueue.v, ScanWorker.v, Redelivery.v).
    - Delivery: an event counts as delivered only when every configured sink
      accepted it; what is posted carries the token or the HMAC of its very
      bytes (Dispatcher.v).  Whatever the server does, an event of the outbox
      takes the steps of an abstract letter only (waiting, held, sent), from
      which follows what the outbox promises: announcements stay, leases
      exclude, refusals count up to a cap, the sent stay sent (OutboxSpec.v,
      Program.v).
    - Revocation is never lost by a rescan and recorded on proof only
      (CertStore.v, Revocation.v, Probe.v).
    - Access: who may call what, nothing unsafe sent to AAP or Vault, audited
      deletions and waivers, secrets that stay in the service (Access.v,
      LaunchSpec.v, ResourceSpec.v, VaultSpec.v, SettingsSpec.v); end to end,
      nothing changes without a token of a role that may change it (Server.v),
      and no request launches, imports, scans or adds anything without consent
      (Consent.v).
    - Untrusted text cannot change the structure of what is rendered
      (Renewal.v, Report.v, Markdown.v).
    - Scans account for every target and end under every schedule; waiting for
      a Controller job ends (ScanRunner.v, Aap.v).  Undisturbed, an accepted
      request for a scan is queued, claimed and probed, and its row ends as
      completed or failed; the command reports by its exit status how its scan
      ended (ScanFlow.v).
    - What is written to a JSON column comes back (Columns.v).
    - Posture, waivers and compliance say what the packs report (Posture.v,
      ResourceSpec.v, Compliance.v).
    - Everything the server does keeps the tables well-formed, and no job,
      approval, timeline entry or event is ever lost (Program.v).
    - The process keeps to its slots, accounts for every accepted request and
      can always be stopped, with all of them answered but those that wait for
      AAP, which the timeout of the shutdown cuts off (Main.v).
    A theorem that is proved under hypotheses is followed by a witness, which
    runs the code on a concrete state.  Examples named for a surprise
    ([relaunch_after_lost_ref], [refused_but_catalogued], [put_half_applied],
    ...) exhibit behaviour that a caller would not expect.

    ** Fuel

    Recursion that Go bounds by data is structural.  Paging through
    certificates ([load_pages]) takes its fuel from the world, [pages_left],
    which always suffices ([load_pages_enough]); redirects are at most ten, and
    the walk through a CIDR has the number of its addresses as fuel.  Two loops
    have no bound, and their fuel is an argument of the handlers up to [step]
    of Main.v: listing templates ([list_pages], [empty_pages_never_end]) and
    polling ([wait_loop]; [WaitForJob_ends] gives the number of polls that
    suffices under a deadline).  A handler whose loop has not ended within the
    fuel is not answered: the process keeps its request among those that wait.

    ** Choices and limits

    - Strings are bytes; white space and case are those of ASCII.  The
      collation of the database is byte order; ties in an ORDER BY come in a fixed
      order of the rows (Postgres promises none).
    - Integers are unbounded, as the 64-bit counters never get near their
      bounds, except where the code computes with values from outside
      (durations saturate, [wrap64], [Atoi]); the range of Postgres [int4]
      and the microseconds of its time stamps are not modelled.
    - Generated UUIDs come from a function of a counter, and an insertion
      under a key that exists fails; [uuid.Parse] is a parameter.
    - X.509, CRL, OCSP and PEM decoding and signature checks, TLS handshakes,
      DNS, [url.Parse], JSON decoding, AES-GCM and base64 are parameters, with
      their laws as type classes where a proof uses them.  Go's iteration
      order over maps is a parameter where it can be observed.
    - The columns [id] and [created_at] of findings are left out, and the
      table of policy versions is one constant version.
    - A handler returns its reply together with the audit event it appends,
      whose insertion is modelled in Access.v; response views carry the
      stored rows, without the number of observations.
    - [NewServer] always sets the stores, so the branches for a missing store
      are not modelled.
    - A step of the process of Main.v is a whole request, tick, heartbeat or
      scan; what runs between its calls, in this process or another, is the
      environment's.  The loops may tick again after the signal, since a
      [select] takes any ready branch.
    - The router matches a path by its handler's entry in the table [routes];
      an [{id}] is not empty and has no slash.

    ** Not modelled

    The decoding of the environment by envconfig (its result is an argument of
    [Load], its defaults are [default_config]) and of the command line by the
    flag package, when the tickers fire, what is logged (but for the error the
    scan command ends with) and the request logger, HTTP framing (time-outs, CORS), scanning of
    rows into structs (but for the JSON columns), [encoding/json] of replies and of the JSON report, test
    data, the SQL text of the migrations, and the web front end. *)

From stdpp Require Export base gmap strings list fin_maps pretty.
From Stdlib Require Export ZArith Lia Sorted.

#[global] Open Scope Z_scope.

(** ** Tactics *)

(** Case analysis on every match and boolean test of the goal or context. *)
Ltac split_ifs := repeat (case_match; simplify_eq/=; try done).

(** Turns boolean comparisons into propositions. *)
Ltac b2p :=
  repeat match goal with
  | H : context [Z.eqb ?a ?b = true] |- _ => rewrite Z.eqb_eq in H
  | H : context [Z.eqb ?a ?b = false] |- _ => rewrite Z.eqb_neq in H
  | H : context [Z.ltb ?a ?b = true] |- _ => rewrite Z.ltb_lt in H
  | H : context [Z.ltb ?a ?b = false] |- _ => rewrite Z.ltb_ge in H
  | H : context [Z.leb ?a ?b = true] |- _ => rewrite Z.leb_le in H
  | H : context [Z.leb ?a ?b = false] |- _ => rewrite Z.leb_gt in H
  | H : context [Z.gtb ?a ?b = true] |- _ => rewrite Z.gtb_lt in H
  | H : context [Z.geb ?a ?b = true] |- _ => rewrite Z.geb_le in H
  | H : context [String.eqb ?a ?b = true] |- _ => rewrite String.eqb_eq in H
  | H : context [String.eqb ?a ?b = false] |- _ => rewrite String.eqb_neq in H
  | H : context [(_ && _)%bool = true] |- _ => rewrite andb_true_iff in H
  | H : context [(_ && _)%bool = false] |- _ => rewrite andb_false_iff in H
  | H : context [(_ || _)%bool = true] |- _ => rewrite orb_true_iff in H
  | H : context [(_ || _)%bool = false] |- _ => rewrite orb_false_iff in H
  | H : context [negb _ = true] |- _ => rewrite negb_true_iff in H
  | H : context [negb _ = false] |- _ => rewrite negb_false_iff in H
  | H : context [bool_decide _ = true] |- _ => rewrite bool_decide_eq_true in H
  | H : context [bool_decide _ = false] |- _ => rewrite bool_decide_eq_false in H
  end.

(** ** Results

    A Go function returning [(A, error)] returns [Ok a] or [Err e]. *)
Inductive result (E A : Type) : Type :=
| Ok (a : A)
| Err (e : E).
Arguments Ok {_ _} _.
Arguments Err {_ _} _.

#[global] Instance result_eq_dec {E A} `{EqDecision E, EqDecision A} :
  EqDecision (result E A).
Proof. solve_decision. Defined.

Definition is_ok {E A} (r : result E A) : bool :=
  match r with Ok _ => true | Err _ => false end.

Definition result_bind {E A B} (r : result E A) (f : A -> result E B) : result E B :=
  match r with Ok a => f a | Err e => Err e end.

Declare Scope go_scope.
Delimit Scope go_scope with go.

Notation "'let?' x := r 'in' k" := (result_bind r (fun x => k))
  (at level 10, x pattern, r at level 100, k at level 200) : go_scope.

Lemma result_bind_ok {E A B} (r : result E A) (f : A -> result E B) b :
  result_bind r f = Ok b <-> exists a, r = Ok a /\ f a = Ok b.
Proof. destruct r as [a|e]; simpl; split; [by exists a|by intros (? & [= ->] & ?)|done|by intros (? & ? & ?)]. Qed.

(** ** Stable sorting ([sort.SliceStable] and SQL [ORDER BY])

    [less] is the strict comparison the source passes. *)
Section StableSort.
Context {A : Type} (less : A -> A -> bool).

Fixpoint sort_insert (x : A) (l : list A) : list A :=
  match l with
  | [] => [x]
  | y :: l' => if less y x then y :: sort_insert x l' else x :: y :: l'
  end.

Definition stable_sort (l : list A) : list A := foldr sort_insert [] l.

Lemma sort_insert_perm x l : sort_insert x l ≡ₚ x :: l.
Proof.
  induction l as [|y l IH]; simpl; [done|].
  destruct (less y x); [|done]. rewrite IH. apply perm_swap.
Qed.

Lemma stable_sort_perm l : stable_sort l ≡ₚ l.
Proof. induction l as [|x l IH]; simpl; [done|]. by rewrite sort_insert_perm, IH. Qed.

Lemma elem_of_stable_sort x l : x ∈ stable_sort l <-> x ∈ l.
Proof. by rewrite (stable_sort_perm l). Qed.

Lemma length_stable_sort l : length (stable_sort l) = length l.
Proof. apply Permutation_length, stable_sort_perm. Qed.

(** [less] is a strict weak order. *)
Class StrictWeak : Prop := {
  sw_asym : forall x y, less x y = true -> less y x = false;
  sw_negtrans : forall x y z, less x y = false -> less y z = false -> less x z = false
}.

Context `{!StrictWeak}.

Definition not_after (x y : A) : Prop := less y x = false.

Lemma sort_insert_sorted x l :
  StronglySorted not_after l -> StronglySorted not_after (sort_insert x l).
Proof.
  induction 1 as [|y l Hl IH Hy]; simpl; [repeat constructor|].
  destruct (less y x) eqn:E.
  - constructor; [done|]. rewrite sort_insert_perm. constructor; [|done].
    by apply sw_asym.
  - constructor; [by constructor|]. constructor; [done|].
    eapply Forall_impl; [exact Hy|]. intros z Hz. unfold not_after in *.
    eapply sw_negtrans; eauto.
Qed.

Lemma stable_sort_sorted l : StronglySorted not_after (stable_sort l).
Proof. induction l; simpl; [constructor|]. by apply sort_insert_sorted. Qed.

Lemma sort_insert_nil_head x l :
  Forall (not_after x) l -> sort_insert x l = x :: l.
Proof. destruct 1 as [|y l Hy]; simpl; [done|]. unfold not_after in Hy. by rewrite Hy. Qed.

(** Sorting a sorted list changes nothing, which is how stability shows. *)
Lemma stable_sort_id l : StronglySorted not_after l -> stable_sort l = l.
Proof.
  induction 1 as [|x l Hl IH Hx]; simpl; [done|].
  rewrite IH. by apply sort_insert_nil_head.
Qed.
End StableSort.
Arguments StrictWeak {_} _.

(** When only equal elements tie, the order of the input does not matter. *)
Lemma sorted_unique {A} (less : A -> A -> bool) l l' :
  (forall x y, x ∈ l -> y ∈ l -> less x y = false -> less y x = false -> x = y) ->
  StronglySorted (not_after less) l -> StronglySorted (not_after less) l' -> l ≡ₚ l' -> l = l'.
Proof.
  intros Htie Hl. revert l'. induction Hl as [|x l Hl IH Hx]; intros l' Hl' Hp.
  - by apply Permutation_nil_l in Hp.
  - destruct Hl' as [|y l' Hl' Hy]; [by apply Permutation_nil_r in Hp|].
    assert (x = y) as ->.
    { assert (x ∈ y :: l') as [->|Hx']%elem_of_cons by (rewrite <- Hp; constructor); [done|].
      assert (y ∈ x :: l) as [->|Hy']%elem_of_cons by (rewrite Hp; constructor); [done|].
      rewrite Forall_forall in Hx, Hy. apply Htie; [constructor|by constructor|by apply Hy|by apply Hx]. }
    f_equal. apply IH; [|done|by eapply Permutation_cons_inv].
    intros a b Ha Hb. apply Htie; by constructor.
Qed.

Lemma stable_sort_unique {A} (less : A -> A -> bool) `{!StrictWeak less} l l' :
  (forall x y, x ∈ l -> y ∈ l -> less x y = false -> less y x = false -> x = y) ->
  l ≡ₚ l' -> stable_sort less l = stable_sort less l'.
Proof.
  intros Htie Hp. apply (sorted_unique less); try by apply stable_sort_sorted.
  - intros x y. rewrite !elem_of_stable_sort. apply Htie.
  - by rewrite !stable_sort_perm.
Qed.

Lemma StronglySorted_impl {A} (R R' : A -> A -> Prop) l :
  (forall x y, R x y -> R' x y) -> StronglySorted R l -> StronglySorted R' l.
Proof. intros HR. induction 1; constructor; [done|]. eapply Forall_impl; eauto. Qed.

(** Lists of options and counting. *)
Lemma NoDup_take {A} (l : list A) n : NoDup l -> NoDup (take n l).
Proof.
  rewrite <- (take_drop n l) at 1. rewrite NoDup_app. naive_solver.
Qed.

Lemma elem_of_take_in {A} (l : list A) n x : x ∈ take n l -> x ∈ l.
Proof. intros (i & H & _)%elem_of_take. by eapply list_elem_of_lookup_2. Qed.

Create HintDb clm discriminated.
#[export] Hint Resolve elem_of_take_in NoDup_take : clm.
