(* ===== verification/GoLib.v ===== *)
(** * The parts of Go's standard library the service uses

    Strings are byte strings ([String.string]); case mapping and white space
    are those of ASCII (the [strings] functions agree with them on ASCII
    input, which is what hostnames, distinguished names, roles and paths are).
    Times are nanoseconds since the Unix epoch in [Z]; a [time.Duration] is a
    64-bit nanosecond count, and [Time.Sub] saturates as Go's does.
    [Duration.Hours] is a binary64 computation, modelled bit for bit with the
    executable floats of [SpecFloat]. *)

From S2P Require Import Prelude.
From Stdlib Require Import Floats.SpecFloat Ascii.

(** ** Package strings *)

Definition ascii_between (lo hi c : ascii) : bool :=
  (N_of_ascii lo <=? N_of_ascii c)%N && (N_of_ascii c <=? N_of_ascii hi)%N.

Definition to_lower_ascii (c : ascii) : ascii :=
  if ascii_between "A" "Z" c then ascii_of_N (N_of_ascii c + 32) else c.

Definition to_upper_ascii (c : ascii) : ascii :=
  if ascii_between "a" "z" c then ascii_of_N (N_of_ascii c - 32) else c.

Fixpoint string_map (f : ascii -> ascii) (s : string) : string :=
  match s with
  | EmptyString => EmptyString
  | String c s' => String (f c) (string_map f s')
  end.

Fixpoint string_forallb (f : ascii -> bool) (s : string) : bool :=
  match s with
  | EmptyString => true
  | String c s' => f c && string_forallb f s'
  end.

Fixpoint string_existsb (f : ascii -> bool) (s : string) : bool :=
  match s with
  | EmptyString => false
  | String c s' => f c || string_existsb f s'
  end.

Definition ToLower := string_map to_lower_ascii.
Definition ToUpper := string_map to_upper_ascii.

Definition EqualFold (s t : string) : bool := String.eqb (ToLower s) (ToLower t).

Definition is_space (c : ascii) : bool :=
  ascii_between (ascii_of_N 9) (ascii_of_N 13) c || Ascii.eqb c " ".

Fixpoint TrimLeft (s : string) : string :=
  match s with
  | EmptyString => EmptyString
  | String c s' => if is_space c then TrimLeft s' else s
  end.

Fixpoint TrimRight (s : string) : string :=
  match s with
  | EmptyString => EmptyString
  | String c s' =>
      match TrimRight s' with
      | EmptyString => if is_space c then EmptyString else String c EmptyString
      | t => String c t
      end
  end.

Definition TrimSpace (s : string) : string := TrimRight (TrimLeft s).

Fixpoint HasPrefix (s p : string) {struct p} : bool :=
  match p, s with
  | EmptyString, _ => true
  | String a p', String b s' => Ascii.eqb a b && HasPrefix s' p'
  | String _ _, EmptyString => false
  end.

(** [s] without its first [n] bytes. *)
Fixpoint string_drop (n : nat) (s : string) : string :=
  match n, s with
  | O, _ => s
  | S n', String _ s' => string_drop n' s'
  | S _, EmptyString => EmptyString
  end.

Fixpoint string_take (n : nat) (s : string) : string :=
  match n, s with
  | O, _ => EmptyString
  | S n', String c s' => String c (string_take n' s')
  | S _, EmptyString => EmptyString
  end.

Definition HasSuffix (s p : string) : bool :=
  let n := String.length s in
  let k := String.length p in
  (k <=? n)%nat && String.eqb (string_drop (n - k) s) p.

Definition TrimPrefix (s p : string) : string :=
  if HasPrefix s p then string_drop (String.length p) s else s.

Definition TrimSuffix (s p : string) : string :=
  if HasSuffix s p then string_take (String.length s - String.length p) s else s.

Fixpoint Contains (s sub : string) : bool :=
  HasPrefix s sub ||
  match s with
  | EmptyString => false
  | String _ s' => Contains s' sub
  end.

(** [strings.Split] on a one-byte separator. *)
Fixpoint Split (s : string) (sep : ascii) : list string :=
  match s with
  | EmptyString => [EmptyString]
  | String c s' =>
      if Ascii.eqb c sep then EmptyString :: Split s' sep
      else match Split s' sep with
           | [] => [String c EmptyString]
           | p :: ps => String c p :: ps
           end
  end.

(** [strings.Cut] on a one-byte separator. *)
Fixpoint Cut (s : string) (sep : ascii) : string * string * bool :=
  match s with
  | EmptyString => (EmptyString, EmptyString, false)
  | String c s' =>
      if Ascii.eqb c sep then (EmptyString, s', true)
      else let '(a, b, ok) := Cut s' sep in (String c a, b, ok)
  end.

(** Number of occurrences of a byte ([strings.Count] on a one-byte string). *)
Fixpoint CountByte (s : string) (c : ascii) : nat :=
  match s with
  | EmptyString => 0
  | String d s' => (if Ascii.eqb c d then 1 else 0) + CountByte s' c
  end%nat.

Fixpoint ReplaceByte (s : string) (old : ascii) (new : string) : string :=
  match s with
  | EmptyString => EmptyString
  | String c s' => if Ascii.eqb c old then (new ++ ReplaceByte s' old new)%string
                   else String c (ReplaceByte s' old new)
  end.

Definition Join (l : list string) (sep : string) : string := String.concat sep l.

Definition is_lower (c : ascii) : bool := ascii_between "a" "z" c.
Definition is_upper (c : ascii) : bool := ascii_between "A" "Z" c.
Definition is_digit (c : ascii) : bool := ascii_between "0" "9" c.
Definition is_alnum (c : ascii) : bool := is_lower c || is_upper c || is_digit c.

(** Go compares strings bytewise. *)
Fixpoint string_lt (s t : string) : bool :=
  match s, t with
  | EmptyString, EmptyString => false
  | EmptyString, String _ _ => true
  | String _ _, EmptyString => false
  | String a s', String b t' =>
      (N_of_ascii a <? N_of_ascii b)%N ||
      ((N_of_ascii a =? N_of_ascii b)%N && string_lt s' t')
  end.

(** Go iterates a map in any order: [order] is the one it takes. *)
Definition map_order {V} (m : gmap string V) (order : list (string * V)) : Prop := order ≡ₚ map_to_list m.

(** Decimal rendering ([fmt] verb %d). *)
Definition Itoa (z : Z) : string := pretty z.

(** [strconv.Quote], of ASCII text. *)
Definition quote_byte (c : ascii) : string :=
  let n := nat_of_ascii c in
  let esc a := String (ascii_of_nat 92) (String a "") in
  let hex d := ascii_of_nat (if (d <? 10)%nat then d + 48 else d + 87)%nat in
  match n with
  | 34 | 92 => esc c
  | 7 => esc "a"%char | 8 => esc "b"%char | 9 => esc "t"%char | 10 => esc "n"%char
  | 11 => esc "v"%char | 12 => esc "f"%char | 13 => esc "r"%char
  | _ => if (n <? 32)%nat || (n =? 127)%nat
         then (esc "x"%char ++ String (hex (n / 16)%nat) (String (hex (n mod 16)%nat) ""))%string
         else String c ""
  end%nat.
Fixpoint quote_body (s : string) : string :=
  match s with EmptyString => EmptyString | String c s' => (quote_byte c ++ quote_body s')%string end.
Definition Quote (s : string) : string :=
  let q := String (ascii_of_nat 34) "" in (q ++ quote_body s ++ q)%string.

(** [io.ReadAll(io.LimitReader(body, n))] *)
Fixpoint limit_bytes (n : N) (s : string) : string :=
  match s with
  | EmptyString => EmptyString
  | String c s' => if N.eqb n 0 then EmptyString else String c (limit_bytes (N.pred n) s')
  end.

(** [url.QueryEscape] *)
Definition query_byte (c : ascii) : string :=
  let hex d := ascii_of_nat (if (d <? 10)%nat then d + 48 else d + 55)%nat in
  if is_alnum c || Ascii.eqb c "-" || Ascii.eqb c "_" || Ascii.eqb c "." || Ascii.eqb c "~" then String c ""
  else if Ascii.eqb c " " then "+"%string
  else let n := nat_of_ascii c in String "%" (String (hex (n / 16)%nat) (String (hex (n mod 16)%nat) "")).
Fixpoint QueryEscape (s : string) : string :=
  match s with EmptyString => EmptyString | String c s' => (query_byte c ++ QueryEscape s')%string end.

(** [strings.ReplaceAll] of a text that is not empty: left to right, not
    overlapping; [skip] bytes of the last match are still to pass. *)
Fixpoint replace_all (old new : string) (skip : nat) (s : string) : string :=
  match s with
  | EmptyString => EmptyString
  | String c s' =>
      match skip with
      | S k => replace_all old new k s'
      | O => if HasPrefix s old then (new ++ replace_all old new (String.length old - 1) s')%string
             else String c (replace_all old new 0 s')
      end
  end.
Definition ReplaceAll (s old new : string) : string := replace_all old new 0 s.

(** ** Lemmas on strings *)

Lemma string_app_cons c s t : (String c s ++ t)%string = String c (s ++ t).
Proof. done. Qed.
Lemma string_app_nil t : (EmptyString ++ t)%string = t.
Proof. done. Qed.

Lemma string_app_inj_l p s t : (p ++ s)%string = (p ++ t)%string -> s = t.
Proof. induction p as [|c p IH]; [done|]. rewrite !string_app_cons. intros [= E]. by apply IH. Qed.

Lemma string_length_app s t :
  String.length (s ++ t) = (String.length s + String.length t)%nat.
Proof. induction s as [|c s IH]; [done|]. rewrite string_app_cons. simpl. by rewrite IH. Qed.

Lemma string_forallb_app f s t :
  string_forallb f (s ++ t)%string = string_forallb f s && string_forallb f t.
Proof. induction s as [|c s IH]; simpl; [done|]. by rewrite IH, andb_assoc. Qed.

Lemma string_forallb_impl (f g : ascii -> bool) s :
  (forall c, f c = true -> g c = true) -> string_forallb f s = true -> string_forallb g s = true.
Proof. intros H; induction s; simpl; [done|]. rewrite !andb_true_iff. naive_solver. Qed.

Lemma string_existsb_forallb f s :
  string_existsb f s = negb (string_forallb (fun c => negb (f c)) s).
Proof. induction s as [|c s IH]; simpl; [done|]. rewrite IH. by destruct (f c). Qed.

Lemma HasPrefix_spec s p : HasPrefix s p = true <-> exists t, s = (p ++ t)%string.
Proof.
  revert s; induction p as [|a p IH]; intros s; simpl.
  - split; [by exists s|]. by destruct s.
  - destruct s as [|b s]; [split; [done|]; by intros [? ?]|].
    simpl. rewrite andb_true_iff, Ascii.eqb_eq, IH. split.
    + by intros [-> [t ->]]; exists t.
    + intros [t [= -> ->]]. eauto.
Qed.

Lemma string_app_empty_r s : (s ++ EmptyString)%string = s.
Proof. induction s as [|a s IH]; [done|]. rewrite string_app_cons. by rewrite IH. Qed.

Lemma string_app_assoc s t u : ((s ++ t) ++ u = s ++ (t ++ u))%string.
Proof. induction s as [|a s IH]; [done|]. rewrite !string_app_cons. by rewrite IH. Qed.

Lemma string_drop_app s t : string_drop (String.length s) (s ++ t) = t.
Proof. induction s as [|a s IH]; [done|]. exact IH. Qed.

Lemma string_take_drop n s : (string_take n s ++ string_drop n s)%string = s.
Proof. revert s; induction n as [|n IH]; intros [|a s]; try done. simpl. rewrite string_app_cons. by rewrite IH. Qed.

Lemma string_length_drop n s : String.length (string_drop n s) = (String.length s - n)%nat.
Proof. revert s; induction n as [|n IH]; intros [|a s]; simpl; try lia. apply IH. Qed.

Lemma HasSuffix_spec s p : HasSuffix s p = true <-> exists t, s = (t ++ p)%string.
Proof.
  unfold HasSuffix. rewrite andb_true_iff, Nat.leb_le, String.eqb_eq. split.
  - intros [_ E]. exists (string_take (String.length s - String.length p) s).
    pose proof (string_take_drop (String.length s - String.length p) s) as H. by rewrite E in H.
  - intros [t ->]. rewrite string_length_app. split; [lia|].
    replace (String.length t + String.length p - String.length p)%nat with (String.length t) by lia.
    apply string_drop_app.
Qed.

(** *** Reversal turns suffixes into prefixes *)

Fixpoint string_rev (s : string) : string :=
  match s with
  | EmptyString => EmptyString
  | String a s' => (string_rev s' ++ String a EmptyString)%string
  end.

Lemma string_rev_app s t : string_rev (s ++ t) = (string_rev t ++ string_rev s)%string.
Proof.
  induction s as [|a s IH]; [by rewrite string_app_nil, string_app_empty_r|].
  rewrite string_app_cons. cbn [string_rev]. by rewrite IH, string_app_assoc.
Qed.

Lemma string_rev_involutive s : string_rev (string_rev s) = s.
Proof.
  induction s as [|a s IH]; [done|]. cbn [string_rev]. rewrite string_rev_app, IH. done.
Qed.

Lemma HasSuffix_rev s p : HasSuffix s p = HasPrefix (string_rev s) (string_rev p).
Proof.
  apply eq_bool_prop_intro. rewrite !Is_true_true, HasSuffix_spec, HasPrefix_spec. split.
  - intros [t ->]. exists (string_rev t). apply string_rev_app.
  - intros [t E]. exists (string_rev t).
    by rewrite <- (string_rev_involutive s), E, string_rev_app, !string_rev_involutive.
Qed.

(** No white space around. *)
Definition trimmed (s : string) : Prop := TrimLeft s = s /\ TrimRight s = s.

Lemma TrimSpace_trimmed s : trimmed s -> TrimSpace s = s.
Proof. intros [E1 E2]. unfold TrimSpace. by rewrite E1. Qed.

Lemma TrimPrefix_app p s : TrimPrefix (p ++ s) p = s.
Proof.
  unfold TrimPrefix. rewrite (proj2 (HasPrefix_spec _ _)) by eauto. apply string_drop_app.
Qed.

Lemma Contains_byte s a : Contains s (String a "") = string_existsb (Ascii.eqb a) s.
Proof. induction s as [|b s IH]; simpl; [done|]. rewrite IH. destruct s; by rewrite ?andb_true_r. Qed.

(** A byte every occurrence of which is excluded cannot occur in a substring. *)
Lemma Contains_forallb f s a sub :
  string_forallb f s = true -> f a = false -> Contains s (String a sub) = false.
Proof.
  intros Hs Ha. induction s as [|c s IH]; simpl; [done|].
  simpl in Hs. b2p. destruct Hs as [Hc Hs]. rewrite (IH Hs), orb_false_r.
  apply andb_false_iff. left. apply Ascii.eqb_neq. congruence.
Qed.

Lemma string_lt_irrefl s : string_lt s s = false.
Proof. induction s as [|c s IH]; simpl; [done|]. by rewrite IH, N.ltb_irrefl, andb_false_r. Qed.

Lemma string_lt_asym s t : string_lt s t = true -> string_lt t s = false.
Proof.
  revert t; induction s as [|a s IH]; intros [|b t]; simpl; try done.
  rewrite orb_true_iff, andb_true_iff, orb_false_iff, andb_false_iff.
  rewrite !N.ltb_lt, !N.ltb_ge, !N.eqb_eq, !N.eqb_neq. intros [H|[H1 H2]].
  - split; [lia|left; lia].
  - split; [lia|right; auto].
Qed.

Lemma string_lt_total s t : string_lt s t = false -> string_lt t s = false -> s = t.
Proof.
  revert t; induction s as [|a s IH]; intros [|b t]; simpl; try done.
  rewrite !orb_false_iff, !andb_false_iff, !N.ltb_ge, !N.eqb_neq.
  intros [H1 H2] [H3 H4]. assert (N_of_ascii a = N_of_ascii b) as E by lia.
  rewrite <- (ascii_N_embedding a), <- (ascii_N_embedding b), E.
  f_equal. apply IH; [destruct H2|destruct H4]; auto; congruence.
Qed.

Lemma string_lt_trans s t u : string_lt s t = true -> string_lt t u = true -> string_lt s u = true.
Proof.
  revert t u; induction s as [|a s IH]; intros [|b t] [|c u]; simpl; try done.
  rewrite !orb_true_iff, !andb_true_iff, !N.ltb_lt, !N.eqb_eq.
  intros [H|[H1 H2]] [G|[G1 G2]]; [left; lia|left; lia|left; lia|].
  right. split; [lia|eauto].
Qed.

#[export] Instance string_lt_sw : StrictWeak string_lt.
Proof.
  split; [apply string_lt_asym|]. intros x y z Hxy Hyz.
  destruct (string_lt x z) eqn:E; [|done].
  destruct (string_lt y x) eqn:Eyx.
  - by rewrite (string_lt_trans _ _ _ Eyx E) in Hyz.
  - by rewrite (string_lt_total _ _ Hxy Eyx), Hyz in E.
Qed.

(** *** Comparisons built from keys *)

#[export] Instance image_sw {A B} (f : A -> B) (less : B -> B -> bool) `{!StrictWeak less} :
  StrictWeak (fun a b => less (f a) (f b)).
Proof. split; [intros x y; apply (sw_asym less)|]. intros x y z H1 H2. by eapply (sw_negtrans less). Qed.

#[export] Instance flip_sw {A} (less : A -> A -> bool) `{!StrictWeak less} : StrictWeak (fun a b => less b a).
Proof. split; [intros x y; apply (sw_asym less)|]. intros x y z H1 H2. by eapply (sw_negtrans less). Qed.

#[export] Instance Zltb_sw : StrictWeak Z.ltb.
Proof. split; intros *; rewrite ?Z.ltb_lt, ?Z.ltb_ge; lia. Qed.

(** A number first, then another comparison:
    [if f a != f b { return f a < f b }; return less a b]. *)
Definition rank_then {A} (f : A -> Z) (less : A -> A -> bool) (a b : A) : bool :=
  if negb (f a =? f b) then f a <? f b else less a b.
#[export] Instance rank_then_sw {A} (f : A -> Z) (less : A -> A -> bool) `{!StrictWeak less} :
  StrictWeak (rank_then f less).
Proof.
  unfold rank_then. split.
  - intros x y. rewrite (Z.eqb_sym (f y)). destruct (Z.eqb_spec (f x) (f y)); simpl; [apply (sw_asym less)|].
    rewrite Z.ltb_lt, Z.ltb_ge. lia.
  - intros x y z. destruct (Z.eqb_spec (f x) (f y)), (Z.eqb_spec (f y) (f z)), (Z.eqb_spec (f x) (f z)); simpl;
      rewrite ?Z.ltb_ge; try lia. intros H1 H2. by eapply (sw_negtrans less).
Qed.

(** A string first. *)
Definition key_then {A} (f : A -> string) (less : A -> A -> bool) (a b : A) : bool :=
  if negb (String.eqb (f a) (f b)) then string_lt (f a) (f b) else less a b.
#[export] Instance key_then_sw {A} (f : A -> string) (less : A -> A -> bool) `{!StrictWeak less} :
  StrictWeak (key_then f less).
Proof.
  unfold key_then. split.
  - intros x y. rewrite (String.eqb_sym (f y)). destruct (String.eqb_spec (f x) (f y)); simpl; [apply (sw_asym less)|].
    apply string_lt_asym.
  - intros x y z. destruct (String.eqb_spec (f x) (f y)) as [Exy|Nxy], (String.eqb_spec (f y) (f z)) as [Eyz|Nyz],
      (String.eqb_spec (f x) (f z)) as [Exz|Nxz]; simpl; rewrite ?Exy, ?Eyz; try congruence; [intros H1 H2; by eapply (sw_negtrans less)| |].
    + intros H1 H2. rewrite <- Exz in H2. exfalso. by apply Nxy, string_lt_total.
    + intros H1 H2. by eapply (sw_negtrans string_lt).
Qed.

(** ** Package time

    [Time.Before], [Time.After] are [Z.ltb]; [Time.Add] is addition. *)

Abbreviation time := Z (only parsing).
Abbreviation duration := Z (only parsing).

Definition Nanosecond : duration := 1.
Definition Millisecond : duration := 1000000.
Definition Second : duration := 1000 * Millisecond.
Definition Minute : duration := 60 * Second.
Definition Hour : duration := 60 * Minute.

(** The zero [time.Time] is 1 January of year 1. *)
Definition zero_time : time := -62135596800 * Second.
Definition IsZero (t : time) : bool := t =? zero_time.

Definition max_int64 : Z := 2 ^ 63 - 1.
Definition min_int64 : Z := - 2 ^ 63.

(** [t.Sub(u)] saturates. *)
Definition time_sub (t u : time) : duration :=
  Z.max min_int64 (Z.min max_int64 (t - u)).

(** *** [Duration.Hours] and the float conversions around it *)

Definition float64 := spec_float.
Definition f64_of_Z (z : Z) : float64 := binary_normalize 53 1024 z 0 false.
Definition f64_add : float64 -> float64 -> float64 := SFadd 53 1024.
Definition f64_div : float64 -> float64 -> float64 := SFdiv 53 1024.

(** [d.Hours()]: [float64(d/Hour) + float64(d%Hour)/(60*60*1e9)]. *)
Definition Hours (d : duration) : float64 :=
  f64_add (f64_of_Z (Z.quot d Hour)) (f64_div (f64_of_Z (Z.rem d Hour)) (f64_of_Z Hour)).


(** [int(x)]: truncation towards zero. *)
Definition f64_trunc (x : float64) : Z :=
  match x with
  | S754_finite s m e =>
      let v := if 0 <=? e then Z.pos m * 2 ^ e else Z.pos m / 2 ^ (- e) in
      if s then - v else v
  | _ => 0
  end.

(** [int(math.Ceil(x))]. *)
Definition f64_ceil (x : float64) : Z :=
  match x with
  | S754_finite s m e =>
      let sm := if s then Z.neg m else Z.pos m in
      if 0 <=? e then sm * 2 ^ e else - ((- sm) / 2 ^ (- e))
  | _ => 0
  end.

(** [int(d.Hours() / 24)]. *)
Definition whole_days (d : duration) : Z := f64_trunc (f64_div (Hours d) (f64_of_Z 24)).

(** [int(math.Ceil(d.Hours() / 24))]. *)
Definition ceil_days (d : duration) : Z := f64_ceil (f64_div (Hours d) (f64_of_Z 24)).

Example whole_days_examples :
  map whole_days [0; 24 * Hour - Second; 24 * Hour; 30 * 24 * Hour + Hour; - (25 * Hour); - Hour]
  = [0; 0; 1; 30; -1; 0].
Proof. vm_compute. reflexivity. Qed.

Example ceil_days_examples :
  map ceil_days [47 * 24 * Hour; 47 * 24 * Hour + Second] = [47; 48].
Proof. vm_compute. reflexivity. Qed.

(** Times print in RFC 3339 with whole seconds. *)
Definition truncate_second (t : time) : time := t - t mod Second.

Lemma truncate_second_le t : truncate_second t <= t < truncate_second t + Second.
Proof.
  unfold truncate_second. pose proof (Z.mod_pos_bound t Second eq_refl). lia.
Qed.
