(* ===== verification/Records.v ===== *)
(** * Record update

    [x <| field := v |>] for every record type with an [Eta] instance, which
    lists the record's fields once.  The updater of a field is found by type
    class search from the eta expansion. *)

From S2P Require Import Prelude.

(** The eta expansion [fun x => Build (f1 x) ... (fn x)] of a record type. *)
Class Eta (R : Type) := eta_expand : R -> R.

(** How one field of a record is updated. *)
Class Update {R T : Type} (proj : R -> T) := upd : (T -> T) -> R -> R.
#[global] Arguments upd {R T} proj {Update} f r.

Ltac eta_body e :=
  lazymatch e with
  | ?f _ => eta_body f
  | ?f => eval unfold f in e
  end.

Ltac build_update :=
  lazymatch goal with
  | |- @Update ?R ?T ?proj =>
      let inst := constr:(ltac:(typeclasses eauto) : Eta R) in
      let body := eta_body inst in
      lazymatch (eval pattern proj in body) with
      | ?abs _ => exact (fun (f : T -> T) (r : R) => abs (fun r' => f (proj r')) r)
      end
  end.

#[global] Hint Extern 0 (Update _) => build_update : typeclass_instances.

Notation "x <| proj := v |>" := (upd proj (fun _ => v) x)
  (at level 1, left associativity, proj at level 9, v at level 99,
   format "x  <|  proj  :=  v  |>").
Notation "x <| proj ::= f |>" := (upd proj f x)
  (at level 1, left associativity, proj at level 9, f at level 99,
   format "x  <|  proj  ::=  f  |>").
