(* ===== verification/Db.v ===== *)
(** * The Postgres store: data, database and effects

    The row types of [internal/store], the database as a record of tables, and
    the effects of a store call.  A call runs at a clock reading and may fail:
    the environment decides, call by call, how long the call takes and whether
    it fails before or after its transaction commits, so that every error path
    of the callers can be reached.  [NOW()] and [time.Now] read one clock. *)

From S2P Require Import Prelude GoLib.
From S2P Require Export Records.

(** A UUID is its canonical text. *)
Abbreviation uuid := string (only parsing).

(** JSON values ([JSONB] columns and [json.RawMessage]); [JTime t] is the RFC
    3339 string of [t], with its nanoseconds. *)
Inductive json :=
| JNull
| JBool (b : bool)
| JNum (z : Z)
| JStr (s : string)
| JTime (t : time)
| JArr (l : list json)
| JObj (l : list (string * json)).

(** ** Enumerated columns *)

(** [cert_status] *)
Inductive CertStatus := StatusValid | StatusExpiringSoon | StatusExpired | StatusRevoked.
(** [chain_status] *)
Inductive ChainStatus := ChainComplete | ChainSelfSigned | ChainIncomplete | ChainUntrustedRoot.
(** [managed_status] *)
Inductive ManagedStatus := managed_in_vault | unmanaged | imported.
(** [cert_scope] *)
Inductive CertScope := ScopeInternal | ScopeExternal.
(** [scan_status] *)
Inductive ScanStatus := scan_pending | scan_running | scan_completed | scan_failed.
(** [pqc_tag] *)
Inductive PQCTag := PQCTagClassic | PQCTagHybrid | PQCTagPQC | PQCTagUnknown.

(** The statuses the check constraint of [lifecycle_jobs] admits. *)
Inductive JobStatus :=
| LifecyclePendingApproval
| LifecycleLaunching
| LifecycleAAPPending
| LifecycleAAPRunning
| LifecycleAAPSuccessful
| LifecycleVerifying
| LifecyclePendingVerify
| LifecycleVerified
| LifecycleVerifyFailed
| LifecycleTimedOut
| LifecycleFailed.

#[export] Instance CertStatus_eq_dec : EqDecision CertStatus.
Proof. solve_decision. Defined.
#[export] Instance ChainStatus_eq_dec : EqDecision ChainStatus.
Proof. solve_decision. Defined.
#[export] Instance ManagedStatus_eq_dec : EqDecision ManagedStatus.
Proof. solve_decision. Defined.
#[export] Instance CertScope_eq_dec : EqDecision CertScope.
Proof. solve_decision. Defined.
#[export] Instance ScanStatus_eq_dec : EqDecision ScanStatus.
Proof. solve_decision. Defined.
#[export] Instance PQCTag_eq_dec : EqDecision PQCTag.
Proof. solve_decision. Defined.
#[export] Instance JobStatus_eq_dec : EqDecision JobStatus.
Proof. solve_decision. Defined.

Definition cert_status_text (s : CertStatus) : string :=
  match s with
  | StatusValid => "valid"
  | StatusExpiringSoon => "expiring_soon"
  | StatusExpired => "expired"
  | StatusRevoked => "revoked"
  end.

Definition chain_status_text (s : ChainStatus) : string :=
  match s with
  | ChainComplete => "complete" | ChainIncomplete => "incomplete" | ChainUntrustedRoot => "untrusted_root"
  | ChainSelfSigned => "self_signed"
  end.

Definition pqc_text (t : PQCTag) : string :=
  match t with
  | PQCTagClassic => "classic" | PQCTagHybrid => "hybrid" | PQCTagPQC => "pqc" | PQCTagUnknown => "unknown"
  end.

Definition managed_status_text (s : ManagedStatus) : string :=
  match s with
  | managed_in_vault => "managed_in_vault"
  | unmanaged => "unmanaged"
  | imported => "imported"
  end.

Definition cert_scope_text (s : CertScope) : string :=
  match s with ScopeInternal => "internal" | ScopeExternal => "external" end.

(** ** Rows *)

(** [store.RenewalConfig]: the Vault PKI coordinates of Mode C renewal. *)
Record RenewalConfig := Build_RenewalConfig {
  rc_Role : string;
  rc_Mount : string;
  rc_Service : string;
  rc_TargetHosts : string;
  rc_TTL : string;
  rc_AltNames : string
}.
#[export] Instance RenewalConfig_eta : Eta RenewalConfig := fun x =>
  Build_RenewalConfig (x.(rc_Role)) (x.(rc_Mount)) (x.(rc_Service)) (x.(rc_TargetHosts))
    (x.(rc_TTL)) (x.(rc_AltNames)).

#[export] Instance RenewalConfig_eq_dec : EqDecision RenewalConfig.
Proof. solve_decision. Defined.

(** [store.RiskReason]: one contributor to [risk_score]. *)
Record RiskReason := Build_RiskReason {
  rr_RuleID : string;
  rr_Pack : string;
  rr_Severity : string;
  rr_Title : string;
  rr_Score : Z;
  rr_Waived : bool
}.
#[export] Instance RiskReason_eta : Eta RiskReason := fun x =>
  Build_RiskReason (x.(rr_RuleID)) (x.(rr_Pack)) (x.(rr_Severity)) (x.(rr_Title))
    (x.(rr_Score)) (x.(rr_Waived)).

(** [store.Certificate]: a row of [certificates].  [ObservationCount] is a
    subquery over the observations, [obs_count] below; [remediation_state] is
    written by no code. *)
Record Certificate := Build_Certificate {
  c_ID : uuid;
  c_SerialNumber : string;
  c_FingerprintSHA256 : string;
  c_SubjectCN : option string;
  c_SubjectAltNames : list string;
  c_IssuerDN : string;
  c_AuthorityKeyID : option string;
  c_NotBefore : time;
  c_NotAfter : time;
  c_KeyType : string;
  c_KeyBits : Z;
  c_SignatureAlgorithm : string;
  c_IsCA : bool;
  c_KeyUsage : list string;
  c_ExtKeyUsage : list string;
  c_PEM : string;
  c_DaysUntilExpiry : Z;
  c_Status : CertStatus;
  c_RevocationStatus : option string;
  c_RevocationCheckedAt : option time;
  c_CRLDistributionPoints : list string;
  c_OCSPServers : list string;
  c_FirstDiscovered : time;
  c_LastSeen : time;
  c_HostnameMatchesSAN : bool;
  c_ChainStatus : ChainStatus;
  c_ManagedStatus : ManagedStatus;
  c_CertScope : CertScope;
  c_VaultIssuerRef : option string;
  c_VaultPKIMount : option string;
  c_Owner : option string;
  c_Team : option string;
  c_Environment : option string;
  c_Tags : list string;
  c_RiskScore : Z;
  c_RiskReasons : list RiskReason;
  c_PQCTag : PQCTag;
  c_RenewalConfig : option RenewalConfig;
  c_CreatedAt : time;
  c_UpdatedAt : time
}.
#[export] Instance Certificate_eta : Eta Certificate := fun x =>
  Build_Certificate (x.(c_ID)) (x.(c_SerialNumber)) (x.(c_FingerprintSHA256))
    (x.(c_SubjectCN)) (x.(c_SubjectAltNames)) (x.(c_IssuerDN))
    (x.(c_AuthorityKeyID)) (x.(c_NotBefore)) (x.(c_NotAfter))
    (x.(c_KeyType)) (x.(c_KeyBits)) (x.(c_SignatureAlgorithm)) (x.(c_IsCA))
    (x.(c_KeyUsage)) (x.(c_ExtKeyUsage)) (x.(c_PEM))
    (x.(c_DaysUntilExpiry)) (x.(c_Status)) (x.(c_RevocationStatus))
    (x.(c_RevocationCheckedAt)) (x.(c_CRLDistributionPoints))
    (x.(c_OCSPServers)) (x.(c_FirstDiscovered)) (x.(c_LastSeen))
    (x.(c_HostnameMatchesSAN)) (x.(c_ChainStatus)) (x.(c_ManagedStatus))
    (x.(c_CertScope)) (x.(c_VaultIssuerRef)) (x.(c_VaultPKIMount))
    (x.(c_Owner)) (x.(c_Team)) (x.(c_Environment)) (x.(c_Tags))
    (x.(c_RiskScore)) (x.(c_RiskReasons)) (x.(c_PQCTag))
    (x.(c_RenewalConfig)) (x.(c_CreatedAt)) (x.(c_UpdatedAt)).

(** [store.Observation]: a row of [certificate_observations]. *)
Record Observation := Build_Observation {
  o_CertificateID : uuid;
  o_ScanID : uuid;
  o_IP : string;
  o_Port : Z;
  o_Hostname : option string;
  o_SNI : option string;
  o_TLSVersion : option string;
  o_CipherSuite : option string;
  o_ObservedAt : time
}.
#[export] Instance Observation_eta : Eta Observation := fun x =>
  Build_Observation (x.(o_CertificateID)) (x.(o_ScanID)) (x.(o_IP)) (x.(o_Port))
    (x.(o_Hostname)) (x.(o_SNI)) (x.(o_TLSVersion)) (x.(o_CipherSuite))
    (x.(o_ObservedAt)).

(** [store.Event]: a row of the outbox [events], with its claim columns. *)
Record Event := Build_Event {
  e_ID : uuid;
  e_EventType : string;
  e_CertificateID : option uuid;
  e_Payload : json;
  e_CreatedAt : time;
  e_DeliveredAt : option time;
  e_Attempts : Z;
  e_LastError : option string;
  e_LeaseOwner : option string;
  e_LeaseExpiresAt : option time
}.
#[export] Instance Event_eta : Eta Event := fun x =>
  Build_Event (x.(e_ID)) (x.(e_EventType)) (x.(e_CertificateID)) (x.(e_Payload))
    (x.(e_CreatedAt)) (x.(e_DeliveredAt)) (x.(e_Attempts))
    (x.(e_LastError)) (x.(e_LeaseOwner)) (x.(e_LeaseExpiresAt)).

(** [store.LifecycleJob]: a row of [lifecycle_jobs]. *)
Record LifecycleJob := Build_LifecycleJob {
  j_ID : uuid;
  j_Kind : string;
  j_Status : JobStatus;
  j_PredecessorCertID : option uuid;
  j_SuccessorCertID : option uuid;
  j_AAPJobID : option Z;
  j_AAPWorkflow : bool;
  j_IdempotencyKey : string;
  j_Expected : json;
  j_Observed : json;
  j_FailureReason : option string;
  j_LeaseOwner : option string;
  j_LeaseExpiresAt : option time;
  j_NextVerifyAt : option time;
  j_TimeoutAt : time;
  j_VerifyAttempt : Z;
  j_CreatedAt : time;
  j_UpdatedAt : time
}.
#[export] Instance LifecycleJob_eta : Eta LifecycleJob := fun x =>
  Build_LifecycleJob (x.(j_ID)) (x.(j_Kind)) (x.(j_Status)) (x.(j_PredecessorCertID))
    (x.(j_SuccessorCertID)) (x.(j_AAPJobID)) (x.(j_AAPWorkflow))
    (x.(j_IdempotencyKey)) (x.(j_Expected)) (x.(j_Observed))
    (x.(j_FailureReason)) (x.(j_LeaseOwner)) (x.(j_LeaseExpiresAt))
    (x.(j_NextVerifyAt)) (x.(j_TimeoutAt)) (x.(j_VerifyAttempt))
    (x.(j_CreatedAt)) (x.(j_UpdatedAt)).

(** [store.LifecycleJobEvent]: an append-only timeline row (its id is read by
    no code). *)
Record LifecycleJobEvent := Build_LifecycleJobEvent {
  je_JobID : uuid;
  je_EventType : string;
  je_Payload : json;
  je_CreatedAt : time
}.
#[export] Instance LifecycleJobEvent_eta : Eta LifecycleJobEvent := fun x =>
  Build_LifecycleJobEvent (x.(je_JobID)) (x.(je_EventType)) (x.(je_Payload)) (x.(je_CreatedAt)).

(** A row of [lifecycle_approvals]. *)
Record Approval := Build_Approval {
  ap_JobID : uuid;
  ap_Actor : string;
  ap_Decision : string
}.
#[export] Instance Approval_eta : Eta Approval := fun x =>
  Build_Approval (x.(ap_JobID)) (x.(ap_Actor)) (x.(ap_Decision)).

(** [store.TargetFailureSample]. *)
Record TargetFailureSample := Build_TargetFailureSample {
  fs_IP : string;
  fs_Port : Z;
  fs_Hostname : string;
  fs_SNI : string;
  fs_Reason : string;
  fs_Kind : string
}.
#[export] Instance TargetFailureSample_eta : Eta TargetFailureSample := fun x =>
  Build_TargetFailureSample (x.(fs_IP)) (x.(fs_Port)) (x.(fs_Hostname)) (x.(fs_SNI))
    (x.(fs_Reason)) (x.(fs_Kind)).

(** [store.Scan]: a row of [scans]. *)
Record Scan := Build_Scan {
  s_ID : uuid;
  s_Source : string;
  s_Status : ScanStatus;
  s_CIDRs : list string;
  s_Hostnames : list string;
  s_Ports : list Z;
  s_Concurrency : Z;
  s_StartedAt : option time;
  s_FinishedAt : option time;
  s_TargetsTotal : Z;
  s_TargetsScanned : Z;
  s_TargetsSucceeded : Z;
  s_TargetsFailed : Z;
  s_CertsFound : Z;
  s_UpsertFailures : Z;
  s_ExpansionWarnings : list string;
  s_FailureSamples : list TargetFailureSample;
  s_Error : option string;
  s_ClaimedBy : option string;
  s_ClaimedAt : option time;
  s_CreatedAt : time
}.
#[export] Instance Scan_eta : Eta Scan := fun x =>
  Build_Scan (x.(s_ID)) (x.(s_Source)) (x.(s_Status)) (x.(s_CIDRs))
    (x.(s_Hostnames)) (x.(s_Ports)) (x.(s_Concurrency)) (x.(s_StartedAt))
    (x.(s_FinishedAt)) (x.(s_TargetsTotal)) (x.(s_TargetsScanned))
    (x.(s_TargetsSucceeded)) (x.(s_TargetsFailed)) (x.(s_CertsFound))
    (x.(s_UpsertFailures)) (x.(s_ExpansionWarnings)) (x.(s_FailureSamples))
    (x.(s_Error)) (x.(s_ClaimedBy)) (x.(s_ClaimedAt)) (x.(s_CreatedAt)).

(** [store.FindingRow]; [f_Open] is [status = 'open'] (the column is 'open' or
    'resolved'), and the primary key is the unique [(cert_id, rule_id)]. *)
Record FindingRow := Build_FindingRow {
  f_CertID : uuid;
  f_RuleID : string;
  f_Pack : string;
  f_Severity : string;
  f_Title : string;
  f_Detail : string;
  f_Open : bool;
  f_PolicyVersionID : option uuid;
  f_Waived : bool;
  f_FirstSeenAt : time;
  f_LastSeenAt : time;
  f_ResolvedAt : option time
}.
#[export] Instance FindingRow_eta : Eta FindingRow := fun x =>
  Build_FindingRow (x.(f_CertID)) (x.(f_RuleID)) (x.(f_Pack)) (x.(f_Severity))
    (x.(f_Title)) (x.(f_Detail)) (x.(f_Open)) (x.(f_PolicyVersionID))
    (x.(f_Waived)) (x.(f_FirstSeenAt)) (x.(f_LastSeenAt))
    (x.(f_ResolvedAt)).

(** [store.Waiver]. *)
Record Waiver := Build_Waiver {
  w_ID : uuid;
  w_CertID : uuid;
  w_RuleID : string;
  w_Reason : string;
  w_CreatedBy : string;
  w_ExpiresAt : time;
  w_CreatedAt : time;
  w_RevokedAt : option time
}.
#[export] Instance Waiver_eta : Eta Waiver := fun x =>
  Build_Waiver (x.(w_ID)) (x.(w_CertID)) (x.(w_RuleID)) (x.(w_Reason))
    (x.(w_CreatedBy)) (x.(w_ExpiresAt)) (x.(w_CreatedAt)) (x.(w_RevokedAt)).

(** [store.Issuer]: a row of [issuers]. *)
Record Issuer := Build_Issuer {
  iss_ID : uuid;
  iss_FingerprintSHA256 : string;
  iss_SerialNumber : string;
  iss_SubjectCN : option string;
  iss_IssuerDN : string;
  iss_NotBefore : time;
  iss_NotAfter : time;
  iss_KeyType : string;
  iss_KeyBits : Z;
  iss_IsCA : bool;
  iss_PEM : string;
  iss_DaysUntilExpiry : Z;
  iss_Status : CertStatus;
  iss_IssuerName : option string;
  iss_IssuerID : option string;
  iss_CAChain : list string;
  iss_VaultIssuerRef : option string;
  iss_VaultPKIMount : option string
}.
#[export] Instance Issuer_eta : Eta Issuer := fun x =>
  Build_Issuer (x.(iss_ID)) (x.(iss_FingerprintSHA256)) (x.(iss_SerialNumber))
    (x.(iss_SubjectCN)) (x.(iss_IssuerDN)) (x.(iss_NotBefore)) (x.(iss_NotAfter))
    (x.(iss_KeyType)) (x.(iss_KeyBits)) (x.(iss_IsCA)) (x.(iss_PEM))
    (x.(iss_DaysUntilExpiry)) (x.(iss_Status)) (x.(iss_IssuerName)) (x.(iss_IssuerID))
    (x.(iss_CAChain)) (x.(iss_VaultIssuerRef)) (x.(iss_VaultPKIMount)).

(** ** [connections]: the settings an operator stored for Vault, AAP and the
    EDA webhook; [secrets_enc] is the sealed secrets, empty when there are none *)
Record Connection := Build_Connection {
  cn_Target : string;
  cn_Metadata : json;
  cn_SecretsEnc : string;
  cn_SecretsSet : bool;
  cn_Source : string;
  cn_UpdatedAt : time;
  cn_UpdatedBy : string
}.
#[export] Instance Connection_eta : Eta Connection := fun x =>
  Build_Connection (x.(cn_Target)) (x.(cn_Metadata)) (x.(cn_SecretsEnc)) (x.(cn_SecretsSet))
    (x.(cn_Source)) (x.(cn_UpdatedAt)) (x.(cn_UpdatedBy)).

(** The database: one finite map per keyed table, a list per append-only
    table.  [gen] counts the identifiers handed out. *)
Record DB := Build_DB {
  certificates : gmap uuid Certificate;
  observations : list Observation;
  events : gmap uuid Event;
  lifecycle_jobs : gmap uuid LifecycleJob;
  lifecycle_job_events : list LifecycleJobEvent;
  lifecycle_approvals : list Approval;
  scans : gmap uuid Scan;
  findings : gmap (uuid * string) FindingRow;
  waivers : gmap uuid Waiver;
  issuers : gmap uuid Issuer;
  connections : gmap string Connection;
  gen : nat
}.
#[export] Instance DB_eta : Eta DB := fun x =>
  Build_DB (x.(certificates)) (x.(observations)) (x.(events)) (x.(lifecycle_jobs))
    (x.(lifecycle_job_events)) (x.(lifecycle_approvals)) (x.(scans))
    (x.(findings)) (x.(waivers)) (x.(issuers)) (x.(connections)) (x.(gen)).


(** ** Errors

    The sentinel errors callers compare with [errors.Is], other errors by
    their text, and the failure of the database itself. *)
Inductive error :=
| ErrScanNotFound
| ErrCertificateNotFound
| ErrIssuerNotFound
| ErrScanQueueFull
| ErrLifecycleAAPRefConflict
| ErrLifecycleJobNotFound
| ErrLifecycleIdempotencyConflict
| ErrManagedByVault
| ErrWaiverNotFound
| ErrWaiverExpired
| ErrConnectionsKeyMissing
| ErrDatabase
| ErrMsg (msg : string).

#[export] Instance error_eq_dec : EqDecision error.
Proof. solve_decision. Defined.

Abbreviation res := (result error).

(** [err.Error()], as far as the store records it. *)
Definition error_text (e : error) : string :=
  match e with
  | ErrScanNotFound => "scan not found"
  | ErrCertificateNotFound => "certificate not found"
  | ErrIssuerNotFound => "issuer not found"
  | ErrScanQueueFull => "scan queue full"
  | ErrLifecycleAAPRefConflict => "lifecycle job aap_job_id conflict"
  | ErrLifecycleJobNotFound => "lifecycle job not found"
  | ErrLifecycleIdempotencyConflict => "lifecycle job idempotency conflict"
  | ErrManagedByVault => "certificate is managed in vault"
  | ErrWaiverNotFound => "waiver not found"
  | ErrWaiverExpired => "waiver expired"
  | ErrConnectionsKeyMissing => "connections encryption key missing or invalid"
  | ErrDatabase => "database error"
  | ErrMsg m => m
  end.

(** [gen_random_uuid()] of Postgres: the identifier of the n-th request.  An
    INSERT checks it against the primary key, so nothing else is assumed. *)
Class UuidGen := gen_random_uuid : nat -> uuid.

(** ** Effects *)

(** How one call of the environment ends: it may fail before its effect (the
    transaction rolled back) or after it (committed, reply lost). *)
Inductive fault := NoFault | FailBefore | FailAfter.

(** One step of the environment: how long the call takes, how it ends, which
    rows other transactions hold locked meanwhile, and what the other replicas
    and requests committed to the database before it took effect. *)
Record envstep := {
  es_delay : N;
  es_fault : fault;
  es_locked : gset uuid;
  es_others : DB -> DB
}.
Definition calm : envstep :=
  {| es_delay := 0; es_fault := NoFault; es_locked := ∅; es_others := id |}.

(** The services the program calls. *)
Inductive service := SvcEDA | SvcITSM | SvcAAPLaunch | SvcAAPWait | SvcAAPRevoke | SvcAAP | SvcVault | SvcRevocation | SvcAzure.
#[export] Instance service_eq_dec : EqDecision service.
Proof. solve_decision. Defined.

(** A call to one of them: on whose behalf, and what was sent. *)
Record netcall := { nc_service : service; nc_subject : uuid; nc_body : json }.

Record World := Build_World {
  w_db : DB;
  w_clock : time;
  w_env : list envstep;
  w_sent : list netcall
}.
#[export] Instance World_eta : Eta World := fun w =>
  Build_World (w.(w_db)) (w.(w_clock)) (w.(w_env)) (w.(w_sent)).

(** The next environment step; an exhausted environment is calm. *)
Definition next_env (w : World) : envstep * World :=
  match w.(w_env) with
  | [] => (calm, w)
  | e :: es =>
      (e, w <| w_clock ::= Z.add (Z.of_N e.(es_delay)) |> <| w_env := es |>
            <| w_db ::= e.(es_others) |>)
  end.

(** The state monad of Go code that uses the store. *)
Definition M (A : Type) : Type := World -> A * World.
Definition mret {A} (a : A) : M A := fun w => (a, w).
Definition mbind {A B} (m : M A) (f : A -> M B) : M B := fun w => let '(a, w') := m w in f a w'.

Declare Scope clm_scope.
Delimit Scope clm_scope with clm.
Notation "x <-- m ;; k" := (mbind m (fun x => k))
  (at level 100, m at next level, right associativity) : clm_scope.
Notation "m ;;; k" := (mbind m (fun _ => k))
  (at level 100, right associativity) : clm_scope.

(** [time.Now()] *)
Definition time_now : M time := fun w => let '(_, w') := next_env w in (w'.(w_clock), w').

(** A call to a service: logged, and answered by the service, which sees how
    many calls went before. *)
Definition net_call {R} (c : netcall) (reply : nat -> R) : M R := fun w =>
  let '(_, w1) := next_env w in
  (reply (length w1.(w_sent)), w1 <| w_sent ::= (fun l => l ++ [c]) |>).

(** *** Transactions *)

(** What a transaction sees besides the database. *)
Record Ctx := { NOW : time; locked : gset uuid }.

(** A transaction returns the new database and its result, or an error, and
    then it is rolled back. *)
Definition txn (A : Type) : Type := Ctx -> DB -> res (DB * A).

Definition tret {A} (a : A) : txn A := fun _ db => Ok (db, a).
Definition tfail {A} (e : error) : txn A := fun _ _ => Err e.
Definition tbind {A B} (t : txn A) (f : A -> txn B) : txn B := fun c db =>
  match t c db with Ok (db', a) => f a c db' | Err e => Err e end.
(** [SELECT] *)
Definition tget {A} (f : Ctx -> DB -> A) : txn A := fun c db => Ok (db, f c db).
(** [UPDATE], [DELETE] *)
Definition tmod (f : Ctx -> DB -> DB) : txn unit := fun c db => Ok (f c db, tt).
(** A constraint of the schema, or a test of the code. *)
Definition trequire (p : DB -> bool) (e : error) : txn unit :=
  fun _ db => if p db then Ok (db, tt) else Err e.
Definition tsome {A} (o : option A) (e : error) : txn A :=
  match o with Some a => tret a | None => tfail e end.
(** [err] handling that replaces the error of a statement. *)
Definition tmap_err {A} (f : error -> error) (t : txn A) : txn A := fun c db =>
  match t c db with Ok x => Ok x | Err e => Err (f e) end.

Notation "x <-! m ;; k" := (tbind m (fun x => k))
  (at level 100, m at next level, right associativity) : clm_scope.

(** One transaction of the pool, run by the environment. *)
Definition store_call {A} (f : txn A) : M (res A) := fun w =>
  let '(e, w1) := next_env w in
  match e.(es_fault) with
  | FailBefore => (Err ErrDatabase, w1)
  | flt =>
      match f {| NOW := w1.(w_clock); locked := e.(es_locked) |} w1.(w_db) with
      | Ok (db', a) =>
          (match flt with FailAfter => Err ErrDatabase | _ => Ok a end, w1 <| w_db := db' |>)
      | Err err => (Err err, w1)
      end
  end.

(** [x, err := m; if err != nil { return err }] *)
Definition mtry {A B} (m : M (res A)) (f : A -> M (res B)) : M (res B) :=
  mbind m (fun r => match r with Ok a => f a | Err e => mret (Err e) end).

Notation "x <-? m ;; k" := (mtry m (fun x => k))
  (at level 100, m at next level, right associativity) : clm_scope.

(** [for _, x := range l { m x }] for a body whose error is only logged. *)
Fixpoint mfor {A} (l : list A) (m : A -> M unit) : M unit :=
  match l with
  | [] => mret tt
  | x :: l' => mbind (m x) (fun _ => mfor l' m)
  end.

(** [for _, x := range l { y, err := m x; if err != nil { return err }; out = append(out, y) }] *)
Fixpoint mcollect {A B} (l : list A) (m : A -> M (res B)) : M (res (list B)) :=
  match l with
  | [] => mret (Ok [])
  | x :: l' => mtry (m x) (fun y => mtry (mcollect l' m) (fun ys => mret (Ok (y :: ys))))
  end.

(** ** What a call may do to the world *)

(** An invariant relation between the worlds before and after: a preorder that
    the environment respects.  It is how a whole handler is related to its
    store calls. *)
Class WorldRel (R : World -> World -> Prop) : Prop := {
  wr_refl :: Reflexive R;
  wr_trans :: Transitive R
}.

(** [m] moves the world along [R]. *)
Definition moves {A} (R : World -> World -> Prop) (m : M A) : Prop :=
  forall w a w', m w = (a, w') -> R w w'.

Section Moves.
Context (R : World -> World -> Prop) `{!WorldRel R}.

Lemma moves_ret {A} (a : A) : moves R (mret a).
Proof. intros w a' w' [= <- <-]. apply wr_refl. Qed.

Lemma moves_bind {A B} (m : M A) (f : A -> M B) :
  moves R m -> (forall a, moves R (f a)) -> moves R (mbind m f).
Proof.
  intros Hm Hf w b w'. unfold mbind. destruct (m w) as [a w1] eqn:E. intros H.
  eapply wr_trans; [by eapply Hm|by eapply Hf].
Qed.

Lemma moves_try {A B} (m : M (res A)) (f : A -> M (res B)) :
  moves R m -> (forall a, moves R (f a)) -> moves R (mtry m f).
Proof. intros. apply moves_bind; [done|]. intros [a|e]; [done|apply moves_ret]. Qed.

Lemma moves_for {A} (l : list A) (m : A -> M unit) :
  (forall x, x ∈ l -> moves R (m x)) -> moves R (mfor l m).
Proof.
  induction l as [|x l IH]; intros H; simpl; [apply moves_ret|].
  apply moves_bind; [apply H; constructor|intros _; apply IH; intros; apply H; by constructor].
Qed.

Lemma moves_collect {A B} (l : list A) (m : A -> M (res B)) :
  (forall x, moves R (m x)) -> moves R (mcollect l m).
Proof.
  intros H. induction l as [|x l IH]; simpl; [apply moves_ret|].
  apply moves_try; [done|]. intros y. apply moves_try; [done|]. intros ys. apply moves_ret.
Qed.
End Moves.

(** The environment step alone. *)
Lemma next_env_spec w e w1 :
  next_env w = (e, w1) ->
  w.(w_clock) <= w1.(w_clock) /\ w1.(w_db) = e.(es_others) w.(w_db) /\ w1.(w_sent) = w.(w_sent) /\
  (w.(w_env) = e :: w1.(w_env) \/ w.(w_env) = [] /\ w1.(w_env) = [] /\ e = calm).
Proof.
  unfold next_env. destruct (w_env w) as [|e' es] eqn:E; intros [= <- <-]; simpl.
  - rewrite E. split_and!; auto; lia.
  - split_and!; auto; lia.
Qed.

(** A call leaves the database alone (but for the others) or applies its
    transaction; it answers [Ok] only in the second case. *)
Lemma store_call_spec {A} (f : txn A) w r w' :
  store_call f w = (r, w') ->
  exists e w1, next_env w = (e, w1) /\
  let c := {| NOW := w1.(w_clock); locked := e.(es_locked) |} in
  ((w' = w1 /\ exists err, r = Err err /\ (err = ErrDatabase \/ f c w1.(w_db) = Err err)) \/
   exists a db', f c w1.(w_db) = Ok (db', a) /\ w' = w1 <| w_db := db' |> /\
     (r = Ok a \/ r = Err ErrDatabase)).
Proof.
  unfold store_call. destruct (next_env w) as [e w1]. intros H. exists e, w1. split; [done|].
  destruct (es_fault e); try destruct (f _ (w_db w1)) as [[db' a]|err] eqn:E;
    injection H as <- <-; simpl; rewrite ?E; eauto 12.
Qed.

(** *** Relations on the database

    [evolves P]: provided the other replicas' commits respect the preorder [P]
    on databases, the call's own commits do. *)
Definition others_ok (P : DB -> DB -> Prop) (w : World) : Prop :=
  Forall (fun e => forall db, P db (e.(es_others) db)) w.(w_env).

Definition evolves (P : DB -> DB -> Prop) (w w' : World) : Prop :=
  w.(w_clock) <= w'.(w_clock) /\ w.(w_sent) `prefix_of` w'.(w_sent) /\
  (others_ok P w -> others_ok P w' /\ P w.(w_db) w'.(w_db)).

Section Evolves.
Context (P : DB -> DB -> Prop) `{!PreOrder P}.

#[export] Instance evolves_rel : WorldRel (evolves P).
Proof.
  split.
  - intros w. split; [lia|]. split; [done|]. intros H; split; [done|reflexivity].
  - intros w1 w2 w3 (H1 & Hs1 & H2) (H3 & Hs2 & H4). split; [lia|]. split; [by etransitivity|].
    intros H. destruct (H2 H) as [H5 H6], (H4 H5) as [H7 H8].
    split; [done|by etransitivity].
Qed.

Lemma evolves_next_env w e w1 : next_env w = (e, w1) -> evolves P w w1.
Proof.
  intros (Hc & Hd & Hs & Henv)%next_env_spec. split; [done|]. split; [by rewrite Hs|].
  unfold others_ok. rewrite Hd.
  destruct Henv as [->|(-> & -> & ->)]; [|split; [done|reflexivity]].
  intros [He ?]%Forall_cons; split; [done|apply He].
Qed.

Lemma evolves_db w db : P w.(w_db) db -> evolves P w (w <| w_db := db |>).
Proof. intros H. split_and!; simpl; [lia|done|by intros]. Qed.

Lemma moves_store_call {A} (f : txn A) :
  (forall c db db' a, f c db = Ok (db', a) -> P db db') -> moves (evolves P) (store_call f).
Proof.
  intros Hf w r w' (e & w1 & He & H)%store_call_spec.
  eapply wr_trans; [by eapply evolves_next_env|].
  destruct H as [[-> _]|(a & db' & Hf' & -> & _)]; [apply wr_refl|].
  eapply evolves_db, Hf, Hf'.
Qed.

Lemma moves_time_now : moves (evolves P) time_now.
Proof.
  intros w r w'. unfold time_now. destruct (next_env w) as [e w1] eqn:He. intros [= <- <-].
  by eapply evolves_next_env.
Qed.

Lemma moves_net_call {T} c (reply : nat -> T) : moves (evolves P) (net_call c reply).
Proof.
  intros w r w'. unfold net_call. destruct (next_env w) as [e w1] eqn:He. intros [= <- <-].
  eapply wr_trans; [by eapply evolves_next_env|].
  split_and!; simpl; [lia|by eexists|by intros].
Qed.
End Evolves.

(** [moves_tac] walks through the code of a handler. *)
Ltac moves_tac :=
  repeat match goal with
  | |- moves _ (mret _) => apply moves_ret; exact _
  | |- moves _ time_now => apply moves_time_now; exact _
  | |- moves _ (net_call _ _) => apply moves_net_call; exact _
  | |- moves _ (mtry _ _) => apply moves_try; [exact _| |intros ?]
  | |- moves _ (mbind _ _) => apply moves_bind; [exact _| |intros ?]
  | |- moves _ (mcollect _ _) => apply moves_collect; [exact _|intros ?]
  | |- moves _ (mfor _ _) => apply moves_for; [exact _|intros ? ?]
  | |- moves _ (match ?x with _ => _ end) => destruct x
  | |- moves _ (let '(_, _) := ?x in _) => destruct x
  | |- moves _ _ => solve [eauto with moves]
  end.
Create HintDb moves discriminated.

(** A world whose environment is calm. *)
Definition calm_world (db : DB) (t : time) : World := Build_World db t [] [].

(** There the transaction runs. *)
Lemma store_call_calm {A} (f : txn A) w :
  w.(w_env) = [] ->
  store_call f w =
  match f {| NOW := w.(w_clock); locked := ∅ |} w.(w_db) with
  | Ok (db', a) => (Ok a, w <| w_db := db' |>)
  | Err e => (Err e, w)
  end.
Proof. intros E. unfold store_call, next_env. rewrite E. simpl. by destruct (f _ _) as [[db' a]|e]. Qed.

Lemma world_db_id w : w <| w_db := w.(w_db) |> = w.
Proof. by destruct w. Qed.

(** A read of a calm world. *)
Lemma store_call_read {A} (f : txn A) w a :
  w.(w_env) = [] -> f {| NOW := w.(w_clock); locked := ∅ |} w.(w_db) = Ok (w.(w_db), a) ->
  store_call f w = (Ok a, w).
Proof. intros Henv Hf. by rewrite store_call_calm, Hf, world_db_id. Qed.

Lemma store_call_calm_ok {A} (f : txn A) w a w' :
  w.(w_env) = [] -> store_call f w = (Ok a, w') ->
  exists db', f {| NOW := w.(w_clock); locked := ∅ |} w.(w_db) = Ok (db', a) /\ w' = w <| w_db := db' |>.
Proof.
  intros Henv. rewrite store_call_calm by done.
  destruct (f _ _) as [[db' a']|e]; intros [= <- <-]; eauto.
Qed.

(** Taking apart [x, err := m; ...] that succeeded. *)
Lemma mtry_ok {A B} (m : M (res A)) (f : A -> M (res B)) w b w' :
  mtry m f w = (Ok b, w') -> exists a w1, m w = (Ok a, w1) /\ f a w1 = (Ok b, w').
Proof. unfold mtry, mbind. destruct (m w) as [[a|e] w1]; [eauto|by intros [=]]. Qed.

Lemma net_call_calm {T} c (reply : nat -> T) w :
  w.(w_env) = [] ->
  net_call c reply w = (reply (length w.(w_sent)), w <| w_sent := w.(w_sent) ++ [c] |>).
Proof. intros Henv. unfold net_call, next_env. rewrite Henv. done. Qed.

(** The calls to a service about a subject. *)
Definition posts (svc : service) (k : uuid) (l : list netcall) : nat :=
  length (filter (fun c => c.(nc_service) = svc /\ c.(nc_subject) = k) l).

Lemma posts_app svc k l l' : posts svc k (l ++ l') = (posts svc k l + posts svc k l')%nat.
Proof. unfold posts. by rewrite filter_app, length_app. Qed.

Lemma mcollect_reads {A B} (m : A -> M (res B)) ks ys w :
  Forall2 (fun k y => m k w = (Ok y, w)) ks ys -> mcollect ks m w = (Ok ys, w).
Proof. induction 1 as [|k y ks ys E _ IH]; simpl; [done|]. unfold mtry, mbind. by rewrite E, IH. Qed.

(** ** Statements shared by the tables *)

Section Statements.
Context `{UuidGen}.

(** [DEFAULT gen_random_uuid()] *)
Definition new_uuid : txn uuid := fun _ db =>
  Ok (db <| gen ::= S |>, gen_random_uuid db.(gen)).

(** [REFERENCES certificates(id)] on a nullable column. *)
Definition fk_certificate (id : option uuid) : txn unit :=
  trequire (fun db => match id with
                      | Some k => bool_decide (is_Some (db.(certificates) !! k))
                      | None => true
                      end) (ErrMsg "foreign key").
Definition fk_job (id : uuid) : txn unit :=
  trequire (fun db => bool_decide (is_Some (db.(lifecycle_jobs) !! id))) (ErrMsg "foreign key").
End Statements.

(** Inversion of a transaction that committed. *)
Lemma tbind_ok {A B} (t : txn A) (f : A -> txn B) c db db' b :
  tbind t f c db = Ok (db', b) <-> exists db1 a, t c db = Ok (db1, a) /\ f a c db1 = Ok (db', b).
Proof.
  unfold tbind. destruct (t c db) as [[db1 a]|e]; split; [eauto| |done|]; by intros (? & ? & ? & ?); simplify_eq.
Qed.

Lemma trequire_ok p e c db db' u :
  trequire p e c db = Ok (db', u) <-> p db = true /\ db' = db /\ u = tt.
Proof. unfold trequire. destruct (p db), u; split; naive_solver. Qed.

Lemma tmap_err_ok {A} g (t : txn A) c db x : tmap_err g t c db = Ok x <-> t c db = Ok x.
Proof. unfold tmap_err. by destruct (t c db) as [[??]|]; split. Qed.

(** [txn_inv] takes a committed transaction apart. *)
Ltac txn_inv :=
  repeat match goal with
  | H : tbind _ _ _ _ = Ok _ |- _ => apply tbind_ok in H as (? & ? & ? & H)
  | H : trequire _ _ _ _ = Ok _ |- _ => apply trequire_ok in H as (? & ? & ?)
  | H : tmap_err _ _ _ _ = Ok _ |- _ => rewrite tmap_err_ok in H
  | H : tret _ _ _ = Ok _ |- _ => unfold tret in H
  | H : tfail _ _ _ = Ok _ |- _ => discriminate H
  | H : tget _ _ _ = Ok _ |- _ => unfold tget in H
  | H : tmod _ _ _ = Ok _ |- _ => unfold tmod in H
  | H : new_uuid _ _ = Ok _ |- _ => unfold new_uuid in H
  | H : fk_certificate _ _ _ = Ok _ |- _ => unfold fk_certificate in H
  | H : fk_job _ _ _ = Ok _ |- _ => unfold fk_job in H
  | H : Ok _ = Ok _ |- _ => injection H as H
  | H : (_, _) = (_, _) |- _ => injection H as ? ?
  | x : unit |- _ => destruct x
  | H : tsome ?o _ _ _ = Ok _ |- _ => destruct o eqn:?; unfold tsome in H
  end; subst; simpl in *.
