(* ===== verification/Queue.v ===== *)
(** * Work queues in Postgres

    The claim pattern every queue of the service uses:
    [SELECT id FROM t WHERE p ORDER BY k FOR UPDATE SKIP LOCKED LIMIT n]
    followed by [UPDATE t SET ... WHERE id = ANY(ids)] in one transaction. *)

From stdpp Require Import sorting.
From S2P Require Import Prelude GoLib Db.

Section SkipLocked.
Context {R : Type} (where_ : R -> bool) (less : R -> R -> bool).

(** Rows that match and that no other transaction has locked. *)
Definition free_rows (lk : gset uuid) (t : gmap uuid R) : list (uuid * R) :=
  filter (fun kr => where_ kr.2 = true /\ kr.1 ∉ lk) (map_to_list t).

Definition row_less (a b : uuid * R) : bool := less a.2 b.2.

Definition select_skip_locked (lk : gset uuid) (limit : nat) (t : gmap uuid R) : list uuid :=
  map fst (take limit (stable_sort row_less (free_rows lk t))).

Lemma elem_of_free_rows lk t k r :
  (k, r) ∈ free_rows lk t <-> t !! k = Some r /\ where_ r = true /\ k ∉ lk.
Proof. unfold free_rows. rewrite list_elem_of_filter, elem_of_map_to_list. naive_solver. Qed.

Lemma NoDup_free_keys lk t : NoDup (map fst (stable_sort row_less (free_rows lk t))).
Proof.
  assert (NoDup (map fst (free_rows lk t))) as H.
  { pose proof (NoDup_fst_map_to_list t) as H. unfold free_rows.
    eapply sublist_NoDup; [exact H|]. apply (fmap_sublist fst), sublist_filter. }
  by rewrite (stable_sort_perm row_less (free_rows lk t)).
Qed.

Lemma select_NoDup lk n t : NoDup (select_skip_locked lk n t).
Proof.
  unfold select_skip_locked. rewrite <- firstn_map. apply NoDup_take, NoDup_free_keys.
Qed.

Lemma select_length lk n t : (length (select_skip_locked lk n t) <= n)%nat.
Proof. unfold select_skip_locked. rewrite length_map, length_take. lia. Qed.

(** Only free matching rows are selected. *)
Lemma select_sound lk n t k :
  k ∈ select_skip_locked lk n t -> exists r, t !! k = Some r /\ where_ r = true /\ k ∉ lk.
Proof.
  unfold select_skip_locked. intros ([k' r] & -> & H)%list_elem_of_fmap.
  apply elem_of_take_in, elem_of_stable_sort, elem_of_free_rows in H. eauto.
Qed.

(** A free matching row that is not selected was pushed out by [n] rows that
    are not after it in the order. *)
Lemma select_complete `{!StrictWeak less} lk n t k r :
  t !! k = Some r -> where_ r = true -> k ∉ lk ->
  k ∈ select_skip_locked lk n t \/
  length (select_skip_locked lk n t) = n /\
  forall k', k' ∈ select_skip_locked lk n t -> exists r', t !! k' = Some r' /\ less r r' = false.
Proof.
  intros Hk Hw Hl. unfold select_skip_locked.
  set (L := stable_sort row_less (free_rows lk t)).
  assert ((k, r) ∈ L) as HL by (apply elem_of_stable_sort, elem_of_free_rows; eauto).
  assert (StrictWeak row_less) as SW.
  { unfold row_less. split; intros; [by apply sw_asym|by eapply sw_negtrans]. }
  pose proof (stable_sort_sorted row_less (free_rows lk t)) as HS. fold L in HS.
  rewrite <- (take_drop n L), elem_of_app in HL. destruct HL as [HL|HL].
  { left. apply list_elem_of_fmap. exists (k, r). done. }
  right. assert (n < length L)%nat as Hn.
  { destruct (decide (n < length L)%nat); [done|]. rewrite drop_ge in HL by lia.
    by apply elem_of_nil in HL. }
  split; [rewrite length_map, length_take; lia|].
  intros k' ([k'' r'] & -> & H')%list_elem_of_fmap. simpl.
  assert ((k'', r') ∈ L) as HL' by (by eapply elem_of_take_in).
  apply elem_of_stable_sort, elem_of_free_rows in HL' as [HL' _].
  exists r'. split; [done|].
  rewrite <- (take_drop n L) in HS.
  exact (StronglySorted_app_1_elem_of _ _ _ _ _ HS H' HL).
Qed.

Lemma select_all lk n t k r :
  (length (free_rows lk t) <= n)%nat ->
  t !! k = Some r -> where_ r = true -> k ∉ lk -> k ∈ select_skip_locked lk n t.
Proof.
  intros Hn Hk Hw Hl. unfold select_skip_locked. apply list_elem_of_fmap. exists (k, r).
  split; [done|]. rewrite take_ge by (by rewrite length_stable_sort).
  apply elem_of_stable_sort, elem_of_free_rows. done.
Qed.
End SkipLocked.

(** [UPDATE t SET f WHERE id = ANY(ids)] *)
Definition update_ids {R} (ids : list uuid) (f : R -> R) (t : gmap uuid R) : gmap uuid R :=
  map_imap (fun k r => Some (if decide (k ∈ ids) then f r else r)) t.

Lemma lookup_update_ids {R} ids (f : R -> R) t k :
  update_ids ids f t !! k = (if decide (k ∈ ids) then f <$> t !! k else t !! k).
Proof.
  unfold update_ids. rewrite map_lookup_imap.
  destruct (t !! k); simpl; by case_decide.
Qed.

(** [UPDATE t SET f WHERE p] *)
Definition update_where {R} (p : R -> bool) (f : R -> R) (t : gmap uuid R) : gmap uuid R :=
  (fun r => if p r then f r else r) <$> t.

Lemma lookup_update_where {R} (p : R -> bool) f t k :
  update_where p f t !! k = (fun r => if p r then f r else r) <$> t !! k.
Proof. unfold update_where. by rewrite lookup_fmap. Qed.

(** [UPDATE t SET f WHERE id = k]; [None] is [RowsAffected() = 0]. *)
Definition update_row {R} (k : uuid) (f : R -> R) (t : gmap uuid R) : option (gmap uuid R) :=
  match t !! k with
  | Some r => Some (<[k := f r]> t)
  | None => None
  end.

Lemma update_row_spec {R} k (f : R -> R) t t' :
  update_row k f t = Some t' <-> exists r, t !! k = Some r /\ t' = <[k := f r]> t.
Proof. unfold update_row. destruct (t !! k); naive_solver. Qed.

(** Values of a table that satisfy a predicate, in an order. *)
Definition select {R} (p : R -> bool) (less : R -> R -> bool) (t : gmap uuid R) : list R :=
  stable_sort less (filter (fun r => p r = true) (map snd (map_to_list t))).

Lemma elem_of_select {R} (p : R -> bool) less (t : gmap uuid R) r :
  r ∈ select p less t <-> p r = true /\ exists k, t !! k = Some r.
Proof.
  unfold select. rewrite elem_of_stable_sort, list_elem_of_filter, list_elem_of_fmap.
  split; intros [Hp H]; (split; [done|]).
  - destruct H as ([k r'] & -> & H). apply elem_of_map_to_list in H. eauto.
  - destruct H as [k H]. exists (k, r). by rewrite elem_of_map_to_list.
Qed.

(** [ORDER BY] on an integer column. *)
#[export] Instance less_by_sw {R} (key : R -> Z) : StrictWeak (fun a b => key a <? key b).
Proof. split; intros; rewrite ?Z.ltb_ge, ?Z.ltb_lt in *; lia. Qed.

#[export] Hint Rewrite @lookup_update_ids @lookup_update_where : clm.

(** ** Claiming *)

(** A claim: the selected rows are updated, and their keys returned. *)
Definition claim {R} (where_ : R -> bool) (less : R -> R -> bool) (limit : nat)
    (lease : R -> R) (lk : gset uuid) (t : gmap uuid R) : gmap uuid R * list uuid :=
  let ids := select_skip_locked where_ less lk limit t in
  (update_ids ids lease t, ids).

Section Claim.
Context {R : Type} (where_ : R -> bool) (less : R -> R -> bool) (lease : R -> R).

Lemma claim_lookup n lk t t' ids k :
  claim where_ less n lease lk t = (t', ids) ->
  t' !! k = (if decide (k ∈ ids) then lease <$> t !! k else t !! k).
Proof. unfold claim. intros [= <- <-]. apply lookup_update_ids. Qed.

Lemma claim_sound n lk t t' ids k :
  claim where_ less n lease lk t = (t', ids) -> k ∈ ids ->
  exists r, t !! k = Some r /\ where_ r = true /\ k ∉ lk /\ t' !! k = Some (lease r).
Proof.
  intros H Hk. rewrite (claim_lookup _ _ _ _ _ _ H). rewrite decide_True by done.
  injection H as _ <-. destruct (select_sound _ _ _ _ _ _ Hk) as (r & -> & ? & ?). eauto.
Qed.

(** Two claims never share a row, as long as a leased row does not match: the
    second may run while the first still holds its locks, or later on any
    table that has kept the rows the first one leased. *)
Lemma claim_disjoint where2 less2 lease2 n n2 lk lk2 t t' ids t2 t2' ids2 :
  claim where_ less n lease lk t = (t', ids) ->
  claim where2 less2 n2 lease2 lk2 t2 = (t2', ids2) ->
  (forall k, k ∈ ids -> k ∈ lk2 \/ exists r, t' !! k = Some (lease r) /\ t2 !! k = Some (lease r)
                                     /\ where2 (lease r) = false) ->
  ids ## ids2.
Proof.
  intros H1 H2 Hkept k Hk Hk2. injection H2 as _ <-.
  destruct (select_sound _ _ _ _ _ _ Hk2) as (r2 & Hr2 & Hw2 & Hl2).
  destruct (Hkept k Hk) as [?|(r & _ & Hr & Hw)]; [done|]. congruence.
Qed.

(** Every eligible row is claimed when there are at most [n] of them. *)
Lemma claim_all n lk t t' ids k r :
  claim where_ less n lease lk t = (t', ids) ->
  (length (free_rows where_ lk t) <= n)%nat ->
  t !! k = Some r -> where_ r = true -> k ∉ lk -> k ∈ ids.
Proof. intros [= _ <-]. apply select_all. Qed.
End Claim.

(** ** Tables with a primary key and a unique column *)

(** The row with a value of the unique column. *)
Definition row_by {R} (uk : R -> string) (key : string) (t : gmap uuid R) : option R :=
  head (select (fun r => String.eqb (uk r) key) (fun _ _ => false) t).

(** The primary key is the [id] column, and the other column is unique. *)
Record table_ok {R} (pk uk : R -> string) (t : gmap uuid R) : Prop := {
  table_keyed : forall k r, t !! k = Some r -> pk r = k;
  table_unique : forall k1 k2 r1 r2, t !! k1 = Some r1 -> t !! k2 = Some r2 -> uk r1 = uk r2 -> k1 = k2
}.
Arguments table_keyed {_ _ _ _}.
Arguments table_unique {_ _ _ _}.

Section UniqueTable.
Context {R : Type} (pk uk : R -> string).
Implicit Types (t : gmap uuid R).

Lemma row_by_some key t r : row_by uk key t = Some r -> uk r = key /\ exists k, t !! k = Some r.
Proof.
  unfold row_by. destruct (select _ _ t) as [|r' l] eqn:E; [done|]. intros [= ->].
  assert (r ∈ select (fun r => String.eqb (uk r) key) (fun _ _ => false) t) as Hc
    by (rewrite E; constructor).
  apply elem_of_select in Hc as [Hf ?]. by apply String.eqb_eq in Hf.
Qed.

Lemma row_by_none key t k r : row_by uk key t = None -> t !! k = Some r -> uk r <> key.
Proof.
  unfold row_by. intros Hn Hk Hf.
  assert (r ∈ select (fun r => String.eqb (uk r) key) (fun _ _ => false) t) as Hc
    by (apply elem_of_select; split; [by apply String.eqb_eq|eauto]).
  by destruct (select _ _ t); [apply elem_of_nil in Hc|].
Qed.

Lemma row_by_eq t k r :
  table_ok pk uk t -> t !! k = Some r -> row_by uk (uk r) t = Some r.
Proof.
  intros Hok Hk. destruct (row_by uk (uk r) t) as [r'|] eqn:E.
  - apply row_by_some in E as [Hu [k' Hk']]. f_equal.
    assert (k' = k) as -> by (by eapply (table_unique Hok)). congruence.
  - by eapply row_by_none in E.
Qed.

(** Replacing a row by one with the same keys. *)
Lemma table_ok_insert t k r r' :
  table_ok pk uk t -> t !! k = Some r -> pk r' = pk r -> uk r' = uk r -> table_ok pk uk (<[k := r']> t).
Proof.
  intros [Hk Hf] Hc Hid Hfp. split.
  - intros k' d. rewrite lookup_insert. case_decide; [intros [= <-]; subst|apply Hk].
    rewrite Hid. by apply Hk.
  - intros k1 k2 d1 d2. rewrite !lookup_insert. intros H1 H2 H.
    case_decide; case_decide; simplify_eq; try done.
    all: first [by eapply Hf|eapply Hf; [exact Hc|eassumption|congruence]
      |eapply Hf; [eassumption|exact Hc|congruence]].
Qed.

Lemma table_ok_new t k r :
  table_ok pk uk t -> t !! k = None -> pk r = k -> row_by uk (uk r) t = None ->
  table_ok pk uk (<[k := r]> t).
Proof.
  intros [Hk Hf] Hc Hid Hfp. split.
  - intros k' d. rewrite lookup_insert. case_decide; [by intros [= <-]; subst|apply Hk].
  - intros k1 k2 d1 d2. rewrite !lookup_insert. intros H1 H2 H.
    pose proof (row_by_none _ _ k1 d1 Hfp). pose proof (row_by_none _ _ k2 d2 Hfp).
    repeat case_decide; simplify_eq; try done; [naive_solver..|by eapply Hf].
Qed.

(** Updating rows in place. *)
Lemma table_ok_imap t (f : uuid -> R -> R) :
  table_ok pk uk t -> (forall k r, pk (f k r) = pk r) -> (forall k r, uk (f k r) = uk r) ->
  table_ok pk uk (map_imap (fun k r => Some (f k r)) t).
Proof.
  intros [Hk Hf] Hid Hfp. split.
  - intros k c. rewrite map_lookup_imap. intros (c0 & H & [= <-])%bind_Some. rewrite Hid. by apply Hk.
  - intros k1 k2 c1 c2. rewrite !map_lookup_imap.
    intros (d1 & H1 & [= <-])%bind_Some (d2 & H2 & [= <-])%bind_Some. rewrite !Hfp. by apply Hf.
Qed.

Lemma table_ok_update_ids t ids (f : R -> R) :
  table_ok pk uk t -> (forall r, pk (f r) = pk r) -> (forall r, uk (f r) = uk r) ->
  table_ok pk uk (update_ids ids f t).
Proof. intros. apply table_ok_imap; [done|..]; intros; by case_decide. Qed.

Lemma table_ok_update_where t p (f : R -> R) :
  table_ok pk uk t -> (forall r, pk (f r) = pk r) -> (forall r, uk (f r) = uk r) ->
  table_ok pk uk (update_where p f t).
Proof.
  intros [Hk Hf] Hid Hfp. unfold update_where. split.
  - intros k r. rewrite lookup_fmap. intros (r0 & H & ->)%fmap_Some. destruct (p r0); rewrite ?Hid; by apply Hk.
  - intros k1 k2 r1 r2. rewrite !lookup_fmap. intros (d1 & H1 & ->)%fmap_Some (d2 & H2 & ->)%fmap_Some He.
    apply (Hf k1 k2 d1 d2 H1 H2). destruct (p d1), (p d2); rewrite ?Hfp in He; done.
Qed.

Lemma table_ok_singleton r : table_ok pk uk {[pk r := r]}.
Proof.
  split.
  - intros k d [<- <-]%lookup_singleton_Some. done.
  - intros k1 k2 d1 d2 [<- _]%lookup_singleton_Some [<- _]%lookup_singleton_Some. done.
Qed.

Lemma table_ok_empty : table_ok pk uk ∅.
Proof. split; intros *; rewrite ?lookup_empty; naive_solver. Qed.
End UniqueTable.

#[global] Arguments claim : simpl never.
#[global] Arguments select_skip_locked : simpl never.
#[global] Arguments select : simpl never.
#[global] Arguments update_ids : simpl never.
#[global] Arguments update_where : simpl never.

(** ** Rows rewritten in place *)

Definition rewritten {R} (same : R -> R -> Prop) (t t' : gmap uuid R) : Prop :=
  forall k, option_Forall2 same (t !! k) (t' !! k).

Section Rewritten.
Context {R : Type} (same : R -> R -> Prop).
Implicit Types (t : gmap uuid R).

Lemma rewritten_fmap t (f : R -> R) : (forall r, same r (f r)) -> rewritten same t (f <$> t).
Proof. intros Hf k. rewrite lookup_fmap. destruct (t !! k); constructor. apply Hf. Qed.
Lemma rewritten_insert t k r r' : t !! k = Some r -> same r r' -> (forall x, same x x) -> rewritten same t (<[k := r']> t).
Proof.
  intros Hk Hs Hr k'. rewrite lookup_insert. case_decide; [subst; rewrite Hk; by constructor|].
  destruct (t !! k'); by constructor.
Qed.
Lemma rewritten_update_row t t' k (f : R -> R) :
  update_row k f t = Some t' -> (forall r, same r (f r)) -> (forall x, same x x) -> rewritten same t t'.
Proof. intros (r & Hk & ->)%update_row_spec Hf Hr. by eapply rewritten_insert. Qed.
Lemma rewritten_update_ids t ids (f : R -> R) :
  (forall r, same r (f r)) -> (forall x, same x x) -> rewritten same t (update_ids ids f t).
Proof. intros Hf Hr k. rewrite lookup_update_ids. case_decide; destruct (t !! k); simpl; by constructor. Qed.
Lemma rewritten_claim t t' ids wh less n (f : R -> R) lk :
  claim wh less n f lk t = (t', ids) -> (forall r, same r (f r)) -> (forall x, same x x) -> rewritten same t t'.
Proof. unfold claim. intros [= <- <-] Hf Hr. by apply rewritten_update_ids. Qed.
Lemma rewritten_update_where t p (f : R -> R) :
  (forall r, same r (f r)) -> (forall x, same x x) -> rewritten same t (update_where p f t).
Proof. intros Hf Hr. apply rewritten_fmap. intros r. by destruct (p r). Qed.
Lemma rewritten_alter t k (f : R -> R) : (forall r, same r (f r)) -> (forall x, same x x) -> rewritten same t (alter f k t).
Proof.
  intros Hf Hr k'. destruct (decide (k = k')) as [<-|N]; [rewrite lookup_alter_eq|rewrite lookup_alter_ne by done];
    destruct (t !! _); simpl; by constructor.
Qed.

Lemma rewritten_back t t' k r' : rewritten same t t' -> t' !! k = Some r' -> exists r, t !! k = Some r /\ same r r'.
Proof. intros Ht Hk. specialize (Ht k). rewrite Hk in Ht. inversion Ht; eauto. Qed.
Lemma rewritten_known t t' k : rewritten same t t' -> is_Some (t !! k) -> is_Some (t' !! k).
Proof. intros Ht [r Hk]. specialize (Ht k). rewrite Hk in Ht. inversion Ht; eauto. Qed.
End Rewritten.

Lemma rewritten_impl {R} (same same' : R -> R -> Prop) t t' :
  (forall r r', same r r' -> same' r r') -> rewritten same t t' -> rewritten same' t t'.
Proof. intros Hs Ht k. destruct (Ht k); constructor; auto. Qed.
