(* ===== verification/Sha256.v ===== *)
(** * Packages crypto/sha256 and encoding/hex

    SHA-256 (FIPS 180-4) on bytes, executable, and hexadecimal text: the
    digests of hashed API tokens are computed and compared with them. *)

From Stdlib Require Import Ascii.
From S2P Require Import Prelude GoLib.

(** Bytes are numbers below 256, words are numbers below 2^32. *)
Abbreviation word := Z (only parsing).

Definition byte_of (a : ascii) : Z := Z.of_N (N_of_ascii a).
Fixpoint bytes_of (s : string) : list Z :=
  match s with
  | EmptyString => []
  | String a s' => byte_of a :: bytes_of s'
  end.

(** ** SHA-256 *)

Definition w32 (z : Z) : word := z mod 2 ^ 32.
Definition add32 (a b : word) : word := w32 (a + b).
Definition rotr (n : Z) (x : word) : word := Z.lor (Z.shiftr x n) (w32 (Z.shiftl x (32 - n))).
Definition Ch (x y z : word) : word := Z.lxor (Z.land x y) (Z.land (Z.lxor x (2 ^ 32 - 1)) z).
Definition Maj (x y z : word) : word := Z.lxor (Z.land x y) (Z.lxor (Z.land x z) (Z.land y z)).
Definition Sigma0 (x : word) : word := Z.lxor (rotr 2 x) (Z.lxor (rotr 13 x) (rotr 22 x)).
Definition Sigma1 (x : word) : word := Z.lxor (rotr 6 x) (Z.lxor (rotr 11 x) (rotr 25 x)).
Definition sigma0 (x : word) : word := Z.lxor (rotr 7 x) (Z.lxor (rotr 18 x) (Z.shiftr x 3)).
Definition sigma1 (x : word) : word := Z.lxor (rotr 17 x) (Z.lxor (rotr 19 x) (Z.shiftr x 10)).

(** The constants of the standard are the first 32 bits of the fractional
    parts of the cube roots of the first 64 primes, and of the square roots of
    the first eight. *)
Definition is_prime (n : Z) : bool := forallb (fun d => negb (n mod d =? 0)) (seqZ 2 (n - 2)).
Definition primes : list Z := filter (fun n => is_prime n = true) (seqZ 2 310).
(** The largest [r] with [r ^ 3 <= n], by its binary digits from the [k]-th. *)
Fixpoint cube_root (k : nat) (r n : Z) : Z :=
  match k with
  | O => r
  | S k' => let r' := r + 2 ^ Z.of_nat k' in cube_root k' (if r' ^ 3 <=? n then r' else r) n
  end.
Definition sha_K : list word := Eval vm_compute in map (fun p => w32 (cube_root 36 0 (p * 2 ^ 96))) primes.
Definition sha_H : list word := Eval vm_compute in map (fun p => w32 (Z.sqrt (p * 2 ^ 64))) (take 8 primes).

Record ShaState := Build_ShaState { sa : word; sb : word; sc : word; sd : word; se : word; sf : word; sg : word; sh : word }.
Definition sha_init : ShaState :=
  match sha_H with
  | [a; b; c; d; e; f; g; h] => Build_ShaState a b c d e f g h
  | _ => Build_ShaState 0 0 0 0 0 0 0 0
  end.

Definition sha_round (s : ShaState) (kw : word * word) : ShaState :=
  let t1 := w32 (s.(sh) + Sigma1 s.(se) + Ch s.(se) s.(sf) s.(sg) + kw.1 + kw.2) in
  let t2 := add32 (Sigma0 s.(sa)) (Maj s.(sa) s.(sb) s.(sc)) in
  Build_ShaState (add32 t1 t2) s.(sa) s.(sb) s.(sc) (add32 s.(sd) t1) s.(se) s.(sf) s.(sg).

(** The message schedule: [window] holds the last sixteen words. *)
Fixpoint schedule (n : nat) (window : list word) : list word :=
  match n, window with
  | S n', w0 :: rest =>
      let w16 := w32 (sigma1 (nth 14 window 0) + nth 9 window 0 + sigma0 (nth 1 window 0) + w0) in
      w0 :: schedule n' (rest ++ [w16])
  | _, _ => []
  end.

Definition sha_block (s : ShaState) (block : list word) : ShaState :=
  let t := fold_left sha_round (zip sha_K (schedule 64 block)) s in
  Build_ShaState (add32 s.(sa) t.(sa)) (add32 s.(sb) t.(sb)) (add32 s.(sc) t.(sc)) (add32 s.(sd) t.(sd))
    (add32 s.(se) t.(se)) (add32 s.(sf) t.(sf)) (add32 s.(sg) t.(sg)) (add32 s.(sh) t.(sh)).

(** Big-endian bytes of a number. *)
Fixpoint be_bytes (n : nat) (z : Z) : list Z :=
  match n with
  | O => []
  | S n' => (z / 256 ^ Z.of_nat n') mod 256 :: be_bytes n' z
  end.
Fixpoint be_words (l : list Z) : list word :=
  match l with
  | a :: b :: c :: d :: l' => (((a * 256 + b) * 256 + c) * 256 + d) :: be_words l'
  | _ => []
  end.

(** Padding to a multiple of 64 bytes. *)
Definition sha_pad (msg : list Z) : list Z :=
  let n := Z.of_nat (length msg) in
  let zeros := Z.to_nat ((55 - n) mod 64) in
  msg ++ [128] ++ repeat 0 zeros ++ be_bytes 8 (8 * n).

Fixpoint sha_blocks (fuel : nat) (s : ShaState) (words : list word) : ShaState :=
  match fuel, words with
  | S fuel', _ :: _ => sha_blocks fuel' (sha_block s (take 16 words)) (drop 16 words)
  | _, _ => s
  end.

(** [sha256.Sum256] *)
Definition Sum256 (msg : list Z) : list Z :=
  let words := be_words (sha_pad msg) in
  let s := sha_blocks (length words) sha_init words in
  concat (map (be_bytes 4) [s.(sa); s.(sb); s.(sc); s.(sd); s.(se); s.(sf); s.(sg); s.(sh)]).

Lemma length_be_bytes n z : length (be_bytes n z) = n.
Proof. induction n as [|n IH]; simpl; [done|]. by rewrite IH. Qed.

Lemma length_concat_be n l : length (concat (map (be_bytes n) l)) = (n * length l)%nat.
Proof. induction l as [|z l IH]; cbn [map concat length]; [lia|]. rewrite length_app, length_be_bytes, IH. lia. Qed.

Lemma length_Sum256 msg : length (Sum256 msg) = 32%nat.
Proof. unfold Sum256. by rewrite length_concat_be. Qed.

Definition is_byte (z : Z) : Prop := 0 <= z < 256.

Lemma be_bytes_range n z : Forall is_byte (be_bytes n z).
Proof. induction n as [|n IH]; simpl; constructor; [|done]. by apply Z.mod_pos_bound. Qed.

Lemma Sum256_range msg : Forall is_byte (Sum256 msg).
Proof.
  unfold Sum256. apply Forall_concat, Forall_map, Forall_true. intros z. apply be_bytes_range.
Qed.

(** ** Hexadecimal *)

Definition fromHexChar (a : ascii) : option Z :=
  let z := byte_of a in
  if is_digit a then Some (z - byte_of "0")
  else if ascii_between "a" "f" a then Some (z - byte_of "a" + 10)
  else if ascii_between "A" "F" a then Some (z - byte_of "A" + 10)
  else None.

(** [hex.DecodeString]; [None] is an error. *)
Fixpoint hex_DecodeString (s : string) : option (list Z) :=
  match s with
  | EmptyString => Some []
  | String a (String b s') =>
      match fromHexChar a, fromHexChar b, hex_DecodeString s' with
      | Some x, Some y, Some l => Some ((16 * x + y) :: l)
      | _, _, _ => None
      end
  | String _ EmptyString => None
  end.

Definition hexDigit (z : Z) : ascii :=
  ascii_of_N (Z.to_N (if z <? 10 then byte_of "0" + z else byte_of "a" + (z - 10))).
Fixpoint hex_EncodeToString (l : list Z) : string :=
  match l with
  | [] => EmptyString
  | z :: l' => String (hexDigit (z / 16)) (String (hexDigit (z mod 16)) (hex_EncodeToString l'))
  end.

Lemma fromHexChar_hexDigit z : 0 <= z < 16 -> fromHexChar (hexDigit z) = Some z.
Proof.
  intros Hz.
  assert (z ∈ [0; 1; 2; 3; 4; 5; 6; 7; 8; 9; 10; 11; 12; 13; 14; 15]) as Hin
    by (rewrite !elem_of_cons; lia).
  rewrite !elem_of_cons, elem_of_nil in Hin.
  destruct Hin as [->|[->|[->|[->|[->|[->|[->|[->|[->|[->|[->|[->|[->|[->|[->|[->|[]]]]]]]]]]]]]]]]];
    vm_compute; reflexivity.
Qed.

Lemma hex_decode_encode l : Forall is_byte l -> hex_DecodeString (hex_EncodeToString l) = Some l.
Proof.
  induction 1 as [|z l Hz _ IH]; [done|]. unfold is_byte in Hz. simpl.
  pose proof (Z.mod_pos_bound z 16 eq_refl). pose proof (Z.div_mod z 16).
  assert (0 <= z / 16 < 16) by (split; [apply Z.div_pos|apply Z.div_lt_upper_bound]; lia).
  rewrite !fromHexChar_hexDigit, IH by done. do 2 f_equal. lia.
Qed.

Lemma length_hex_encode l : String.length (hex_EncodeToString l) = (2 * length l)%nat.
Proof. induction l as [|z l IH]; simpl; [done|]. rewrite IH. lia. Qed.

Lemma hex_decode_length s l : hex_DecodeString s = Some l -> String.length s = (2 * length l)%nat.
Proof.
  revert s. assert (forall n s l, (String.length s < n)%nat -> hex_DecodeString s = Some l ->
    String.length s = (2 * length l)%nat) as H; [|intros s; eapply H; eauto].
  induction n as [|n IH]; [lia|]. intros [|a [|b s]] l' Hn; simpl in *; [by intros [= <-]|done|].
  destruct (fromHexChar a), (fromHexChar b), (hex_DecodeString s) as [l''|] eqn:E; try done.
  intros [= <-]. simpl. rewrite (IH s l''); [lia|lia|done].
Qed.

(** ** HMAC (crypto/hmac with SHA-256) *)

(** The key, hashed when longer than a block and padded to one. *)
Definition hmac_key (key : list Z) : list Z :=
  let k := if (64 <? length key)%nat then Sum256 key else key in k ++ repeat 0 (64 - length k).
Definition HMAC (key msg : list Z) : list Z :=
  let k := hmac_key key in
  Sum256 (map (Z.lxor 92) k ++ Sum256 (map (Z.lxor 54) k ++ msg)).

Lemma length_hmac_key key : length (hmac_key key) = 64%nat.
Proof.
  unfold hmac_key. destruct (Nat.ltb_spec 64 (length key)).
  - by rewrite length_app, repeat_length, length_Sum256.
  - rewrite length_app, repeat_length. lia.
Qed.
Lemma length_HMAC key msg : length (HMAC key msg) = 32%nat.
Proof. apply length_Sum256. Qed.

(** ** Test vectors *)

Example sha256_empty :
  hex_EncodeToString (Sum256 []) = "e3b0c44298fc1c149afbf4c8996fb92427ae41e4649b934ca495991b7852b855"%string.
Proof. vm_compute. reflexivity. Qed.

Example sha256_abc :
  hex_EncodeToString (Sum256 (bytes_of "abc")) = "ba7816bf8f01cfea414140de5dae2223b00361a396177a9cb410ff61f20015ad"%string.
Proof. vm_compute. reflexivity. Qed.

Example sha256_two_blocks :
  hex_EncodeToString (Sum256 (bytes_of "abcdbcdecdefdefgefghfghighijhijkijkljklmklmnlmnomnopnopq")) =
    "248d6a61d20638b8e5c026930c3e6039a33ce45964ff2167f6ecedd419db06c1"%string.
Proof. vm_compute. reflexivity. Qed.

(** RFC 4231, case 2. *)
Example hmac_jefe :
  hex_EncodeToString (HMAC (bytes_of "Jefe") (bytes_of "what do ya want for nothing?")) =
    "5bdcc146bf60754e6a042426089575c75a003f089d2739839dec58b964ec3843"%string.
Proof. vm_compute. reflexivity. Qed.
