(* ===== verification/Sends.v ===== *)
(** * What a piece of code may send

    [sends P]: every call to a service made on the way satisfies [P].  Store
    calls and clock readings make none. *)

From S2P Require Import Prelude GoLib Db.

Open Scope clm_scope.

Definition sends (P : netcall -> Prop) (w w' : World) : Prop :=
  exists l, w'.(w_sent) = w.(w_sent) ++ l /\ Forall P l.

#[export] Instance sends_rel P : WorldRel (sends P).
Proof.
  split.
  - intros w. exists []. by rewrite app_nil_r.
  - intros w1 w2 w3 (l & E & Hl) (l' & E' & Hl'). exists (l ++ l').
    rewrite E', E, app_assoc. split; [done|by apply Forall_app].
Qed.

Lemma sends_same P w w' : w'.(w_sent) = w.(w_sent) -> sends P w w'.
Proof. intros E. exists []. by rewrite app_nil_r. Qed.

Lemma sends_impl (P Q : netcall -> Prop) {A} (m : M A) :
  (forall c, P c -> Q c) -> moves (sends P) m -> moves (sends Q) m.
Proof.
  intros H Hm w a w' E. destruct (Hm w a w' E) as (l & El & Hl). exists l. split; [done|].
  eapply Forall_impl; eauto.
Qed.

Lemma sends_env P w e w1 : next_env w = (e, w1) -> sends P w w1.
Proof. intros (_ & _ & E & _)%next_env_spec. by apply sends_same. Qed.

Lemma sends_store_call P {A} (t : txn A) : moves (sends P) (store_call t).
Proof.
  intros w r w' (e & w1 & He & H)%store_call_spec. apply sends_env with (P := P) in He.
  destruct H as [[-> _]|(a & db' & _ & -> & _)]; [done|].
  etransitivity; [exact He|by apply sends_same].
Qed.

Lemma sends_time_now P : moves (sends P) time_now.
Proof.
  intros w r w'. unfold time_now. destruct (next_env w) as [e w1] eqn:He. intros [= <- <-].
  by eapply sends_env.
Qed.

Lemma sends_net_call P {R} c (reply : nat -> R) : P c -> moves (sends P) (net_call c reply).
Proof.
  intros Hc w r w'. unfold net_call. destruct (next_env w) as [e w1] eqn:He. intros [= <- <-].
  apply sends_env with (P := P) in He. etransitivity; [exact He|]. exists [c]. auto.
Qed.

(** [sends_tac] walks through the code; the operations of the store are
    unfolded with the hints of [store_ops]. *)
Create HintDb store_ops.
Create HintDb sends discriminated.

Ltac sends_step :=
  match goal with
  | |- moves _ (mret _) => apply moves_ret; exact _
  | |- moves _ (store_call _) => apply sends_store_call
  | |- moves _ time_now => apply sends_time_now
  | |- moves _ (net_call _ _) => apply sends_net_call
  | |- moves _ (mtry _ _) => apply moves_try; [exact _| |intros ?]
  | |- moves _ (mbind _ _) => apply moves_bind; [exact _| |intros ?]
  | |- moves _ (mcollect _ _) => apply moves_collect; [exact _|intros ?]
  | |- moves _ (mfor _ _) => apply moves_for; [exact _|intros ? ?]
  | |- moves _ (match ?x with _ => _ end) => destruct x eqn:?
  | |- moves _ _ => solve [eauto with sends]
  | |- moves _ _ => progress autounfold with store_ops
  end.
Ltac sends_tac := repeat sends_step.

(** ** Code that only reads

    [only_others]: nothing is sent, and the database is what the other
    replicas and requests made of it on the way. *)

Definition only_others (w w' : World) : Prop :=
  exists es, w.(w_env) = es ++ w'.(w_env) /\ w'.(w_db) = foldl (fun db e => e.(es_others) db) w.(w_db) es /\
    w'.(w_sent) = w.(w_sent) /\ w.(w_clock) <= w'.(w_clock).

#[export] Instance only_others_rel : WorldRel only_others.
Proof.
  split.
  - intros w. by exists [].
  - intros w1 w2 w3 (l & E & D & S & C) (l' & E' & D' & S' & C'). exists (l ++ l').
    rewrite E, E', app_assoc, foldl_app, D', D, S', S. split_and!; [done..|lia].
Qed.

Lemma only_others_env w e w1 : next_env w = (e, w1) -> only_others w w1.
Proof.
  intros (C & D & S & [E|(E & E1 & ->)])%next_env_spec.
  - exists [e]. by rewrite D, E, S.
  - exists []. by rewrite D, E, E1, S.
Qed.

(** A transaction that returns the database as it was. *)
Definition reads {A} (t : txn A) : Prop := forall c db db' a, t c db = Ok (db', a) -> db' = db.

Lemma only_others_store_call {A} (t : txn A) : reads t -> moves only_others (store_call t).
Proof.
  intros Ht w r w' (e & w1 & He & H)%store_call_spec. apply only_others_env in He.
  destruct H as [[-> _]|(a & db' & ->%Ht & -> & _)]; [done|by rewrite world_db_id].
Qed.

Lemma only_others_time_now : moves only_others time_now.
Proof.
  intros w r w'. unfold time_now. destruct (next_env w) as [e w1] eqn:He. intros [= <- <-]. by eapply only_others_env.
Qed.

Lemma reads_get {A} (f : Ctx -> DB -> A) : reads (tget f).
Proof. by intros c db db' a [= <- _]. Qed.
Lemma reads_ret {A} (a : A) : reads (tret a).
Proof. by intros c db db' a' [= <- _]. Qed.
Lemma reads_require p e : reads (trequire p e).
Proof. intros c db db' [] (_ & -> & _)%trequire_ok. done. Qed.
Lemma reads_some {A} (o : option A) e : reads (tsome o e).
Proof. destruct o; [apply reads_ret|by intros ????]. Qed.
Lemma reads_bind {A B} (t : txn A) (f : A -> txn B) : reads t -> (forall a, reads (f a)) -> reads (tbind t f).
Proof. intros Ht Hf c db db' b (db1 & a & E1%Ht & E2%Hf)%tbind_ok. congruence. Qed.

Create HintDb reads discriminated.
#[export] Hint Resolve reads_get reads_ret reads_require reads_some reads_bind : reads.

(** [reads_tac] walks through the code, as [sends_tac] does. *)
Ltac reads_step :=
  match goal with
  | |- moves _ (mret _) => apply moves_ret; exact _
  | |- moves _ (store_call _) => apply only_others_store_call; auto with reads
  | |- moves _ time_now => apply only_others_time_now
  | |- moves _ (mtry _ _) => apply moves_try; [exact _| |intros ?]
  | |- moves _ (mbind _ _) => apply moves_bind; [exact _| |intros ?]
  | |- moves _ (match ?x with _ => _ end) => destruct x eqn:?
  | |- moves _ _ => solve [eauto with reads]
  | |- moves _ _ => progress autounfold with store_ops
  end.
Ltac reads_tac := repeat reads_step.

(** Then the database follows every law the others follow. *)
Lemma others_folds (P : DB -> DB -> Prop) `{!PreOrder P} es db :
  Forall (fun e => forall db, P db (e.(es_others) db)) es -> P db (foldl (fun db e => e.(es_others) db) db es).
Proof. intros Hes. revert db. induction Hes as [|e es He _ IH]; intros db; [done|]. simpl. etransitivity; [apply He|apply IH]. Qed.
Lemma only_others_evolves (P : DB -> DB -> Prop) `{!PreOrder P} w w' : only_others w w' -> evolves P w w'.
Proof.
  intros (es & E & Hd & Hs & Hc). split; [done|]. split; [by rewrite Hs|].
  unfold others_ok. rewrite E, Forall_app. intros [He ?]. rewrite Hd. split; [done|by apply others_folds].
Qed.
