(* ===== verification/Outbox.v ===== *)
(** * The event outbox

    [events] of [internal/store/store.go]: appended in the transaction of the
    change they announce, claimed with a lease by the dispatchers, marked
    delivered or failed. *)

From S2P Require Import Prelude GoLib Db Queue.

Open Scope clm_scope.

Section Outbox.
Context `{UuidGen}.

(** [appendEventTx] *)
Definition appendEventTx (eventType : string) (certID : option uuid) (payload : json) : txn unit :=
  _ <-! fk_certificate certID ;;
  id <-! new_uuid ;;
  _ <-! trequire (fun db => bool_decide (db.(events) !! id = None)) (ErrMsg "duplicate key") ;;
  fun c db => Ok (db <| events ::= <[id := {|
      e_ID := id; e_EventType := eventType; e_CertificateID := certID; e_Payload := payload;
      e_CreatedAt := c.(NOW); e_DeliveredAt := None; e_Attempts := 0; e_LastError := None;
      e_LeaseOwner := None; e_LeaseExpiresAt := None |}]> |>, tt).

(** [appendEventStandalone] *)
Definition appendEventStandalone (eventType : string) (certID : option uuid) (payload : json) :
    M (res unit) :=
  store_call (appendEventTx eventType certID payload).

(** [EventFilter] *)
Record EventFilter := {
  ef_Limit : Z;
  ef_EventType : string;
  ef_CertificateID : option uuid
}.

Definition newest_first (a b : Event) : bool := e_CreatedAt b <? e_CreatedAt a.
Definition oldest_first (a b : Event) : bool := e_CreatedAt a <? e_CreatedAt b.

(** [ListEvents] *)
Definition ListEvents (f : EventFilter) : M (res (list Event)) :=
  let limit := if f.(ef_Limit) <=? 0 then 100 else f.(ef_Limit) in
  let limit := if 500 <? limit then 500 else limit in
  let where_ e :=
    (String.eqb f.(ef_EventType) "" || String.eqb e.(e_EventType) f.(ef_EventType)) &&
    match f.(ef_CertificateID) with
    | Some k => bool_decide (e.(e_CertificateID) = Some k)
    | None => true
    end in
  store_call (tget (fun _ db => take (Z.to_nat limit) (select where_ newest_first db.(events)))).

(** [ListUndeliveredEvents] *)
Definition ListUndeliveredEvents (limit maxAttempts : Z) : M (res (list Event)) :=
  let limit := if limit <=? 0 then 50 else limit in
  let maxAttempts := if maxAttempts <=? 0 then 10 else maxAttempts in
  store_call (tget (fun _ db =>
    take (Z.to_nat limit)
      (select (fun e => bool_decide (e.(e_DeliveredAt) = None) && (e.(e_Attempts) <? maxAttempts))
              oldest_first db.(events)))).

(** The [WHERE] clause of the claim. *)
Definition event_claimable (maxAttempts : Z) (now : time) (e : Event) : bool :=
  bool_decide (e.(e_DeliveredAt) = None) && (e.(e_Attempts) <? maxAttempts) &&
  match e.(e_LeaseExpiresAt) with None => true | Some t => t <? now end.

Definition lease_event (owner : string) (expires : time) (e : Event) : Event :=
  e <| e_LeaseOwner := Some owner |> <| e_LeaseExpiresAt := Some expires |>.

(** The claim's transaction. *)
Definition claim_events_tx (owner : string) (expires : time) (limit maxAttempts : Z) : txn (list uuid) :=
  fun c db =>
    let '(t, ids) := claim (event_claimable maxAttempts c.(NOW)) oldest_first (Z.to_nat limit)
                           (lease_event owner expires) c.(locked) db.(events) in
    Ok (db <| events := t |>, ids).

(** [SELECT ... FROM events WHERE id = $1] *)
Definition get_event (id : uuid) : txn Event :=
  e <-! tget (fun _ db => db.(events) !! id) ;; tsome e (ErrMsg "no rows in result set").

(** [ClaimUndeliveredEvents] *)
Definition ClaimUndeliveredEvents (owner : string) (leaseTTL : duration) (limit maxAttempts : Z) :
    M (res (list Event)) :=
  if String.eqb owner "" then mret (Err (ErrMsg "claim owner required"))
  else
    let leaseTTL := if leaseTTL <=? 0 then 2 * Minute else leaseTTL in
    let limit := if limit <=? 0 then 50 else limit in
    let maxAttempts := if maxAttempts <=? 0 then 10 else maxAttempts in
    now <-- time_now ;;
    ids <-? store_call (claim_events_tx owner (now + leaseTTL) limit maxAttempts) ;;
    mcollect ids (fun id => store_call (get_event id)).

(** What the two marks write. *)
Definition mark_delivered (now : time) (e : Event) : Event :=
  e <| e_DeliveredAt := Some now |> <| e_LeaseOwner := None |> <| e_LeaseExpiresAt := None |>.
Definition mark_failed (errMsg : string) (e : Event) : Event :=
  e <| e_Attempts ::= Z.add 1 |> <| e_LastError := Some errMsg |>
    <| e_LeaseOwner := None |> <| e_LeaseExpiresAt := None |>.

(** [MarkEventDelivered]: the number of rows is not looked at. *)
Definition MarkEventDelivered (id : uuid) : M (res unit) :=
  store_call (tmod (fun c db => db <| events ::= alter (mark_delivered c.(NOW)) id |>)).

(** [MarkEventFailed] *)
Definition MarkEventFailed (id : uuid) (errMsg : string) : M (res unit) :=
  store_call (tmod (fun _ db => db <| events ::= alter (mark_failed errMsg) id |>)).
End Outbox.

(** ** Lemmas *)

Section OutboxFacts.
Context `{UuidGen}.

Lemma appendEventTx_ok ty cert payload c db db' :
  appendEventTx ty cert payload c db = Ok (db', tt) ->
  exists id, db.(events) !! id = None /\
    db' = db <| gen ::= S |> <| events ::= <[id := {|
      e_ID := id; e_EventType := ty; e_CertificateID := cert; e_Payload := payload;
      e_CreatedAt := c.(NOW); e_DeliveredAt := None; e_Attempts := 0; e_LastError := None;
      e_LeaseOwner := None; e_LeaseExpiresAt := None |}]> |>.
Proof.
  unfold appendEventTx. intros. txn_inv. b2p. eexists. split; [done|reflexivity].
Qed.

Lemma claim_events_sound owner expires limit maxA c db db' ids id :
  claim_events_tx owner expires limit maxA c db = Ok (db', ids) -> id ∈ ids ->
  exists e, db.(events) !! id = Some e /\ event_claimable maxA c.(NOW) e = true /\
    id ∉ c.(locked) /\ db'.(events) !! id = Some (lease_event owner expires e).
Proof.
  unfold claim_events_tx. destruct (claim _ _ _ _ _ _) as [t l] eqn:E. intros [= <- <-].
  eapply claim_sound; eauto.
Qed.
End OutboxFacts.

(** ** What the outbox calls may do to an event *)

Definition delivered (db : DB) (k : uuid) : Prop :=
  exists e, db.(events) !! k = Some e /\ e.(e_DeliveredAt) <> None.

(** No event has become delivered. *)
Definition no_delivery (db db' : DB) : Prop := forall k, delivered db' k -> delivered db k.

#[export] Instance no_delivery_preorder : PreOrder no_delivery.
Proof. split; [by intros db k|]. intros d1 d2 d3 H12 H23 k Hk. by apply H12, H23. Qed.

Section OutboxMoves.
Context `{UuidGen}.

Lemma moves_ClaimUndeliveredEvents o d l m :
  moves (evolves no_delivery) (ClaimUndeliveredEvents o d l m).
Proof.
  unfold ClaimUndeliveredEvents. destruct (String.eqb o ""); moves_tac.
  - apply moves_store_call; [exact _|]. intros c db db' ids Hc k (e & He & Hd).
    unfold claim_events_tx in Hc. destruct (claim _ _ _ _ _ _) as [t l'] eqn:E.
    injection Hc as <- <-. simpl in He. rewrite (claim_lookup _ _ _ _ _ _ _ _ k E) in He.
    unfold delivered. case_decide; [|by eauto].
    apply fmap_Some in He as (e0 & He & ->). eauto.
  - apply moves_store_call; [exact _|]. intros c db db' e He. unfold get_event in He.
    txn_inv. done.
Qed.

Lemma moves_MarkEventFailed id msg : moves (evolves no_delivery) (MarkEventFailed id msg).
Proof.
  apply moves_store_call; [exact _|]. intros c db db' u Hu k (e & He & Hd). txn_inv.
  unfold delivered. rewrite lookup_alter in He. case_decide; [|by eauto]. subst.
  apply fmap_Some in He as (e0 & He & ->). eauto.
Qed.

Lemma MarkEventDelivered_delivers id w r w' :
  MarkEventDelivered id w = (r, w') ->
  w.(w_sent) `prefix_of` w'.(w_sent) /\
  (others_ok no_delivery w -> others_ok no_delivery w' /\
   forall k, delivered w'.(w_db) k -> delivered w.(w_db) k \/ k = id).
Proof.
  intros (e & w1 & He & Hcase)%store_call_spec.
  destruct (evolves_next_env no_delivery _ _ _ He) as (_ & Hs & Ho).
  destruct Hcase as [[-> _]|(a & db' & Hf & -> & _)].
  - split; [done|]. intros [? Hn]%Ho. split; [done|]. intros k Hk%Hn. by left.
  - txn_inv. split; [done|]. intros [? Hn]%Ho. split; [done|].
    intros k (e0 & He0 & Hd). simpl in He0. destruct (decide (k = id)); [by right|].
    left. apply Hn. rewrite lookup_alter_ne in He0 by done. by exists e0.
Qed.
End OutboxMoves.
#[export] Hint Resolve moves_ClaimUndeliveredEvents moves_MarkEventFailed : moves.

(** ** Runs without interference *)

(** The primary key of a row is its [id] column. *)
Definition events_keyed (db : DB) : Prop :=
  forall k e, db.(events) !! k = Some e -> e.(e_ID) = k.

Section Calm.
Context `{UuidGen}.

Lemma appendEventTx_keyed ty cert payload c db db' :
  appendEventTx ty cert payload c db = Ok (db', tt) -> events_keyed db -> events_keyed db'.
Proof.
  intros (id & _ & ->)%appendEventTx_ok Hk k e. simpl. rewrite lookup_insert.
  case_decide; [by intros [= <-]|apply Hk].
Qed.

(** Without interference a claim returns the rows it leased. *)
Lemma ClaimUndeliveredEvents_calm o d l m w :
  w.(w_env) = [] -> events_keyed w.(w_db) -> o <> ""%string ->
  let d' := if d <=? 0 then 2 * Minute else d in
  let l' := if l <=? 0 then 50 else l in
  let m' := if m <=? 0 then 10 else m in
  exists t ids rows,
    claim (event_claimable m' w.(w_clock)) oldest_first (Z.to_nat l')
      (lease_event o (w.(w_clock) + d')) ∅ w.(w_db).(events) = (t, ids) /\
    ClaimUndeliveredEvents o d l m w = (Ok rows, w <| w_db ::= (fun db => db <| events := t |>) |>) /\
    map e_ID rows = ids /\ NoDup ids.
Proof.
  intros Henv Hkey Ho. unfold ClaimUndeliveredEvents.
  destruct (String.eqb_spec o ""); [done|]. cbv zeta.
  set (d' := if d <=? 0 then _ else d). set (l' := if l <=? 0 then _ else l).
  set (m' := if m <=? 0 then _ else m).
  destruct (claim (event_claimable m' (w_clock w)) oldest_first (Z.to_nat l')
    (lease_event o (w_clock w + d')) ∅ (events (w_db w))) as [t ids] eqn:EC.
  unfold mtry, mbind, time_now, next_env. rewrite Henv. cbn [w_clock].
  rewrite store_call_calm by done. unfold claim_events_tx. cbn [NOW locked]. rewrite EC.
  set (w1 := w <| w_db := _ |>).
  assert (exists rows, Forall2 (fun k e => t !! k = Some e /\ e.(e_ID) = k) ids rows) as [rows Hrows].
  { apply Forall_exists_Forall2_l, Forall_forall. intros k Hk.
    destruct (claim_sound _ _ _ _ _ _ _ _ _ EC Hk) as (r & Hr & _ & _ & Ht).
    exists (lease_event o (w_clock w + d') r). split; [done|]. exact (Hkey k r Hr). }
  exists t, ids, rows. split_and!; [done| | |injection EC as _ <-; apply select_NoDup].
  - apply mcollect_reads. eapply Forall2_impl; [exact Hrows|]. intros k e [He _].
    apply store_call_read; [done|]. unfold get_event, tbind, tget, tsome, tret. simpl. by rewrite He.
  - clear -Hrows. induction Hrows as [|k e ks rows [_ He] _ IH]; simpl; congruence.
Qed.
End Calm.

(** ** Emission

    [emits cert tys db db']: the events of [db'] are those of [db] and one new
    undelivered event of each type in [tys] about [cert], in this order. *)
Inductive emits (cert : option uuid) : list string -> DB -> DB -> Prop :=
| emits_nil db db' : db'.(events) = db.(events) -> emits cert [] db db'
| emits_cons ty tys ev db db1 db' :
    db.(events) !! ev.(e_ID) = None -> ev.(e_EventType) = ty -> ev.(e_CertificateID) = cert ->
    ev.(e_DeliveredAt) = None -> ev.(e_Attempts) = 0 -> ev.(e_LeaseExpiresAt) = None ->
    db1.(events) = <[ev.(e_ID) := ev]> db.(events) ->
    emits cert tys db1 db' -> emits cert (ty :: tys) db db'.

Lemma emits_app cert tys1 tys2 db1 db2 db3 :
  emits cert tys1 db1 db2 -> emits cert tys2 db2 db3 -> emits cert (tys1 ++ tys2) db1 db3.
Proof.
  induction 1 as [db db' E|]; intros Hrest; simpl; [|by econstructor; eauto].
  destruct Hrest as [d1 d2 E2|ty tys ev d1 d2 d3]; [constructor; congruence|].
  econstructor; eauto; congruence.
Qed.

Lemma emits_same cert db db' : db'.(events) = db.(events) -> emits cert [] db db'.
Proof. constructor. done. Qed.

Section Emission.
Context `{UuidGen}.

Lemma appendEventTx_emits ty cert payload c db db' u :
  appendEventTx ty cert payload c db = Ok (db', u) -> emits cert [ty] db db'.
Proof.
  destruct u. intros (k & Hk & ->)%appendEventTx_ok.
  eapply (emits_cons cert ty [] (Build_Event k ty cert payload _ None 0 None None None) _
    (db <| gen ::= S |> <| events ::= <[k := _]> |>)); try done. by constructor.
Qed.
End Emission.
