(* ===== verification/Dispatcher.v ===== *)
(** * The event dispatcher and the ITSM sink

    [internal/eventbus/dispatcher.go] and [internal/itsm/sink.go], against the
    interface [eventStore] the dispatcher declares. *)

From S2P Require Import Prelude GoLib Db Queue Sha256 Sends Outbox.

Open Scope clm_scope.

(** [eventStore]: the outbox surface the dispatcher needs. *)
Class EventStore := {
  es_ClaimUndeliveredEvents : string -> duration -> Z -> Z -> M (res (list Event));
  es_MarkEventDelivered : uuid -> M (res unit);
  es_MarkEventFailed : uuid -> string -> M (res unit)
}.

#[export] Instance pg_event_store `{UuidGen} : EventStore := {
  es_ClaimUndeliveredEvents := ClaimUndeliveredEvents;
  es_MarkEventDelivered := MarkEventDelivered;
  es_MarkEventFailed := MarkEventFailed
}.

(** What answers an HTTP POST, a status code or a transport error, per service
    and number of calls made so far; and the text [json.Marshal] gives. *)
Class HttpPeer := {
  http_do : service -> nat -> result string Z;
  json_Marshal : json -> string
}.

(** [Config] *)
Record Config := Build_Config {
  WebhookURL : string;
  Token : string;
  Interval : duration;
  BatchSize : Z;
  MaxAttempts : Z;
  Owner : string;
  LeaseTTL : duration;
  ITSMWebhookURL : string;
  ITSMWebhookHMACSecret : string
}.
#[export] Instance Config_eta : Eta Config := fun x =>
  Build_Config (x.(WebhookURL)) (x.(Token)) (x.(Interval)) (x.(BatchSize)) (x.(MaxAttempts))
    (x.(Owner)) (x.(LeaseTTL)) (x.(ITSMWebhookURL)) (x.(ITSMWebhookHMACSecret)).

(** [New]: the defaults.  The ITSM sink exists when its URL is set, so the
    sink's own [Configured] is [ITSMWebhookURL <> ""] too. *)
Definition New (cfg : Config) : Config :=
  cfg <| Interval ::= (fun i => if i <=? 0 then 15 * Second else i) |>
      <| BatchSize ::= (fun n => if n <=? 0 then 50 else n) |>
      <| MaxAttempts ::= (fun n => if n <=? 0 then 10 else n) |>
      <| Owner ::= (fun o => if String.eqb o "" then "eda-dispatcher"%string else o) |>
      <| LeaseTTL ::= (fun d => if d <=? 0 then 2 * Minute else d) |>.

Definition eda_configured (cfg : Config) : bool := negb (String.eqb cfg.(WebhookURL) "").
Definition itsm_configured (cfg : Config) : bool := negb (String.eqb cfg.(ITSMWebhookURL) "").

(** [Dispatcher.Configured] *)
Definition Configured (cfg : Config) : bool := eda_configured cfg || itsm_configured cfg.

Definition json_opt {A} (f : A -> json) (o : option A) : json :=
  match o with Some a => f a | None => JNull end.

(** [json.Marshal(e)] *)
Definition event_json (e : Event) : json := JObj [
  ("id"%string, JStr e.(e_ID));
  ("event_type"%string, JStr e.(e_EventType));
  ("certificate_id"%string, json_opt JStr e.(e_CertificateID));
  ("payload"%string, e.(e_Payload));
  ("created_at"%string, JTime e.(e_CreatedAt));
  ("delivered_at"%string, json_opt JTime e.(e_DeliveredAt));
  ("attempts"%string, JNum e.(e_Attempts));
  ("last_error"%string, json_opt JStr e.(e_LastError))].

(** [summaryFor]; the dash of the source is spelled as a hyphen. *)
Definition summaryFor (eventType : string) : string :=
  if String.eqb eventType "cert.discovered" then "CLM: new certificate discovered"
  else if String.eqb eventType "cert.expiring" then "CLM: certificate expiring soon"
  else if String.eqb eventType "cert.revoked" then "CLM: certificate revoked"
  else if String.eqb eventType "blind_spot.detected" then "CLM: blind spot detected"
  else if bool_decide (eventType ∈ ["renewal.requested"; "renewal.launched"; "renewal.verified";
                                    "renewal.failed"; "renewal.timed_out"]%string)
  then ("CLM: renewal lifecycle - " ++ eventType)%string
  else ("CLM catalogue event: " ++ eventType)%string.

(** [Render]: the ticket.  [json.Marshal] of a map sorts the keys. *)
Definition Render (e : Event) : json := JObj [
  ("created_at"%string, JTime (truncate_second e.(e_CreatedAt)));
  ("event_id"%string, JStr e.(e_ID));
  ("event_type"%string, JStr e.(e_EventType));
  ("payload"%string, e.(e_Payload));
  ("source"%string, JStr "clm");
  ("summary"%string, JStr (summaryFor e.(e_EventType)))].

Definition status_ok (n : Z) : bool := (200 <=? n) && (n <? 300).

(** A POST of a JSON document: where to, the headers beside [Content-Type],
    and the document. *)
Definition http_post (webhookURL : string) (headers : list (string * string)) (body : json) : json := JObj [
  ("body"%string, body); ("headers"%string, JObj (map (fun kv => (kv.1, JStr kv.2)) headers));
  ("url"%string, JStr webhookURL)].
Definition bearer_header (token : string) : list (string * string) :=
  if String.eqb token "" then [] else [("Authorization", "Bearer " ++ token)%string].

Section Dispatcher.
Context `{EventStore, HttpPeer}.

(** The signature of the bytes sent, under the configured secret. *)
Definition signature (secret : string) (body : json) : string :=
  ("sha256=" ++ hex_EncodeToString (HMAC (bytes_of secret) (bytes_of (json_Marshal body))))%string.
Definition signature_header (secret : string) (body : json) : list (string * string) :=
  if String.eqb secret "" then [] else [("X-CLM-Signature"%string, signature secret body)].

(** [postWebhook]; [id] is the event the body is about. *)
Definition postWebhook (webhookURL token : string) (id : uuid) (body : json) : M (res unit) :=
  r <-- net_call {| nc_service := SvcEDA; nc_subject := id;
                    nc_body := http_post webhookURL (bearer_header token) body |} (http_do SvcEDA) ;;
  mret (match r with
        | Err e => Err (ErrMsg ("post event: " ++ e))
        | Ok status =>
            if negb (status_ok status) then Err (ErrMsg ("eda webhook status " ++ Itoa status))
            else Ok tt
        end).

(** [Sink.Deliver] *)
Definition Sink_Deliver (cfg : Config) (e : Event) : M (res unit) :=
  if negb (itsm_configured cfg) then mret (Err (ErrMsg "itsm webhook is not configured"))
  else
    r <-- net_call {| nc_service := SvcITSM; nc_subject := e.(e_ID);
                      nc_body := http_post cfg.(ITSMWebhookURL) (signature_header cfg.(ITSMWebhookHMACSecret) (Render e)) (Render e) |}
                   (http_do SvcITSM) ;;
    mret (match r with
          | Err e => Err (ErrMsg ("post itsm: " ++ e))
          | Ok status =>
              if negb (status_ok status) then Err (ErrMsg ("itsm webhook status " ++ Itoa status))
              else Ok tt
          end).

(** [Dispatcher.deliver] *)
Definition deliver (cfg : Config) (e : Event) : M (res unit) :=
  _ <-? (if eda_configured cfg then postWebhook cfg.(WebhookURL) cfg.(Token) e.(e_ID) (event_json e) else mret (Ok tt)) ;;
  _ <-? (if itsm_configured cfg then Sink_Deliver cfg e else mret (Ok tt)) ;;
  if negb (eda_configured cfg) && negb (itsm_configured cfg)
  then mret (Err (ErrMsg "no delivery sink configured"))
  else mret (Ok tt).

(** The body of the loop of [RunOnce]; [true] counts as delivered. *)
Definition dispatch_one (cfg : Config) (e : Event) : M bool :=
  derr <-- deliver cfg e ;;
  match derr with
  | Err derr =>
      _ <-- es_MarkEventFailed e.(e_ID) (error_text derr) ;;
      mret false
  | Ok _ =>
      merr <-- es_MarkEventDelivered e.(e_ID) ;;
      match merr with
      | Err merr =>
          _ <-- es_MarkEventFailed e.(e_ID) ("delivered but not recorded: " ++ error_text merr) ;;
          mret false
      | Ok _ => mret true
      end
  end.

Fixpoint dispatch_all (cfg : Config) (l : list Event) (delivered failed : Z) : M (Z * Z) :=
  match l with
  | [] => mret (delivered, failed)
  | e :: l' =>
      ok <-- dispatch_one cfg e ;;
      if ok then dispatch_all cfg l' (delivered + 1) failed
      else dispatch_all cfg l' delivered (failed + 1)
  end.

(** [Dispatcher.RunOnce]: delivered and failed counts. *)
Definition RunOnce (cfg : Config) : M (res (Z * Z)) :=
  events <-? es_ClaimUndeliveredEvents cfg.(Owner) cfg.(LeaseTTL) cfg.(BatchSize) cfg.(MaxAttempts) ;;
  n <-- dispatch_all cfg events 0 0 ;;
  mret (Ok n).

(** [Ping] *)
Definition Ping (webhookURL token : string) (id : uuid) : M (res unit) :=
  if String.eqb webhookURL "" then mret (Err (ErrMsg "eda webhook is not configured"))
  else
    now <-- time_now ;;
    postWebhook webhookURL token id (JObj [("created_at"%string, JTime (truncate_second now));
                          ("event_type"%string, JStr "clm.connection.test");
                          ("id"%string, JStr id)]).
End Dispatcher.

(** ** Deliveries are accepted posts *)

Section DispatcherFacts.
Context `{UuidGen, HttpPeer}.

(** Between the logs [lo] and [hi], a post to [svc] about [k] was answered 2xx. *)
Definition accepted (svc : service) (k : uuid) (lo hi : list netcall) : Prop :=
  exists i c st, (length lo <= i)%nat /\ hi !! i = Some c /\ c.(nc_service) = svc /\
    c.(nc_subject) = k /\ http_do svc i = Ok st /\ status_ok st = true.

(** Every configured sink accepted the event, and there is one. *)
Definition sinks_accepted (cfg : Config) (k : uuid) (lo hi : list netcall) : Prop :=
  Configured cfg = true /\
  (eda_configured cfg = true -> accepted SvcEDA k lo hi) /\
  (itsm_configured cfg = true -> accepted SvcITSM k lo hi).

Lemma accepted_mono svc k lo hi lo' hi' :
  accepted svc k lo hi -> lo' `prefix_of` lo -> hi `prefix_of` hi' -> accepted svc k lo' hi'.
Proof.
  intros (i & c & st & Hi & Hc & ?) Hlo%prefix_length Hhi. exists i, c, st.
  split_and!; [lia| |naive_solver..]. by eapply prefix_lookup_Some.
Qed.

Lemma sinks_accepted_mono cfg k lo hi lo' hi' :
  sinks_accepted cfg k lo hi -> lo' `prefix_of` lo -> hi `prefix_of` hi' ->
  sinks_accepted cfg k lo' hi'.
Proof. intros (? & ? & ?) ??. split_and!; eauto using accepted_mono. Qed.

(** Nothing of a delivery touches the database. *)
Section Deliver.
Context (P : DB -> DB -> Prop) `{!PreOrder P}.

Lemma net_call_accepted svc k body w r w' :
  net_call {| nc_service := svc; nc_subject := k; nc_body := body |} (http_do svc) w = (r, w') ->
  evolves P w w' /\
  forall st, r = Ok st -> status_ok st = true -> accepted svc k w.(w_sent) w'.(w_sent).
Proof.
  intros E. split; [by eapply moves_net_call; [exact _|]|]. revert E. unfold net_call.
  destruct (next_env w) as [e w1] eqn:He. intros [= <- <-] st Hr Hst.
  apply next_env_spec in He as (_ & _ & Hs & _). rewrite Hs in *.
  exists (length (w_sent w)), {| nc_service := svc; nc_subject := k; nc_body := body |}, st.
  split_and!; try done. simpl. rewrite Hs. by apply list_lookup_middle.
Qed.

Lemma postWebhook_ok u t k body w r w' :
  postWebhook u t k body w = (r, w') ->
  evolves P w w' /\ (is_ok r = true -> accepted SvcEDA k w.(w_sent) w'.(w_sent)).
Proof.
  unfold postWebhook, mbind. destruct (net_call _ _ w) as [r0 w1] eqn:E. intros [= <- <-].
  destruct (net_call_accepted _ _ _ _ _ _ E) as [He Ha]. split; [done|].
  destruct r0 as [st|]; simpl; [|done]. destruct (status_ok st) eqn:Es; simpl; [|done].
  intros _. by eapply Ha.
Qed.

Lemma Sink_Deliver_ok cfg e w r w' :
  Sink_Deliver cfg e w = (r, w') ->
  evolves P w w' /\ (is_ok r = true -> accepted SvcITSM e.(e_ID) w.(w_sent) w'.(w_sent)).
Proof.
  unfold Sink_Deliver, mbind. destruct (itsm_configured cfg); simpl.
  - destruct (net_call _ _ w) as [r0 w1] eqn:E. intros [= <- <-].
    destruct (net_call_accepted _ _ _ _ _ _ E) as [He Ha]. split; [done|].
    destruct r0 as [st|]; simpl; [|done]. destruct (status_ok st) eqn:Es; simpl; [|done].
    intros _. by eapply Ha.
  - intros [= <- <-]. split; [apply wr_refl|done].
Qed.

Lemma deliver_ok cfg e w r w' :
  deliver cfg e w = (r, w') ->
  evolves P w w' /\ (is_ok r = true -> sinks_accepted cfg e.(e_ID) w.(w_sent) w'.(w_sent)).
Proof.
  unfold deliver, mtry, mbind, sinks_accepted, Configured.
  destruct (eda_configured cfg) eqn:E1.
  - destruct (postWebhook _ _ _ _ w) as [[u|er] w1] eqn:Pw.
    + apply postWebhook_ok in Pw as [P1 P2]. specialize (P2 eq_refl).
      destruct (itsm_configured cfg) eqn:E2; simpl.
      * destruct (Sink_Deliver _ _ w1) as [[u'|er] w2] eqn:Q; apply Sink_Deliver_ok in Q as [Q1 Q2];
          intros [= <- <-]; (split; [by eapply wr_trans|]); [|done].
        specialize (Q2 eq_refl). intros _. split_and!; intros; [done| |];
          eapply accepted_mono; eauto; [apply Q1|apply P1].
      * intros [= <- <-]. split; [done|]. intros _. by split_and!; intros.
    + apply postWebhook_ok in Pw as [P1 _]. by intros [= <- <-].
  - destruct (itsm_configured cfg) eqn:E2; simpl.
    + destruct (Sink_Deliver _ _ w) as [[u'|er] w2] eqn:Q; apply Sink_Deliver_ok in Q as [Q1 Q2];
        intros [= <- <-]; (split; [done|]); [|done].
      intros _. by split_and!; intros; [..|apply Q2].
    + intros [= <- <-]. split; [apply wr_refl|done].
Qed.
End Deliver.

(** Events become delivered only when accepted. *)
Definition delivers (cfg : Config) (w w' : World) : Prop :=
  w.(w_sent) `prefix_of` w'.(w_sent) /\
  (others_ok no_delivery w -> others_ok no_delivery w' /\
   forall k, delivered w'.(w_db) k ->
     delivered w.(w_db) k \/ sinks_accepted cfg k w.(w_sent) w'.(w_sent)).

#[local] Instance delivers_rel cfg : WorldRel (delivers cfg).
Proof.
  split.
  - intros w. split; [done|]. intros; split; [done|]. by left.
  - intros w1 w2 w3 [Hs1 H1] [Hs2 H2]. split; [by etransitivity|].
    intros Ho. destruct (H1 Ho) as [Ho2 Hd1], (H2 Ho2) as [Ho3 Hd2]. split; [done|].
    intros k [Hk|Hk]%Hd2; [apply Hd1 in Hk as [Hk|Hk]|]; [by left|right..];
      eapply sinks_accepted_mono; eauto.
Qed.

Lemma evolves_delivers cfg w w' : evolves no_delivery w w' -> delivers cfg w w'.
Proof.
  intros (_ & Hs & Ho). split; [done|]. intros [Ho' Hn]%Ho. split; [done|].
  intros k Hk%Hn. by left.
Qed.

Lemma moves_delivers {A} cfg (m : M A) : moves (evolves no_delivery) m -> moves (delivers cfg) m.
Proof. intros Hm w a w' E. by eapply evolves_delivers, Hm. Qed.

Lemma moves_dispatch_one cfg e : moves (delivers cfg) (dispatch_one cfg e).
Proof.
  intros w ok w'. unfold dispatch_one, mbind.
  destruct (deliver cfg e w) as [[u|er] w1] eqn:D; apply (deliver_ok no_delivery) in D as [D1 D2]; simpl.
  - destruct (MarkEventDelivered (e_ID e) w1) as [mr w2] eqn:Md.
    pose proof (MarkEventDelivered_delivers _ _ _ _ Md) as [Ms Mo].
    assert (delivers cfg w w2) as Hd.
    { destruct D1 as (_ & Ds & Do). split; [by etransitivity|]. intros [Ho1 Hn1]%Do.
      destruct (Mo Ho1) as [Ho2 Hn2]. split; [done|]. intros k [Hk| ->]%Hn2; [left; by apply Hn1|].
      right. by eapply sinks_accepted_mono; [apply D2| |]. }
    destruct mr as [?|me]; [by intros [= <- <-]|].
    destruct (MarkEventFailed _ _ w2) as [fr w3] eqn:F. intros [= <- <-].
    eapply wr_trans; [exact Hd|]. by eapply evolves_delivers, moves_MarkEventFailed.
  - destruct (MarkEventFailed _ _ w1) as [fr w3] eqn:F. intros [= <- <-].
    eapply wr_trans; [by apply evolves_delivers|]. by eapply evolves_delivers, moves_MarkEventFailed.
Qed.

Lemma moves_dispatch_all cfg l d f : moves (delivers cfg) (dispatch_all cfg l d f).
Proof.
  revert d f; induction l as [|e l IH]; intros d f; simpl; [apply moves_ret; exact _|].
  apply moves_bind; [exact _|apply moves_dispatch_one|]. by intros [].
Qed.

(** An event becomes delivered during a dispatch cycle only if every
    configured sink answered a post about it with a 2xx status in that cycle,
    whatever the store, the network and the other replicas do. *)
Theorem RunOnce_delivers cfg w r w' :
  RunOnce cfg w = (r, w') ->
  others_ok no_delivery w ->
  forall k, delivered w'.(w_db) k ->
    delivered w.(w_db) k \/ sinks_accepted cfg k w.(w_sent) w'.(w_sent).
Proof.
  intros E Ho. assert (moves (delivers cfg) (RunOnce cfg)) as Hm.
  { apply moves_try; [exact _|apply moves_delivers, moves_ClaimUndeliveredEvents|].
    intros l. apply moves_bind; [exact _|apply moves_dispatch_all|].
    intros n. apply moves_ret. exact _. }
  apply Hm in E as [_ E]. by apply E.
Qed.
End DispatcherFacts.

(** ** Cycles without interference *)

Section DispatcherCalm.
Context `{UuidGen, HttpPeer}.

(** What the delivery of one event adds to the log. *)
Definition new_posts (k : uuid) (l l' : list netcall) : Prop :=
  forall svc k', (posts svc k' l' <= posts svc k' l + (if decide (k' = k) then 1 else 0))%nat.

Lemma new_posts_snoc k l svc body :
  new_posts k l (l ++ [{| nc_service := svc; nc_subject := k; nc_body := body |}]).
Proof.
  intros svc' k'. rewrite posts_app. unfold posts at 2. rewrite filter_cons.
  case_decide as Hd; simpl; [|lia]. destruct Hd as [_ Hd]. simpl in Hd. rewrite decide_True; [lia|done].
Qed.

Lemma postWebhook_calm u t k body w :
  w.(w_env) = [] ->
  exists r body', postWebhook u t k body w =
    (r, w <| w_sent := w.(w_sent) ++ [{| nc_service := SvcEDA; nc_subject := k; nc_body := body' |}] |>).
Proof. intros Henv. unfold postWebhook, mbind. rewrite net_call_calm by done. by eexists _, _. Qed.

Lemma Sink_Deliver_calm cfg e w :
  w.(w_env) = [] -> itsm_configured cfg = true ->
  exists r body', Sink_Deliver cfg e w =
    (r, w <| w_sent := w.(w_sent) ++ [{| nc_service := SvcITSM; nc_subject := e.(e_ID); nc_body := body' |}] |>).
Proof. intros Henv Hi. unfold Sink_Deliver, mbind. rewrite Hi. simpl. rewrite net_call_calm by done. by eexists _, _. Qed.

Lemma deliver_calm cfg e w :
  w.(w_env) = [] ->
  exists r sent', deliver cfg e w = (r, w <| w_sent := sent' |>) /\
    new_posts e.(e_ID) w.(w_sent) sent'.
Proof.
  intros Henv. unfold deliver, mtry, mbind.
  assert (forall body body', new_posts e.(e_ID) w.(w_sent)
    ((w.(w_sent) ++ [{| nc_service := SvcEDA; nc_subject := e.(e_ID); nc_body := body |}])
     ++ [{| nc_service := SvcITSM; nc_subject := e.(e_ID); nc_body := body' |}])) as Htwo.
  { intros b b' svc k. pose proof (new_posts_snoc e.(e_ID) w.(w_sent) SvcEDA b svc k) as H1.
    pose proof (new_posts_snoc e.(e_ID) w.(w_sent) SvcITSM b' svc k) as H2.
    rewrite !posts_app in *. unfold posts in *. rewrite !filter_cons in *.
    repeat case_decide; simpl in *; naive_solver lia. }
  destruct (eda_configured cfg) eqn:E1, (itsm_configured cfg) eqn:E2; simpl.
  - destruct (postWebhook_calm cfg.(WebhookURL) cfg.(Token) e.(e_ID) (event_json e) w Henv) as ([u|er] & b1 & ->); simpl.
    + edestruct (Sink_Deliver_calm cfg e) as ([u'|er'] & b2 & Hs); [|exact E2|rewrite Hs..]; [done|..];
        eexists _, _; (split; [reflexivity|apply Htwo]).
    + eexists _, _. split; [reflexivity|apply new_posts_snoc].
  - destruct (postWebhook_calm cfg.(WebhookURL) cfg.(Token) e.(e_ID) (event_json e) w Henv) as ([u|er] & b1 & ->); simpl;
      eexists _, _; (split; [reflexivity|apply new_posts_snoc]).
  - destruct (Sink_Deliver_calm cfg e w Henv E2) as ([u'|er'] & b2 & ->);
      eexists _, _; (split; [reflexivity|apply new_posts_snoc]).
  - exists (Err (ErrMsg "no delivery sink configured")), w.(w_sent). split; [by destruct w|].
    intros ??. lia.
Qed.

(** The fate of an event in a calm cycle. *)
Definition dispatched (cfg : Config) (now : time) (lo hi : list netcall) (ok : bool) (e e' : Event) : Prop :=
  if ok then e' = mark_delivered now e /\ sinks_accepted cfg e.(e_ID) lo hi
  else exists msg, e' = mark_failed msg e.

Lemma dispatch_one_calm cfg e w :
  w.(w_env) = [] ->
  exists ok w' f, dispatch_one cfg e w = (ok, w') /\ w'.(w_env) = [] /\ w'.(w_clock) = w.(w_clock) /\
    w'.(w_db) = w.(w_db) <| events ::= alter f e.(e_ID) |> /\
    (forall e0, e0.(e_ID) = e.(e_ID) -> dispatched cfg w.(w_clock) w.(w_sent) w'.(w_sent) ok e0 (f e0)) /\
    new_posts e.(e_ID) w.(w_sent) w'.(w_sent) /\ w.(w_sent) `prefix_of` w'.(w_sent).
Proof.
  intros Henv. unfold dispatch_one, mbind.
  destruct (deliver_calm cfg e w Henv) as (r & sent' & Hd & Hp).
  destruct (deliver_ok no_delivery _ _ _ _ _ Hd) as [(_ & Hs & _) Hacc]. rewrite Hd. destruct r as [u|er]; simpl.
  - unfold MarkEventDelivered. rewrite store_call_calm by done. simpl.
    exists true, (w <| w_sent := sent' |> <| w_db ::= (fun db => db <| events ::= alter (mark_delivered w.(w_clock)) e.(e_ID) |>) |>),
      (mark_delivered w.(w_clock)).
    split_and!; try done. intros e0 He0. split; [done|rewrite He0; by apply Hacc].
  - unfold MarkEventFailed. rewrite store_call_calm by done. simpl.
    exists false, (w <| w_sent := sent' |> <| w_db ::= (fun db => db <| events ::= alter (mark_failed (error_text er)) e.(e_ID) |>) |>),
      (mark_failed (error_text er)).
    split_and!; try done. intros e0 _. by eexists.
Qed.

Lemma dispatched_mono cfg now lo hi lo' hi' ok e e' :
  dispatched cfg now lo hi ok e e' -> lo' `prefix_of` lo -> hi `prefix_of` hi' ->
  dispatched cfg now lo' hi' ok e e'.
Proof. unfold dispatched. destruct ok; [|done]. intros [??] ??. eauto using sinks_accepted_mono. Qed.

Lemma filter_agree (p q : uuid -> bool) b (l : list uuid) k0 :
  k0 ∉ l -> (forall k, k <> k0 -> p k = q k) ->
  filter (fun k => p k = b) l = filter (fun k => q k = b) l.
Proof.
  intros Hni Hpq. induction l as [|k l IH]; [done|].
  apply not_elem_of_cons in Hni as [? ?]. rewrite !filter_cons, IH by done.
  specialize (Hpq k). do 2 case_decide; naive_solver.
Qed.

(** A batch: every event of it is dispatched once, the others keep their row. *)
Definition batch (cfg : Config) (now : time) (l : list uuid) (w w' : World) (oks : uuid -> bool) : Prop :=
  (forall k, k ∉ l -> w'.(w_db).(events) !! k = w.(w_db).(events) !! k) /\
  (forall k e, k ∈ l -> w.(w_db).(events) !! k = Some e -> e.(e_ID) = k ->
     exists e', w'.(w_db).(events) !! k = Some e' /\
       dispatched cfg now w.(w_sent) w'.(w_sent) (oks k) e e') /\
  (forall svc k, (posts svc k w'.(w_sent) <= posts svc k w.(w_sent) + (if decide (k ∈ l) then 1 else 0))%nat).

Lemma dispatch_all_calm cfg l d f w :
  w.(w_env) = [] -> NoDup (map e_ID l) ->
  exists w' oks, dispatch_all cfg l d f w =
      ((d + Z.of_nat (length (filter (fun k => oks k = true) (map e_ID l))),
        f + Z.of_nat (length (filter (fun k => oks k = false) (map e_ID l)))), w') /\
    w'.(w_env) = [] /\ w'.(w_clock) = w.(w_clock) /\ w.(w_sent) `prefix_of` w'.(w_sent) /\
    (exists t, w'.(w_db) = w.(w_db) <| events := t |>) /\
    batch cfg w.(w_clock) (map e_ID l) w w' oks.
Proof.
  revert d f w. induction l as [|e l IH]; intros d f w Henv Hnd; simpl.
  { exists w, (fun _ => true). unfold mret. rewrite !Z.add_0_r. split_and!; try done.
    - exists (events (w_db w)). by destruct w as [[] ? ? ?].
    - split_and!; [done|by intros ?? ?%elem_of_nil|intros; lia]. }
  apply NoDup_cons in Hnd as [Hni Hnd].
  destruct (dispatch_one_calm cfg e w Henv)
    as (ok & w1 & g & E1 & Henv1 & Hc1 & Hdb1 & Hg & Hp1 & Hs1).
  unfold mbind. rewrite E1.
  destruct (IH (if ok then d + 1 else d) (if ok then f else f + 1) w1 Henv1 Hnd)
    as (w2 & oks & E2 & Henv2 & Hc2 & Hs2 & (t & Ht) & Hb1 & Hb2 & Hb3).
  set (oks' := fun k => if decide (k = e_ID e) then ok else oks k).
  assert (oks' (e_ID e) = ok) as Hok by (unfold oks'; by rewrite decide_True).
  assert (forall k, k <> e_ID e -> oks' k = oks k) as Hoks by (intros; unfold oks'; by rewrite decide_False).
  exists w2, oks'. split_and!; try congruence.
  - assert (forall b, filter (fun k => oks' k = b) (map e_ID l) = filter (fun k => oks k = b) (map e_ID l)) as Hf.
    { intros b. by eapply filter_agree. }
    rewrite !filter_cons, !Hf. destruct ok; do 2 case_decide; try congruence; simpl; rewrite E2;
      do 2 f_equal; lia.
  - by etransitivity.
  - exists t. rewrite Ht, Hdb1. by destruct (w_db w).
  - rewrite Hc1 in *. split_and!.
    + intros k [Hk1 Hk2]%not_elem_of_cons. rewrite Hb1 by done. rewrite Hdb1. simpl.
      by rewrite lookup_alter_ne.
    + intros k e0 Hk He0 Hid. destruct (decide (k = e_ID e)) as [->|Hne].
      * exists (g e0). rewrite Hb1, Hdb1 by done. simpl. rewrite lookup_alter_eq, He0.
        split; [done|]. rewrite Hok. eapply dispatched_mono; [by apply Hg|done|done].
      * apply elem_of_cons in Hk as [?|Hk]; [done|].
        destruct (Hb2 k e0 Hk) as (e' & He' & Hd'); [|done|].
        { rewrite Hdb1. simpl. by rewrite lookup_alter_ne. }
        exists e'. split; [done|]. rewrite Hoks by done. eapply dispatched_mono; eauto.
    + intros svc k. specialize (Hb3 svc k). specialize (Hp1 svc k).
      destruct (decide (k = e_ID e)) as [->|Hne].
      * rewrite decide_False in Hb3 by done. rewrite decide_True by (by constructor). lia.
      * destruct (decide (k ∈ map e_ID l)); [rewrite decide_True by (by constructor); lia|].
        rewrite decide_False by (by apply not_elem_of_cons). lia.
Qed.

Lemma New_positive cfg :
  let c := New cfg in
  c.(Owner) <> ""%string /\ 0 < c.(LeaseTTL) /\ 0 < c.(BatchSize) /\ 0 < c.(MaxAttempts) /\ 0 < c.(Interval).
Proof.
  simpl. split_and!; try by destruct (Z.leb_spec (LeaseTTL cfg) 0), (Z.leb_spec (BatchSize cfg) 0),
    (Z.leb_spec (MaxAttempts cfg) 0), (Z.leb_spec (Interval cfg) 0); unfold Minute, Second, Millisecond; lia.
  destruct (String.eqb_spec (Owner cfg) ""); done.
Qed.

(** The events a cycle claims. *)
Definition claimed (cfg : Config) (w : World) : list uuid :=
  (claim (event_claimable cfg.(MaxAttempts) w.(w_clock)) oldest_first (Z.to_nat cfg.(BatchSize))
     (lease_event cfg.(Owner) (w.(w_clock) + cfg.(LeaseTTL))) ∅ w.(w_db).(events)).2.

(** Without interference a cycle claims the oldest claimable events, up
    to the batch size, and gives each exactly one fate: delivered, once the
    sinks accepted it, or one more attempt with the error recorded; both end
    its lease, the counts it returns are those of the two fates, and every
    other event keeps its row. *)
Theorem RunOnce_calm cfg0 w :
  let cfg := New cfg0 in
  w.(w_env) = [] -> events_keyed w.(w_db) ->
  exists w' oks,
    RunOnce cfg w =
      (Ok (Z.of_nat (length (filter (fun k => oks k = true) (claimed cfg w))),
           Z.of_nat (length (filter (fun k => oks k = false) (claimed cfg w)))), w') /\
    w'.(w_env) = [] /\ w'.(w_clock) = w.(w_clock) /\
    batch cfg w.(w_clock) (claimed cfg w) w w' oks.
Proof.
  intros cfg Henv Hkey. destruct (New_positive cfg0) as (Ho & Hd & Hb & Hm & _).
  fold cfg in Ho, Hd, Hb, Hm.
  destruct (ClaimUndeliveredEvents_calm cfg.(Owner) cfg.(LeaseTTL) cfg.(BatchSize) cfg.(MaxAttempts) w
    Henv Hkey Ho) as (t & ids & rows & EC & E & Hrows & Hnd).
  rewrite !(proj2 (Z.leb_gt _ _)) in EC by done.
  assert (claimed cfg w = ids) as Hids by (unfold claimed; by rewrite EC). rewrite Hids.
  set (w1 := w <| w_db ::= _ |>) in E.
  destruct (dispatch_all_calm cfg rows 0 0 w1 Henv) as (w' & oks & E2 & He' & Hc' & Hs' & _ & Hb1 & Hb2 & Hb3).
  { by rewrite Hrows. }
  rewrite Hrows in *. exists w', oks. split_and!; try done.
  - unfold RunOnce, mtry, mbind. cbn [es_ClaimUndeliveredEvents pg_event_store]. rewrite E, E2. done.
  - split_and!.
    + intros k Hk. rewrite Hb1 by done. simpl. rewrite (claim_lookup _ _ _ _ _ _ _ _ k EC).
      by rewrite decide_False.
    + intros k e Hk He Hid. destruct (Hb2 k (lease_event cfg.(Owner) (w.(w_clock) + cfg.(LeaseTTL)) e) Hk)
        as (e' & He'' & Hd'); [|done|].
      { simpl. rewrite (claim_lookup _ _ _ _ _ _ _ _ k EC), decide_True by done. by rewrite He. }
      exists e'. split; [done|]. by destruct (oks k).
    + exact Hb3.
Qed.

End DispatcherCalm.

(** ** What is posted *)

Section Posts.
Context `{UuidGen, HttpPeer} (cfg : Config).

(** An event for Event-Driven Ansible, with the token, or a ticket for the
    ITSM webhook, signed. *)
Definition event_post (c : netcall) : Prop := exists e,
  eda_configured cfg = true /\
    c = {| nc_service := SvcEDA; nc_subject := e.(e_ID);
           nc_body := http_post cfg.(WebhookURL) (bearer_header cfg.(Token)) (event_json e) |} \/
  itsm_configured cfg = true /\
    c = {| nc_service := SvcITSM; nc_subject := e.(e_ID);
           nc_body := http_post cfg.(ITSMWebhookURL) (signature_header cfg.(ITSMWebhookHMACSecret) (Render e)) (Render e) |}.

#[local] Hint Unfold es_ClaimUndeliveredEvents es_MarkEventDelivered es_MarkEventFailed pg_event_store
  ClaimUndeliveredEvents get_event MarkEventDelivered MarkEventFailed : store_ops.

Lemma sends_deliver e : moves (sends event_post) (deliver cfg e).
Proof.
  unfold deliver. apply moves_try; [exact _| |intros _; apply moves_try; [exact _| |intros _]].
  - destruct (eda_configured cfg) eqn:E; unfold postWebhook; sends_tac. exists e. by left.
  - destruct (itsm_configured cfg) eqn:E; unfold Sink_Deliver; sends_tac. exists e. by right.
  - sends_tac.
Qed.
#[local] Hint Resolve sends_deliver : sends.
Lemma sends_dispatch_all l d f : moves (sends event_post) (dispatch_all cfg l d f).
Proof. revert d f. induction l as [|e l IH]; intros; cbn [dispatch_all]; unfold dispatch_one; sends_tac; apply IH. Qed.
#[local] Hint Resolve sends_dispatch_all : sends.

(** Every call of a dispatch cycle is a post to a configured sink: to
    Event-Driven Ansible with the configured token, to the ITSM webhook with
    the HMAC of the very ticket it carries, so that a receiver that holds the
    secret accepts it; neither secret goes to the other sink. *)
Theorem RunOnce_posts_signed w r w' : RunOnce cfg w = (r, w') -> sends event_post w w'.
Proof.
  enough (moves (sends event_post) (RunOnce cfg)) as Hm by exact (Hm w r w'). unfold RunOnce. sends_tac.
Qed.
End Posts.

(** ** Witnesses *)

Definition demo_event : Event := {|
  e_ID := "e1"; e_EventType := "cert.revoked"; e_CertificateID := None; e_Payload := JObj [];
  e_CreatedAt := 0; e_DeliveredAt := None; e_Attempts := 0; e_LastError := None;
  e_LeaseOwner := None; e_LeaseExpiresAt := None |}.
Definition empty_db : DB :=
  Build_DB ∅ [] ∅ ∅ [] [] ∅ ∅ ∅ ∅ ∅ 0.
Definition demo_world : World :=
  calm_world (empty_db <| events := {["e1"%string := demo_event]} |>) Hour.
Definition demo_config : Config := Build_Config "https://eda" "" 0 0 0 "" 0 "" "".
Definition demo_peer : HttpPeer := {|
  http_do := fun _ n => if (n =? 0)%nat then Ok 503 else Ok 202; json_Marshal := fun _ => "{}"%string |}.
Definition demo_uuid : UuidGen := fun n => pretty n.


Section Demo.
#[local] Instance demo_uuid_inst : UuidGen := demo_uuid.
#[local] Instance demo_peer_inst : HttpPeer := demo_peer.

(** The first post is refused, the second accepted. *)
Definition demo_cycle1 : World := (RunOnce (New demo_config) demo_world).2.
Definition demo_cycle2 : World := (RunOnce (New demo_config) demo_cycle1).2.

Example demo_cycles :
  (RunOnce (New demo_config) demo_world).1 = Ok (0, 1) /\
  (RunOnce (New demo_config) demo_cycle1).1 = Ok (1, 0) /\
  length demo_cycle2.(w_sent) = 2%nat.
Proof. vm_compute. done. Qed.

Lemma demo_keyed : events_keyed demo_world.(w_db).
Proof.
  intros k e He. simpl in He. apply lookup_singleton_Some in He as [<- <-]. done.
Qed.

Lemma RunOnce_delivers_witness :
  delivered demo_cycle1.(w_db) "e1" \/
  sinks_accepted (New demo_config) "e1" demo_cycle1.(w_sent) demo_cycle2.(w_sent).
Proof.
  apply (RunOnce_delivers (New demo_config) demo_cycle1 (RunOnce (New demo_config) demo_cycle1).1).
  - apply surjective_pairing.
  - unfold others_ok. vm_compute. constructor.
  - unfold delivered. vm_compute. eexists. split; [reflexivity|discriminate].
Defined.

Lemma RunOnce_calm_witness :
  exists w' oks, RunOnce (New demo_config) demo_world =
    (Ok (Z.of_nat (length (filter (fun k => oks k = true) ["e1"%string])),
         Z.of_nat (length (filter (fun k => oks k = false) ["e1"%string]))), w') /\
    w'.(w_env) = [] /\ w'.(w_clock) = Hour /\
    batch (New demo_config) Hour ["e1"%string] demo_world w' oks.
Proof. exact (RunOnce_calm demo_config demo_world eq_refl demo_keyed). Defined.
End Demo.
