(* ===== verification/OutboxSpec.v ===== *)
(** * The outbox, abstractly

    An event of the outbox is a letter: it waits, a dispatcher holds it until
    its lease runs out, or it was sent.  The transactions of the store and
    the cycles of the dispatcher are refined to five steps of a letter, and
    what the outbox promises is read off these steps. *)

From S2P Require Import Prelude GoLib Db Queue Outbox Dispatcher.

Open Scope clm_scope.

(** ** Letters *)

Inductive Letter :=
| Waiting (failed : Z)
| Held (failed : Z) (owner : option string) (until : time)
| Sent (failed : Z).

Definition failures (l : Letter) : Z := match l with Waiting n | Held n _ _ | Sent n => n end.
Definition refused (l : Letter) : Letter :=
  match l with Sent n => Sent (1 + n) | l => Waiting (1 + failures l) end.

(** What an event announces. *)
Definition event_core (e : Event) : uuid * string * json * time :=
  (e.(e_ID), e.(e_EventType), e.(e_Payload), e.(e_CreatedAt)).
Definition letter_of (e : Event) : Letter :=
  match e.(e_DeliveredAt), e.(e_LeaseExpiresAt) with
  | Some _, _ => Sent e.(e_Attempts)
  | None, Some t => Held e.(e_Attempts) e.(e_LeaseOwner) t
  | None, None => Waiting e.(e_Attempts)
  end.
Definition Mail : Type := uuid * string * json * time * Letter.
Definition mail_of (e : Event) : Mail := (event_core e, letter_of e).
Definition mail_at (db : DB) (k : uuid) : option Mail := mail_of <$> db.(events) !! k.

(** The terms the dispatchers work under: the cap on failures, the latest
    reading of the clock, and the events the sinks accepted. *)
Record Terms := Build_Terms { tm_cap : Z; tm_now : time; tm_accepted : uuid -> Prop }.

Inductive mail_step (T : Terms) (k : uuid) : option Mail -> option Mail -> Prop :=
| step_post c : mail_step T k None (Some (c, Waiting 0))
| step_hold c n o t : n < T.(tm_cap) -> mail_step T k (Some (c, Waiting n)) (Some (c, Held n o t))
| step_rehold c n o t o' t' : n < T.(tm_cap) -> t < T.(tm_now) ->
    mail_step T k (Some (c, Held n o t)) (Some (c, Held n o' t'))
| step_refuse c l : mail_step T k (Some (c, l)) (Some (c, refused l))
| step_send c l : T.(tm_accepted) k -> mail_step T k (Some (c, l)) (Some (c, Sent (failures l))).

Definition mail_steps (T : Terms) (k : uuid) : option Mail -> option Mail -> Prop := rtc (mail_step T k).
(** Every event of the database takes steps. *)
Definition outbox_steps (T : Terms) (db db' : DB) : Prop := forall k, mail_steps T k (mail_at db k) (mail_at db' k).

#[export] Instance outbox_steps_preorder T : PreOrder (outbox_steps T).
Proof. split; [intros db k; apply rtc_refl|]. intros d1 d2 d3 H12 H23 k. unfold mail_steps; etransitivity; [apply H12|apply H23]. Qed.

(** More time, or more accepted events, allow more. *)
Lemma outbox_steps_mono T T' db db' :
  T.(tm_cap) <= T'.(tm_cap) -> T.(tm_now) <= T'.(tm_now) -> (forall k, T.(tm_accepted) k -> T'.(tm_accepted) k) ->
  outbox_steps T db db' -> outbox_steps T' db db'.
Proof.
  intros Hc Hn Ha Hs k. refine (rtc_subrel _ _ _ _ _ (Hs k)). intros x y []; constructor; auto; lia.
Qed.

(** ** What a letter can become *)

Section Laws.
Context (T : Terms) (k : uuid).

(** What was true of a letter of [c] stays so when every step keeps it. *)
Lemma mail_steps_ind (Q : Letter -> Prop) c l m :
  (forall l1 l2, mail_step T k (Some (c, l1)) (Some (c, l2)) -> Q l1 -> Q l2) ->
  Q l -> mail_steps T k (Some (c, l)) m -> exists l', m = Some (c, l') /\ Q l'.
Proof.
  intros Hstep Hl Hs. remember (Some (c, l)) as m0 eqn:E. revert l E Hl.
  induction Hs as [m|m0 m1 m2 H1 _ IH]; intros l -> Hl; [by exists l|].
  inversion H1; subst; (eapply IH; [reflexivity|]; eapply Hstep; [exact H1|done]).
Qed.

(** The announcement never changes and failures are only added. *)
Lemma mail_kept c l m : mail_steps T k (Some (c, l)) m -> exists l', m = Some (c, l') /\ failures l <= failures l'.
Proof.
  apply (mail_steps_ind (fun l' => failures l <= failures l')); [|lia].
  intros l1 l2 Hs Hl. inversion Hs; subst; simpl in *; try lia. destruct l1; simpl in *; lia.
Qed.
(** A letter that was sent is never held again. *)
Lemma sent_final c n m : mail_steps T k (Some (c, Sent n)) m -> exists n', m = Some (c, Sent n') /\ n <= n'.
Proof.
  intros Hs. destruct (mail_steps_ind (fun l => exists n', l = Sent n' /\ n <= n') c (Sent n) m) as (l & -> & n' & -> & ?);
    [|by exists n|done|by exists n'].
  intros l1 l2 H1 (n1 & -> & ?). inversion H1; subst; simpl; eexists; (split; [reflexivity|lia]).
Qed.
(** It is sent only when it was accepted. *)
Lemma sent_accepted m c n :
  mail_steps T k m (Some (c, Sent n)) -> (exists n', m = Some (c, Sent n')) \/ T.(tm_accepted) k.
Proof.
  intros Hs. remember (Some (c, Sent n)) as m' eqn:E. revert n E.
  induction Hs as [m|m0 m1 m2 H1 _ IH]; intros n E; [left; eauto|].
  destruct (IH n E) as [[n' ->]|?]; [|by right]. inversion H1; subst; [|by right].
  left. destruct l; try discriminate. eauto.
Qed.
(** A dead letter is never held again. *)
Lemma dead_letter c n m : T.(tm_cap) <= n -> mail_steps T k (Some (c, Waiting n)) m ->
  exists l, m = Some (c, l) /\ n <= failures l /\ forall n' o t, l <> Held n' o t.
Proof.
  intros Hn. apply (mail_steps_ind (fun l => n <= failures l /\ forall n' o t, l <> Held n' o t)); [|by split].
  intros l1 l2 Hs [Hl Hh]. inversion Hs; subst; simpl in *; try lia; destruct l1; simpl in *;
    (split; [lia|done]).
Qed.
(** A lease that has not run out is given back by its holder or not at all. *)
Lemma lease_respected c n o t m : T.(tm_now) <= t -> mail_steps T k (Some (c, Held n o t)) m ->
  exists l, m = Some (c, l) /\ (l = Held n o t \/ n < failures l \/ exists n', l = Sent n').
Proof.
  intros Ht Hs. destruct (mail_steps_ind
    (fun l => n <= failures l /\ (l = Held n o t \/ n < failures l \/ exists n', l = Sent n')) c (Held n o t) m)
    as (l & ? & ? & ?); [|by split; [|left]|done|by exists l].
  intros l1 l2 H1 [Hn Hl]. inversion H1; subst; simpl in *.
  - destruct Hl as [?|[?|[? ?]]]; [done|split; [lia|auto]|done].
  - destruct Hl as [[= -> -> ->]|[?|[? ?]]]; [lia|split; [lia|auto]|done].
  - destruct l1; simpl in *; (split; [lia|]); try (right; left; lia); right; right; eauto.
  - split; [done|]. right. right. eauto.
Qed.
End Laws.

(** The same, of the rows. *)
Lemma letter_delivered e : is_Some e.(e_DeliveredAt) <-> exists n, letter_of e = Sent n.
Proof.
  unfold letter_of. destruct (e_DeliveredAt e); [split; eauto|]. split; [by intros []|]. by destruct (e_LeaseExpiresAt e); intros [].
Qed.
Lemma letter_failures e : failures (letter_of e) = e.(e_Attempts).
Proof. unfold letter_of. by destruct (e_DeliveredAt e), (e_LeaseExpiresAt e). Qed.

Record promised (T : Terms) (k : uuid) (e e' : Event) : Prop := {
  pm_core : event_core e' = event_core e;
  pm_failures : e.(e_Attempts) <= e'.(e_Attempts);
  pm_final : is_Some e.(e_DeliveredAt) -> is_Some e'.(e_DeliveredAt);
  pm_accepted : is_Some e'.(e_DeliveredAt) -> is_Some e.(e_DeliveredAt) \/ T.(tm_accepted) k;
  pm_dead : T.(tm_cap) <= e.(e_Attempts) -> e.(e_LeaseExpiresAt) = None -> e'.(e_DeliveredAt) = None ->
    e'.(e_LeaseExpiresAt) = None;
  pm_lease t : e.(e_DeliveredAt) = None -> e.(e_LeaseExpiresAt) = Some t -> T.(tm_now) <= t ->
    e'.(e_LeaseOwner) = e.(e_LeaseOwner) /\ e'.(e_LeaseExpiresAt) = Some t \/
    e.(e_Attempts) < e'.(e_Attempts) \/ is_Some e'.(e_DeliveredAt)
}.
Lemma mail_promised T k e o : mail_steps T k (Some (mail_of e)) (mail_of <$> o) -> exists e', o = Some e' /\ promised T k e e'.
Proof.
  intros Hs. unfold mail_of at 1 in Hs.
  destruct (mail_kept T k _ _ _ Hs) as (l & (e' & -> & Hm)%fmap_Some & Hn).
  unfold mail_of in Hm. apply pair_eq in Hm as [Hc ->]. exists e'. split; [done|].
  rewrite !letter_failures in Hn. split; [done|done|..].
  - intros [n E]%letter_delivered. apply letter_delivered. rewrite E in Hs.
    destruct (sent_final T k _ _ _ Hs) as (n' & [= _ _ _ _ Hl] & _). eauto.
  - intros [n E]%letter_delivered. simpl in Hs. unfold mail_of in Hs. rewrite E in Hs.
    destruct (sent_accepted T k _ _ _ Hs) as [[n' [= _ _ _ _ Hl]]|?]; [left; apply letter_delivered; eauto|by right].
  - intros Ha Hl Hd. destruct (e_DeliveredAt e) eqn:Ed.
    { exfalso. enough (is_Some (e_DeliveredAt e')) as [? ?] by congruence. apply letter_delivered.
      unfold letter_of at 1 in Hs. rewrite Ed in Hs. destruct (sent_final T k _ _ _ Hs) as (n' & [= _ _ _ _ Hl'] & _). eauto. }
    unfold letter_of at 1 in Hs. rewrite Ed, Hl in Hs. destruct (dead_letter T k _ _ _ Ha Hs) as (l & [= _ _ _ _ <-] & _ & Hh).
    unfold letter_of in Hh. rewrite Hd in Hh. destruct (e_LeaseExpiresAt e'); [by edestruct Hh|done].
  - intros t Hd Hl Ht. unfold letter_of at 1 in Hs. rewrite Hd, Hl in Hs.
    destruct (lease_respected T k _ _ _ _ _ Ht Hs) as (l & [= _ _ _ _ <-] & [Hk|[Hk|[n Hk]]]).
    + left. unfold letter_of in Hk. destruct (e_DeliveredAt e'), (e_LeaseExpiresAt e'); by simplify_eq.
    + right. left. by rewrite letter_failures in Hk.
    + right. right. apply letter_delivered. eauto.
Qed.

(** ** The transactions of the store *)

(** Nothing is done to the events but to append new ones. *)
Definition only_posts (db db' : DB) : Prop := forall k,
  mail_at db' k = mail_at db k \/ mail_at db k = None /\ exists c, mail_at db' k = Some (c, Waiting 0).
#[export] Instance only_posts_preorder : PreOrder only_posts.
Proof.
  split; [intros db k; by left|]. intros d1 d2 d3 H12 H23 k.
  destruct (H12 k) as [E1|(E1 & c & E1')], (H23 k) as [E2|(E2 & c' & E2')]; [left|right..]; try congruence.
  - split; [congruence|eauto].
  - split; [done|]. exists c. congruence.
Qed.
Lemma only_posts_steps T db db' : only_posts db db' -> outbox_steps T db db'.
Proof. intros Hp k. destruct (Hp k) as [->|(-> & c & ->)]; [apply rtc_refl|apply rtc_once, step_post]. Qed.
Lemma only_posts_same db db' : db'.(events) = db.(events) -> only_posts db db'.
Proof. intros E k. left. unfold mail_at. by rewrite E. Qed.

Section Refinement.
Context `{UuidGen} (T : Terms).

Lemma append_posts ty cert p c db db' u : appendEventTx ty cert p c db = Ok (db', u) -> only_posts db db'.
Proof.
  destruct u. intros (id & Hid & ->)%appendEventTx_ok k. unfold mail_at. simpl. rewrite lookup_insert.
  case_decide as E; [|by left]. right. rewrite <- E, Hid. split; [done|]. by eexists.
Qed.

Lemma claim_events_steps o e n m c db db' ids :
  claim_events_tx o e n m c db = Ok (db', ids) -> m <= T.(tm_cap) -> c.(NOW) <= T.(tm_now) -> outbox_steps T db db'.
Proof.
  unfold claim_events_tx. destruct (claim _ _ _ _ _ _) as [t l] eqn:E. intros [= <- <-] Hm Hn k. unfold mail_at. simpl.
  destruct (decide (k ∈ l)) as [Hk|Hk].
  - destruct (claim_sound _ _ _ _ _ _ _ _ _ E Hk) as (r & -> & Hw & _ & ->). simpl.
    unfold event_claimable in Hw. b2p. destruct Hw as [[Hd Ha] Hl]. unfold mail_of, letter_of. simpl. rewrite Hd.
    destruct (e_LeaseExpiresAt r) as [t'|]; [apply Z.ltb_lt in Hl|]; apply rtc_once; constructor; lia.
  - rewrite (claim_lookup _ _ _ _ _ _ _ _ k E), decide_False by done. apply rtc_refl.
Qed.

Lemma alter_steps (f : Event -> Event) id db :
  (forall e, db.(events) !! id = Some e -> mail_step T id (Some (mail_of e)) (Some (mail_of (f e)))) ->
  outbox_steps T db (db <| events ::= alter f id |>).
Proof.
  intros Hf k. unfold mail_at. simpl. rewrite lookup_alter. case_decide as E; [subst k|apply rtc_refl].
  destruct (events db !! id) as [e|]; [|apply rtc_refl]. by apply rtc_once, Hf.
Qed.
Lemma mark_failed_steps msg id db : outbox_steps T db (db <| events ::= alter (mark_failed msg) id |>).
Proof.
  apply alter_steps. intros e _.
  assert (mail_of (mark_failed msg e) = (event_core e, refused (letter_of e))) as ->; [|apply step_refuse].
  unfold mail_of, letter_of. simpl. by destruct (e_DeliveredAt e), (e_LeaseExpiresAt e).
Qed.
Lemma mark_delivered_steps now id db :
  T.(tm_accepted) id -> outbox_steps T db (db <| events ::= alter (mark_delivered now) id |>).
Proof.
  intros Ha. apply alter_steps. intros e _.
  assert (mail_of (mark_delivered now e) = (event_core e, Sent (failures (letter_of e)))) as ->; [|by apply step_send].
  unfold mail_of, letter_of. simpl. by destruct (e_DeliveredAt e), (e_LeaseExpiresAt e).
Qed.
End Refinement.

(** ** The dispatcher *)

(** The cap the claim works with. *)
Definition cap_of (cfg : Config) : Z := if cfg.(MaxAttempts) <=? 0 then 10 else cfg.(MaxAttempts).

Section Cycles.
Context `{UuidGen, HttpPeer}.
(** Until [until], the others keep to [cap] and send only what [elsewhere]
    accepted, and cycles run with the configurations [running]. *)
Context (cap : Z) (until : time) (elsewhere : uuid -> Prop) (running : Config -> Prop).

Definition terms (accepted : uuid -> Prop) : Terms := Build_Terms cap until accepted.
(** Accepted elsewhere or, between two logs, by the sinks of a configuration. *)
Definition vouched (lo hi : list netcall) (k : uuid) : Prop :=
  elsewhere k \/ exists cfg, running cfg /\ sinks_accepted cfg k lo hi.

Definition mails (w w' : World) : Prop :=
  w.(w_clock) <= w'.(w_clock) /\ w.(w_sent) `prefix_of` w'.(w_sent) /\
  (w'.(w_clock) <= until -> others_ok (outbox_steps (terms elsewhere)) w ->
   others_ok (outbox_steps (terms elsewhere)) w' /\
   outbox_steps (terms (vouched w.(w_sent) w'.(w_sent))) w.(w_db) w'.(w_db)).

Lemma vouched_mono lo hi lo' hi' k : vouched lo hi k -> lo' `prefix_of` lo -> hi `prefix_of` hi' -> vouched lo' hi' k.
Proof. intros [?|(cfg & ? & Ha)] ??; [by left|]. right. exists cfg. split; [done|]. by eapply sinks_accepted_mono. Qed.
Lemma vouched_steps lo hi lo' hi' db db' : lo' `prefix_of` lo -> hi `prefix_of` hi' ->
  outbox_steps (terms (vouched lo hi)) db db' -> outbox_steps (terms (vouched lo' hi')) db db'.
Proof. intros Hlo Hhi. apply outbox_steps_mono; [simpl; lia..|]. intros k Hv. exact (vouched_mono _ _ _ _ k Hv Hlo Hhi). Qed.

#[export] Instance mails_rel : WorldRel mails.
Proof.
  split.
  - intros w. split; [lia|]. split; [done|]. intros _ ?. by split.
  - intros w1 w2 w3 (Hc1 & Hs1 & H1) (Hc2 & Hs2 & H2). split; [lia|]. split; [by etransitivity|]. intros Hu Ho.
    destruct H1 as [Ho1 S1]; [lia|done|]. destruct (H2 Hu Ho1) as [Ho2 S2]. split; [done|].
    etransitivity; [by apply (vouched_steps _ _ _ _ _ _ (reflexivity _) Hs2 S1)|by apply (vouched_steps _ _ _ _ _ _ Hs1 (reflexivity _) S2)].
Qed.
Lemma evolves_mails w w' : evolves (outbox_steps (terms elsewhere)) w w' -> mails w w'.
Proof.
  intros (Hc & Hs & Ho). split_and!; [done..|]. intros _ [Ho' S]%Ho. split; [done|].
  revert S. apply outbox_steps_mono; [simpl; lia..|]. by left.
Qed.

Lemma mails_store_call {A} (f : txn A) w w1 r w2 :
  (forall c db db' a, f c db = Ok (db', a) -> c.(NOW) <= until ->
     outbox_steps (terms (vouched w.(w_sent) w1.(w_sent))) db db') ->
  mails w w1 -> store_call f w1 = (r, w2) -> mails w w2.
Proof.
  intros Hf Hm (e & w1' & He & Hw2)%store_call_spec. pose proof He as (_ & _ & Es & _)%next_env_spec.
  assert (mails w w1') as Hm' by (eapply wr_trans; [exact Hm|]; by eapply evolves_mails, evolves_next_env; [exact _|]).
  destruct Hw2 as [[-> _]|(a & db' & Hd & -> & _)]; [done|]. destruct Hm' as (Hc & Hs & Ho). split_and!; [done..|].
  intros Hu [Ho' S]%Ho; [|done]. split; [done|]. simpl. etransitivity; [exact S|]. rewrite Es. by eapply Hf.
Qed.

Lemma mails_MarkEventFailed id msg w w1 r w2 : mails w w1 -> MarkEventFailed id msg w1 = (r, w2) -> mails w w2.
Proof. apply mails_store_call. intros c db db' a [= <- _] _. apply mark_failed_steps. Qed.

Lemma moves_mails_claim cfg l o d : cap_of cfg <= cap -> moves mails (ClaimUndeliveredEvents o d l cfg.(MaxAttempts)).
Proof.
  intros Hcap. unfold ClaimUndeliveredEvents. destruct (String.eqb o ""); [apply moves_ret; exact _|].
  apply moves_bind; [exact _| |intros now; apply moves_try; [exact _| |intros ids; apply moves_collect; [exact _|intros id]]].
  - intros w t w' E. by eapply evolves_mails, moves_time_now; [exact _|].
  - intros w r w'. apply mails_store_call; [|apply wr_refl]. intros c db db' ids E Hn. by eapply claim_events_steps.
  - intros w r w'. apply mails_store_call; [|apply wr_refl]. intros c db db' e E _. unfold get_event in E. txn_inv. done.
Qed.

Lemma moves_mails_dispatch_one cfg e : running cfg -> moves mails (dispatch_one cfg e).
Proof.
  intros Hrun w ok w'. unfold dispatch_one, mbind.
  destruct (deliver cfg e w) as [[u|er] w1] eqn:D; apply (deliver_ok (outbox_steps (terms elsewhere))) in D; destruct D as [D1 D2]; apply evolves_mails in D1; simpl.
  - destruct (MarkEventDelivered (e_ID e) w1) as [mr w2] eqn:Md.
    assert (mails w w2) as Hd.
    { revert Md. apply mails_store_call; [|done]. intros c db db' a [= <- _] _. apply mark_delivered_steps. right.
      exists cfg. split; [done|]. by apply D2. }
    destruct mr as [?|me]; [by intros [= <- <-]|].
    destruct (MarkEventFailed _ _ w2) as [fr w3] eqn:F. intros [= <- <-]. by eapply mails_MarkEventFailed.
  - destruct (MarkEventFailed _ _ w1) as [fr w3] eqn:F. intros [= <- <-]. by eapply mails_MarkEventFailed.
Qed.
Lemma moves_mails_dispatch_all cfg l d f : running cfg -> moves mails (dispatch_all cfg l d f).
Proof.
  intros Hrun. revert d f; induction l as [|e l IH]; intros d f; simpl; [apply moves_ret; exact _|].
  apply moves_bind; [exact _|by apply moves_mails_dispatch_one|]. by intros [].
Qed.
Lemma moves_mails_RunOnce cfg : running cfg -> cap_of cfg <= cap -> moves mails (RunOnce cfg).
Proof.
  intros Hrun Hcap. apply moves_try; [exact _|by apply moves_mails_claim|].
  intros l. apply moves_bind; [exact _|by apply moves_mails_dispatch_all|]. intros n. apply moves_ret. exact _.
Qed.
End Cycles.
