(* ===== verification/Redelivery.v ===== *)
(** * How often an event is posted (internal/eventbus/dispatcher.go)

    The cap on the attempts bounds redelivery in any environment: a post is
    followed by a mark of its event, as delivered or as failed, and only a post
    whose last mark fails to be written is not counted. *)

From S2P Require Import Prelude GoLib Records Db Queue Outbox Dispatcher OutboxSpec.

Open Scope clm_scope.

(** ** What others do to the events *)

(** Rows stay, with the attempts and the delivery they had; a new row has not
    been tried. *)
Definition event_kept (o o' : option Event) : Prop :=
  match o, o' with
  | Some e, Some e' => e.(e_Attempts) <= e'.(e_Attempts) /\ (is_Some e.(e_DeliveredAt) -> is_Some e'.(e_DeliveredAt))
  | Some _, None => False
  | None, Some e' => 0 <= e'.(e_Attempts)
  | None, None => True
  end.
Definition events_kept (db db' : DB) : Prop :=
  (events_keyed db -> events_keyed db') /\ forall k, event_kept (db.(events) !! k) (db'.(events) !! k).

#[export] Instance event_kept_preorder : PreOrder event_kept.
Proof.
  split; [intros [e|]; simpl; [by split; [lia|]|done]|].
  intros [a|] [b|] [c|]; simpl; try done; [intros [? ?] [? ?]; split; [lia|auto]|intros ? [? _]; lia].
Qed.
#[export] Instance events_kept_preorder : PreOrder events_kept.
Proof.
  split; [intros db; split; [done|intros k; reflexivity]|].
  intros d1 d2 d3 [K1 H1] [K2 H2]. split; [auto|]. intros k. etransitivity; [apply H1|apply H2].
Qed.

(** Replicas that work the outbox under any terms do no more. *)
Lemma outbox_steps_kept T db db' :
  outbox_steps T db db' -> (events_keyed db -> events_keyed db') -> events_kept db db'.
Proof.
  intros Hs Hk. split; [done|]. intros k. specialize (Hs k). unfold mail_at in Hs.
  destruct (events db !! k) as [e|]; simpl in Hs.
  - apply mail_promised in Hs as (e' & -> & Hp). split; [apply (pm_failures _ _ _ _ Hp)|apply (pm_final _ _ _ _ Hp)].
  - destruct (events db' !! k) as [e'|]; [|done]. simpl in *.
    enough (forall m m', mail_steps T k m m' -> match m with Some (_, l) => 0 <= failures l | None => True end ->
      match m' with Some (_, l) => 0 <= failures l | None => True end) as Hf.
    { specialize (Hf _ _ Hs I). simpl in Hf. by rewrite letter_failures in Hf. }
    clear. induction 1 as [|m m1 m2 H1 _ IH]; [done|]. intros Hm. apply IH.
    destruct H1 as [| | |c l|]; simpl in *; try lia. destruct l; simpl in *; lia.
Qed.

(** ** What a cycle does to the events *)

Section Rows.
Context `{UuidGen, HttpPeer}.

Lemma alter_kept (f : Event -> Event) id db :
  (forall e, (f e).(e_ID) = e.(e_ID) /\ e.(e_Attempts) <= (f e).(e_Attempts) /\
             (is_Some e.(e_DeliveredAt) -> is_Some (f e).(e_DeliveredAt))) ->
  events_kept db (db <| events ::= alter f id |>).
Proof.
  intros Hf. split.
  - intros Hk k e. simpl. rewrite lookup_alter. case_decide as E; [|apply Hk].
    intros (e0 & He0 & ->)%fmap_Some. subst id. rewrite (proj1 (Hf e0)). by apply Hk.
  - intros k. simpl. rewrite lookup_alter. case_decide as E; [subst k|reflexivity].
    destruct (events db !! id) as [e|]; [|done]. apply Hf.
Qed.
Lemma mark_failed_kept msg id db : events_kept db (db <| events ::= alter (mark_failed msg) id |>).
Proof. apply alter_kept. intros e. simpl. split_and!; [done|lia|done]. Qed.
Lemma mark_delivered_kept now id db : events_kept db (db <| events ::= alter (mark_delivered now) id |>).
Proof. apply alter_kept. intros e. simpl. split_and!; [done|lia|eauto]. Qed.

Lemma moves_failed_kept id msg : moves (evolves events_kept) (MarkEventFailed id msg).
Proof. apply moves_store_call; [exact _|]. intros c db db' a [= <- _]. apply mark_failed_kept. Qed.
Lemma moves_delivered_kept id : moves (evolves events_kept) (MarkEventDelivered id).
Proof. apply moves_store_call; [exact _|]. intros c db db' a [= <- _]. apply mark_delivered_kept. Qed.

(** A mark that reports success is on the row. *)
Lemma mark_row (f : Ctx -> Event -> Event) id w w' e :
  store_call (tmod (fun c db => db <| events ::= alter (f c) id |>)) w = (Ok tt, w') ->
  others_ok events_kept w -> w.(w_db).(events) !! id = Some e ->
  exists c e0, event_kept (Some e) (Some e0) /\ w'.(w_db).(events) !! id = Some (f c e0).
Proof.
  intros (env & w1 & He & Hc)%store_call_spec Ho Hr. destruct (evolves_next_env events_kept _ _ _ He) as (_ & _ & Hk).
  destruct (Hk Ho) as [_ [_ K]]. specialize (K id). rewrite Hr in K.
  destruct (events (w_db w1) !! id) as [e0|] eqn:E0; [|done].
  destruct Hc as [(_ & err & [=] & _)|(a & db' & [= <- _] & -> & _)].
  eexists _, e0. split; [exact K|]. simpl. rewrite lookup_alter, decide_True, E0 by done. reflexivity.
Qed.

Lemma claim_kept o x n m c db db' ids : claim_events_tx o x n m c db = Ok (db', ids) -> events_kept db db'.
Proof.
  unfold claim_events_tx. destruct (claim _ _ _ _ _ _) as [t l] eqn:E. intros [= <- <-]. split.
  - intros Hk k e. simpl. rewrite (claim_lookup _ _ _ _ _ _ _ _ k E). case_decide; [|apply Hk].
    intros (e0 & He0 & ->)%fmap_Some. by apply Hk in He0.
  - intros k. simpl. rewrite (claim_lookup _ _ _ _ _ _ _ _ k E). case_decide; [|reflexivity].
    destruct (events db !! k) as [e|]; [|done]. simpl. by split; [lia|].
Qed.

(** The post of one event: at most one to each sink, and no write. *)
Lemma posts_one svc svc' k k' body :
  posts svc' k' [{| nc_service := svc; nc_subject := k; nc_body := body |}] = if decide (svc' = svc /\ k' = k) then 1%nat else 0%nat.
Proof. unfold posts. rewrite filter_cons. simpl. repeat case_decide; simpl; naive_solver. Qed.

Lemma net_call_sent {R} c (reply : nat -> R) w r w' : net_call c reply w = (r, w') -> w'.(w_sent) = w.(w_sent) ++ [c].
Proof.
  unfold net_call. destruct (next_env w) as [e w1] eqn:He. intros [= _ <-]. simpl.
  apply next_env_spec in He as (_ & _ & -> & _). done.
Qed.
Lemma postWebhook_sent u t k body w r w' :
  postWebhook u t k body w = (r, w') -> exists b, w'.(w_sent) = w.(w_sent) ++ [{| nc_service := SvcEDA; nc_subject := k; nc_body := b |}].
Proof.
  unfold postWebhook, mbind. destruct (net_call _ _ w) as [r0 w1] eqn:E. intros [= _ <-]. eexists. by apply net_call_sent in E.
Qed.
Lemma Sink_Deliver_sent cfg e w r w' :
  itsm_configured cfg = true -> Sink_Deliver cfg e w = (r, w') ->
  exists b, w'.(w_sent) = w.(w_sent) ++ [{| nc_service := SvcITSM; nc_subject := e.(e_ID); nc_body := b |}].
Proof.
  unfold Sink_Deliver, mbind. intros ->. simpl. destruct (net_call _ _ w) as [r0 w1] eqn:E. intros [= _ <-]. eexists. by apply net_call_sent in E.
Qed.

Lemma deliver_posts cfg e w r w' : deliver cfg e w = (r, w') -> new_posts e.(e_ID) w.(w_sent) w'.(w_sent).
Proof.
  unfold deliver, mtry, mbind.
  assert (exists r1 w1 l1, (if eda_configured cfg then postWebhook (WebhookURL cfg) (Token cfg) (e_ID e) (event_json e) else mret (Ok tt)) w = (r1, w1) /\
    w1.(w_sent) = w.(w_sent) ++ l1 /\ forall svc k, (posts svc k l1 <= if decide (svc = SvcEDA /\ k = e_ID e) then 1 else 0)%nat) as (r1 & w1 & l1 & -> & E1 & H1).
  { destruct (eda_configured cfg).
    - destruct (postWebhook _ _ _ _ w) as [r1 w1] eqn:E. apply postWebhook_sent in E as [b Eb].
      eexists _, _, _. split; [reflexivity|]. split; [exact Eb|]. intros svc k. by rewrite posts_one.
    - eexists _, _, []. split; [reflexivity|]. split; [by rewrite app_nil_r|]. intros svc k. unfold posts. simpl. lia. }
  assert (new_posts e.(e_ID) w.(w_sent) w1.(w_sent)) as Hno.
  { intros svc k. rewrite E1, posts_app. specialize (H1 svc k). repeat case_decide; naive_solver lia. }
  destruct r1 as [u|er]; [|by intros [= <- <-]].
  destruct (itsm_configured cfg) eqn:Hi.
  - destruct (Sink_Deliver cfg e w1) as [r2 w2] eqn:E2. apply Sink_Deliver_sent in E2 as [b E2]; [|done].
    assert (new_posts e.(e_ID) w.(w_sent) w2.(w_sent)) as Hyes.
    { intros svc k. rewrite E2, E1, !posts_app, posts_one. specialize (H1 svc k). repeat case_decide; naive_solver lia. }
    rewrite andb_false_r. destruct r2; by intros [= <- <-].
  - unfold mret at 1. destruct (negb (eda_configured cfg) && negb false); by intros [= <- <-].
Qed.

(** *** Posts that are not counted

    1 when the last mark of the event's dispatch is not written, which the
    code only logs. *)
Definition unmarked (k : uuid) (msg : string) (w : World) : nat :=
  match (es_MarkEventFailed k msg w).1 with Ok _ => 0 | Err _ => 1 end.
Definition unrecorded (cfg : Config) (e : Event) (w : World) : nat :=
  match deliver cfg e w with
  | (Err derr, w1) => unmarked e.(e_ID) (error_text derr) w1
  | (Ok _, w1) =>
      match es_MarkEventDelivered e.(e_ID) w1 with
      | (Err merr, w2) => unmarked e.(e_ID) ("delivered but not recorded: " ++ error_text merr) w2
      | (Ok _, _) => 0
      end
  end.
(** Over a batch, a cycle, and [n] cycles. *)
Fixpoint unrecorded_all (cfg : Config) (l : list Event) (w : World) : nat :=
  match l with [] => 0 | e :: l' => unrecorded cfg e w + unrecorded_all cfg l' (dispatch_one cfg e w).2 end.
Definition unrecorded_cycle (cfg : Config) (w : World) : nat :=
  match es_ClaimUndeliveredEvents cfg.(Owner) cfg.(LeaseTTL) cfg.(BatchSize) cfg.(MaxAttempts) w with
  | (Ok events, w1) => unrecorded_all cfg events w1
  | (Err _, _) => 0
  end.
Fixpoint cycles (cfg : Config) (n : nat) (w : World) : World :=
  match n with O => w | S n' => cycles cfg n' (RunOnce cfg w).2 end.
Fixpoint unrecorded_cycles (cfg : Config) (n : nat) (w : World) : nat :=
  match n with O => 0 | S n' => unrecorded_cycle cfg w + unrecorded_cycles cfg n' (RunOnce cfg w).2 end.

(** What a dispatch leaves of the event's row. *)
Definition dispatched_row (n : nat) (e e' : Event) : Prop :=
  is_Some e'.(e_DeliveredAt) \/ e.(e_Attempts) + 1 <= e'.(e_Attempts) + Z.of_nat n.

Lemma unmarked_row k msg w r w' e0 e :
  MarkEventFailed k msg w = (r, w') -> others_ok events_kept w -> w.(w_db).(events) !! k = Some e ->
  event_kept (Some e0) (Some e) ->
  exists e', w'.(w_db).(events) !! k = Some e' /\ dispatched_row (unmarked k msg w) e0 e'.
Proof.
  intros E Ho He [Ha Hd]. unfold unmarked. cbn [es_MarkEventFailed pg_event_store]. rewrite E. cbn [fst].
  destruct r as [[]|er].
  - apply (mark_row (fun _ => mark_failed msg) _ _ _ _ E Ho) in He as (c & e1 & [Ha1 _] & ->).
    eexists. split; [reflexivity|]. right. simpl. lia.
  - destruct (moves_failed_kept k msg _ _ _ E) as (_ & _ & Hk). destruct (Hk Ho) as [_ [_ K]]. specialize (K k).
    rewrite He in K. destruct (events (w_db w') !! k) as [e'|]; [|done]. destruct K as [Ha1 _].
    eexists. split; [reflexivity|]. right. lia.
Qed.

Lemma dispatch_one_row cfg e w b w' e0 :
  dispatch_one cfg e w = (b, w') -> others_ok events_kept w -> w.(w_db).(events) !! e.(e_ID) = Some e0 ->
  exists e', w'.(w_db).(events) !! e.(e_ID) = Some e' /\ dispatched_row (unrecorded cfg e w) e0 e'.
Proof.
  unfold dispatch_one, unrecorded, mbind. intros E Ho He.
  destruct (deliver cfg e w) as [r1 w1] eqn:D. destruct (deliver_ok events_kept _ _ _ _ _ D) as [(_ & _ & Hk) _].
  destruct (Hk Ho) as [Ho1 [_ K]]. specialize (K e.(e_ID)). rewrite He in K.
  destruct (events (w_db w1) !! e_ID e) as [e1|] eqn:He1; [|done].
  cbn [es_MarkEventDelivered es_MarkEventFailed pg_event_store] in *. destruct r1 as [u|er].
  - destruct (MarkEventDelivered (e_ID e) w1) as [r2 w2] eqn:Md. destruct r2 as [[]|me].
    + injection E as _ <-. apply (mark_row (fun c => mark_delivered c.(NOW)) _ _ _ _ Md Ho1) in He1 as (c & e2 & _ & ->).
      eexists. split; [reflexivity|]. left. simpl. eauto.
    + destruct (moves_delivered_kept _ _ _ _ Md) as (_ & _ & Hk2). destruct (Hk2 Ho1) as [Ho2 [_ K2]]. specialize (K2 e.(e_ID)).
      rewrite He1 in K2. destruct (events (w_db w2) !! e_ID e) as [e2|] eqn:He2; [|done].
      destruct (MarkEventFailed _ _ w2) as [r3 w3] eqn:Mf. injection E as _ <-.
      eapply unmarked_row; [exact Mf|exact Ho2|exact He2|]. etransitivity; [exact K|exact K2].
  - destruct (MarkEventFailed _ _ w1) as [r3 w3] eqn:Mf. injection E as _ <-.
    by eapply unmarked_row.
Qed.

Lemma dispatch_one_kept cfg e : moves (evolves events_kept) (dispatch_one cfg e).
Proof.
  unfold dispatch_one. apply moves_bind; [exact _| |intros [u|er]].
  - intros w r w' E. by apply (deliver_ok events_kept) in E as [? _].
  - apply moves_bind; [exact _|apply moves_delivered_kept|intros [?|?]]; [apply moves_ret; exact _|].
    apply moves_bind; [exact _|apply moves_failed_kept|]. intros _. apply moves_ret; exact _.
  - apply moves_bind; [exact _|apply moves_failed_kept|]. intros _. apply moves_ret; exact _.
Qed.

Lemma mark_sent {A} (f : txn A) w r w' : store_call f w = (r, w') -> w'.(w_sent) = w.(w_sent).
Proof.
  intros (e & w1 & He & Hc)%store_call_spec. apply next_env_spec in He as (_ & _ & <- & _).
  by destruct Hc as [[-> _]|(a & db' & _ & -> & _)].
Qed.
Lemma dispatch_one_posts cfg e w b w' : dispatch_one cfg e w = (b, w') -> new_posts e.(e_ID) w.(w_sent) w'.(w_sent).
Proof.
  unfold dispatch_one, mbind. cbn [es_MarkEventDelivered es_MarkEventFailed pg_event_store].
  destruct (deliver cfg e w) as [[u|er] w1] eqn:D; apply deliver_posts in D.
  - destruct (MarkEventDelivered (e_ID e) w1) as [[u2|me] w2] eqn:Md; apply mark_sent in Md; [intros [= _ <-]; by rewrite Md|].
    destruct (MarkEventFailed _ _ w2) as [r3 w3] eqn:Mf. apply mark_sent in Mf. intros [= _ <-]. by rewrite Mf, Md.
  - destruct (MarkEventFailed _ _ w1) as [r3 w3] eqn:Mf. apply mark_sent in Mf. intros [= _ <-]. by rewrite Mf.
Qed.
End Rows.

(** ** The bound *)

Section Bound.
Context `{UuidGen, HttpPeer} (cap : Z).

(** But for [n] posts that are not counted, no event was posted to a sink more
    often than its attempts say, nor more often than the cap. *)
Definition posts_within (n : nat) (w : World) : Prop :=
  forall svc k, match w.(w_db).(events) !! k with
    | Some e =>
        Z.of_nat (posts svc k w.(w_sent)) <= cap + Z.of_nat n /\
        (e.(e_DeliveredAt) = None -> Z.of_nat (posts svc k w.(w_sent)) <= e.(e_Attempts) + Z.of_nat n)
    | None => posts svc k w.(w_sent) = 0%nat
    end.
(** There is room for one more post about [k]. *)
Definition postable (n : nat) (w : World) (k : uuid) : Prop :=
  is_Some (w.(w_db).(events) !! k) /\ forall svc, Z.of_nat (posts svc k w.(w_sent)) + 1 <= cap + Z.of_nat n.

Context (Hcap : 0 <= cap).

Lemma posts_within_kept n w w' :
  events_kept w.(w_db) w'.(w_db) -> w'.(w_sent) = w.(w_sent) -> posts_within n w -> posts_within n w'.
Proof.
  intros [_ K] Hs Hp svc k. specialize (K k). specialize (Hp svc k). rewrite Hs.
  destruct (events (w_db w) !! k) as [e|], (events (w_db w') !! k) as [e'|]; simpl in K; try done; [|rewrite Hp; split; lia].
  destruct K as [Ha Hd], Hp as [H1 H2]. split; [done|]. intros E.
  destruct (e_DeliveredAt e); [by destruct Hd; [eauto|congruence]|]. specialize (H2 eq_refl). lia.
Qed.
Lemma postable_kept n w w' k :
  events_kept w.(w_db) w'.(w_db) -> (forall svc, posts svc k w'.(w_sent) = posts svc k w.(w_sent)) ->
  postable n w k -> postable n w' k.
Proof.
  intros [_ K] Hs [[e He] Hp]. specialize (K k). rewrite He in K. split; [|intros svc; by rewrite Hs].
  by destruct (events (w_db w') !! k).
Qed.

Lemma dispatch_one_within cfg n e w b w' :
  dispatch_one cfg e w = (b, w') -> others_ok events_kept w ->
  posts_within n w -> postable n w e.(e_ID) -> posts_within (n + unrecorded cfg e w) w'.
Proof.
  intros E Ho Hp [[e0 He0] Hpk] svc k. pose proof (dispatch_one_posts _ _ _ _ _ E svc k) as Hn.
  destruct (dispatch_one_kept cfg e _ _ _ E) as (_ & Hs & Hk). destruct (Hk Ho) as [_ [_ K]].
  specialize (K k). specialize (Hp svc k). case_decide as Hke.
  - subst k. destruct (dispatch_one_row _ _ _ _ _ _ E Ho He0) as (e' & He' & Hd). rewrite He', He0 in *.
    specialize (Hpk svc). destruct K as [_ Kd], Hp as [_ Hp]. split; [lia|]. intros Hu.
    destruct Hd as [[t Ht]|Hd]; [congruence|]. destruct (e_DeliveredAt e0); [by destruct Kd; [eauto|congruence]|].
    specialize (Hp eq_refl). lia.
  - destruct (events (w_db w) !! k) as [r|], (events (w_db w') !! k) as [r'|]; simpl in K; try done; try lia.
    destruct K as [Ka Kd], Hp as [H1 H2]. split; [lia|]. intros Hu.
    destruct (e_DeliveredAt r); [by destruct Kd; [eauto|congruence]|]. specialize (H2 eq_refl). lia.
Qed.

Lemma dispatch_all_within cfg l n d f w x w' :
  dispatch_all cfg l d f w = (x, w') -> NoDup (map e_ID l) -> others_ok events_kept w ->
  posts_within n w -> (forall e, e ∈ l -> postable n w e.(e_ID)) ->
  posts_within (n + unrecorded_all cfg l w) w'.
Proof.
  revert n d f w. induction l as [|e l IH]; intros n d f w; cbn [dispatch_all unrecorded_all].
  { intros [= _ <-] _ _ Hp _. by rewrite Nat.add_0_r. }
  unfold mbind. destruct (dispatch_one cfg e w) as [b w1] eqn:E. cbn [snd]. intros Hr Hnd Ho Hp Hl.
  apply NoDup_cons in Hnd as [Hni Hnd].
  assert (posts_within (n + unrecorded cfg e w) w1) as Hp1 by (eapply dispatch_one_within; eauto; apply Hl; constructor).
  destruct (dispatch_one_kept cfg e _ _ _ E) as (_ & Hs & Hk). destruct (Hk Ho) as [Ho1 K].
  rewrite Nat.add_assoc. assert (exists d' f', dispatch_all cfg l d' f' w1 = (x, w')) as (d' & f' & Hr').
  { by destruct b; eauto. }
  eapply IH; [exact Hr'|done..|]. intros e2 He2.
  assert (postable n w1 e2.(e_ID)) as [? Hq].
  { eapply postable_kept; [exact K| |apply Hl; by constructor]. intros svc.
    assert (e2.(e_ID) <> e.(e_ID)) as Hne.
    { intros Eq. apply Hni. rewrite <- Eq. apply list_elem_of_fmap. eauto. }
    pose proof (dispatch_one_posts _ _ _ _ _ E svc e2.(e_ID)) as Hle. rewrite decide_False in Hle by done.
    destruct Hs as [s Es]. rewrite Es, posts_app in *. lia. }
  split; [done|]. intros svc. specialize (Hq svc). lia.
Qed.

Lemma get_event_id id w e w' :
  store_call (get_event id) w = (Ok e, w') -> others_ok events_kept w -> events_keyed w.(w_db) -> e.(e_ID) = id.
Proof.
  intros (env & w1 & He & Hc)%store_call_spec Ho Hkey. destruct (evolves_next_env events_kept _ _ _ He) as (_ & _ & Hk).
  destruct (Hk Ho) as [_ [Kk _]]. destruct Hc as [(_ & err & [=] & _)|(a & db' & Ht & _ & [[= <-]|[=]])].
  unfold get_event in Ht. txn_inv. by apply Kk.
Qed.

Lemma get_events_kept ids : moves (evolves events_kept) (mcollect ids (fun id => store_call (get_event id))).
Proof.
  apply moves_collect; [exact _|]. intros id. apply moves_store_call; [exact _|].
  intros c db db' e Ht. unfold get_event in Ht. txn_inv. reflexivity.
Qed.
Lemma get_events_sent ids w r w' : mcollect ids (fun id => store_call (get_event id)) w = (r, w') -> w'.(w_sent) = w.(w_sent).
Proof.
  revert r w w'. induction ids as [|id ids IH]; intros r w w'; cbn [mcollect]; [by intros [= _ <-]|].
  unfold mtry, mbind. destruct (store_call (get_event id) w) as [[e|er] w1] eqn:E; apply mark_sent in E; [|by intros [= _ <-]].
  destruct (mcollect ids _ w1) as [[es|er] w2] eqn:E2; apply IH in E2; intros [= _ <-]; congruence.
Qed.
Lemma get_events_ids ids w rows w' :
  mcollect ids (fun id => store_call (get_event id)) w = (Ok rows, w') -> others_ok events_kept w -> events_keyed w.(w_db) ->
  map e_ID rows = ids.
Proof.
  revert rows w w'. induction ids as [|id ids IH]; intros rows w w'; cbn [mcollect]; [by intros [= <- _]|].
  intros (e & w1 & E1 & (es & w2 & E2 & [= <- <-])%mtry_ok)%mtry_ok Ho Hk. simpl.
  rewrite (get_event_id _ _ _ _ E1 Ho Hk). f_equal.
  assert (evolves events_kept w w1) as (_ & _ & He).
  { revert E1. apply moves_store_call; [exact _|]. intros c db db' a Ht. unfold get_event in Ht. txn_inv. reflexivity. }
  destruct (He Ho) as [Ho1 [Kk _]]. eapply IH; [exact E2|exact Ho1|by apply Kk].
Qed.

(** A claim takes events that may be posted once more. *)
Lemma claim_within o d l m n w r w' :
  ClaimUndeliveredEvents o d l m w = (r, w') -> (if m <=? 0 then 10 else m) = cap ->
  others_ok events_kept w -> events_keyed w.(w_db) -> posts_within n w ->
  others_ok events_kept w' /\ events_keyed w'.(w_db) /\ posts_within n w' /\
  forall rows, r = Ok rows -> NoDup (map e_ID rows) /\ forall e, e ∈ rows -> postable n w' e.(e_ID).
Proof.
  intros E Hm Ho Hk Hp. unfold ClaimUndeliveredEvents in E. destruct (String.eqb o ""); [by injection E as <- <-|].
  unfold mbind at 1 in E. destruct (time_now w) as [now w1] eqn:E1.
  assert (evolves events_kept w w1) as (_ & _ & He1) by (by eapply moves_time_now; [exact _|]).
  assert (w1.(w_sent) = w.(w_sent)) as Hs1.
  { unfold time_now in E1. destruct (next_env w) as [ev w1'] eqn:En. injection E1 as _ <-. by apply next_env_spec in En as (_ & _ & ? & _). }
  destruct (He1 Ho) as [Ho1 K1]. assert (posts_within n w1) as Hp1 by by eapply posts_within_kept.
  unfold mtry, mbind in E. destruct (store_call _ w1) as [r2 w2] eqn:E2. pose proof (mark_sent _ _ _ _ E2) as Hs2.
  assert (evolves events_kept w1 w2) as (_ & _ & He2).
  { revert E2. apply moves_store_call; [exact _|]. intros *. apply claim_kept. }
  destruct (He2 Ho1) as [Ho2 K2]. assert (posts_within n w2) as Hp2 by by eapply posts_within_kept.
  assert (events_keyed w2.(w_db)) as Hk2 by (apply K2, K1, Hk).
  destruct r2 as [ids|er]; [|injection E as <- <-; by split_and!].
  assert (NoDup ids /\ forall k, k ∈ ids -> postable n w2 k) as [Hnd Hids].
  { apply store_call_spec in E2 as (ev & wc & He & Hc). destruct Hc as [(_ & err & [=] & _)|(a & db' & Ht & -> & [[= <-]|[=]])].
    pose proof (next_env_spec _ _ _ He) as (_ & _ & Hsc & _). destruct (evolves_next_env events_kept _ _ _ He) as (_ & _ & Hkc).
    destruct (Hkc Ho1) as [_ Kc]. assert (posts_within n wc) as Hpc by by eapply posts_within_kept.
    pose proof Ht as Ht'. unfold claim_events_tx in Ht'. destruct (claim _ _ _ _ _ _) as [t l'] eqn:EC.
    injection Ht' as _ <-. split; [injection EC as _ <-; apply select_NoDup|].
    intros k Hin. destruct (claim_events_sound _ _ _ _ _ _ _ _ _ Ht Hin) as (e & Hr & Hw & _ & Hr').
    split; [exists (lease_event o (now + if d <=? 0 then 2 * Minute else d) e); exact Hr'|]. intros svc. specialize (Hpc svc k). rewrite Hr in Hpc. simpl.
    unfold event_claimable in Hw. rewrite Hm in Hw. b2p. destruct Hw as [[Hd Ha] _]. destruct Hpc as [_ Hpc]. specialize (Hpc Hd). lia. }
  pose proof (get_events_sent _ _ _ _ E) as Hs3. destruct (get_events_kept _ _ _ _ E) as (_ & _ & He3).
  destruct (He3 Ho2) as [Ho3 K3]. split; [done|]. split; [by apply K3|]. split; [by eapply posts_within_kept|].
  intros rows ->. pose proof (get_events_ids _ _ _ _ E Ho2 Hk2) as Hr. rewrite Hr. split; [done|].
  intros e Hin. eapply postable_kept; [exact K3|by rewrite Hs3|]. apply Hids. rewrite <- Hr. by apply list_elem_of_fmap_2.
Qed.
End Bound.

(** *** Without faults every post is counted *)

Definition no_faults (w : World) : Prop := Forall (fun e => e.(es_fault) = NoFault) w.(w_env).
Definition stays_faultless (w w' : World) : Prop := no_faults w -> no_faults w'.

#[export] Instance stays_faultless_rel : WorldRel stays_faultless.
Proof. split; [intros w Hn; exact Hn|]. intros w1 w2 w3 H1 H2 H. by apply H2, H1. Qed.

Lemma faultless_env w e w1 : next_env w = (e, w1) -> no_faults w -> e.(es_fault) = NoFault /\ no_faults w1.
Proof.
  intros (_ & _ & _ & Henv)%next_env_spec. unfold no_faults.
  destruct Henv as [->|(-> & -> & ->)]; [by intros [? ?]%Forall_cons|done].
Qed.
Lemma faultless_store_call {A} (f : txn A) : moves stays_faultless (store_call f).
Proof.
  intros w r w' (e & w1 & He & Hc)%store_call_spec Hn. destruct (faultless_env _ _ _ He Hn) as [_ Hn1].
  by destruct Hc as [[-> _]|(a & db' & _ & -> & _)].
Qed.
Lemma faultless_time_now : moves stays_faultless time_now.
Proof. intros w r w'. unfold time_now. destruct (next_env w) as [e w1] eqn:He. intros [= _ <-] Hn. by destruct (faultless_env _ _ _ He Hn). Qed.
Lemma faultless_net_call {R} c (reply : nat -> R) : moves stays_faultless (net_call c reply).
Proof. intros w r w'. unfold net_call. destruct (next_env w) as [e w1] eqn:He. intros [= _ <-] Hn. by destruct (faultless_env _ _ _ He Hn). Qed.

Ltac faultless_tac :=
  repeat match goal with
  | |- moves _ (mret _) => apply moves_ret; exact _
  | |- moves _ (store_call _) => apply faultless_store_call
  | |- moves _ time_now => apply faultless_time_now
  | |- moves _ (net_call _ _) => apply faultless_net_call
  | |- moves _ (mtry _ _) => apply moves_try; [exact _| |intros ?]
  | |- moves _ (mbind _ _) => apply moves_bind; [exact _| |intros ?]
  | |- moves _ (mcollect _ _) => apply moves_collect; [exact _|intros ?]
  | |- moves _ (match ?x with _ => _ end) => destruct x
  end.

Section Bounded.
Context `{UuidGen, HttpPeer}.

Lemma faultless_deliver cfg e : moves stays_faultless (deliver cfg e).
Proof. unfold deliver, postWebhook, Sink_Deliver. faultless_tac. Qed.
Lemma faultless_dispatch_one cfg e : moves stays_faultless (dispatch_one cfg e).
Proof.
  unfold dispatch_one. cbn [es_MarkEventDelivered es_MarkEventFailed pg_event_store]. unfold MarkEventDelivered, MarkEventFailed.
  apply moves_bind; [exact _|apply faultless_deliver|intros ?]. faultless_tac.
Qed.
Lemma faultless_claim o d l m : moves stays_faultless (ClaimUndeliveredEvents o d l m).
Proof. unfold ClaimUndeliveredEvents. faultless_tac. Qed.
Lemma faultless_dispatch_all cfg l d f : moves stays_faultless (dispatch_all cfg l d f).
Proof.
  revert d f. induction l as [|e l IH]; intros d f; cbn [dispatch_all]; [apply moves_ret; exact _|].
  apply moves_bind; [exact _|apply faultless_dispatch_one|]. by intros [].
Qed.
Lemma faultless_RunOnce cfg : moves stays_faultless (RunOnce cfg).
Proof.
  apply moves_try; [exact _|apply faultless_claim|]. intros l.
  apply moves_bind; [exact _|apply faultless_dispatch_all|intros ?]. apply moves_ret; exact _.
Qed.

Lemma unmarked_faultless k msg w : no_faults w -> unmarked k msg w = 0%nat.
Proof.
  intros Hn. unfold unmarked. cbn [es_MarkEventFailed pg_event_store]. unfold MarkEventFailed, store_call.
  destruct (next_env w) as [e w1] eqn:He. destruct (faultless_env _ _ _ He Hn) as [-> _]. reflexivity.
Qed.
Lemma unrecorded_faultless cfg e w : no_faults w -> unrecorded cfg e w = 0%nat.
Proof.
  intros Hn. unfold unrecorded. destruct (deliver cfg e w) as [r w1] eqn:E. assert (no_faults w1) by by eapply faultless_deliver.
  destruct r as [u|er]; [|by apply unmarked_faultless].
  cbn [es_MarkEventDelivered pg_event_store]. destruct (MarkEventDelivered (e_ID e) w1) as [r2 w2] eqn:E2.
  assert (no_faults w2) by by eapply faultless_store_call. destruct r2; [done|by apply unmarked_faultless].
Qed.
Lemma unrecorded_all_faultless cfg l w : no_faults w -> unrecorded_all cfg l w = 0%nat.
Proof.
  revert w. induction l as [|e l IH]; intros w Hn; cbn [unrecorded_all]; [done|]. rewrite unrecorded_faultless, IH by (done ||
    by eapply faultless_dispatch_one; [apply surjective_pairing|]). done.
Qed.
Lemma unrecorded_cycles_faultless cfg n w : no_faults w -> unrecorded_cycles cfg n w = 0%nat.
Proof.
  revert w. induction n as [|n IH]; intros w Hn; cbn [unrecorded_cycles]; [done|].
  rewrite IH by by eapply faultless_RunOnce; [apply surjective_pairing|].
  unfold unrecorded_cycle. cbn [es_ClaimUndeliveredEvents pg_event_store].
  destruct (ClaimUndeliveredEvents _ _ _ _ w) as [[l|er] w1] eqn:E; [|done].
  rewrite unrecorded_all_faultless; [done|]. by eapply faultless_claim.
Qed.

Lemma RunOnce_within cfg0 m w r w' :
  let cfg := New cfg0 in
  RunOnce cfg w = (r, w') -> others_ok events_kept w -> events_keyed w.(w_db) -> posts_within cfg.(MaxAttempts) m w ->
  others_ok events_kept w' /\ events_keyed w'.(w_db) /\ posts_within cfg.(MaxAttempts) (m + unrecorded_cycle cfg w) w'.
Proof.
  intros cfg E Ho Hk Hp. destruct (New_positive cfg0) as (_ & _ & _ & Hm & _). fold cfg in Hm.
  unfold RunOnce, mtry, mbind in E. unfold unrecorded_cycle. cbn [es_ClaimUndeliveredEvents pg_event_store] in *.
  destruct (ClaimUndeliveredEvents _ _ _ _ w) as [r1 w1] eqn:E1.
  assert ((if MaxAttempts cfg <=? 0 then 10 else MaxAttempts cfg) = MaxAttempts cfg) as Hcap by (destruct (Z.leb_spec (MaxAttempts cfg) 0); lia).
  assert (0 <= MaxAttempts cfg) as Hpos by lia.
  destruct (claim_within cfg.(MaxAttempts) Hpos _ _ _ _ m _ _ _ E1 Hcap Ho Hk Hp) as (Ho1 & Hk1 & Hp1 & Hl).
  destruct r1 as [l|er]; [|injection E as _ <-; by rewrite Nat.add_0_r].
  destruct (Hl l eq_refl) as [Hnd Hpost]. destruct (dispatch_all cfg l 0 0 w1) as [x w2] eqn:E2. injection E as _ <-.
  assert (moves (evolves events_kept) (dispatch_all cfg l 0 0)) as Hmv.
  { clear. generalize 0 at 1 as d. generalize 0 as f. induction l as [|e l IH]; intros f d; cbn [dispatch_all]; [apply moves_ret; exact _|].
    apply moves_bind; [exact _|apply dispatch_one_kept|]. by intros []. }
  destruct (Hmv _ _ _ E2) as (_ & _ & He). destruct (He Ho1) as [Ho2 [Kk _]].
  split_and!; [done|by apply Kk|]. by eapply dispatch_all_within; [lia|exact E2|..].
Qed.

(** C35. The dead-letter cap bounds redelivery.  Over any number of cycles of
    a dispatcher, whatever the sinks and the store answer, and next to
    replicas that leave the events they know of, their attempts and their
    delivery in place: no event is posted to one sink more than [MaxAttempts]
    times, and once more for each post whose last mark could not be written;
    an event that was not delivered has an attempt on record for each other
    post.  A post that was accepted but not recorded as delivered is on record
    as an attempt, so that only a failing [MarkEventFailed] is not counted,
    and without faults of the store there is none. *)
Theorem RunOnce_posts_bounded cfg0 n w :
  let cfg := New cfg0 in
  events_keyed w.(w_db) -> others_ok events_kept w -> posts_within cfg.(MaxAttempts) 0 w ->
  posts_within cfg.(MaxAttempts) (unrecorded_cycles cfg n w) (cycles cfg n w) /\
  (no_faults w -> unrecorded_cycles cfg n w = 0%nat).
Proof.
  intros cfg Hk Ho Hp. split; [|apply unrecorded_cycles_faultless].
  change (unrecorded_cycles cfg n w) with (0 + unrecorded_cycles cfg n w)%nat. revert Hp. generalize 0%nat as m.
  revert w Hk Ho. induction n as [|n IH]; intros w Hk Ho m Hp; cbn [unrecorded_cycles cycles]; [by rewrite Nat.add_0_r|].
  destruct (RunOnce_within cfg0 m w _ _ (surjective_pairing _) Ho Hk Hp) as (Ho1 & Hk1 & Hp1).
  rewrite Nat.add_assoc. by apply IH.
Qed.
End Bounded.

(** ** Witness: refused, not recorded, and posted again *)

Section Demo.
#[local] Existing Instance Dispatcher.demo_uuid_inst.
#[local] Existing Instance Dispatcher.demo_peer_inst.

Definition faulty : envstep := {| es_delay := 0; es_fault := FailBefore; es_locked := ∅; es_others := id |}.
Definition three_minutes : envstep := {| es_delay := Z.to_N (3 * Minute); es_fault := NoFault; es_locked := ∅; es_others := id |}.
(** The store fails at the fifth call, the mark of the first post; the next
    cycle begins when the lease has run out. *)
Definition demo_faulty : World := demo_world <| w_env := repeat calm 4 ++ [faulty; three_minutes] |>.

Lemma RunOnce_posts_bounded_witness :
  posts_within 10 1 (cycles (New demo_config) 3 demo_faulty) /\
  posts SvcEDA "e1" (cycles (New demo_config) 3 demo_faulty).(w_sent) = 2%nat.
Proof.
  split; [|vm_compute; reflexivity].
  destruct (RunOnce_posts_bounded demo_config 3 demo_faulty demo_keyed) as [Hp _].
  - unfold others_ok. simpl. repeat (apply Forall_cons; split; [intros db; reflexivity|]). constructor.
  - intros svc k. destruct (_ !! k) as [e|] eqn:Ee; [|done].
    simpl in Ee. apply lookup_singleton_Some in Ee as [<- <-]. vm_compute. split; discriminate.
  - exact Hp.
Defined.
End Demo.
