(* ===== verification/Lifecycle.v ===== *)
(** * Certificate lifecycle status, Choose recommendation and scope

    [internal/lifecycle] and [internal/governance/scope.go]. *)

From S2P Require Import Prelude GoLib Db.

(** ** [lifecycle.Compute] *)

Definition Compute (now notAfter : time) (expiringSoonDays : Z) (revoked : bool) : CertStatus * Z :=
  let days := whole_days (time_sub notAfter now) in
  if revoked then (StatusRevoked, days)
  else if notAfter <? now then (StatusExpired, days)
  else if days <=? expiringSoonDays then (StatusExpiringSoon, days)
  else (StatusValid, days).

(** ** [lifecycle.ChooseRecommendation] *)

Record ChooseInput := {
  ci_CertScope : CertScope;
  ci_ManagedStatus : ManagedStatus;
  ci_ChainStatus : ChainStatus;
  ci_IsCA : bool
}.

(** The [Code] of a [ChooseResult]; title, rationale and call to action are
    texts that depend on the code alone. *)
Inductive ChooseCode := already_managed | fix_chain | import_ca | migrate_vault | monitor_external.
#[export] Instance ChooseCode_eq_dec : EqDecision ChooseCode.
Proof. solve_decision. Defined.

Definition choose_cta (c : ChooseCode) : string :=
  match c with
  | already_managed => "None"
  | fix_chain => "Import CA to Vault, then rescan"
  | import_ca => "Import CA to Vault"
  | migrate_vault => "Migrate to Vault"
  | monitor_external => "Track in CLM"
  end.

Definition ChooseRecommendation (i : ChooseInput) : ChooseCode :=
  let broken := bool_decide (i.(ci_ChainStatus) = ChainIncomplete) ||
                bool_decide (i.(ci_ChainStatus) = ChainUntrustedRoot) in
  if bool_decide (i.(ci_ManagedStatus) = managed_in_vault) then already_managed
  else if broken then fix_chain
  else if i.(ci_IsCA) && bool_decide (i.(ci_ManagedStatus) = unmanaged) then import_ca
  else if negb i.(ci_IsCA) &&
          (bool_decide (i.(ci_ManagedStatus) = unmanaged) || bool_decide (i.(ci_ManagedStatus) = imported)) &&
          negb broken
  then migrate_vault
  else monitor_external.

(** ** [governance.ClassifyScope] *)

Definition publicCAHints : list string := [
  "let's encrypt"; "digicert"; "globalsign"; "sectigo"; "comodo"; "google trust"; "amazon";
  "entrust"; "go daddy"; "godaddy"; "identrust"; "starfield"; "thawte"; "verisign"; "geotrust";
  "rapidssl"; "usertrust"; "buypass"; "ssl.com"; "zerossl"; "cloudflare"]%string.

Definition internalHostnameSuffixes : list string :=
  [".local"; ".internal"; ".lan"; ".corp"; ".private"; ".home"]%string.

Definition ClassifyScope (chainStatus : ChainStatus) (issuerDN hostname environment : string) : CertScope :=
  if bool_decide (chainStatus = ChainSelfSigned) then ScopeInternal
  else
    let host := ToLower (TrimSpace hostname) in
    if existsb (fun suffix => String.eqb host (TrimPrefix suffix ".") || HasSuffix host suffix)
               internalHostnameSuffixes then ScopeInternal
    else if String.eqb host "localhost" || HasSuffix host ".localhost" then ScopeInternal
    else
      let issuer := ToLower issuerDN in
      if existsb (Contains issuer) publicCAHints then ScopeExternal
      else
        let env := ToLower (TrimSpace environment) in
        if String.eqb env "dev" || String.eqb env "development" || String.eqb env "staging"
        then ScopeInternal
        else if Contains issuer "vault" || Contains issuer "internal ca" then ScopeInternal
        else ScopeExternal.

Example scope_examples :
  ClassifyScope ChainComplete "CN=DigiCert TLS" "App.Corp " "" = ScopeInternal /\
  ClassifyScope ChainComplete "CN=DigiCert TLS" "www.example.com" "dev" = ScopeExternal /\
  ClassifyScope ChainComplete "CN=HashiCorp Vault CA" "www.example.com" "" = ScopeInternal.
Proof. vm_compute. done. Qed.

(** ** Facts *)

(** The recommendation is total and its cases exclude each other: which one
    is made is settled by the four signals as follows. *)
Theorem ChooseRecommendation_spec i :
  match ChooseRecommendation i with
  | already_managed => i.(ci_ManagedStatus) = managed_in_vault
  | fix_chain => i.(ci_ManagedStatus) <> managed_in_vault /\
      (i.(ci_ChainStatus) = ChainIncomplete \/ i.(ci_ChainStatus) = ChainUntrustedRoot)
  | import_ca => i.(ci_IsCA) = true /\ i.(ci_ManagedStatus) = unmanaged /\
      (i.(ci_ChainStatus) = ChainComplete \/ i.(ci_ChainStatus) = ChainSelfSigned)
  | migrate_vault => i.(ci_IsCA) = false /\ i.(ci_ManagedStatus) <> managed_in_vault /\
      (i.(ci_ChainStatus) = ChainComplete \/ i.(ci_ChainStatus) = ChainSelfSigned)
  | monitor_external => i.(ci_IsCA) = true /\ i.(ci_ManagedStatus) = imported /\
      (i.(ci_ChainStatus) = ChainComplete \/ i.(ci_ChainStatus) = ChainSelfSigned)
  end.
Proof. destruct i as [[] [] [] []]; simpl; intuition discriminate. Qed.
