(* ===== verification/CertStore.v ===== *)
(** * Certificates in the store

    The certificate operations of [internal/store/store.go] and
    [internal/store/certificates.go]: discovery upsert with its catalogue
    events, revocation, management status, enrichment, renewal configuration,
    listing and deletion. *)

From Stdlib Require Import Ascii.
From S2P Require Import Prelude GoLib Db Queue Outbox Lifecycle.

Open Scope clm_scope.

(** ** SQL [LIKE]: [%] any bytes, [_] one byte, [\ ] escapes. *)
Fixpoint like_fuel (n : nat) (p s : string) : bool :=
  match n with
  | O => false
  | S n' =>
      match p with
      | EmptyString => match s with EmptyString => true | _ => false end
      | String c p' =>
          if Ascii.eqb c "%"%char then
            like_fuel n' p' s || match s with EmptyString => false | String _ s' => like_fuel n' p s' end
          else if Ascii.eqb c "_"%char then
            match s with EmptyString => false | String _ s' => like_fuel n' p' s' end
          else if Ascii.eqb c "\"%char then
            match p', s with
            | String d p'', String b s' => Ascii.eqb d b && like_fuel n' p'' s'
            | _, _ => false
            end
          else match s with
               | EmptyString => false
               | String b s' => Ascii.eqb c b && like_fuel n' p' s'
               end
      end
  end.

(** Every step consumes a byte of the pattern or of the string. *)
Definition like (s p : string) : bool := like_fuel (S (String.length p + String.length s)) p s.

(** [ILIKE] *)
Definition ilike (s p : string) : bool := like (ToLower s) (ToLower p).

(** [subject_alt_names::text] of a JSONB array of strings. *)
Fixpoint json_escape (s : string) : string :=
  match s with
  | EmptyString => EmptyString
  | String c s' =>
      if Ascii.eqb c (ascii_of_nat 34) || Ascii.eqb c "\"%char then String "\" (String c (json_escape s'))
      else String c (json_escape s')
  end.
Definition json_quote (s : string) : string :=
  (String (ascii_of_nat 34) (json_escape s) ++ String (ascii_of_nat 34) EmptyString)%string.
Definition jsonb_text (l : list string) : string := ("[" ++ Join (map json_quote l) ", " ++ "]")%string.

(** ** Parsed certificates ([cert.ParsedCertificate], [cert.Observation]) *)

Record ParsedCertificate := Build_ParsedCertificate {
  p_SerialNumber : string;
  p_FingerprintSHA256 : string;
  p_SubjectCN : string;
  p_SubjectAltNames : list string;
  p_IssuerDN : string;
  p_AuthorityKeyID : string;
  p_NotBefore : time;
  p_NotAfter : time;
  p_KeyType : string;
  p_KeyBits : Z;
  p_SignatureAlgorithm : string;
  p_IsCA : bool;
  p_KeyUsage : list string;
  p_ExtKeyUsage : list string;
  p_PEM : string;
  p_CRLDistributionPoints : list string;
  p_OCSPServers : list string;
  p_ChainStatus : ChainStatus;
  p_HostnameMatchesSAN : bool;
  p_PQCTag : PQCTag
}.

Record WireObservation := Build_WireObservation {
  wo_IP : string;
  wo_Port : Z;
  wo_Hostname : string;
  wo_SNI : string;
  wo_TLSVersion : string;
  wo_CipherSuite : string;
  wo_ObservedAt : time
}.

(** [nullStr] *)
Definition nullStr (s : string) : option string := if String.eqb s "" then None else Some s.

(** [store.New]'s [expiringSoonDays]. *)
Class StoreConfig := expiringSoonDays : Z.

(** The row with a fingerprint: the column is UNIQUE. *)
Definition cert_by_fp (fp : string) (t : gmap uuid Certificate) : option Certificate :=
  row_by c_FingerprintSHA256 fp t.

Section CertStore.
Context `{UuidGen, StoreConfig}.

(** [revocation_status = 'revoked_in_vault' OR revocation_status LIKE 'revoked_via_%'];
    NULL matches neither. *)
Definition revocation_marked (r : option string) : bool :=
  match r with
  | Some s => String.eqb s "revoked_in_vault" || like s "revoked_via_%"
  | None => false
  end.

(** The INSERT of [UpsertCertificate] with its ON CONFLICT clause. *)
Definition upsert_certificate_tx (parsed : ParsedCertificate) (obs : WireObservation)
    (status : CertStatus) (days : Z) (certScope : CertScope) : txn uuid :=
  existing <-! tget (fun _ db => cert_by_fp parsed.(p_FingerprintSHA256) db.(certificates)) ;;
  match existing with
  | Some c =>
      _ <-! tmod (fun ctx db => db <| certificates ::= <[c.(c_ID) :=
        c <| c_LastSeen := obs.(wo_ObservedAt) |>
          <| c_DaysUntilExpiry := days |>
          <| c_Status := if revocation_marked c.(c_RevocationStatus) then c.(c_Status) else status |>
          <| c_CertScope := certScope |>
          <| c_PQCTag := parsed.(p_PQCTag) |>
          <| c_UpdatedAt := ctx.(NOW) |> ]> |>) ;;
      tret c.(c_ID)
  | None =>
      id <-! new_uuid ;;
      _ <-! trequire (fun db => bool_decide (db.(certificates) !! id = None)) (ErrMsg "duplicate key") ;;
      _ <-! tmod (fun ctx db => db <| certificates ::= <[id := {|
        c_ID := id;
        c_SerialNumber := parsed.(p_SerialNumber);
        c_FingerprintSHA256 := parsed.(p_FingerprintSHA256);
        c_SubjectCN := nullStr parsed.(p_SubjectCN);
        c_SubjectAltNames := parsed.(p_SubjectAltNames);
        c_IssuerDN := parsed.(p_IssuerDN);
        c_AuthorityKeyID := nullStr parsed.(p_AuthorityKeyID);
        c_NotBefore := parsed.(p_NotBefore);
        c_NotAfter := parsed.(p_NotAfter);
        c_KeyType := parsed.(p_KeyType);
        c_KeyBits := parsed.(p_KeyBits);
        c_SignatureAlgorithm := parsed.(p_SignatureAlgorithm);
        c_IsCA := parsed.(p_IsCA);
        c_KeyUsage := parsed.(p_KeyUsage);
        c_ExtKeyUsage := parsed.(p_ExtKeyUsage);
        c_PEM := parsed.(p_PEM);
        c_DaysUntilExpiry := days;
        c_Status := status;
        c_RevocationStatus := None;
        c_RevocationCheckedAt := None;
        c_CRLDistributionPoints := parsed.(p_CRLDistributionPoints);
        c_OCSPServers := parsed.(p_OCSPServers);
        c_FirstDiscovered := obs.(wo_ObservedAt);
        c_LastSeen := obs.(wo_ObservedAt);
        c_HostnameMatchesSAN := parsed.(p_HostnameMatchesSAN);
        c_ChainStatus := parsed.(p_ChainStatus);
        c_ManagedStatus := unmanaged;
        c_CertScope := certScope;
        c_VaultIssuerRef := None;
        c_VaultPKIMount := None;
        c_Owner := None;
        c_Team := None;
        c_Environment := None;
        c_Tags := [];
        c_RiskScore := 0;
        c_RiskReasons := [];
        c_PQCTag := parsed.(p_PQCTag);
        c_RenewalConfig := None;
        c_CreatedAt := ctx.(NOW);
        c_UpdatedAt := ctx.(NOW) |}]> |>) ;;
      tret id
  end.

(** The unique key of [certificate_observations]; NULL is distinct from NULL. *)
Definition same_observation (a b : Observation) : bool :=
  String.eqb a.(o_CertificateID) b.(o_CertificateID) && String.eqb a.(o_ScanID) b.(o_ScanID) &&
  String.eqb a.(o_IP) b.(o_IP) && (a.(o_Port) =? b.(o_Port)) &&
  match a.(o_SNI), b.(o_SNI) with Some s, Some t => String.eqb s t | _, _ => false end.

Definition upsert_observation_tx (o : Observation) : txn unit :=
  _ <-! fk_certificate (Some o.(o_CertificateID)) ;;
  _ <-! trequire (fun db => bool_decide (is_Some (db.(scans) !! o.(o_ScanID)))) (ErrMsg "foreign key") ;;
  tmod (fun _ db => db <| observations ::= fun l =>
    if existsb (same_observation o) l
    then map (fun o' => if same_observation o o' then o' <| o_ObservedAt := o.(o_ObservedAt) |> else o') l
    else l ++ [o] |>).

(** [cataloguePayload]: [json.Marshal] sorts the keys. *)
Definition cataloguePayload (certID : uuid) (fp cn : string) (status : CertStatus) (days : Z)
    (managed : string) (scope : CertScope) : json := JObj [
  ("cert_scope"%string, JStr (cert_scope_text scope));
  ("certificate_id"%string, JStr certID);
  ("days_until_expiry"%string, JNum days);
  ("fingerprint_sha256"%string, JStr fp);
  ("managed_status"%string, JStr managed);
  ("status"%string, JStr (cert_status_text status));
  ("subject_cn"%string, JStr cn)].

(** [emitDiscoveryCatalogueEvents]; [prevStatus] is empty for a new row. *)
Definition emitDiscoveryCatalogueEvents (certID : uuid) (parsed : ParsedCertificate)
    (status : CertStatus) (days : Z) (certScope : CertScope) (inserted : bool)
    (prevStatus : option CertStatus) : M (res unit) :=
  let payload := cataloguePayload certID parsed.(p_FingerprintSHA256) parsed.(p_SubjectCN)
                   status days "unmanaged" certScope in
  _ <-? (if inserted then
           _ <-? appendEventStandalone "cert.discovered" (Some certID) payload ;;
           appendEventStandalone "blind_spot.detected" (Some certID) payload
         else mret (Ok tt)) ;;
  if bool_decide (status = StatusExpiringSoon) &&
     (inserted || negb (bool_decide (prevStatus = Some StatusExpiringSoon)))
  then appendEventStandalone "cert.expiring" (Some certID) payload
  else mret (Ok tt).

(** [Store.UpsertCertificate] *)
Definition UpsertCertificate (scanID : uuid) (parsed : ParsedCertificate) (obs : WireObservation) :
    M (res uuid) :=
  now <-- time_now ;;
  let '(status, days) := Compute now parsed.(p_NotAfter) expiringSoonDays false in
  let hostname := if String.eqb obs.(wo_Hostname) "" then obs.(wo_SNI) else obs.(wo_Hostname) in
  let certScope := ClassifyScope parsed.(p_ChainStatus) parsed.(p_IssuerDN) hostname "" in
  prev <-? store_call (tget (fun _ db =>
             c_Status <$> cert_by_fp parsed.(p_FingerprintSHA256) db.(certificates))) ;;
  certID <-? store_call (upsert_certificate_tx parsed obs status days certScope) ;;
  _ <-? store_call (upsert_observation_tx {|
    o_CertificateID := certID; o_ScanID := scanID; o_IP := obs.(wo_IP); o_Port := obs.(wo_Port);
    o_Hostname := nullStr obs.(wo_Hostname); o_SNI := nullStr obs.(wo_SNI);
    o_TLSVersion := nullStr obs.(wo_TLSVersion); o_CipherSuite := nullStr obs.(wo_CipherSuite);
    o_ObservedAt := obs.(wo_ObservedAt) |}) ;;
  _ <-? emitDiscoveryCatalogueEvents certID parsed status days certScope
          (bool_decide (prev = None)) prev ;;
  mret (Ok certID).

(** [UPDATE certificates SET f WHERE id = k]: the number of rows. *)
Definition update_cert (id : uuid) (f : Ctx -> Certificate -> Certificate) : txn bool :=
  fun ctx db => match update_row id (f ctx) db.(certificates) with
                | Some t => Ok (db <| certificates := t |>, true)
                | None => Ok (db, false)
                end.

(** [Store.GetCertificate] *)
Definition get_certificate_tx (id : uuid) : txn Certificate :=
  c <-! tget (fun _ db => db.(certificates) !! id) ;; tsome c ErrCertificateNotFound.
Definition GetCertificate (id : uuid) : M (res Certificate) := store_call (get_certificate_tx id).

(** [Store.MarkRevoked]: one transaction. *)
Definition mark_revoked_tx (id : uuid) (source : string) : txn unit :=
  let marker := ("revoked_via_" ++ source)%string in
  n <-! update_cert id (fun ctx c =>
    c <| c_Status := StatusRevoked |> <| c_RevocationStatus := Some marker |>
      <| c_RevocationCheckedAt := Some ctx.(NOW) |> <| c_UpdatedAt := ctx.(NOW) |>) ;;
  _ <-! trequire (fun _ => n) ErrCertificateNotFound ;;
  appendEventTx "cert.revoked" (Some id)
    (JObj [("revocation_status"%string, JStr marker); ("source"%string, JStr source)]).
Definition MarkRevoked (id : uuid) (source : string) : M (res unit) :=
  store_call (mark_revoked_tx id source).

(** [Store.SetManagedStatus] *)
Definition set_managed_status_tx (id : uuid) (status : ManagedStatus) : txn bool := fun ctx db =>
  match db.(certificates) !! id with
  | Some c =>
      if bool_decide (c.(c_ManagedStatus) = managed_in_vault) then Ok (db, false)
      else Ok (db <| certificates ::= <[id := c <| c_ManagedStatus := status |>
                                               <| c_UpdatedAt := ctx.(NOW) |>]> |>, true)
  | None => Ok (db, false)
  end.
Definition SetManagedStatus (id : uuid) (status : ManagedStatus) : M (res Certificate) :=
  n <-? store_call (set_managed_status_tx id status) ;;
  if negb n then
    _ <-? GetCertificate id ;;
    mret (Err ErrManagedByVault)
  else GetCertificate id.

(** [ManagedStatusUpdate] *)
Record ManagedStatusUpdate := {
  u_ManagedStatus : ManagedStatus;
  u_VaultPKIMount : string;
  u_VaultIssuerRef : option string;
  u_Revoked : bool
}.

Definition apply_managed (u : ManagedStatusUpdate) (now : time) (c : Certificate) : Certificate :=
  c <| c_ManagedStatus := u.(u_ManagedStatus) |>
    <| c_VaultPKIMount := Some u.(u_VaultPKIMount) |>
    <| c_VaultIssuerRef := u.(u_VaultIssuerRef) |>
    <| c_Status := if u.(u_Revoked) then StatusRevoked else c.(c_Status) |>
    <| c_RevocationStatus :=
         if u.(u_Revoked) then Some "revoked_in_vault"%string
         else if bool_decide (c.(c_RevocationStatus) = Some "revoked_in_vault"%string) then None
         else c.(c_RevocationStatus) |>
    <| c_RevocationCheckedAt := Some now |>
    <| c_UpdatedAt := now |>.

(** [Store.UpdateManagedStatusByFingerprint] *)
Definition update_managed_tx (fingerprint : string) (u : ManagedStatusUpdate) : txn bool :=
  fun ctx db =>
    let p c := String.eqb c.(c_FingerprintSHA256) fingerprint in
    Ok (db <| certificates ::= update_where p (apply_managed u ctx.(NOW)) |>,
        bool_decide (is_Some (cert_by_fp fingerprint db.(certificates)))).
Definition UpdateManagedStatusByFingerprint (fingerprint : string) (u : ManagedStatusUpdate) :
    M (res bool) := store_call (update_managed_tx fingerprint u).

(** The observations of a certificate in a scan. *)
Definition observed_in (db : DB) (scanID : uuid) (c : Certificate) : bool :=
  existsb (fun o => String.eqb o.(o_CertificateID) c.(c_ID) && String.eqb o.(o_ScanID) scanID)
          db.(observations).

(** [Store.CountByManagedStatus] *)
Definition CountByManagedStatus (scanID : option uuid) : M (res (Z * Z)) :=
  store_call (tget (fun _ db =>
    let rows := select (fun c => match scanID with Some s => observed_in db s c | None => true end)
                       (fun _ _ => false) db.(certificates) in
    (Z.of_nat (length (filter (fun c => c_ManagedStatus c = managed_in_vault) rows)),
     Z.of_nat (length rows)))).

(** [CertificateFilter]; an empty string or [None] filters nothing. *)
Record CertificateFilter := {
  cf_Status : string;
  cf_ChainStatus : string;
  cf_Search : string;
  cf_ScanID : option uuid;
  cf_PQCTag : string;
  cf_MinRisk : option Z;
  cf_SortBy : string;
  cf_SortDesc : bool;
  cf_Limit : Z;
  cf_Offset : Z
}.

Definition is_or_any (wanted s : string) : bool := String.eqb wanted "" || String.eqb s wanted.

(** [status] and [chain_status] are enumerations of the schema: a text that is
    none of their values is refused by the database. *)
Definition enum_literal {A} (text : A -> string) (values : list A) (s : string) : bool :=
  String.eqb s "" || existsb (fun v => String.eqb s (text v)) values.
Definition filter_casts (f : CertificateFilter) : bool :=
  enum_literal cert_status_text [StatusValid; StatusExpiringSoon; StatusExpired; StatusRevoked] f.(cf_Status) &&
  enum_literal chain_status_text [ChainComplete; ChainSelfSigned; ChainIncomplete; ChainUntrustedRoot] f.(cf_ChainStatus).

(** The search clause: [ILIKE '%search%'] on the name, the fingerprint and
    the alternative names. *)
Definition cert_search (search : string) (c : Certificate) : bool :=
  let p := ("%" ++ search ++ "%")%string in
  match c.(c_SubjectCN) with Some cn => ilike cn p | None => false end ||
  ilike c.(c_FingerprintSHA256) p || ilike (jsonb_text c.(c_SubjectAltNames)) p.

Definition cert_where (db : DB) (f : CertificateFilter) (c : Certificate) : bool :=
  is_or_any f.(cf_Status) (cert_status_text c.(c_Status)) &&
  is_or_any f.(cf_ChainStatus) (chain_status_text c.(c_ChainStatus)) &&
  (String.eqb f.(cf_Search) "" || cert_search f.(cf_Search) c) &&
  match f.(cf_ScanID) with Some s => observed_in db s c | None => true end &&
  is_or_any f.(cf_PQCTag) (pqc_text c.(c_PQCTag)) &&
  match f.(cf_MinRisk) with Some r => r <=? c.(c_RiskScore) | None => true end.

(** ORDER BY *)
Definition cert_order (f : CertificateFilter) (a b : Certificate) : bool :=
  let newer := c_LastSeen b <? c_LastSeen a in
  if String.eqb f.(cf_SortBy) "risk_score" then
    let '(x, y) := if f.(cf_SortDesc) then (b, a) else (a, b) in
    (c_RiskScore x <? c_RiskScore y) || ((c_RiskScore x =? c_RiskScore y) && newer)
  else newer.

(** [Store.ListCertificates]: the page and the total.  A negative OFFSET is a
    database error. *)
Definition ListCertificates (f : CertificateFilter) : M (res (list Certificate * Z)) :=
  let limit := if f.(cf_Limit) <=? 0 then 50 else f.(cf_Limit) in
  total <-? store_call (
    _ <-! trequire (fun _ => filter_casts f) ErrDatabase ;;
    tget (fun _ db => Z.of_nat (length (select (cert_where db f) (fun _ _ => false) db.(certificates))))) ;;
  rows <-? store_call (
    _ <-! trequire (fun _ => filter_casts f && (0 <=? f.(cf_Offset))) ErrDatabase ;;
    tget (fun _ db => take (Z.to_nat limit) (drop (Z.to_nat f.(cf_Offset))
      (select (cert_where db f) (cert_order f) db.(certificates))))) ;;
  mret (Ok (rows, total)).

(** [Store.ListRenewable] *)
Definition renewable (withinDays : Z) (c : Certificate) : bool :=
  bool_decide (is_Some c.(c_RenewalConfig)) &&
  (bool_decide (c.(c_ManagedStatus) = imported) || bool_decide (c.(c_ManagedStatus) = managed_in_vault)) &&
  negb (bool_decide (c.(c_Status) = StatusRevoked)) &&
  negb c.(c_IsCA) &&
  (c.(c_DaysUntilExpiry) <=? withinDays).
Definition ListRenewable (withinDays : Z) : M (res (list Certificate)) :=
  store_call (tget (fun _ db =>
    select (renewable withinDays) (fun a b => c_DaysUntilExpiry a <? c_DaysUntilExpiry b)
           db.(certificates))).

(** [Store.GetCertificateObservations] *)
Definition GetCertificateObservations (certID : uuid) : M (res (list Observation)) :=
  store_call (tget (fun _ db =>
    stable_sort (fun a b => o_ObservedAt b <? o_ObservedAt a)
      (filter (fun o => o_CertificateID o = certID) db.(observations)))).

(** [EnrichmentUpdate]; [None] is NULL. *)
Record EnrichmentUpdate := {
  eu_Owner : option string;
  eu_Team : option string;
  eu_Environment : option string;
  eu_Tags : option (list string)
}.

Definition coalesce {A} (a b : option A) : option A := match a with Some _ => a | None => b end.

(** [Store.UpdateCertificateEnrichment] *)
Definition UpdateCertificateEnrichment (id : uuid) (u : EnrichmentUpdate) : M (res Certificate) :=
  _ <-? store_call (update_cert id (fun ctx c =>
    c <| c_Owner ::= coalesce u.(eu_Owner) |>
      <| c_Team ::= coalesce u.(eu_Team) |>
      <| c_Environment ::= coalesce u.(eu_Environment) |>
      <| c_Tags ::= (fun t => match u.(eu_Tags) with Some t' => t' | None => t end) |>
      <| c_UpdatedAt := ctx.(NOW) |>)) ;;
  GetCertificate id.

(** [Store.SetRenewalConfig] *)
Definition SetRenewalConfig (id : uuid) (cfg : RenewalConfig) : M (res Certificate) :=
  n <-? store_call (update_cert id (fun ctx c =>
          c <| c_RenewalConfig := Some cfg |> <| c_UpdatedAt := ctx.(NOW) |>)) ;;
  if negb n then mret (Err ErrCertificateNotFound) else GetCertificate id.

(** [Store.DeleteCertificate]: the schema cascades to observations, findings
    and waivers, and sets the references of events and jobs to NULL. *)
Definition delete_certificate_tx (id : uuid) : txn unit :=
  _ <-! trequire (fun db => bool_decide (is_Some (db.(certificates) !! id))) ErrCertificateNotFound ;;
  tmod (fun _ db =>
    let unref (o : option uuid) := if bool_decide (o = Some id) then None else o in
    db <| certificates ::= delete id |>
       <| observations ::= (fun l => filter (fun o => o_CertificateID o <> id) l) |>
       <| findings ::= (fun m => filter (fun kv => kv.1.1 <> id) m) |>
       <| waivers ::= (fun m => filter (fun kv => w_CertID kv.2 <> id) m) |>
       <| events ::= (fun m => (fun e => e <| e_CertificateID ::= unref |>) <$> m) |>
       <| lifecycle_jobs ::= (fun m => (fun j => j <| j_PredecessorCertID ::= unref |>
                                                   <| j_SuccessorCertID ::= unref |>) <$> m) |>).
Definition DeleteCertificate (id : uuid) : M (res unit) := store_call (delete_certificate_tx id).
End CertStore.

(** ** The shape of the table *)

(** The primary key is the [id] column, and fingerprints are unique. *)
Abbreviation certs_ok := (table_ok c_ID c_FingerprintSHA256).

(** ** What the operations do to the certificates *)

Section CertFacts.
Context `{UuidGen, StoreConfig}.

(** Bytes that stand for themselves, or for any byte. *)
Definition plain (c : ascii) : bool := negb (Ascii.eqb c "%"%char) && negb (Ascii.eqb c "\"%char).

Lemma like_plain pre p s n :
  string_forallb plain pre = true ->
  like_fuel (String.length pre + n) (pre ++ p) (pre ++ s) = like_fuel n p s.
Proof.
  induction pre as [|c pre IH]; [done|]. simpl. unfold plain at 1. intros H1. b2p.
  destruct H1 as [[-> ->] Hp]. rewrite (IH Hp), Ascii.eqb_refl. by destruct (Ascii.eqb c "_").
Qed.

Lemma like_pct_any s n : (String.length s < n)%nat -> like_fuel (S n) "%" s = true.
Proof.
  revert n. induction s as [|c s IH]; intros n Hn; simpl in Hn.
  - destruct n as [|n]; [lia|]. done.
  - destruct n as [|n]; [lia|].
    change (like_fuel (S n) "" (String c s) || like_fuel (S n) "%" s = true).
    rewrite IH by lia. apply orb_true_r.
Qed.

(** Every marker the program writes is recognised by the rescan. *)
Lemma revocation_marked_via s : revocation_marked (Some ("revoked_via_" ++ s)%string) = true.
Proof.
  unfold revocation_marked. apply orb_true_iff. right. unfold like.
  assert (S (String.length "revoked_via_%" + String.length ("revoked_via_" ++ s)) =
    String.length "revoked_via_" + S (String.length s + 13))%nat as -> by (rewrite string_length_app; simpl; lia).
  change "revoked_via_%"%string with ("revoked_via_" ++ "%")%string.
  rewrite like_plain by done. apply like_pct_any. lia.
Qed.

(** Certificates the rescan must not bring back. *)
Definition revoked_row (c : Certificate) : Prop :=
  c.(c_Status) = StatusRevoked /\ revocation_marked c.(c_RevocationStatus) = true.

Definition keeps_revoked (db db' : DB) : Prop := certs_ok db.(certificates) ->
  certs_ok db'.(certificates) /\
  forall k c, db.(certificates) !! k = Some c -> revoked_row c ->
    exists c', db'.(certificates) !! k = Some c' /\ revoked_row c'.

#[export] Instance keeps_revoked_preorder : PreOrder keeps_revoked.
Proof.
  split.
  - intros db Hok. split; [done|]. eauto.
  - intros d1 d2 d3 H12 H23 H1. destruct (H12 H1) as [H2 Hr2], (H23 H2) as [H3 Hr3].
    split; [done|]. intros k c Hk Hc. destruct (Hr2 k c Hk Hc) as (c' & Hk' & Hc'). eauto.
Qed.

Lemma keeps_revoked_same db db' :
  db'.(certificates) = db.(certificates) -> keeps_revoked db db'.
Proof. intros E Hok. rewrite E. eauto. Qed.

Lemma moves_append_event ty cert payload :
  moves (evolves keeps_revoked) (appendEventStandalone ty cert payload).
Proof.
  apply moves_store_call; [exact _|]. intros c db db' [] (id & _ & ->)%appendEventTx_ok.
  by apply keeps_revoked_same.
Qed.

Lemma upsert_certificate_tx_keeps parsed obs st days sc c db db' id :
  upsert_certificate_tx parsed obs st days sc c db = Ok (db', id) -> keeps_revoked db db'.
Proof.
  unfold upsert_certificate_tx. intros Hu Hok. txn_inv.
  destruct (cert_by_fp _ _) as [c0|] eqn:Efp; txn_inv.
  - apply row_by_some in Efp as [Hfp [k Hk]]. pose proof (table_keyed Hok _ _ Hk) as Hid.
    rewrite Hid. split.
    + by eapply table_ok_insert.
    + intros k' c' Hk' Hc'. rewrite lookup_insert. case_decide; [|eauto]. subst k'.
      assert (c' = c0) as -> by congruence. eexists. split; [done|]. destruct Hc' as [Hs Hm].
      split; simpl; [by rewrite Hm|done].
  - b2p. split.
    + by apply table_ok_new.
    + intros k' c' Hk' Hc'. rewrite lookup_insert. case_decide; [congruence|eauto].
Qed.

Lemma moves_UpsertCertificate scanID parsed obs :
  moves (evolves keeps_revoked) (UpsertCertificate scanID parsed obs).
Proof.
  pose proof moves_append_event. unfold UpsertCertificate, emitDiscoveryCatalogueEvents. moves_tac.
  all: try apply H1.
  all: apply moves_store_call; [exact _|]; intros ctx db db' ret Ht.
  - unfold tget in Ht. txn_inv. by apply keeps_revoked_same.
  - by eapply upsert_certificate_tx_keeps.
  - unfold upsert_observation_tx in Ht. txn_inv. by apply keeps_revoked_same.
Qed.

(** C13. A revocation survives rescans: whatever certificates a scan upserts,
    under any delays, faults and concurrent writers that keep revocations, a
    certificate revoked with one of the program's markers stays revoked. *)
Theorem UpsertCertificate_keeps_revoked scanID parsed obs w r w' k c :
  UpsertCertificate scanID parsed obs w = (r, w') ->
  others_ok keeps_revoked w -> certs_ok w.(w_db).(certificates) ->
  w.(w_db).(certificates) !! k = Some c -> revoked_row c ->
  exists c', w'.(w_db).(certificates) !! k = Some c' /\ revoked_row c'.
Proof.
  intros E Ho Hok Hk Hc. destruct (moves_UpsertCertificate scanID parsed obs _ _ _ E) as (_ & _ & Hm).
  destruct (Hm Ho) as [_ Hm']. destruct (Hm' Hok) as [_ Hr]. eauto.
Qed.

Lemma update_cert_ok id f c db db' n :
  update_cert id f c db = Ok (db', n) ->
  (n = true /\ exists x, db.(certificates) !! id = Some x /\
     db' = db <| certificates := <[id := f c x]> db.(certificates) |>) \/
  (n = false /\ db.(certificates) !! id = None /\ db' = db).
Proof.
  unfold update_cert, update_row. destruct (certificates db !! id) as [x|]; intros [= <- <-]; eauto.
Qed.

(** The outbox rule for revocations: in any environment [MarkRevoked]
    either leaves the database as the other writers left it and reports an
    error, or it has revoked the certificate with a marker rescans keep and
    added its undelivered [cert.revoked] event, both at once; and success is
    reported only in the second case. *)
Theorem MarkRevoked_atomic id source w r w' :
  MarkRevoked id source w = (r, w') ->
  exists e w1, next_env w = (e, w1) /\
    ((w'.(w_db) = w1.(w_db) /\ is_ok r = false) \/
     exists c c' ev, w1.(w_db).(certificates) !! id = Some c /\
       revoked_row c' /\ c'.(c_FingerprintSHA256) = c.(c_FingerprintSHA256) /\ c'.(c_ID) = c.(c_ID) /\
       w'.(w_db).(certificates) = <[id := c']> w1.(w_db).(certificates) /\
       ev.(e_EventType) = "cert.revoked"%string /\ ev.(e_CertificateID) = Some id /\
       ev.(e_DeliveredAt) = None /\ ev.(e_Attempts) = 0 /\
       w1.(w_db).(events) !! ev.(e_ID) = None /\
       w'.(w_db).(events) = <[ev.(e_ID) := ev]> w1.(w_db).(events)).
Proof.
  intros (e & w1 & He & Hcase)%store_call_spec. exists e, w1. split; [done|].
  destruct Hcase as [(-> & err & -> & _)|(a & db' & Ht & -> & _)]; [by left|right].
  unfold mark_revoked_tx in Ht. apply tbind_ok in Ht as (db1 & n & Hu & Ht).
  apply tbind_ok in Ht as (db2 & [] & Hr & Ht). apply trequire_ok in Hr as (-> & -> & _).
  apply update_cert_ok in Hu as [(_ & c & Hc & ->)|(? & _)]; [|done].
  destruct a. apply appendEventTx_ok in Ht as (k & Hk & ->). simpl in *.
  eexists c, _, (Build_Event k _ _ _ _ _ _ _ _ _).
  split_and!; [exact Hc| | | |reflexivity|..|reflexivity]; try done.
  split; [done|apply revocation_marked_via].
Qed.

(** A reconciliation that finds a certificate revoked replaces the marker of a
    CRL or OCSP check by its own, and a later one that does not find it
    revoked clears that: nothing recalls the proof any more, and the next
    rescan computes the status from the dates. *)
Lemma reconcile_forgets_proof u u' now now' c :
  u.(u_Revoked) = true -> u'.(u_Revoked) = false ->
  (apply_managed u' now' (apply_managed u now c)).(c_RevocationStatus) = None.
Proof. intros Hu Hu'. unfold apply_managed. simpl. by rewrite Hu, Hu'. Qed.

(** The error of an unknown certificate, and nothing written. *)
Lemma MarkRevoked_unknown id source w :
  w.(w_env) = [] -> w.(w_db).(certificates) !! id = None ->
  MarkRevoked id source w = (Err ErrCertificateNotFound, w).
Proof.
  intros Henv Hn. unfold MarkRevoked. rewrite store_call_calm by done.
  unfold mark_revoked_tx, tbind, update_cert, update_row. simpl. by rewrite Hn.
Qed.

(** *** Ownership of [managed_in_vault] *)

Definition keeps_managed (db db' : DB) : Prop :=
  forall k c, db.(certificates) !! k = Some c -> c.(c_ManagedStatus) = managed_in_vault ->
    exists c', db'.(certificates) !! k = Some c' /\ c'.(c_ManagedStatus) = managed_in_vault.

#[export] Instance keeps_managed_preorder : PreOrder keeps_managed.
Proof.
  split; [intros db k c; eauto|].
  intros d1 d2 d3 H12 H23 k c Hk Hc. destruct (H12 k c Hk Hc) as (c' & ? & ?). eauto.
Qed.

Lemma keeps_managed_same db db' :
  db'.(certificates) = db.(certificates) -> keeps_managed db db'.
Proof. intros E k c. rewrite E. eauto. Qed.

Lemma get_certificate_ok id c db db' x :
  get_certificate_tx id c db = Ok (db', x) -> db' = db /\ db.(certificates) !! id = Some x.
Proof. unfold get_certificate_tx. intros. by txn_inv. Qed.

Lemma SetManagedStatus_moves id st : moves (evolves keeps_managed) (SetManagedStatus id st).
Proof.
  unfold SetManagedStatus, GetCertificate. moves_tac.
  all: apply moves_store_call; [exact _|]; intros ctx db db' ret Ht.
  2,3: apply get_certificate_ok in Ht as [-> _]; by apply keeps_managed_same.
  unfold set_managed_status_tx in Ht. destruct (certificates db !! id) as [c0|] eqn:E.
  - case_bool_decide; injection Ht as <- <-; [by apply keeps_managed_same|].
    intros k c Hk Hc. simpl. rewrite lookup_insert. case_decide; [congruence|eauto].
  - injection Ht as <- <-. by apply keeps_managed_same.
Qed.

(** Reconcile owns [managed_in_vault]: a catalogue import never takes a
    certificate out of it, even when a reconcile pass commits between the
    steps of the import. *)
Theorem SetManagedStatus_respects_vault id st w r w' k c :
  SetManagedStatus id st w = (r, w') -> others_ok keeps_managed w ->
  w.(w_db).(certificates) !! k = Some c -> c.(c_ManagedStatus) = managed_in_vault ->
  exists c', w'.(w_db).(certificates) !! k = Some c' /\ c'.(c_ManagedStatus) = managed_in_vault.
Proof.
  intros E Ho Hk Hc. destruct (SetManagedStatus_moves id st _ _ _ E) as (_ & _ & Hm).
  destruct (Hm Ho) as [_ H']. eauto.
Qed.

(** *** Searching *)

(** A string without wildcards and escapes contains itself. *)
Lemma like_contains s : string_forallb plain s = true -> like s ("%" ++ (s ++ "%")) = true.
Proof.
  intros Hs. unfold like. rewrite string_app_cons, string_app_nil. simpl String.length.
  rewrite string_length_app. simpl String.length.
  replace (S _) with (S (String.length s + S (S (String.length s))))%nat by lia.
  simpl like_fuel. apply orb_true_iff. left.
  transitivity (like_fuel (String.length s + S (S (String.length s))) (s ++ "%") (s ++ "")).
  { by rewrite string_app_empty_r. }
  by rewrite like_plain.
Qed.

Lemma ToLower_app s t : ToLower (s ++ t) = (ToLower s ++ ToLower t)%string.
Proof.
  induction s as [|c s IH]; [done|]. rewrite string_app_cons. simpl. unfold ToLower in *.
  simpl. by rewrite IH, string_app_cons.
Qed.

Lemma plain_ToLower s : string_forallb plain s = true -> string_forallb plain (ToLower s) = true.
Proof.
  induction s as [|c s IH]; [done|]. unfold ToLower. simpl. rewrite !andb_true_iff.
  intros [Hc Hs]. split; [|by apply IH]. revert Hc. by destruct c as [[] [] [] [] [] [] [] []].
Qed.

(** A certificate is found under its own common name. *)
Lemma cert_search_own_cn c cn :
  c.(c_SubjectCN) = Some cn -> string_forallb plain cn = true -> cert_search cn c = true.
Proof.
  intros Hcn Hp. unfold cert_search. rewrite Hcn. unfold ilike. rewrite !ToLower_app.
  apply orb_true_iff. left. apply orb_true_iff. left. apply like_contains. by apply plain_ToLower.
Qed.

(** *** Catalogue events *)

Definition catalogue_events (prev : option CertStatus) (status : CertStatus) : list string :=
  (if bool_decide (prev = None) then ["cert.discovered"; "blind_spot.detected"]%string else []) ++
  (if bool_decide (status = StatusExpiringSoon) && negb (bool_decide (prev = Some StatusExpiringSoon))
   then ["cert.expiring"%string] else []).

Lemma appendEventStandalone_emits ty cert payload w u w' :
  w.(w_env) = [] -> appendEventStandalone ty cert payload w = (Ok u, w') ->
  emits cert [ty] w.(w_db) w'.(w_db) /\ w'.(w_env) = [].
Proof.
  intros Henv (db' & Ht & ->)%store_call_calm_ok; [|done]. split; [|done].
  by eapply appendEventTx_emits.
Qed.

Lemma emitDiscoveryCatalogueEvents_emits id parsed status days sc prev w u w' :
  w.(w_env) = [] ->
  emitDiscoveryCatalogueEvents id parsed status days sc (bool_decide (prev = None)) prev w = (Ok u, w') ->
  emits (Some id) (catalogue_events prev status) w.(w_db) w'.(w_db) /\ w'.(w_env) = [].
Proof.
  intros Henv. unfold emitDiscoveryCatalogueEvents, catalogue_events.
  intros (u1 & w1 & H1 & H2)%mtry_ok.
  assert (emits (Some id) (if bool_decide (prev = None) then ["cert.discovered"; "blind_spot.detected"]%string else [])
    w.(w_db) w1.(w_db) /\ w1.(w_env) = []) as [He1 Henv1].
  { revert H1. destruct (bool_decide (prev = None)); intros Hev;
      [|unfold mret in Hev; injection Hev as _ <-; split; [by constructor|done]].
    apply mtry_ok in Hev as (u2 & w2 & Hev & H3).
    apply appendEventStandalone_emits in Hev as [Ha Henv2]; [|done].
    apply appendEventStandalone_emits in H3 as [Hb ?]; [|done].
    split; [exact (emits_app _ _ _ _ _ _ Ha Hb)|done]. }
  replace (bool_decide (prev = None) || negb (bool_decide (prev = Some StatusExpiringSoon)))
    with (negb (bool_decide (prev = Some StatusExpiringSoon))) in H2
    by (destruct prev as [[]|]; done).
  destruct (_ && _).
  - apply appendEventStandalone_emits in H2 as [Hb ?]; [|done]. split; [|done].
    by eapply emits_app.
  - unfold mret in H2. injection H2 as _ <-. split; [|done]. eapply emits_app; [done|by constructor].
Qed.

(** Without interference, a successful upsert announces exactly the
    catalogue events of the change: [cert.discovered] and
    [blind_spot.detected] for a fingerprint not seen before, [cert.expiring]
    when the certificate is expiring soon and its row did not say so. *)
Theorem UpsertCertificate_events scanID parsed obs w id w' :
  w.(w_env) = [] -> UpsertCertificate scanID parsed obs w = (Ok id, w') ->
  emits (Some id)
    (catalogue_events (c_Status <$> cert_by_fp parsed.(p_FingerprintSHA256) w.(w_db).(certificates))
       (Compute w.(w_clock) parsed.(p_NotAfter) expiringSoonDays false).1)
    w.(w_db) w'.(w_db).
Proof.
  intros Henv. unfold UpsertCertificate, mbind at 1. unfold time_now, next_env. rewrite Henv.
  cbn [w_clock]. destruct (Compute _ _ _ _) as [status days] eqn:EC. simpl fst.
  intros (prev & w1 & H1 & H2)%mtry_ok. apply store_call_calm_ok in H1 as (db1 & H1 & ->); [|done].
  txn_inv. rewrite world_db_id in H2.
  set (prev := c_Status <$> _) in *. clearbody prev.
  apply mtry_ok in H2 as (id1 & w2 & H2 & H3).
  apply store_call_calm_ok in H2 as (db2 & H2 & ->); [|done].
  apply mtry_ok in H3 as (u & w3 & H3 & H4).
  apply store_call_calm_ok in H3 as (db3 & H3 & ->); [|done].
  apply mtry_ok in H4 as (u4 & w4 & H4 & H5). unfold mret in H5. injection H5 as -> <-.
  apply emitDiscoveryCatalogueEvents_emits in H4 as [He _]; [|done].
  eapply (emits_app _ []); [constructor|exact He].
  unfold upsert_observation_tx in H3. txn_inv.
  unfold upsert_certificate_tx in H2. txn_inv. destruct (cert_by_fp _ _); by txn_inv.
Qed.
End CertFacts.

(** ** Witnesses *)

Definition demo_cert : Certificate := {|
  c_ID := "c1"; c_SerialNumber := "01"; c_FingerprintSHA256 := "aa"; c_SubjectCN := Some "app.corp"%string;
  c_SubjectAltNames := ["app.corp"%string]; c_IssuerDN := "CN=Vault"; c_AuthorityKeyID := None;
  c_NotBefore := 0; c_NotAfter := 100 * 24 * Hour; c_KeyType := "RSA"; c_KeyBits := 2048;
  c_SignatureAlgorithm := "SHA256-RSA"; c_IsCA := false; c_KeyUsage := []; c_ExtKeyUsage := [];
  c_PEM := ""; c_DaysUntilExpiry := 100; c_Status := StatusValid; c_RevocationStatus := None;
  c_RevocationCheckedAt := None; c_CRLDistributionPoints := []; c_OCSPServers := [];
  c_FirstDiscovered := 0; c_LastSeen := 0; c_HostnameMatchesSAN := true; c_ChainStatus := ChainComplete;
  c_ManagedStatus := unmanaged; c_CertScope := ScopeInternal; c_VaultIssuerRef := None;
  c_VaultPKIMount := None; c_Owner := None; c_Team := None; c_Environment := None; c_Tags := [];
  c_RiskScore := 0; c_RiskReasons := []; c_PQCTag := PQCTagClassic; c_RenewalConfig := None;
  c_CreatedAt := 0; c_UpdatedAt := 0 |}.

Definition demo_db (c : Certificate) : DB :=
  Build_DB {[c.(c_ID) := c]} [] ∅ ∅ [] []
    {["s1"%string := Build_Scan "s1" "network" scan_running [] [] [] 1 None None 0 0 0 0 0 0 [] [] None None None 0]}
    ∅ ∅ ∅ ∅ 0.

Definition demo_parsed : ParsedCertificate :=
  Build_ParsedCertificate "01" "aa" "app.corp" [] "CN=Vault" "" 0 (100 * 24 * Hour) "RSA" 2048
    "SHA256-RSA" false [] [] "" [] [] ChainComplete true PQCTagClassic.
Definition demo_obs : WireObservation := Build_WireObservation "10.0.0.1" 443 "app.corp" "" "" "" 0.

Section Demo.
#[local] Instance demo_uuid : UuidGen := fun n => pretty n.
#[local] Instance demo_store : StoreConfig := 30.

(** A certificate revoked through OCSP, scanned again. *)
Definition demo_revoked : Certificate :=
  demo_cert <| c_Status := StatusRevoked |> <| c_RevocationStatus := Some "revoked_via_ocsp"%string |>.
Definition demo_rescan := UpsertCertificate "s1" demo_parsed demo_obs (calm_world (demo_db demo_revoked) 0).

Example demo_rescan_ok : is_ok demo_rescan.1 = true.
Proof. vm_compute. done. Qed.

Lemma UpsertCertificate_keeps_revoked_witness :
  exists c', demo_rescan.2.(w_db).(certificates) !! "c1"%string = Some c' /\ revoked_row c'.
Proof.
  apply (UpsertCertificate_keeps_revoked "s1" demo_parsed demo_obs (calm_world (demo_db demo_revoked) 0)
    demo_rescan.1 demo_rescan.2 "c1" demo_revoked).
  - apply surjective_pairing.
  - constructor.
  - apply (table_ok_singleton c_ID c_FingerprintSHA256 demo_revoked).
  - reflexivity.
  - split; vm_compute; reflexivity.
Defined.

Lemma MarkRevoked_atomic_witness :
  exists e w1, next_env (calm_world (demo_db demo_cert) 5) = (e, w1) /\
    let w' := (MarkRevoked "c1" "crl" (calm_world (demo_db demo_cert) 5)).2 in
    let r := (MarkRevoked "c1" "crl" (calm_world (demo_db demo_cert) 5)).1 in
    ((w'.(w_db) = w1.(w_db) /\ is_ok r = false) \/
     exists c c' ev, w1.(w_db).(certificates) !! "c1"%string = Some c /\
       revoked_row c' /\ c'.(c_FingerprintSHA256) = c.(c_FingerprintSHA256) /\ c'.(c_ID) = c.(c_ID) /\
       w'.(w_db).(certificates) = <["c1"%string := c']> w1.(w_db).(certificates) /\
       ev.(e_EventType) = "cert.revoked"%string /\ ev.(e_CertificateID) = Some "c1"%string /\
       ev.(e_DeliveredAt) = None /\ ev.(e_Attempts) = 0 /\
       w1.(w_db).(events) !! ev.(e_ID) = None /\
       w'.(w_db).(events) = <[ev.(e_ID) := ev]> w1.(w_db).(events)).
Proof. apply (MarkRevoked_atomic "c1" "crl"), surjective_pairing. Defined.

Definition demo_vault_cert : Certificate := demo_cert <| c_ManagedStatus := managed_in_vault |>.
Definition demo_set := SetManagedStatus "c1" imported (calm_world (demo_db demo_vault_cert) 0).

Example demo_set_refused : demo_set.1 = Err ErrManagedByVault.
Proof. vm_compute. done. Qed.

Lemma SetManagedStatus_respects_vault_witness :
  exists c', demo_set.2.(w_db).(certificates) !! "c1"%string = Some c' /\
    c'.(c_ManagedStatus) = managed_in_vault.
Proof.
  apply (SetManagedStatus_respects_vault "c1" imported (calm_world (demo_db demo_vault_cert) 0)
    demo_set.1 demo_set.2 "c1" demo_vault_cert); [apply surjective_pairing|constructor|reflexivity..].
Defined.

(** The same certificate, no longer far from its expiry. *)
Definition demo_late := UpsertCertificate "s1" demo_parsed demo_obs (calm_world (demo_db demo_cert) (80 * 24 * Hour)).
Lemma UpsertCertificate_events_witness :
  emits (Some "c1"%string) ["cert.expiring"%string] (demo_db demo_cert) demo_late.2.(w_db).
Proof.
  replace ["cert.expiring"%string] with
    (catalogue_events (c_Status <$> cert_by_fp "aa" (demo_db demo_cert).(certificates))
       (Compute (80 * 24 * Hour) (100 * 24 * Hour) 30 false).1) by (vm_compute; reflexivity).
  apply (UpsertCertificate_events "s1" demo_parsed demo_obs (calm_world (demo_db demo_cert) (80 * 24 * Hour))
    "c1" demo_late.2); vm_compute; reflexivity.
Defined.

(** A revoked certificate near its expiry announces [cert.expiring] again on
    every rescan: the row keeps the status "revoked", the test compares it
    with the status computed from the dates. *)
Example revoked_announced_again :
  (cert_status_text <$> (c_Status <$>
     (UpsertCertificate "s1" demo_parsed demo_obs (calm_world (demo_db demo_revoked) (80 * 24 * Hour))).2.(w_db).(certificates)
       !! "c1"%string)) = Some "revoked"%string /\
  map e_EventType (map snd (map_to_list
    (UpsertCertificate "s1" demo_parsed demo_obs (calm_world (demo_db demo_revoked) (80 * 24 * Hour))).2.(w_db).(events)))
    = ["cert.expiring"%string].
Proof. vm_compute. done. Qed.
End Demo.
