(* ===== verification/JobStore.v ===== *)
(** * Durable lifecycle jobs

    [internal/store/lifecycle_jobs.go]: the rows the renewal and migration jobs
    live in, and every operation on them. *)

From Stdlib Require Import Ascii.
From S2P Require Import Prelude GoLib Db Queue Outbox CertStore.

Open Scope clm_scope.

(** [UserStatus] *)
Definition UserStatus (s : JobStatus) : string :=
  match s with
  | LifecycleVerified => "Verified"
  | LifecycleTimedOut => "Timed out"
  | LifecycleFailed | LifecycleVerifyFailed => "Failed"
  | _ => "Pending"
  end.

(** [RenewIdempotencyKey], [MigrateIdempotencyKey] *)
Definition RenewIdempotencyKey (certID : uuid) (fingerprint : string) : string :=
  ("renew:" ++ certID ++ ":" ++ fingerprint)%string.
Definition MigrateIdempotencyKey (certID : uuid) (fingerprint : string) : string :=
  ("migrate:" ++ certID ++ ":" ++ fingerprint)%string.

(** [isUniqueViolation] *)
Definition isUniqueViolation (e : error) : bool :=
  match e with
  | ErrMsg m => Contains m "duplicate key" || Contains m "23505"
  | _ => false
  end.

(** [if isUniqueViolation(err) { return ErrLifecycleIdempotencyConflict }] *)
Definition conflict_err (e : error) : error :=
  if isUniqueViolation e then ErrLifecycleIdempotencyConflict else e.

(** A job with an idempotency key. *)
Definition job_by_key (key : string) (t : gmap uuid LifecycleJob) : option LifecycleJob :=
  row_by j_IdempotencyKey key t.

(** An absent JSON document becomes [{}]. *)
Definition or_empty (j : option json) : json := match j with Some x => x | None => JObj [] end.

Section JobStore.
Context `{UuidGen}.

(** The INSERT into [lifecycle_jobs] with the constraints of the schema; the
    columns a statement does not name take their defaults. *)
Definition insert_job_row (kind : string) (status : JobStatus) (pred : option uuid) (key : string)
    (expected : json) (aapID : option Z) (workflow : bool)
    (nextVerify : option time) (timeoutAt : option time) : txn LifecycleJob :=
  _ <-! trequire (fun _ => String.eqb kind "migrate" || String.eqb kind "renew")
                 (ErrMsg "check constraint") ;;
  _ <-! fk_certificate pred ;;
  id <-! new_uuid ;;
  _ <-! trequire (fun db => bool_decide (db.(lifecycle_jobs) !! id = None)) (ErrMsg "duplicate key") ;;
  _ <-! trequire (fun db => bool_decide (job_by_key key db.(lifecycle_jobs) = None))
                 (ErrMsg "duplicate key") ;;
  fun ctx db =>
    let job := {|
      j_ID := id; j_Kind := kind; j_Status := status; j_PredecessorCertID := pred;
      j_SuccessorCertID := None; j_AAPJobID := aapID; j_AAPWorkflow := workflow;
      j_IdempotencyKey := key; j_Expected := expected; j_Observed := JObj [];
      j_FailureReason := None; j_LeaseOwner := None; j_LeaseExpiresAt := None;
      j_NextVerifyAt := nextVerify;
      j_TimeoutAt := match timeoutAt with Some t => t | None => ctx.(NOW) + 24 * Hour end;
      j_VerifyAttempt := 0; j_CreatedAt := ctx.(NOW); j_UpdatedAt := ctx.(NOW) |} in
    Ok (db <| lifecycle_jobs ::= <[id := job]> |>, job).

Definition insert_job_event (jobID : uuid) (ty : string) (payload : json) : txn unit :=
  _ <-! fk_job jobID ;;
  tmod (fun ctx db => db <| lifecycle_job_events ::= (fun l => l ++
    [{| je_JobID := jobID; je_EventType := ty; je_Payload := payload; je_CreatedAt := ctx.(NOW) |}]) |>).

Definition insert_approval (jobID : uuid) (actor decision : string) : txn unit :=
  _ <-! fk_job jobID ;;
  tmod (fun _ db => db <| lifecycle_approvals ::= (fun l => l ++
    [{| ap_JobID := jobID; ap_Actor := actor; ap_Decision := decision |}]) |>).

(** [InsertLifecycleJobParams]; [None] is the zero value. *)
Record InsertLifecycleJobParams := {
  ip_Kind : string;
  ip_Status : option JobStatus;
  ip_PredecessorCertID : option uuid;
  ip_IdempotencyKey : string;
  ip_Expected : option json;
  ip_AAPJobID : option Z;
  ip_AAPWorkflow : bool
}.

(** [Store.InsertLifecycleJob] *)
Definition InsertLifecycleJob (p : InsertLifecycleJobParams) : M (res LifecycleJob) :=
  let kind := if String.eqb p.(ip_Kind) "" then "renew"%string else p.(ip_Kind) in
  let status := match p.(ip_Status) with None => LifecycleLaunching | Some s => s end in
  store_call (tmap_err conflict_err
    (insert_job_row kind status p.(ip_PredecessorCertID) p.(ip_IdempotencyKey)
       (or_empty p.(ip_Expected)) p.(ip_AAPJobID) p.(ip_AAPWorkflow) None None)).

Definition get_job_tx (id : uuid) : txn LifecycleJob :=
  j <-! tget (fun _ db => db.(lifecycle_jobs) !! id) ;; tsome j ErrLifecycleJobNotFound.

(** [Store.GetLifecycleJobByIdempotency], [Store.GetLifecycleJob] *)
Definition GetLifecycleJobByIdempotency (key : string) : M (res LifecycleJob) :=
  store_call (j <-! tget (fun _ db => job_by_key key db.(lifecycle_jobs)) ;;
              tsome j ErrLifecycleJobNotFound).
Definition GetLifecycleJob (id : uuid) : M (res LifecycleJob) := store_call (get_job_tx id).

(** [Store.ListLifecycleJobsByCert] *)
Definition ListLifecycleJobsByCert (certID : uuid) (limit : Z) : M (res (list LifecycleJob)) :=
  let limit := if limit <=? 0 then 50 else limit in
  let limit := if 200 <? limit then 200 else limit in
  store_call (tget (fun _ db => take (Z.to_nat limit)
    (select (fun j => bool_decide (j.(j_PredecessorCertID) = Some certID))
            (fun a b => j_CreatedAt b <? j_CreatedAt a) db.(lifecycle_jobs)))).

(** [UPDATE lifecycle_jobs SET f WHERE id = k]; no row is
    [ErrLifecycleJobNotFound]. *)
Definition update_job (id : uuid) (f : Ctx -> LifecycleJob -> LifecycleJob) : txn unit :=
  fun ctx db => match update_row id (f ctx) db.(lifecycle_jobs) with
                | Some t => Ok (db <| lifecycle_jobs := t |>, tt)
                | None => Err ErrLifecycleJobNotFound
                end.

(** [Store.SetLifecycleAAPRef] *)
Definition set_aap_ref (aapJobID : Z) (workflow : bool) (status : JobStatus) (ctx : Ctx)
    (j : LifecycleJob) : LifecycleJob :=
  j <| j_AAPJobID := Some aapJobID |> <| j_AAPWorkflow := workflow |> <| j_Status := status |>
    <| j_UpdatedAt := ctx.(NOW) |>.
Definition SetLifecycleAAPRef (id : uuid) (aapJobID : Z) (workflow : bool) (status : JobStatus) :
    M (res unit) := store_call (update_job id (set_aap_ref aapJobID workflow status)).

(** [UpdateLifecycleStatusParams]; [None] is the zero value. *)
Record UpdateLifecycleStatusParams := {
  us_Status : option JobStatus;
  us_FailureReason : option string;
  us_Expected : option json;
  us_Observed : option json;
  us_SuccessorCertID : option uuid;
  us_ClearLease : bool
}.

Definition update_status (p : UpdateLifecycleStatusParams) (ctx : Ctx) (j : LifecycleJob) : LifecycleJob :=
  j <| j_Status ::= (fun s => match p.(us_Status) with None => s | Some s' => s' end) |>
    <| j_FailureReason ::= coalesce p.(us_FailureReason) |>
    <| j_Expected ::= (fun e => match p.(us_Expected) with Some e' => e' | None => e end) |>
    <| j_Observed ::= (fun o => match p.(us_Observed) with Some o' => o' | None => o end) |>
    <| j_SuccessorCertID ::= coalesce p.(us_SuccessorCertID) |>
    <| j_LeaseOwner ::= (fun o => if p.(us_ClearLease) then None else o) |>
    <| j_LeaseExpiresAt ::= (fun o => if p.(us_ClearLease) then None else o) |>
    <| j_UpdatedAt := ctx.(NOW) |>.

(** [Store.UpdateLifecycleStatus]: the successor must exist. *)
Definition UpdateLifecycleStatus (id : uuid) (p : UpdateLifecycleStatusParams) : M (res unit) :=
  store_call (_ <-! fk_certificate p.(us_SuccessorCertID) ;; update_job id (update_status p)).

(** [Store.AppendRenewalOutboxEvent], [Store.AppendLifecycleJobEvent],
    [Store.InsertLifecycleApproval] *)
Definition AppendRenewalOutboxEvent (eventType : string) (certID : option uuid) (payload : json) :
    M (res unit) := appendEventStandalone eventType certID payload.
Definition AppendLifecycleJobEvent (jobID : uuid) (eventType : string) (payload : json) :
    M (res unit) := store_call (insert_job_event jobID eventType payload).
Definition InsertLifecycleApproval (jobID : uuid) (actor decision : string) : M (res unit) :=
  store_call (insert_approval jobID actor decision).

(** ** Claims *)

Definition in_flight (s : JobStatus) : bool :=
  match s with
  | LifecycleLaunching | LifecycleAAPPending | LifecycleAAPRunning | LifecycleAAPSuccessful
  | LifecycleVerifying | LifecyclePendingVerify => true
  | _ => false
  end.

Definition lease_free (now : time) (j : LifecycleJob) : bool :=
  match j.(j_LeaseExpiresAt) with None => true | Some t => t <? now end.

Definition job_claimable (now : time) (j : LifecycleJob) : bool :=
  in_flight j.(j_Status) && lease_free now j.

Definition lease_job (owner : string) (expires now : time) (j : LifecycleJob) : LifecycleJob :=
  j <| j_LeaseOwner := Some owner |> <| j_LeaseExpiresAt := Some expires |> <| j_UpdatedAt := now |>.

Definition oldest_job (a b : LifecycleJob) : bool := j_CreatedAt a <? j_CreatedAt b.

Definition claim_jobs_tx (owner : string) (expires : time) (limit : Z) : txn (list uuid) :=
  fun ctx db =>
    let '(t, ids) := claim (job_claimable ctx.(NOW)) oldest_job (Z.to_nat limit)
                           (lease_job owner expires ctx.(NOW)) ctx.(locked) db.(lifecycle_jobs) in
    Ok (db <| lifecycle_jobs := t |>, ids).

(** [Store.ClaimLifecycleJobs] *)
Definition ClaimLifecycleJobs (owner : string) (leaseTTL : duration) (limit : Z) :
    M (res (list LifecycleJob)) :=
  let leaseTTL := if leaseTTL <=? 0 then 2 * Minute else leaseTTL in
  let limit := if limit <=? 0 then 10 else limit in
  now <-- time_now ;;
  ids <-? store_call (claim_jobs_tx owner (now + leaseTTL) limit) ;;
  mcollect ids GetLifecycleJob.

Definition verify_due (now : time) (j : LifecycleJob) : bool :=
  bool_decide (j.(j_Status) = LifecyclePendingVerify) &&
  match j.(j_NextVerifyAt) with Some t => t <=? now | None => false end &&
  (now <? j.(j_TimeoutAt)) && lease_free now j.

(** Every row selected has a [next_verify_at]. *)
Definition next_verify (j : LifecycleJob) : time :=
  match j.(j_NextVerifyAt) with Some t => t | None => 0 end.

Definition claim_due_tx (now expires : time) (limit : Z) : txn (list uuid) :=
  fun ctx db =>
    let '(t, ids) := claim (verify_due now) (fun a b => next_verify a <? next_verify b)
                           (Z.to_nat limit) (lease_job "verify-worker" expires ctx.(NOW))
                           ctx.(locked) db.(lifecycle_jobs) in
    Ok (db <| lifecycle_jobs := t |>, ids).

(** [Store.ClaimDueVerifyJobs] *)
Definition ClaimDueVerifyJobs (now : time) (limit : Z) (leaseTTL : duration) :
    M (res (list LifecycleJob)) :=
  let leaseTTL := if leaseTTL <=? 0 then 2 * Minute else leaseTTL in
  let limit := if limit <=? 0 then 10 else limit in
  now <-- (if IsZero now then time_now else mret now) ;;
  ids <-? store_call (claim_due_tx now (now + leaseTTL) limit) ;;
  mcollect ids GetLifecycleJob.

(** [Store.ScheduleNextVerify] *)
Definition schedule_verify (attempt : Z) (next : time) (ctx : Ctx) (j : LifecycleJob) : LifecycleJob :=
  j <| j_Status := LifecyclePendingVerify |> <| j_VerifyAttempt := attempt |>
    <| j_NextVerifyAt := Some next |> <| j_LeaseOwner := None |> <| j_LeaseExpiresAt := None |>
    <| j_UpdatedAt := ctx.(NOW) |>.
Definition ScheduleNextVerify (id : uuid) (attempt : Z) (next : time) : M (res unit) :=
  store_call (update_job id (schedule_verify attempt next)).

(** [Store.ExpireTimedOutVerifyJobs] *)
Definition overdue (now : time) (j : LifecycleJob) : bool :=
  bool_decide (j.(j_Status) = LifecyclePendingVerify) && (j.(j_TimeoutAt) <=? now).
Definition time_out (now : time) (j : LifecycleJob) : LifecycleJob :=
  j <| j_Status := LifecycleTimedOut |> <| j_LeaseOwner := None |> <| j_LeaseExpiresAt := None |>
    <| j_FailureReason ::= (fun r => coalesce r (Some "verify timeout"%string)) |>
    <| j_UpdatedAt := now |>.
Definition expire_tx (now : time) : txn (list LifecycleJob) := fun ctx db =>
  Ok (db <| lifecycle_jobs ::= update_where (overdue now) (time_out ctx.(NOW)) |>,
      map (time_out ctx.(NOW)) (select (overdue now) (fun _ _ => false) db.(lifecycle_jobs))).
Definition ExpireTimedOutVerifyJobs (now : time) : M (res (list LifecycleJob)) :=
  now <-- (if IsZero now then time_now else mret now) ;;
  store_call (expire_tx now).

(** ** Launches recorded with their job *)

Definition set_renewal_config (certID : uuid) (cfg : RenewalConfig) : txn unit :=
  n <-! update_cert certID (fun ctx c => c <| c_RenewalConfig := Some cfg |> <| c_UpdatedAt := ctx.(NOW) |>) ;;
  trequire (fun _ => n) ErrCertificateNotFound.

Definition launch_payload (certID : uuid) (aapJobID : Z) (workflow : bool) : json := JObj [
  ("aap_job_id"%string, JNum aapJobID);
  ("certificate_id"%string, JStr certID);
  ("workflow"%string, JBool workflow)].

(** [Store.PersistRenewLaunch]: one transaction. *)
Definition persist_renew_tx (certID : uuid) (cfg : RenewalConfig) (fingerprint : string)
    (aapJobID : Z) (workflow : bool) (expected : option json) : txn LifecycleJob :=
  _ <-! set_renewal_config certID cfg ;;
  job <-! tmap_err conflict_err
    (insert_job_row "renew" LifecycleAAPPending (Some certID) (RenewIdempotencyKey certID fingerprint)
       (or_empty expected) (Some aapJobID) workflow None None) ;;
  let payload := launch_payload certID aapJobID workflow in
  _ <-! insert_job_event job.(j_ID) "job.launched" payload ;;
  _ <-! appendEventTx "renewal.launched" (Some certID) payload ;;
  _ <-! insert_approval job.(j_ID) "consent" "auto_approved" ;;
  tret job.
Definition PersistRenewLaunch (certID : uuid) (cfg : RenewalConfig) (fingerprint : string)
    (aapJobID : Z) (workflow : bool) (expected : option json) : M (res LifecycleJob) :=
  store_call (persist_renew_tx certID cfg fingerprint aapJobID workflow expected).

(** [Store.InsertLifecycleJobPending]: the job, then what is only logged. *)
Definition InsertLifecycleJobPending (certID : uuid) (fingerprint : string) (expected : option json) :
    M (res LifecycleJob) :=
  job <-? InsertLifecycleJob {|
    ip_Kind := "renew"; ip_Status := Some LifecycleLaunching; ip_PredecessorCertID := Some certID;
    ip_IdempotencyKey := RenewIdempotencyKey certID fingerprint; ip_Expected := expected;
    ip_AAPJobID := None; ip_AAPWorkflow := false |} ;;
  let payload := JObj [("certificate_id"%string, JStr certID)] in
  _ <-- InsertLifecycleApproval job.(j_ID) "consent" "auto_approved" ;;
  _ <-- AppendLifecycleJobEvent job.(j_ID) "job.enqueued" payload ;;
  _ <-- appendEventStandalone "renewal.requested" (Some certID) payload ;;
  mret (Ok job).

(** The defaults of the migrate operations. *)
Definition or_day (timeout : duration) : duration := if timeout <=? 0 then 24 * Hour else timeout.
Definition migrate_payload (certID : uuid) : json := JObj [
  ("certificate_id"%string, JStr certID); ("kind"%string, JStr "migrate")].

(** [Store.PersistMigrateLaunch]: [time.Now()] is read inside the transaction. *)
Definition persist_migrate_tx (certID : uuid) (cfg : RenewalConfig) (fingerprint : string)
    (aapJobID : Z) (workflow : bool) (expected : option json) (timeout : duration)
    (nextVerifyAt : time) : txn LifecycleJob := fun ctx db => (
  _ <-! set_renewal_config certID cfg ;;
  let nextVerifyAt := if IsZero nextVerifyAt then ctx.(NOW) + 10 * Second else nextVerifyAt in
  job <-! tmap_err conflict_err
    (insert_job_row "migrate" LifecyclePendingVerify (Some certID)
       (MigrateIdempotencyKey certID fingerprint) (or_empty expected) (Some aapJobID) workflow
       (Some nextVerifyAt) (Some (ctx.(NOW) + or_day timeout))) ;;
  _ <-! appendEventTx "renewal.requested" (Some certID) (migrate_payload certID) ;;
  let payload := launch_payload certID aapJobID workflow in
  _ <-! insert_job_event job.(j_ID) "job.launched" payload ;;
  _ <-! appendEventTx "renewal.launched" (Some certID) payload ;;
  _ <-! insert_approval job.(j_ID) "consent" "auto_approved" ;;
  tret job) ctx db.
Definition PersistMigrateLaunch (certID : uuid) (cfg : RenewalConfig) (fingerprint : string)
    (aapJobID : Z) (workflow : bool) (expected : option json) (timeout : duration)
    (nextVerifyAt : time) : M (res LifecycleJob) :=
  store_call (persist_migrate_tx certID cfg fingerprint aapJobID workflow expected timeout nextVerifyAt).

(** [Store.InsertMigrateJobPending] *)
Definition insert_migrate_tx (certID : uuid) (fingerprint : string) (expected : option json)
    (timeoutAt nextVerifyAt : time) : txn LifecycleJob :=
  job <-! tmap_err conflict_err
    (insert_job_row "migrate" LifecyclePendingVerify (Some certID)
       (MigrateIdempotencyKey certID fingerprint) (or_empty expected) None false
       (Some nextVerifyAt) (Some timeoutAt)) ;;
  _ <-! insert_approval job.(j_ID) "consent" "auto_approved" ;;
  _ <-! insert_job_event job.(j_ID) "job.enqueued" (migrate_payload certID) ;;
  _ <-! appendEventTx "renewal.requested" (Some certID) (migrate_payload certID) ;;
  tret job.
Definition InsertMigrateJobPending (certID : uuid) (fingerprint : string) (expected : option json)
    (timeout : duration) (nextVerifyAt : time) : M (res LifecycleJob) :=
  now <-- time_now ;;
  let nextVerifyAt := if IsZero nextVerifyAt then now + 10 * Second else nextVerifyAt in
  store_call (insert_migrate_tx certID fingerprint expected (now + or_day timeout) nextVerifyAt).

(** [Store.ClaimByIdempotency] *)
Definition ClaimByIdempotency (key : string) (aapJobID : Z) : M (res LifecycleJob) :=
  job <-? GetLifecycleJobByIdempotency key ;;
  match job.(j_AAPJobID) with
  | Some id => if id =? aapJobID then mret (Ok job) else mret (Err ErrLifecycleAAPRefConflict)
  | None =>
      _ <-? SetLifecycleAAPRef job.(j_ID) aapJobID job.(j_AAPWorkflow) LifecycleAAPPending ;;
      GetLifecycleJob job.(j_ID)
  end.
End JobStore.

(** ** Idempotency keys *)

Definition no_colon (s : string) : bool := string_forallb (fun c => negb (Ascii.eqb c ":"%char)) s.

Lemma cut_unique a a' b b' :
  no_colon a = true -> no_colon a' = true ->
  (a ++ ":" ++ b)%string = (a' ++ ":" ++ b')%string -> a = a' /\ b = b'.
Proof.
  revert a'. induction a as [|c a IH]; intros [|c' a']; unfold no_colon; simpl;
    rewrite ?string_app_cons, ?string_app_nil; intros Ha Ha'; b2p.
  - by intros [= ->].
  - intros [= <- _]. naive_solver.
  - intros [= -> _]. naive_solver.
  - intros [= <- E]. destruct Ha as [_ Ha], Ha' as [_ Ha']. by destruct (IH a' Ha Ha' E) as [-> ->].
Qed.

(** Idempotency keys identify the operation: two renewals share a key
    only if they are for the same certificate and fingerprint, likewise two
    migrations, and a renewal never shares a key with a migration.  (The
    canonical text of a UUID has no colon.) *)
Theorem idempotency_keys_injective c1 f1 c2 f2 :
  no_colon c1 = true -> no_colon c2 = true ->
  (RenewIdempotencyKey c1 f1 = RenewIdempotencyKey c2 f2 -> c1 = c2 /\ f1 = f2) /\
  (MigrateIdempotencyKey c1 f1 = MigrateIdempotencyKey c2 f2 -> c1 = c2 /\ f1 = f2) /\
  RenewIdempotencyKey c1 f1 <> MigrateIdempotencyKey c2 f2.
Proof.
  intros H1 H2. unfold RenewIdempotencyKey, MigrateIdempotencyKey. split_and!.
  - intros E%string_app_inj_l. by apply cut_unique in E.
  - intros E%string_app_inj_l. by apply cut_unique in E.
  - intros E. rewrite !string_app_cons in E. discriminate E.
Qed.

Lemma idempotency_keys_injective_witness :
  no_colon "7d0c" = true /\
  (RenewIdempotencyKey "7d0c" "aa" = RenewIdempotencyKey "7d0c" "aa" -> "7d0c" = "7d0c" /\ "aa" = "aa")%string.
Proof.
  split; [reflexivity|]. apply (idempotency_keys_injective "7d0c" "aa" "7d0c" "aa"); reflexivity.
Defined.

(** ** The history of a job *)

Abbreviation jobs_ok := (table_ok j_ID j_IdempotencyKey).

(** What no operation changes. *)
Definition job_ident (j : LifecycleJob) : uuid * string * option uuid * string * time * time :=
  (j.(j_ID), j.(j_Kind), j.(j_PredecessorCertID), j.(j_IdempotencyKey), j.(j_TimeoutAt), j.(j_CreatedAt)).

(** Keys stay unique, no job disappears or changes identity. *)
Definition jobs_grow (db db' : DB) : Prop := jobs_ok db.(lifecycle_jobs) ->
  jobs_ok db'.(lifecycle_jobs) /\
  forall k j, db.(lifecycle_jobs) !! k = Some j ->
    exists j', db'.(lifecycle_jobs) !! k = Some j' /\ job_ident j' = job_ident j.

#[export] Instance jobs_grow_preorder : PreOrder jobs_grow.
Proof.
  split.
  - intros db Hok. eauto.
  - intros d1 d2 d3 H12 H23 H1. destruct (H12 H1) as [H2 Hr2], (H23 H2) as [H3 Hr3].
    split; [done|]. intros k j Hk. destruct (Hr2 k j Hk) as (j' & Hk' & E1).
    destruct (Hr3 k j' Hk') as (j'' & Hk'' & E2). exists j''. split; [done|congruence].
Qed.

Lemma jobs_grow_same db db' : db'.(lifecycle_jobs) = db.(lifecycle_jobs) -> jobs_grow db db'.
Proof. intros E Hok. rewrite E. eauto. Qed.

(** Keeping a job's identity, row by row. *)
Definition keeps_ident (f : LifecycleJob -> LifecycleJob) : Prop := forall j, job_ident (f j) = job_ident j.

Lemma keeps_ident_keys f : keeps_ident f ->
  (forall j, (f j).(j_ID) = j.(j_ID)) /\ (forall j, (f j).(j_IdempotencyKey) = j.(j_IdempotencyKey)).
Proof. intros Hf. split; intros j; specialize (Hf j); unfold job_ident in Hf; congruence. Qed.

Section JobFacts.
Context `{UuidGen}.

Lemma insert_job_row_ok kind st pred key ex aid wf nv tm c db db' j :
  insert_job_row kind st pred key ex aid wf nv tm c db = Ok (db', j) ->
  db.(lifecycle_jobs) !! j.(j_ID) = None /\ job_by_key key db.(lifecycle_jobs) = None /\
  db' = db <| gen ::= S |> <| lifecycle_jobs ::= <[j.(j_ID) := j]> |> /\
  j = {| j_ID := j.(j_ID); j_Kind := kind; j_Status := st; j_PredecessorCertID := pred;
         j_SuccessorCertID := None; j_AAPJobID := aid; j_AAPWorkflow := wf; j_IdempotencyKey := key;
         j_Expected := ex; j_Observed := JObj []; j_FailureReason := None; j_LeaseOwner := None;
         j_LeaseExpiresAt := None; j_NextVerifyAt := nv;
         j_TimeoutAt := match tm with Some t => t | None => c.(NOW) + 24 * Hour end;
         j_VerifyAttempt := 0; j_CreatedAt := c.(NOW); j_UpdatedAt := c.(NOW) |}.
Proof. unfold insert_job_row. intros Ht. txn_inv. b2p. done. Qed.

Lemma insert_job_row_grow kind st pred key ex aid wf nv tm c db db' j :
  insert_job_row kind st pred key ex aid wf nv tm c db = Ok (db', j) -> jobs_grow db db'.
Proof.
  intros (Hid & Hkey & -> & Hj)%insert_job_row_ok Hok. simpl. split.
  - apply table_ok_new; [done..|]. by rewrite Hj at 1.
  - intros k j0 Hk. exists j0. rewrite lookup_insert_ne by congruence. done.
Qed.

Lemma update_job_ok id f c db db' u :
  update_job id f c db = Ok (db', u) ->
  exists j, db.(lifecycle_jobs) !! id = Some j /\
    db' = db <| lifecycle_jobs := <[id := f c j]> db.(lifecycle_jobs) |>.
Proof.
  unfold update_job, update_row. destruct (lifecycle_jobs db !! id) as [j|]; [|done].
  intros [= <- <-]. eauto.
Qed.

Lemma update_job_grow id f c db db' u :
  keeps_ident (f c) -> update_job id f c db = Ok (db', u) -> jobs_grow db db'.
Proof.
  intros Hf (j & Hj & ->)%update_job_ok Hok. destruct (keeps_ident_keys _ Hf) as [Hid Hk]. simpl. split.
  - by eapply table_ok_insert.
  - intros k j0 Hk0. rewrite lookup_insert. case_decide; [|eauto]. subst.
    eexists. split; [done|]. replace j0 with j by congruence. apply Hf.
Qed.

Lemma claim_grow (wh : LifecycleJob -> bool) less n f lk db t ids :
  keeps_ident f -> claim wh less n f lk db.(lifecycle_jobs) = (t, ids) ->
  jobs_grow db (db <| lifecycle_jobs := t |>).
Proof.
  intros Hf Hc Hok. destruct (keeps_ident_keys _ Hf) as [Hid Hk]. simpl. split.
  - injection Hc as <- _. by apply table_ok_update_ids.
  - intros k j Hj. rewrite (claim_lookup _ _ _ _ _ _ _ _ k Hc), Hj.
    case_decide; simpl; eexists; (split; [done|]); [apply Hf|done].
Qed.

Lemma insert_job_event_ok id ty p c db db' u :
  insert_job_event id ty p c db = Ok (db', u) ->
  db' = db <| lifecycle_job_events := db.(lifecycle_job_events) ++
    [{| je_JobID := id; je_EventType := ty; je_Payload := p; je_CreatedAt := c.(NOW) |}] |>.
Proof. unfold insert_job_event. intros. by txn_inv. Qed.

Lemma insert_approval_ok id a d c db db' u :
  insert_approval id a d c db = Ok (db', u) ->
  db' = db <| lifecycle_approvals := db.(lifecycle_approvals) ++
    [{| ap_JobID := id; ap_Actor := a; ap_Decision := d |}] |>.
Proof. unfold insert_approval. intros. by txn_inv. Qed.

Lemma insert_job_event_same id ty p c db db' u :
  insert_job_event id ty p c db = Ok (db', u) -> db'.(lifecycle_jobs) = db.(lifecycle_jobs).
Proof. unfold insert_job_event. intros. by txn_inv. Qed.

Lemma insert_approval_same id a d c db db' u :
  insert_approval id a d c db = Ok (db', u) -> db'.(lifecycle_jobs) = db.(lifecycle_jobs).
Proof. unfold insert_approval. intros. by txn_inv. Qed.

Lemma appendEventTx_jobs ty k p c db db' u :
  appendEventTx ty k p c db = Ok (db', u) -> db'.(lifecycle_jobs) = db.(lifecycle_jobs).
Proof. destruct u. by intros (? & _ & ->)%appendEventTx_ok. Qed.

Lemma set_renewal_config_ok k cfg c db db' u :
  set_renewal_config k cfg c db = Ok (db', u) -> exists x, db.(certificates) !! k = Some x /\
    db' = db <| certificates := <[k := x <| c_RenewalConfig := Some cfg |> <| c_UpdatedAt := c.(NOW) |>]>
                                 db.(certificates) |>.
Proof.
  unfold set_renewal_config. intros (db1 & n & Hu & Ht)%tbind_ok.
  apply trequire_ok in Ht as (-> & -> & _). apply update_cert_ok in Hu as [(_ & x & Hx & ->)|(? & _)]; [|done].
  eauto.
Qed.
End JobFacts.

(** The statements of a transaction, one by one. *)
Ltac jobs_grow_tac :=
  repeat match goal with
  | H : tbind _ _ _ _ = Ok _ |- _ => apply tbind_ok in H as (? & ? & ? & H)
  | H : tmap_err _ _ _ _ = Ok _ |- _ => rewrite tmap_err_ok in H
  | H : insert_job_row _ _ _ _ _ _ _ _ _ _ _ = Ok _ |- _ => apply insert_job_row_grow in H
  | H : insert_job_event _ _ _ _ _ = Ok _ |- _ => apply insert_job_event_same, jobs_grow_same in H
  | H : insert_approval _ _ _ _ _ = Ok _ |- _ => apply insert_approval_same, jobs_grow_same in H
  | H : appendEventTx _ _ _ _ _ = Ok _ |- _ => apply appendEventTx_jobs, jobs_grow_same in H
  | H : set_renewal_config _ _ _ _ = Ok _ |- _ => apply set_renewal_config_ok in H as (? & _ & H)
  | H : tret _ _ _ = Ok _ |- _ => injection H as ? ?; subst
  end.

Section JobMoves.
Context `{UuidGen}.

Lemma moves_get_job id : moves (evolves jobs_grow) (GetLifecycleJob id).
Proof.
  apply moves_store_call; [exact _|]. intros c db db' j Ht. unfold get_job_tx in Ht. txn_inv.
  by apply jobs_grow_same.
Qed.

Lemma moves_get_job_by_key key : moves (evolves jobs_grow) (GetLifecycleJobByIdempotency key).
Proof.
  apply moves_store_call; [exact _|]. intros c db db' j Ht. txn_inv. by apply jobs_grow_same.
Qed.

Lemma moves_update_job id f :
  (forall c, keeps_ident (f c)) -> moves (evolves jobs_grow) (store_call (update_job id f)).
Proof. intros Hf. apply moves_store_call; [exact _|]. intros c db db' u. by apply update_job_grow. Qed.

Lemma moves_SetLifecycleAAPRef id n wf st : moves (evolves jobs_grow) (SetLifecycleAAPRef id n wf st).
Proof. apply moves_update_job. by intros ? ?. Qed.

Lemma moves_UpdateLifecycleStatus id p : moves (evolves jobs_grow) (UpdateLifecycleStatus id p).
Proof.
  apply moves_store_call; [exact _|]. intros c db db' u Ht.
  apply tbind_ok in Ht as (db1 & v & Hfk & Ht). txn_inv. eapply update_job_grow; [|done]. by intros ?.
Qed.

Lemma moves_ScheduleNextVerify id n t : moves (evolves jobs_grow) (ScheduleNextVerify id n t).
Proof. apply moves_update_job. by intros ? ?. Qed.

Lemma moves_InsertLifecycleJob p : moves (evolves jobs_grow) (InsertLifecycleJob p).
Proof.
  apply moves_store_call; [exact _|]. intros c db db' j Ht. jobs_grow_tac. done.
Qed.

Lemma moves_AppendLifecycleJobEvent id ty p : moves (evolves jobs_grow) (AppendLifecycleJobEvent id ty p).
Proof. apply moves_store_call; [exact _|]. intros c db db' u Ht. by jobs_grow_tac. Qed.

Lemma moves_InsertLifecycleApproval id a d : moves (evolves jobs_grow) (InsertLifecycleApproval id a d).
Proof. apply moves_store_call; [exact _|]. intros c db db' u Ht. by jobs_grow_tac. Qed.

Lemma moves_jobs_event ty k p : moves (evolves jobs_grow) (appendEventStandalone ty k p).
Proof. apply moves_store_call; [exact _|]. intros c db db' u Ht. by jobs_grow_tac. Qed.

Lemma moves_claim_jobs o x l : moves (evolves jobs_grow) (store_call (claim_jobs_tx o x l)).
Proof.
  apply moves_store_call; [exact _|]. intros c db db' ids Ht. unfold claim_jobs_tx in Ht.
  destruct (claim _ _ _ _ _ _) as [t l'] eqn:E. injection Ht as <- <-. eapply claim_grow; [|done]. by intros ?.
Qed.

Lemma moves_claim_due n x l : moves (evolves jobs_grow) (store_call (claim_due_tx n x l)).
Proof.
  apply moves_store_call; [exact _|]. intros c db db' ids Ht. unfold claim_due_tx in Ht.
  destruct (claim _ _ _ _ _ _) as [t l'] eqn:E. injection Ht as <- <-. eapply claim_grow; [|done]. by intros ?.
Qed.

Lemma moves_expire now : moves (evolves jobs_grow) (store_call (expire_tx now)).
Proof.
  apply moves_store_call; [exact _|]. intros c db db' l [= <- <-] Hok. simpl. split.
  - by apply table_ok_update_where.
  - intros k j Hj. rewrite lookup_update_where, Hj. simpl. eexists. split; [done|].
    by destruct (overdue now j).
Qed.
#[local] Hint Resolve moves_get_job moves_get_job_by_key moves_SetLifecycleAAPRef
  moves_UpdateLifecycleStatus moves_ScheduleNextVerify moves_InsertLifecycleJob
  moves_AppendLifecycleJobEvent moves_InsertLifecycleApproval moves_jobs_event moves_claim_jobs
  moves_claim_due moves_expire : moves.

(** The write operations of the job store. *)
Inductive JobOp :=
| OpInsertLifecycleJob (p : InsertLifecycleJobParams)
| OpSetLifecycleAAPRef (id : uuid) (aapJobID : Z) (workflow : bool) (status : JobStatus)
| OpUpdateLifecycleStatus (id : uuid) (p : UpdateLifecycleStatusParams)
| OpAppendLifecycleJobEvent (id : uuid) (ty : string) (payload : json)
| OpInsertLifecycleApproval (id : uuid) (actor decision : string)
| OpClaimLifecycleJobs (owner : string) (leaseTTL : duration) (limit : Z)
| OpClaimDueVerifyJobs (now : time) (limit : Z) (leaseTTL : duration)
| OpScheduleNextVerify (id : uuid) (attempt : Z) (next : time)
| OpExpireTimedOutVerifyJobs (now : time)
| OpPersistRenewLaunch (certID : uuid) (cfg : RenewalConfig) (fp : string) (n : Z) (wf : bool) (e : option json)
| OpInsertLifecycleJobPending (certID : uuid) (fp : string) (e : option json)
| OpPersistMigrateLaunch (certID : uuid) (cfg : RenewalConfig) (fp : string) (n : Z) (wf : bool)
    (e : option json) (timeout : duration) (next : time)
| OpInsertMigrateJobPending (certID : uuid) (fp : string) (e : option json) (timeout : duration) (next : time)
| OpClaimByIdempotency (key : string) (aapJobID : Z).

Definition ignore {A} (m : M A) : M unit := mbind m (fun _ => mret tt).

Definition run_op (o : JobOp) : M unit :=
  match o with
  | OpInsertLifecycleJob p => ignore (InsertLifecycleJob p)
  | OpSetLifecycleAAPRef id n wf st => ignore (SetLifecycleAAPRef id n wf st)
  | OpUpdateLifecycleStatus id p => ignore (UpdateLifecycleStatus id p)
  | OpAppendLifecycleJobEvent id ty p => ignore (AppendLifecycleJobEvent id ty p)
  | OpInsertLifecycleApproval id a d => ignore (InsertLifecycleApproval id a d)
  | OpClaimLifecycleJobs o d l => ignore (ClaimLifecycleJobs o d l)
  | OpClaimDueVerifyJobs n l d => ignore (ClaimDueVerifyJobs n l d)
  | OpScheduleNextVerify id a n => ignore (ScheduleNextVerify id a n)
  | OpExpireTimedOutVerifyJobs n => ignore (ExpireTimedOutVerifyJobs n)
  | OpPersistRenewLaunch c cfg fp n wf e => ignore (PersistRenewLaunch c cfg fp n wf e)
  | OpInsertLifecycleJobPending c fp e => ignore (InsertLifecycleJobPending c fp e)
  | OpPersistMigrateLaunch c cfg fp n wf e t nx => ignore (PersistMigrateLaunch c cfg fp n wf e t nx)
  | OpInsertMigrateJobPending c fp e t nx => ignore (InsertMigrateJobPending c fp e t nx)
  | OpClaimByIdempotency k n => ignore (ClaimByIdempotency k n)
  end.

Lemma moves_run_op o : moves (evolves jobs_grow) (run_op o).
Proof.
  destruct o; simpl; unfold ignore, ClaimLifecycleJobs, ClaimDueVerifyJobs, ExpireTimedOutVerifyJobs,
    InsertLifecycleJobPending, InsertMigrateJobPending, ClaimByIdempotency; moves_tac.
  - apply moves_store_call; [exact _|]. intros c db db' j Ht. unfold persist_renew_tx in Ht.
    jobs_grow_tac. subst. by repeat (etransitivity; [eassumption|]).
  - apply moves_store_call; [exact _|]. intros c db db' j Ht. unfold persist_migrate_tx in Ht.
    jobs_grow_tac. subst. by repeat (etransitivity; [eassumption|]).
  - apply moves_store_call; [exact _|]. intros c db db' j Ht. unfold insert_migrate_tx in Ht.
    jobs_grow_tac. by repeat (etransitivity; [eassumption|]).
Qed.

(** Whatever sequence of operations runs, with whatever faults and
    concurrent operations of other replicas: idempotency keys stay unique, and
    a job never disappears nor changes its kind, certificate, key, timeout or
    creation time. *)
Theorem job_history ops w :
  jobs_ok w.(w_db).(lifecycle_jobs) -> others_ok jobs_grow w ->
  let w' := (mfor ops run_op w).2 in
  jobs_ok w'.(w_db).(lifecycle_jobs) /\
  forall k j, w.(w_db).(lifecycle_jobs) !! k = Some j ->
    exists j', w'.(w_db).(lifecycle_jobs) !! k = Some j' /\ job_ident j' = job_ident j.
Proof.
  intros Hok Ho w'. assert (moves (evolves jobs_grow) (mfor ops run_op)) as Hm.
  { apply moves_for; [exact _|]. intros. apply moves_run_op. }
  destruct (Hm w _ w' (surjective_pairing _)) as (_ & _ & Hg). destruct (Hg Ho) as [_ Hj]. by apply Hj.
Qed.
End JobMoves.

(** ** Launches *)

Section LaunchFacts.
Context `{UuidGen}.

(** The row of a renewal whose AAP job has been launched. *)
Definition launched_row (certID : uuid) (fp : string) (n : Z) (wf : bool) (j : LifecycleJob) : Prop :=
  j.(j_Kind) = "renew"%string /\ j.(j_Status) = LifecycleAAPPending /\
  j.(j_PredecessorCertID) = Some certID /\ j.(j_IdempotencyKey) = RenewIdempotencyKey certID fp /\
  j.(j_AAPJobID) = Some n /\ j.(j_AAPWorkflow) = wf /\ j.(j_LeaseExpiresAt) = None.

(** Everything a launch writes. *)
Definition launch_recorded (certID : uuid) (cfg : RenewalConfig) (fp : string) (n : Z) (wf : bool)
    (db db' : DB) (j : LifecycleJob) : Prop :=
  (exists c now, db.(certificates) !! certID = Some c /\
     db'.(certificates) = <[certID := c <| c_RenewalConfig := Some cfg |> <| c_UpdatedAt := now |>]>
                            db.(certificates)) /\
  db.(lifecycle_jobs) !! j.(j_ID) = None /\
  job_by_key (RenewIdempotencyKey certID fp) db.(lifecycle_jobs) = None /\
  db'.(lifecycle_jobs) = <[j.(j_ID) := j]> db.(lifecycle_jobs) /\
  launched_row certID fp n wf j /\
  emits (Some certID) ["renewal.launched"%string] db db' /\
  (exists t, db'.(lifecycle_job_events) = db.(lifecycle_job_events) ++
     [{| je_JobID := j.(j_ID); je_EventType := "job.launched";
         je_Payload := launch_payload certID n wf; je_CreatedAt := t |}]) /\
  db'.(lifecycle_approvals) = db.(lifecycle_approvals) ++
    [{| ap_JobID := j.(j_ID); ap_Actor := "consent"; ap_Decision := "auto_approved" |}].

Lemma persist_renew_tx_ok certID cfg fp n wf ex c db db' j :
  persist_renew_tx certID cfg fp n wf ex c db = Ok (db', j) ->
  launch_recorded certID cfg fp n wf db db' j.
Proof.
  unfold persist_renew_tx. intros (d1 & [] & (x & Hx & ->)%set_renewal_config_ok & Ht)%tbind_ok.
  apply tbind_ok in Ht as (d2 & j1 & Hj & Ht). apply tmap_err_ok, insert_job_row_ok in Hj
    as (Hid & Hkey & -> & Hj).
  apply tbind_ok in Ht as (d3 & [] & ->%insert_job_event_ok & Ht).
  apply tbind_ok in Ht as (d4 & [] & Hev & Ht). pose proof (appendEventTx_emits _ _ _ _ _ _ _ Hev) as Hem.
  apply appendEventTx_ok in Hev as (k & _ & ->). apply tbind_ok in Ht as (d5 & [] & ->%insert_approval_ok & Ht).
  injection Ht as <- <-. unfold launch_recorded. split_and!; try done; eauto.
  - rewrite Hj. done.
  - inversion Hem as [|ty tys ev ? ? ? Hf ? ? ? ? ? ? Hn]; subst.
    inversion Hn; subst. econstructor; eauto. by constructor.
Qed.

(** C6. A launched renewal is recorded all at once: in any environment
    [PersistRenewLaunch] either leaves the database as the other writers left
    it and reports an error, or it has saved the renewal configuration, the
    job with its AAP reference, its timeline entry, its [renewal.launched]
    event and its approval together. *)
Theorem PersistRenewLaunch_atomic certID cfg fp n wf ex w r w' :
  PersistRenewLaunch certID cfg fp n wf ex w = (r, w') ->
  exists e w1, next_env w = (e, w1) /\
    ((w'.(w_db) = w1.(w_db) /\ is_ok r = false) \/
     exists j, launch_recorded certID cfg fp n wf w1.(w_db) w'.(w_db) j /\
       (r = Ok j \/ r = Err ErrDatabase)).
Proof.
  intros (e & w1 & He & Hcase)%store_call_spec. exists e, w1. split; [done|].
  destruct Hcase as [(-> & err & -> & _)|(j & db' & Ht & -> & Hr)]; [by left|right].
  exists j. split; [by eapply persist_renew_tx_ok|done].
Qed.

Lemma insert_job_row_taken kind st pred key ex aid wf nv tm c db j0 :
  job_by_key key db.(lifecycle_jobs) = Some j0 ->
  (kind = "renew" \/ kind = "migrate")%string -> is_ok (fk_certificate pred c db) = true ->
  tmap_err conflict_err (insert_job_row kind st pred key ex aid wf nv tm) c db
    = Err ErrLifecycleIdempotencyConflict.
Proof.
  intros Hk Hkind Hfk. unfold insert_job_row, tmap_err, tbind. unfold trequire at 1.
  replace (String.eqb kind "migrate" || String.eqb kind "renew") with true by by destruct Hkind as [->| ->].
  unfold fk_certificate, trequire in *. destruct (match pred with Some _ => _ | None => _ end); [|done].
  unfold new_uuid. simpl. destruct (bool_decide (_ = None)); [|done]. change (lifecycle_jobs (db <| gen ::= S |>)) with (lifecycle_jobs db). by rewrite Hk.
Qed.

(** A renewal is tracked once: after a recorded launch, recording
    another launch for the same certificate and fingerprint reports the
    idempotency conflict and changes nothing, not even the configuration. *)
Theorem second_launch_conflicts certID cfg fp n wf ex w j w1 cfg2 n2 wf2 ex2 :
  PersistRenewLaunch certID cfg fp n wf ex w = (Ok j, w1) -> w1.(w_env) = [] ->
  PersistRenewLaunch certID cfg2 fp n2 wf2 ex2 w1 = (Err ErrLifecycleIdempotencyConflict, w1).
Proof.
  intros E Henv. apply store_call_spec in E as (e & w0 & He & Hcase).
  destruct Hcase as [(-> & err & [=] & _)|(j' & db' & Ht & -> & Hr)].
  apply persist_renew_tx_ok in Ht as ((c & now & Hc & Hcerts) & _ & _ & Hjobs & (_ & _ & _ & Hkey & _) & _).
  unfold PersistRenewLaunch. rewrite store_call_calm by done. simpl.
  unfold persist_renew_tx. unfold tbind at 1, set_renewal_config, update_cert, update_row, tbind at 1.
  rewrite Hcerts, lookup_insert_eq. unfold trequire at 1. unfold tbind at 1.
  destruct (job_by_key (RenewIdempotencyKey certID fp) db'.(lifecycle_jobs)) as [j0|] eqn:Ej.
  - erewrite insert_job_row_taken; [done|exact Ej|by left|].
    unfold fk_certificate, trequire. simpl. by rewrite lookup_insert_eq, bool_decide_true by eauto.
  - exfalso. eapply row_by_none; [exact Ej| |exact Hkey]. rewrite Hjobs. apply lookup_insert_eq.
Qed.

(** Claiming a queued job by its key, on every branch: an unknown key
    is not found, a job that already carries an AAP id accepts that id and
    refuses any other without changing anything, and a job without one takes
    the id and waits for it. *)
Theorem ClaimByIdempotency_spec key n w :
  w.(w_env) = [] -> jobs_ok w.(w_db).(lifecycle_jobs) ->
  match job_by_key key w.(w_db).(lifecycle_jobs) with
  | None => ClaimByIdempotency key n w = (Err ErrLifecycleJobNotFound, w)
  | Some j =>
      match j.(j_AAPJobID) with
      | Some n' => ClaimByIdempotency key n w =
          (if n' =? n then Ok j else Err ErrLifecycleAAPRefConflict, w)
      | None =>
          let j' := set_aap_ref n j.(j_AAPWorkflow) LifecycleAAPPending
                      {| NOW := w.(w_clock); locked := ∅ |} j in
          ClaimByIdempotency key n w =
            (Ok j', w <| w_db ::= (fun db => db <| lifecycle_jobs ::= <[j.(j_ID) := j']> |>) |>)
      end
  end.
Proof.
  intros Henv Hok. unfold ClaimByIdempotency, GetLifecycleJobByIdempotency, mtry, mbind.
  rewrite store_call_calm by done. unfold tbind, tget. simpl.
  destruct (job_by_key key _) as [j|] eqn:Ej; simpl; [|done]. rewrite world_db_id.
  apply row_by_some in Ej as [_ [k Hk]]. pose proof (table_keyed Hok _ _ Hk) as Hid.
  destruct (j_AAPJobID j) as [n'|]; [by destruct (n' =? n)|].
  unfold SetLifecycleAAPRef, GetLifecycleJob. rewrite store_call_calm by done.
  unfold update_job, update_row. simpl. rewrite Hid, Hk. simpl.
  rewrite store_call_calm by done. unfold get_job_tx, tbind, tget, tsome, tret. simpl.
  by rewrite lookup_insert_eq.
Qed.
End LaunchFacts.

(** ** Exclusive claims and the timeout sweep *)

Section ClaimFacts.
(** Either way of claiming, with the time its [WHERE] clause compares. *)
Definition any_claim (due : bool) (owner : string) (now expires : time) (limit : Z) : txn (list uuid) :=
  if due then claim_due_tx now expires limit else claim_jobs_tx owner expires limit.
Definition claim_time (due : bool) (now : time) (ctx : Ctx) : time := if due then now else ctx.(NOW).

Definition claim_where (due : bool) (now : time) (ctx : Ctx) : LifecycleJob -> bool :=
  if due then verify_due now else job_claimable ctx.(NOW).

Lemma any_claim_inv due owner now x l ctx db db' ids :
  any_claim due owner now x l ctx db = Ok (db', ids) ->
  exists less f, claim (claim_where due now ctx) less (Z.to_nat l) f ctx.(locked) db.(lifecycle_jobs)
      = (db'.(lifecycle_jobs), ids) /\
    forall j, (f j).(j_LeaseExpiresAt) = Some x.
Proof.
  unfold any_claim, claim_due_tx, claim_jobs_tx. destruct due;
    destruct (claim _ _ _ _ _ _) as [t l'] eqn:E; intros [= <- <-]; simpl;
    eexists _, _; (split; [exact E|done]).
Qed.

(** C5. Leases exclude: while a worker's lease runs, no claim of either
    kind by any worker takes one of its jobs, whether the first claim's
    transaction still holds the row locks or has committed and the rows are
    as it left them. *)
Theorem claims_exclusive due1 due2 owner1 owner2 now1 now2 x1 x2 l1 l2 ctx1 ctx2 db db1 db2 db2' ids1 ids2 :
  any_claim due1 owner1 now1 x1 l1 ctx1 db = Ok (db1, ids1) ->
  any_claim due2 owner2 now2 x2 l2 ctx2 db2 = Ok (db2', ids2) ->
  claim_time due2 now2 ctx2 <= x1 ->
  (forall k, k ∈ ids1 -> k ∈ ctx2.(locked) \/ db2.(lifecycle_jobs) !! k = db1.(lifecycle_jobs) !! k) ->
  ids1 ## ids2.
Proof.
  intros (less1 & f1 & E1 & Hf1)%any_claim_inv (less2 & f2 & E2 & _)%any_claim_inv Ht Hk.
  eapply claim_disjoint; [exact E1|exact E2|]. intros k Hin.
  destruct (Hk k Hin) as [?|Hsame]; [by left|right].
  destruct (claim_sound _ _ _ _ _ _ _ _ _ E1 Hin) as (r & _ & _ & _ & Hr).
  exists r. split_and!; [done|congruence|].
  assert (lease_free (claim_time due2 now2 ctx2) (f1 r) = false) as Hl.
  { unfold lease_free. rewrite Hf1. by apply Z.ltb_ge. }
  unfold claim_where, claim_time in *. destruct due2; unfold verify_due, job_claimable; rewrite Hl;
    by rewrite andb_false_r.
Qed.

(** The timeout sweep times out exactly the overdue pending
    verifications: none is left, each keeps its earlier failure reason if it
    had one and loses its lease, every other job keeps its row, and the jobs
    returned are those timed out. *)
Theorem ExpireTimedOutVerifyJobs_spec now w :
  w.(w_env) = [] -> IsZero now = false ->
  exists l w', ExpireTimedOutVerifyJobs now w = (Ok l, w') /\
    (forall k j, w'.(w_db).(lifecycle_jobs) !! k = Some j -> overdue now j = false) /\
    (forall k j, w.(w_db).(lifecycle_jobs) !! k = Some j ->
       w'.(w_db).(lifecycle_jobs) !! k = Some (if overdue now j then time_out w.(w_clock) j else j)) /\
    (forall j', j' ∈ l <-> exists k j, w.(w_db).(lifecycle_jobs) !! k = Some j /\
       overdue now j = true /\ j' = time_out w.(w_clock) j).
Proof.
  intros Henv Hz. unfold ExpireTimedOutVerifyJobs, mbind. rewrite Hz. unfold mret.
  rewrite store_call_calm by done. simpl. eexists _, _. split; [reflexivity|]. simpl. split_and!.
  - intros k j. rewrite lookup_update_where. intros (j0 & _ & ->)%fmap_Some.
    destruct (overdue now j0) eqn:E; [|done]. unfold overdue. simpl. done.
  - intros k j Hj. by rewrite lookup_update_where, Hj.
  - intros j'. rewrite list_elem_of_fmap. split.
    + intros (j & -> & (Hov & k & Hj)%elem_of_select). naive_solver.
    + intros (k & j & Hj & Hov & ->). exists j. split; [done|]. apply elem_of_select. eauto.
Qed.
End ClaimFacts.

(** ** Witnesses *)

Definition demo_job : LifecycleJob := {|
  j_ID := "j1"; j_Kind := "renew"; j_Status := LifecycleLaunching; j_PredecessorCertID := Some "c1"%string;
  j_SuccessorCertID := None; j_AAPJobID := None; j_AAPWorkflow := false;
  j_IdempotencyKey := RenewIdempotencyKey "c1" "aa"; j_Expected := JObj []; j_Observed := JObj [];
  j_FailureReason := None; j_LeaseOwner := None; j_LeaseExpiresAt := None; j_NextVerifyAt := None;
  j_TimeoutAt := 24 * Hour; j_VerifyAttempt := 0; j_CreatedAt := 0; j_UpdatedAt := 0 |}.
Definition demo_jobs_db (c : Certificate) (j : LifecycleJob) : DB :=
  (demo_db c) <| lifecycle_jobs := {[j.(j_ID) := j]} |>.
Definition demo_cfg : RenewalConfig := Build_RenewalConfig "web" "pki" "" "" "" "".

Section Demo.
#[local] Instance demo_uuid : UuidGen := fun n => pretty n.

Definition demo_ops : list JobOp :=
  [OpClaimLifecycleJobs "w1" Minute 10; OpSetLifecycleAAPRef "j1" 7 false LifecycleAAPPending;
   OpPersistRenewLaunch "c1" demo_cfg "bb" 8 true None; OpScheduleNextVerify "j1" 1 Hour;
   OpExpireTimedOutVerifyJobs (25 * Hour)].

Lemma job_history_witness :
  let w' := (mfor demo_ops run_op (calm_world (demo_jobs_db demo_cert demo_job) Hour)).2 in
  jobs_ok w'.(w_db).(lifecycle_jobs) /\
  forall k j, (demo_jobs_db demo_cert demo_job).(lifecycle_jobs) !! k = Some j ->
    exists j', w'.(w_db).(lifecycle_jobs) !! k = Some j' /\ job_ident j' = job_ident j.
Proof.
  apply (job_history demo_ops (calm_world (demo_jobs_db demo_cert demo_job) Hour));
    [apply (table_ok_singleton j_ID j_IdempotencyKey demo_job)|constructor].
Defined.

Definition demo_launch := PersistRenewLaunch "c1" demo_cfg "aa" 7 false None (calm_world (demo_db demo_cert) Hour).
Definition demo_launched : LifecycleJob :=
  match demo_launch.1 with Ok j => j | Err _ => demo_job end.

Lemma PersistRenewLaunch_atomic_witness :
  exists e w1, next_env (calm_world (demo_db demo_cert) Hour) = (e, w1) /\
    ((demo_launch.2.(w_db) = w1.(w_db) /\ is_ok demo_launch.1 = false) \/
     exists j, launch_recorded "c1" demo_cfg "aa" 7 false w1.(w_db) demo_launch.2.(w_db) j /\
       (demo_launch.1 = Ok j \/ demo_launch.1 = Err ErrDatabase)).
Proof.
  apply (PersistRenewLaunch_atomic "c1" demo_cfg "aa" 7 false None). apply surjective_pairing.
Defined.

Lemma second_launch_conflicts_witness :
  PersistRenewLaunch "c1" demo_cfg "aa" 9 true None demo_launch.2
    = (Err ErrLifecycleIdempotencyConflict, demo_launch.2).
Proof.
  apply (second_launch_conflicts "c1" demo_cfg "aa" 7 false None (calm_world (demo_db demo_cert) Hour)
    demo_launched demo_launch.2); vm_compute; reflexivity.
Defined.

Definition demo_job_world (t : time) : World := calm_world (demo_jobs_db demo_cert demo_job) t.

Lemma ClaimByIdempotency_spec_witness :
  ClaimByIdempotency "renew:c1:bb" 7 (demo_job_world 0) = (Err ErrLifecycleJobNotFound, demo_job_world 0).
Proof.
  exact (ClaimByIdempotency_spec "renew:c1:bb" 7 (demo_job_world 0) eq_refl
    (table_ok_singleton j_ID j_IdempotencyKey demo_job)).
Defined.

Definition demo_ctx (t : time) : Ctx := {| NOW := t; locked := ∅ |}.
Definition demo_claim : DB :=
  match any_claim false "w1" 0 (2 * Minute) 10 (demo_ctx 0) (demo_jobs_db demo_cert demo_job) with
  | Ok (db, _) => db | Err _ => demo_db demo_cert end.

Lemma claims_exclusive_witness : ["j1"%string] ## [].
Proof.
  apply (claims_exclusive false false "w1" "w2" 0 0 (2 * Minute) (3 * Minute) 10 10 (demo_ctx 0)
    (demo_ctx Minute) (demo_jobs_db demo_cert demo_job) demo_claim demo_claim demo_claim).
  - vm_compute. reflexivity.
  - vm_compute. reflexivity.
  - vm_compute. discriminate.
  - intros k _. by right.
Defined.

Definition demo_pending : LifecycleJob := demo_job <| j_Status := LifecyclePendingVerify |>.
Lemma ExpireTimedOutVerifyJobs_spec_witness :
  exists l w', ExpireTimedOutVerifyJobs (25 * Hour) (calm_world (demo_jobs_db demo_cert demo_pending) (25 * Hour))
      = (Ok l, w') /\
    (forall k j, w'.(w_db).(lifecycle_jobs) !! k = Some j -> overdue (25 * Hour) j = false).
Proof.
  destruct (ExpireTimedOutVerifyJobs_spec (25 * Hour)
    (calm_world (demo_jobs_db demo_cert demo_pending) (25 * Hour)) eq_refl eq_refl)
    as (l & w' & E & H1 & _). exists l, w'. split; [exact E|exact H1].
Defined.
End Demo.
