(* ===== verification/Worker.v ===== *)
(** * The lifecycle worker

    [internal/lifecyclejobs]: the verification backoff ([backoff.go]), the wire
    predicate ([verify.go]) and the worker that drives durable jobs from launch
    to verification ([worker.go]). *)

From S2P Require Import Prelude GoLib Db Queue Outbox CertStore JobStore.

Open Scope clm_scope.

(** ** [backoff.go] *)

Definition VerifyBackoff : list duration :=
  [10 * Second; 30 * Second; 60 * Second; 5 * Minute; 30 * Minute; 60 * Minute; 3 * Hour; 6 * Hour].

Definition NextVerifyDelay (attempt : Z) : duration :=
  let attempt := if attempt <? 1 then 1 else attempt in
  if Z.of_nat (length VerifyBackoff) <? attempt
  then nth (length VerifyBackoff - 1) VerifyBackoff 0
  else nth (Z.to_nat (attempt - 1)) VerifyBackoff 0.

Definition VerifyDelay (attempt : Z) : duration := NextVerifyDelay attempt.

Definition NextVerifyAt (now : time) (attempt : Z) (timeoutAt : time) : time * bool :=
  let next := now + VerifyDelay attempt in
  if negb (next <? timeoutAt) then (timeoutAt, true) else (next, false).

(** ** [verify.go] *)

(** [aap.Status], normalized. *)
Inductive AAPStatus := StatusPending | StatusRunning | StatusSuccessful | StatusFailed | StatusError
  | StatusCanceled | StatusUnknown.

Definition aap_status_text (s : AAPStatus) : string :=
  match s with
  | StatusPending => "pending" | StatusRunning => "running" | StatusSuccessful => "successful"
  | StatusFailed => "failed" | StatusError => "error" | StatusCanceled => "canceled"
  | StatusUnknown => "unknown"
  end.

Definition MapAAPStatus (st : AAPStatus) : JobStatus :=
  match st with
  | StatusPending => LifecycleAAPPending
  | StatusRunning => LifecycleAAPRunning
  | StatusSuccessful => LifecycleAAPSuccessful
  | StatusFailed | StatusError | StatusCanceled => LifecycleFailed
  | StatusUnknown => LifecycleAAPPending
  end.

Record ExpectedWire := Build_ExpectedWire {
  ew_CommonName : string;
  ew_PredecessorFP : string;
  ew_PredecessorNotAfter : time;
  ew_TargetHosts : string
}.
#[export] Instance ExpectedWire_eta : Eta ExpectedWire := fun x =>
  Build_ExpectedWire (x.(ew_CommonName)) (x.(ew_PredecessorFP)) (x.(ew_PredecessorNotAfter))
    (x.(ew_TargetHosts)).

Record ObservedWire := Build_ObservedWire {
  ow_CommonName : string;
  ow_Fingerprint : string;
  ow_NotAfter : time;
  ow_SuccessorCertID : string;
  ow_ManagedInVault : bool
}.

(** [VerifyResult]: [None] is OK, otherwise the reason. *)
Definition VerifyWire (expected : ExpectedWire) (observed : ObservedWire) : option string :=
  if String.eqb observed.(ow_CommonName) "" || String.eqb observed.(ow_Fingerprint) "" then
    Some "no successor certificate observed"%string
  else if negb (String.eqb expected.(ew_CommonName) "") &&
          negb (String.eqb observed.(ow_CommonName) expected.(ew_CommonName)) then
    Some "common name mismatch"%string
  else if String.eqb observed.(ow_Fingerprint) expected.(ew_PredecessorFP) then
    Some "fingerprint unchanged (predecessor still on wire)"%string
  else if negb (expected.(ew_PredecessorNotAfter) <? observed.(ow_NotAfter)) then
    Some "not_after not later than predecessor"%string
  else None.

(** A string field that [omitempty] drops. *)
Definition omit_empty (k v : string) : list (string * json) :=
  if String.eqb v "" then [] else [(k, JStr v)].

(** [MarshalExpected] *)
Definition MarshalExpected (e : ExpectedWire) : json := JObj (
  [("common_name"%string, JStr e.(ew_CommonName));
   ("predecessor_fingerprint"%string, JStr e.(ew_PredecessorFP));
   ("predecessor_not_after"%string, JTime e.(ew_PredecessorNotAfter))] ++
  omit_empty "target_hosts" e.(ew_TargetHosts)).

(** [json.Marshal(observed)]; [omitempty] never drops a struct such as a time. *)
Definition observed_json (o : ObservedWire) : json := JObj (
  omit_empty "common_name" o.(ow_CommonName) ++
  omit_empty "fingerprint" o.(ow_Fingerprint) ++
  [("not_after"%string, JTime o.(ow_NotAfter))] ++
  omit_empty "successor_cert_id" o.(ow_SuccessorCertID) ++
  (if o.(ow_ManagedInVault) then [("managed_in_vault"%string, JBool true)] else [])).

Definition expected_zero : ExpectedWire := Build_ExpectedWire "" "" zero_time "".

(** Decoding one member into the struct: unknown names are skipped, [null]
    leaves the field, a value of another type is an error. *)
Definition decode_member (e : ExpectedWire) (kv : string * json) : res ExpectedWire :=
  let '(k, v) := kv in
  let bad := Err (ErrMsg "json: cannot unmarshal") in
  if String.eqb k "common_name" then
    match v with JStr s => Ok (e <| ew_CommonName := s |>) | JNull => Ok e | _ => bad end
  else if String.eqb k "predecessor_fingerprint" then
    match v with JStr s => Ok (e <| ew_PredecessorFP := s |>) | JNull => Ok e | _ => bad end
  else if String.eqb k "predecessor_not_after" then
    match v with JTime t => Ok (e <| ew_PredecessorNotAfter := t |>) | JNull => Ok e | _ => bad end
  else if String.eqb k "target_hosts" then
    match v with JStr s => Ok (e <| ew_TargetHosts := s |>) | JNull => Ok e | _ => bad end
  else Ok e.

(** [UnmarshalExpected]; the column is never empty. *)
Definition UnmarshalExpected (raw : json) : res ExpectedWire :=
  match raw with
  | JObj l => foldl (fun r kv => result_bind r (fun e => decode_member e kv)) (Ok expected_zero) l
  | JNull => Ok expected_zero
  | _ => Err (ErrMsg "json: cannot unmarshal")
  end.

(** ** [worker.go] *)

(** [JobStore]: the durable job surface the worker needs. *)
Class JobStore := {
  js_ClaimLifecycleJobs : string -> duration -> Z -> M (res (list LifecycleJob));
  js_ClaimDueVerifyJobs : time -> Z -> duration -> M (res (list LifecycleJob));
  js_GetCertificate : uuid -> M (res Certificate);
  js_ListCertificates : CertificateFilter -> M (res (list Certificate * Z));
  js_SetLifecycleAAPRef : uuid -> Z -> bool -> JobStatus -> M (res unit);
  js_UpdateLifecycleStatus : uuid -> UpdateLifecycleStatusParams -> M (res unit);
  js_ScheduleNextVerify : uuid -> Z -> time -> M (res unit);
  js_ExpireTimedOutVerifyJobs : time -> M (res (list LifecycleJob));
  js_AppendLifecycleJobEvent : uuid -> string -> json -> M (res unit);
  js_AppendRenewalOutboxEvent : string -> option uuid -> json -> M (res unit)
}.

(** [Renewer] and [AAPPoller]: what the Controller answers to the n-th call.
    A wait that its context ends answers an error. *)
Class Controller := {
  aap_Renew : nat -> result string (Z * bool);
  aap_WaitForJob : nat -> result string AAPStatus
}.

(** [Config]; [wk_AAP] tells whether the renewer and the poller are set. *)
Record WorkerConfig := {
  wk_Owner : string;
  wk_LeaseTTL : duration;
  wk_BatchSize : Z;
  wk_AAP : bool
}.

(** [New]: the defaults. *)
Definition NewWorker (c : WorkerConfig) : WorkerConfig := {|
  wk_Owner := if String.eqb c.(wk_Owner) "" then "lifecycle-worker" else c.(wk_Owner);
  wk_LeaseTTL := if c.(wk_LeaseTTL) <=? 0 then 2 * Minute else c.(wk_LeaseTTL);
  wk_BatchSize := if c.(wk_BatchSize) <=? 0 then 10 else c.(wk_BatchSize);
  wk_AAP := c.(wk_AAP) |}.

(** [UpdateLifecycleStatusParams] literals of the worker. *)
Definition clear_lease : UpdateLifecycleStatusParams :=
  {| us_Status := None; us_FailureReason := None; us_Expected := None; us_Observed := None;
     us_SuccessorCertID := None; us_ClearLease := true |}.
Definition to_status (s : JobStatus) (reason : option string) : UpdateLifecycleStatusParams :=
  {| us_Status := Some s; us_FailureReason := reason; us_Expected := None; us_Observed := None;
     us_SuccessorCertID := None; us_ClearLease := true |}.
Definition to_verified (observed : json) (successor : option uuid) : UpdateLifecycleStatusParams :=
  {| us_Status := Some LifecycleVerified; us_FailureReason := None; us_Expected := None;
     us_Observed := Some observed; us_SuccessorCertID := successor; us_ClearLease := true |}.
Definition to_timed_out_observed (reason : string) (observed : json) : UpdateLifecycleStatusParams :=
  {| us_Status := Some LifecycleTimedOut; us_FailureReason := Some reason; us_Expected := None;
     us_Observed := Some observed; us_SuccessorCertID := None; us_ClearLease := true |}.
Definition set_observed (observed : json) : UpdateLifecycleStatusParams :=
  {| us_Status := None; us_FailureReason := None; us_Expected := None;
     us_Observed := Some observed; us_SuccessorCertID := None; us_ClearLease := false |}.

Section Worker.
Context `{JobStore, Controller} (cfg : WorkerConfig).

(** [Worker.expireTimedOut] *)
Definition expireTimedOut (now : time) : M (res unit) :=
  expired <-? js_ExpireTimedOutVerifyJobs now ;;
  _ <-- mfor expired (fun job =>
    let payload := JObj [("timeout_at"%string, JTime (truncate_second job.(j_TimeoutAt)))] in
    _ <-- js_AppendLifecycleJobEvent job.(j_ID) "job.timed_out" payload ;;
    _ <-- js_AppendRenewalOutboxEvent "renewal.timed_out" job.(j_PredecessorCertID) payload ;;
    mret tt) ;;
  mret (Ok tt).

(** The extra variables of a launch; [json.Marshal] sorts the keys. *)
Definition launch_extra (cn : string) (rc : RenewalConfig) : json := JObj (
  omit_empty "cert_alt_names_override" rc.(rc_AltNames) ++
  [("cert_common_name_override"%string, JStr cn)] ++
  omit_empty "cert_service_type" rc.(rc_Service) ++
  omit_empty "target_hosts" rc.(rc_TargetHosts) ++
  omit_empty "vault_cert_ttl" rc.(rc_TTL) ++
  [("vault_pki_mount"%string, JStr rc.(rc_Mount)); ("vault_pki_role"%string, JStr rc.(rc_Role))]).

(** [_ = w.store.UpdateLifecycleStatus(...)] and then [return error]. *)
Definition fail_with (id : uuid) (reason : string) : M (res unit) :=
  _ <-- js_UpdateLifecycleStatus id (to_status LifecycleFailed (Some reason)) ;;
  mret (Err (ErrMsg reason)).

(** [Worker.launch] *)
Definition launch (job : LifecycleJob) : M (res unit) :=
  if match job.(j_AAPJobID) with Some n => 0 <? n | None => false end then
    js_UpdateLifecycleStatus job.(j_ID) (to_status LifecycleAAPPending None)
  else
    match wk_AAP cfg, job.(j_PredecessorCertID) with
    | true, Some pred =>
        cert <-? js_GetCertificate pred ;;
        match cert.(c_RenewalConfig) with
        | None => fail_with job.(j_ID) "missing renewal config"
        | Some rc =>
            let cn := match cert.(c_SubjectCN) with Some cn => cn | None => ""%string end in
            r <-- net_call {| nc_service := SvcAAPLaunch; nc_subject := job.(j_ID);
                              nc_body := launch_extra cn rc |} aap_Renew ;;
            match r with
            | Err err =>
                _ <-- js_UpdateLifecycleStatus job.(j_ID)
                        (to_status LifecycleFailed (Some ("aap launch failed: " ++ err)%string)) ;;
                let payload := JObj [("error"%string, JStr err)] in
                _ <-- js_AppendLifecycleJobEvent job.(j_ID) "job.failed" payload ;;
                _ <-- js_AppendRenewalOutboxEvent "renewal.failed" job.(j_PredecessorCertID) payload ;;
                mret (Err (ErrMsg err))
            | Ok (jobID, workflow) =>
                _ <-? js_SetLifecycleAAPRef job.(j_ID) jobID workflow LifecycleAAPPending ;;
                let payload := JObj [("aap_job_id"%string, JNum jobID); ("workflow"%string, JBool workflow)] in
                _ <-- js_AppendLifecycleJobEvent job.(j_ID) "job.launched" payload ;;
                _ <-- js_AppendRenewalOutboxEvent "renewal.launched" job.(j_PredecessorCertID) payload ;;
                _ <-- js_UpdateLifecycleStatus job.(j_ID) clear_lease ;;
                mret (Ok tt)
            end
        end
    | _, _ => fail_with job.(j_ID) "aap renewer not configured or missing predecessor"
    end.

(** [if timeoutAt.IsZero() { timeoutAt = now.Add(24 * time.Hour) }] *)
Definition job_timeout (job : LifecycleJob) (now : time) : time :=
  if IsZero job.(j_TimeoutAt) then now + 24 * Hour else job.(j_TimeoutAt).

(** [Worker.enterPendingVerify] *)
Definition enterPendingVerify (job : LifecycleJob) : M (res unit) :=
  now <-- time_now ;;
  let '(next, _) := NextVerifyAt now 1 (job_timeout job now) in
  _ <-? js_ScheduleNextVerify job.(j_ID) 0 next ;;
  mret (Ok tt).

(** [Worker.pollAAP] *)
Definition pollAAP (job : LifecycleJob) : M (res unit) :=
  match job.(j_AAPJobID), wk_AAP cfg with
  | Some n, true =>
      r <-- net_call {| nc_service := SvcAAPWait; nc_subject := job.(j_ID); nc_body := JNum n |}
                     aap_WaitForJob ;;
      match r with
      | Err err =>
          _ <-- js_UpdateLifecycleStatus job.(j_ID) clear_lease ;;
          mret (Err (ErrMsg err))
      | Ok st =>
          let mapped := MapAAPStatus st in
          if bool_decide (mapped = LifecycleFailed) then
            let payload := JObj [("aap_status"%string, JStr (aap_status_text st))] in
            _ <-- js_UpdateLifecycleStatus job.(j_ID)
                    (to_status LifecycleFailed (Some ("aap job " ++ aap_status_text st)%string)) ;;
            _ <-- js_AppendLifecycleJobEvent job.(j_ID) "job.failed" payload ;;
            _ <-- js_AppendRenewalOutboxEvent "renewal.failed" job.(j_PredecessorCertID) payload ;;
            mret (Ok tt)
          else if bool_decide (mapped = LifecycleAAPSuccessful) then
            _ <-- js_AppendLifecycleJobEvent job.(j_ID) "job.aap_successful" (JObj []) ;;
            enterPendingVerify job
          else
            _ <-- js_UpdateLifecycleStatus job.(j_ID) (to_status mapped None) ;;
            mret (Ok tt)
      end
  | _, _ => fail_with job.(j_ID) "missing aap job id or poller"
  end.

(** The candidate loop of [Worker.observeSuccessor]. *)
Definition better_successor (expected : ExpectedWire) (best : option Certificate) (c : Certificate) :
    option Certificate :=
  if negb (bool_decide (c.(c_SubjectCN) = Some expected.(ew_CommonName))) then best
  else if String.eqb c.(c_FingerprintSHA256) expected.(ew_PredecessorFP) then best
  else match best with
       | None => Some c
       | Some b => if b.(c_NotAfter) <? c.(c_NotAfter) then Some c else best
       end.

Definition search_filter (cn : string) : CertificateFilter :=
  {| cf_Status := ""; cf_ChainStatus := ""; cf_Search := cn; cf_ScanID := None; cf_PQCTag := "";
     cf_MinRisk := None; cf_SortBy := ""; cf_SortDesc := false; cf_Limit := 50; cf_Offset := 0 |}.

(** [Worker.observeSuccessor] *)
Definition observeSuccessor (expected : ExpectedWire) : M (res ObservedWire) :=
  if String.eqb expected.(ew_CommonName) "" then mret (Ok (Build_ObservedWire "" "" zero_time "" false))
  else
    certs <-? js_ListCertificates (search_filter expected.(ew_CommonName)) ;;
    match foldl (better_successor expected) None certs.1 with
    | None => mret (Ok (Build_ObservedWire expected.(ew_CommonName) "" zero_time "" false))
    | Some best =>
        mret (Ok {|
          ow_CommonName := match best.(c_SubjectCN) with Some cn => cn | None => ""%string end;
          ow_Fingerprint := best.(c_FingerprintSHA256);
          ow_NotAfter := best.(c_NotAfter);
          ow_SuccessorCertID := best.(c_ID);
          ow_ManagedInVault := bool_decide (best.(c_ManagedStatus) = managed_in_vault) |})
    end.

(** [Worker.verifyPending]; [uuid.Parse] accepts the text of a stored id. *)
Definition verifyPending (job : LifecycleJob) (now : time) : M (res unit) :=
  let timeoutAt := job_timeout job now in
  if negb (now <? timeoutAt) then
    _ <-- js_UpdateLifecycleStatus job.(j_ID) (to_status LifecycleTimedOut (Some "verify timeout"%string)) ;;
    let payload := JObj [("timeout_at"%string, JTime (truncate_second timeoutAt))] in
    _ <-- js_AppendLifecycleJobEvent job.(j_ID) "job.timed_out" payload ;;
    _ <-- js_AppendRenewalOutboxEvent "renewal.timed_out" job.(j_PredecessorCertID) payload ;;
    mret (Ok tt)
  else
    match UnmarshalExpected job.(j_Expected) with
    | Err err =>
        _ <-- js_UpdateLifecycleStatus job.(j_ID)
                (to_status LifecycleFailed (Some "invalid expected payload"%string)) ;;
        mret (Err err)
    | Ok expected =>
        observed <-? observeSuccessor expected ;;
        let obsJSON := observed_json observed in
        match VerifyWire expected observed with
        | None =>
            let successorID := if String.eqb observed.(ow_SuccessorCertID) "" then None
                               else Some observed.(ow_SuccessorCertID) in
            _ <-- js_UpdateLifecycleStatus job.(j_ID) (to_verified obsJSON successorID) ;;
            let payload := JObj [("observed"%string, obsJSON)] in
            _ <-- js_AppendLifecycleJobEvent job.(j_ID) "job.verified" payload ;;
            _ <-- js_AppendRenewalOutboxEvent "renewal.verified" job.(j_PredecessorCertID) payload ;;
            mret (Ok tt)
        | Some reason =>
            let attempt := job.(j_VerifyAttempt) + 1 in
            let '(next, last) := NextVerifyAt now attempt timeoutAt in
            if last && negb (now <? next) then
              _ <-- js_UpdateLifecycleStatus job.(j_ID) (to_timed_out_observed reason obsJSON) ;;
              let payload := JObj [("observed"%string, obsJSON); ("reason"%string, JStr reason)] in
              _ <-- js_AppendLifecycleJobEvent job.(j_ID) "job.timed_out" payload ;;
              _ <-- js_AppendRenewalOutboxEvent "renewal.timed_out" job.(j_PredecessorCertID) payload ;;
              mret (Ok tt)
            else
              _ <-- js_UpdateLifecycleStatus job.(j_ID) (set_observed obsJSON) ;;
              js_ScheduleNextVerify job.(j_ID) attempt next
        end
    end.

(** [Worker.process] *)
Definition process (job : LifecycleJob) : M (res unit) :=
  match job.(j_Status) with
  | LifecycleLaunching => launch job
  | LifecycleAAPPending | LifecycleAAPRunning => pollAAP job
  | LifecycleAAPSuccessful => enterPendingVerify job
  | LifecycleVerifying => now <-- time_now ;; verifyPending job now
  | LifecyclePendingVerify =>
      now <-- time_now ;;
      if match job.(j_NextVerifyAt) with Some t => now <? t | None => false end then
        _ <-- js_UpdateLifecycleStatus job.(j_ID) clear_lease ;;
        mret (Ok tt)
      else verifyPending job now
  | _ =>
      _ <-- js_UpdateLifecycleStatus job.(j_ID) (to_status LifecycleFailed (Some "unexpected status"%string)) ;;
      mret (Ok tt)
  end.

(** The claims of a tick: the errors of a job are only logged. *)
Definition tick_jobs (now : time) : M unit :=
  jobs <-- js_ClaimLifecycleJobs cfg.(wk_Owner) cfg.(wk_LeaseTTL) cfg.(wk_BatchSize) ;;
  match jobs with
  | Err _ => mret tt
  | Ok jobs =>
      _ <-- mfor jobs (fun job => _ <-- process job ;; mret tt) ;;
      due <-- js_ClaimDueVerifyJobs now cfg.(wk_BatchSize) cfg.(wk_LeaseTTL) ;;
      match due with
      | Err _ => mret tt
      | Ok due => mfor due (fun job => _ <-- verifyPending job now ;; mret tt)
      end
  end.

(** [Worker.tick] *)
Definition tick : M unit :=
  now <-- time_now ;;
  _ <-- expireTimedOut now ;;
  tick_jobs now.
End Worker.

#[export] Instance pg_job_store `{UuidGen} : JobStore := {
  js_ClaimLifecycleJobs := ClaimLifecycleJobs;
  js_ClaimDueVerifyJobs := ClaimDueVerifyJobs;
  js_GetCertificate := GetCertificate;
  js_ListCertificates := ListCertificates;
  js_SetLifecycleAAPRef := SetLifecycleAAPRef;
  js_UpdateLifecycleStatus := UpdateLifecycleStatus;
  js_ScheduleNextVerify := ScheduleNextVerify;
  js_ExpireTimedOutVerifyJobs := ExpireTimedOutVerifyJobs;
  js_AppendLifecycleJobEvent := AppendLifecycleJobEvent;
  js_AppendRenewalOutboxEvent := AppendRenewalOutboxEvent
}.

(** ** The backoff schedule *)

Lemma NextVerifyDelay_bounds attempt : 10 * Second <= NextVerifyDelay attempt <= 6 * Hour.
Proof.
  unfold NextVerifyDelay, VerifyBackoff. simpl length.
  destruct (Z.ltb_spec attempt 1); [vm_compute; split; discriminate|].
  destruct (Z.ltb_spec (Z.of_nat 8) attempt); [vm_compute; split; discriminate|].
  assert (attempt = 1 \/ attempt = 2 \/ attempt = 3 \/ attempt = 4 \/ attempt = 5 \/ attempt = 6 \/
    attempt = 7 \/ attempt = 8) as Ha by lia.
  repeat destruct Ha as [->|Ha]; [..|subst attempt]; vm_compute; split; discriminate.
Qed.

(** The k-th step of the schedule. *)
Definition delay_step (k : nat) : duration := nth k VerifyBackoff (6 * Hour).

Lemma NextVerifyDelay_step attempt :
  NextVerifyDelay attempt = delay_step (Z.to_nat (Z.min (Z.max attempt 1) 8 - 1)).
Proof.
  unfold NextVerifyDelay, delay_step. simpl length. change (Z.of_nat 8) with 8.
  destruct (Z.ltb_spec attempt 1) as [H1|H1].
  - rewrite Z.max_r by lia. done.
  - rewrite Z.max_l by lia. destruct (Z.ltb_spec 8 attempt).
    + rewrite Z.min_r by lia. done.
    + rewrite Z.min_l by lia. apply nth_indep. simpl. lia.
Qed.

Lemma NextVerifyDelay_mono a b : a <= b -> NextVerifyDelay a <= NextVerifyDelay b.
Proof.
  intros Hab. rewrite !NextVerifyDelay_step.
  assert (forall k m : nat, (k <= m < 8)%nat -> delay_step k <= delay_step m) as Hm.
  { assert (Forall (fun k => Forall (fun m => (k <= m)%nat -> delay_step k <= delay_step m) (seq 0 8)) (seq 0 8))
      as Hall by (repeat constructor; vm_compute; intros; try discriminate; lia).
    intros k m ?. rewrite Forall_forall in Hall. specialize (Hall k).
    rewrite Forall_forall in Hall. apply Hall; rewrite ?elem_of_seq; lia. }
  apply Hm. lia.
Qed.

(** The schedule: delays start at ten seconds, never decrease with the
    attempts and stay below six hours; before the timeout the next probe is
    strictly later than now and never after the timeout, which it meets exactly
    when the last attempt is announced. *)
Theorem NextVerifyAt_spec now attempt timeoutAt :
  let '(next, last) := NextVerifyAt now attempt timeoutAt in
  10 * Second <= NextVerifyDelay attempt <= 6 * Hour /\
  (forall attempt', attempt <= attempt' -> NextVerifyDelay attempt <= NextVerifyDelay attempt') /\
  next = Z.min (now + NextVerifyDelay attempt) timeoutAt /\
  (last = true <-> timeoutAt <= now + NextVerifyDelay attempt) /\
  (now < timeoutAt -> now < next <= timeoutAt).
Proof.
  unfold NextVerifyAt, VerifyDelay. pose proof (NextVerifyDelay_bounds attempt) as Hb.
  assert (0 < 10 * Second) by done.
  destruct (Z.ltb_spec (now + NextVerifyDelay attempt) timeoutAt); simpl;
    (split_and!; [lia|lia|apply NextVerifyDelay_mono|lia|split; [done || lia|done || lia]|lia]).
Qed.

(** So the branch of [verifyPending] that times out on the last attempt never
    runs: the deadline is checked first. *)
Lemma last_attempt_branch_dead now attempt timeoutAt :
  now < timeoutAt ->
  let '(next, last) := NextVerifyAt now attempt timeoutAt in last && negb (now <? next) = false.
Proof.
  intros Hn. pose proof (NextVerifyAt_spec now attempt timeoutAt) as Hs.
  destruct (NextVerifyAt now attempt timeoutAt) as [next last].
  destruct Hs as (_ & _ & _ & _ & Hs). specialize (Hs Hn).
  destruct (Z.ltb_spec now next); [by rewrite andb_false_r|lia].
Qed.

(** ** The wire predicate *)

(** The predicate accepts an observation exactly when it has a name and
    a fingerprint, the name is the expected one if one is expected, the
    fingerprint is not the predecessor's and it expires later. *)
Theorem VerifyWire_spec e o :
  VerifyWire e o = None <->
  o.(ow_CommonName) <> ""%string /\ o.(ow_Fingerprint) <> ""%string /\
  (e.(ew_CommonName) = ""%string \/ o.(ow_CommonName) = e.(ew_CommonName)) /\
  o.(ow_Fingerprint) <> e.(ew_PredecessorFP) /\
  e.(ew_PredecessorNotAfter) < o.(ow_NotAfter).
Proof.
  unfold VerifyWire.
  destruct (String.eqb_spec o.(ow_CommonName) ""), (String.eqb_spec o.(ow_Fingerprint) ""),
    (String.eqb_spec e.(ew_CommonName) ""), (String.eqb_spec o.(ow_CommonName) e.(ew_CommonName)),
    (String.eqb_spec o.(ow_Fingerprint) e.(ew_PredecessorFP)),
    (Z.ltb_spec e.(ew_PredecessorNotAfter) o.(ow_NotAfter)); simpl; intuition (try congruence; try lia).
Qed.

(** What is stored at launch is what verification reads back. *)
Theorem UnmarshalExpected_MarshalExpected e : UnmarshalExpected (MarshalExpected e) = Ok e.
Proof.
  destruct e as [cn fp na th]. unfold MarshalExpected, omit_empty. simpl.
  destruct (String.eqb_spec th ""); subst; reflexivity.
Qed.
