(* ===== verification/WorkerSpec.v ===== *)
(** * What the lifecycle worker does to a job

    An abstract state machine of one job row, [job_step], and the proof that the
    worker refines it: whatever a tick does, under any delays and store faults
    and whatever other replicas commit outside [lifecycle_jobs], it moves each
    job along the machine.  The worker is verified against the laws of the
    [JobStore] interface, which the Postgres store satisfies. *)

From S2P Require Import Prelude GoLib Db Queue Outbox CertStore JobStore Worker.

Open Scope clm_scope.

(** ** The specification *)

(** A certificate that proves a renewal: the wire predicate on the row. *)
Definition good_successor (e : ExpectedWire) (c : Certificate) : Prop :=
  c.(c_SubjectCN) = Some e.(ew_CommonName) /\ e.(ew_CommonName) <> ""%string /\
  c.(c_FingerprintSHA256) <> e.(ew_PredecessorFP) /\ c.(c_FingerprintSHA256) <> ""%string /\
  e.(ew_PredecessorNotAfter) < c.(c_NotAfter).

Definition observed_of (cn : string) (c : Certificate) : ObservedWire := {|
  ow_CommonName := cn; ow_Fingerprint := c.(c_FingerprintSHA256); ow_NotAfter := c.(c_NotAfter);
  ow_SuccessorCertID := c.(c_ID); ow_ManagedInVault := bool_decide (c.(c_ManagedStatus) = managed_in_vault) |}.

Definition polling (s : JobStatus) : Prop := s = LifecycleAAPPending \/ s = LifecycleAAPRunning.
Definition probing (s : JobStatus) : Prop := s = LifecycleVerifying \/ s = LifecyclePendingVerify.

(** One step of a job at time [t]; [seen] holds of the certificates the
    inventory may show. *)
Variant job_step (seen : Certificate -> Prop) (t : time) (j : LifecycleJob) : LifecycleJob -> Prop :=
| step_lease owner x now :
    in_flight j.(j_Status) = true -> job_step seen t j (lease_job owner x now j)
| step_clear ctx :
    in_flight j.(j_Status) = true -> job_step seen t j (update_status clear_lease ctx j)
| step_recover ctx n :
    j.(j_Status) = LifecycleLaunching -> j.(j_AAPJobID) = Some n -> 0 < n ->
    job_step seen t j (update_status (to_status LifecycleAAPPending None) ctx j)
| step_launched ctx n wf :
    j.(j_Status) = LifecycleLaunching -> (forall n', j.(j_AAPJobID) = Some n' -> n' <= 0) ->
    job_step seen t j (set_aap_ref n wf LifecycleAAPPending ctx j)
| step_polled ctx s :
    polling j.(j_Status) -> polling s -> job_step seen t j (update_status (to_status s None) ctx j)
| step_failed ctx reason :
    j.(j_Status) = LifecycleLaunching \/ polling j.(j_Status) \/ probing j.(j_Status) ->
    job_step seen t j (update_status (to_status LifecycleFailed (Some reason)) ctx j)
| step_pending ctx :
    polling j.(j_Status) \/ j.(j_Status) = LifecycleAAPSuccessful ->
    job_step seen t j (schedule_verify 0 (NextVerifyAt t 1 (job_timeout j t)).1 ctx j)
| step_observed ctx o :
    probing j.(j_Status) -> job_step seen t j (update_status (set_observed o) ctx j)
| step_retry ctx :
    probing j.(j_Status) -> t < job_timeout j t ->
    job_step seen t j (schedule_verify (j.(j_VerifyAttempt) + 1)
      (NextVerifyAt t (j.(j_VerifyAttempt) + 1) (job_timeout j t)).1 ctx j)
| step_verified ctx e c :
    probing j.(j_Status) -> t < job_timeout j t ->
    UnmarshalExpected j.(j_Expected) = Ok e -> good_successor e c -> seen c ->
    job_step seen t j (update_status (to_verified (observed_json (observed_of e.(ew_CommonName) c))
      (if String.eqb c.(c_ID) "" then None else Some c.(c_ID))) ctx j)
| step_timed_out ctx :
    probing j.(j_Status) -> job_timeout j t <= t ->
    job_step seen t j (update_status (to_status LifecycleTimedOut (Some "verify timeout"%string)) ctx j)
| step_expired now :
    overdue t j = true -> job_step seen t j (time_out now j).

(** Statuses the worker never leaves. *)
Definition terminal (s : JobStatus) : bool :=
  match s with
  | LifecycleVerified | LifecycleVerifyFailed | LifecycleTimedOut | LifecycleFailed => true
  | _ => false
  end.

Lemma step_in_flight seen t j j' : job_step seen t j j' -> in_flight j.(j_Status) = true.
Proof.
  intros Hs. inversion Hs; subst; unfold polling, probing in *; try done;
    try (destruct (j_Status j) eqn:E; intuition (done || discriminate)).
  match goal with H : overdue t j = true |- _ => unfold overdue in H; b2p; destruct H as [-> _] end. done.
Qed.

(** A job stays what it was created for, and keeps what it expects. *)
Lemma step_ident seen t j j' :
  job_step seen t j j' -> job_ident j' = job_ident j /\ j'.(j_Expected) = j.(j_Expected).
Proof. by inversion 1. Qed.

(** ** Rows under a weakest precondition

    [I] is an invariant of the certificates that the other replicas keep; [ff]
    says that the store does not fail. *)
Section Row.
Context (ff : bool) (I : gmap uuid Certificate -> Prop).

Definition env_ok (w : World) : Prop :=
  I w.(w_db).(certificates) /\ jobs_ok w.(w_db).(lifecycle_jobs) /\
  Forall (fun e => (forall db, (e.(es_others) db).(lifecycle_jobs) = db.(lifecycle_jobs)) /\
                   (forall db, I db.(certificates) -> I (e.(es_others) db).(certificates)) /\
                   (ff = true -> e.(es_fault) = NoFault)) w.(w_env).

(** A job, the launches made on its behalf, and the clock. *)
Record RowState := { rs_job : LifecycleJob; rs_launches : nat; rs_clock : time }.

Definition row_state (id : uuid) (w : World) : option RowState :=
  (fun j => {| rs_job := j; rs_launches := posts SvcAAPLaunch id w.(w_sent); rs_clock := w.(w_clock) |})
    <$> w.(w_db).(lifecycle_jobs) !! id.

(** Nothing but the row [id] has changed, and time went on. *)
Definition frame (id : uuid) (w w' : World) : Prop :=
  w.(w_clock) <= w'.(w_clock) /\
  forall k, k <> id -> w'.(w_db).(lifecycle_jobs) !! k = w.(w_db).(lifecycle_jobs) !! k /\
    posts SvcAAPLaunch k w'.(w_sent) = posts SvcAAPLaunch k w.(w_sent).

Definition wp {A} (id : uuid) (m : M A) (Q : A -> RowState -> Prop) (s : RowState) : Prop :=
  forall w a w', env_ok w -> row_state id w = Some s -> m w = (a, w') ->
    env_ok w' /\ frame id w w' /\ exists s', row_state id w' = Some s' /\ Q a s'.

Lemma frame_refl id w : frame id w w.
Proof. split; [lia|done]. Qed.

Lemma frame_trans id w1 w2 w3 : frame id w1 w2 -> frame id w2 w3 -> frame id w1 w3.
Proof.
  intros [H1 F1] [H2 F2]. split; [lia|]. intros k Hk.
  destruct (F1 k Hk) as [<- <-]. by apply F2.
Qed.

Lemma wp_mono {A} id (m : M A) (Q Q' : A -> RowState -> Prop) s :
  wp id m Q s -> (forall a s', Q a s' -> Q' a s') -> wp id m Q' s.
Proof.
  intros Hm HQ w a w' He Hs E. destruct (Hm w a w' He Hs E) as (? & ? & s' & ? & ?). eauto 8.
Qed.

Lemma wp_ret {A} id (a : A) (Q : A -> RowState -> Prop) s : Q a s -> wp id (mret a) Q s.
Proof. intros HQ w a' w' He Hs [= <- <-]. split_and!; [done|apply frame_refl|eauto]. Qed.

Lemma wp_bind {A B} id (m : M A) (f : A -> M B) Q s :
  wp id m (fun a s' => wp id (f a) Q s') s -> wp id (mbind m f) Q s.
Proof.
  intros Hm w b w' He Hs. unfold mbind. destruct (m w) as [a w1] eqn:E. intros E2.
  destruct (Hm w a w1 He Hs E) as (He1 & F1 & s1 & Hs1 & Hf).
  destruct (Hf w1 b w' He1 Hs1 E2) as (He2 & F2 & s2 & Hs2 & HQ).
  split_and!; [done|by eapply frame_trans|eauto].
Qed.

Lemma wp_try {A B} id (m : M (res A)) (f : A -> M (res B)) Q s :
  wp id m (fun r s' => match r with Ok a => wp id (f a) Q s' | Err e => Q (Err e) s' end) s ->
  wp id (mtry m f) Q s.
Proof.
  intros Hm. apply wp_bind. eapply wp_mono; [exact Hm|]. intros [a|e] s' HQ; [done|by apply wp_ret].
Qed.

(** The environment's step. *)
Lemma env_ok_next w e w1 :
  env_ok w -> next_env w = (e, w1) ->
  env_ok w1 /\ w1.(w_db).(lifecycle_jobs) = w.(w_db).(lifecycle_jobs) /\
  w1.(w_sent) = w.(w_sent) /\ w.(w_clock) <= w1.(w_clock) /\ (ff = true -> e.(es_fault) = NoFault).
Proof.
  intros (HI & Hok & He) Hn. apply next_env_spec in Hn as (Hc & Hd & Hs & Henv).
  destruct Henv as [Henv|(Henv & Henv' & ->)]; rewrite Henv in He.
  - apply Forall_cons in He as [(Hj & HI' & Hf) He]. unfold env_ok. rewrite Hd, Hj.
    split_and!; try done; [by apply HI'].
  - unfold env_ok. rewrite Hd, Henv'. simpl. split_and!; done.
Qed.

(** What a call that leaves jobs and certificates alone does to the world. *)
Definition still (w w' : World) : Prop :=
  env_ok w' /\ w'.(w_db).(lifecycle_jobs) = w.(w_db).(lifecycle_jobs) /\
  w'.(w_sent) = w.(w_sent) /\ w.(w_clock) <= w'.(w_clock).

Lemma still_trans w1 w2 w3 : still w1 w2 -> still w2 w3 -> still w1 w3.
Proof. unfold still. intros (? & ? & ? & ?) (? & ? & ? & ?). split_and!; [done|congruence..|lia]. Qed.

Definition stills {A} (m : M A) : Prop := forall w a w', env_ok w -> m w = (a, w') -> still w w'.

Lemma frame_same id w w' :
  w'.(w_db).(lifecycle_jobs) = w.(w_db).(lifecycle_jobs) -> w'.(w_sent) = w.(w_sent) ->
  w.(w_clock) <= w'.(w_clock) -> frame id w w'.
Proof. intros Hj Hs Hc. split; [done|]. intros k _. by rewrite Hj, Hs. Qed.

(** Time may have passed, the row is the same. *)
Definition later (s s' : RowState) : Prop :=
  s'.(rs_job) = s.(rs_job) /\ s'.(rs_launches) = s.(rs_launches) /\ s.(rs_clock) <= s'.(rs_clock).

Lemma row_state_same id w w' s :
  w'.(w_db).(lifecycle_jobs) = w.(w_db).(lifecycle_jobs) -> w'.(w_sent) = w.(w_sent) ->
  w.(w_clock) <= w'.(w_clock) -> row_state id w = Some s ->
  exists s', row_state id w' = Some s' /\ later s s'.
Proof.
  intros Hj Hs Hc. unfold row_state. rewrite Hj, Hs. intros (j & -> & ->)%fmap_Some.
  simpl. eexists. split; [done|]. by split_and!.
Qed.

Lemma wp_still {A} id (m : M A) (Q : A -> RowState -> Prop) s :
  stills m -> (forall a s', later s s' -> Q a s') -> wp id m Q s.
Proof.
  intros Hm HQ w a w' He Hs E. destruct (Hm w a w' He E) as (He1 & Hj & Hsent & Hc).
  destruct (row_state_same id w w' s Hj Hsent Hc Hs) as (s' & Hs' & Hl).
  split_and!; [done|by apply frame_same|eauto].
Qed.

Lemma wp_time_now id (Q : time -> RowState -> Prop) s :
  (forall s', later s s' -> Q s'.(rs_clock) s') -> wp id time_now Q s.
Proof.
  intros HQ w a w' He Hs. unfold time_now. destruct (next_env w) as [e w1] eqn:Hn. intros [= <- <-].
  destruct (env_ok_next _ _ _ He Hn) as (He1 & Hj & Hsent & Hc & _).
  destruct (row_state_same id w w1 s Hj Hsent Hc Hs) as (s' & Hs' & Hl).
  split_and!; [done|by apply frame_same|]. exists s'. split; [done|].
  specialize (HQ s' Hl). unfold row_state in Hs'. apply fmap_Some in Hs' as (j & _ & ->). done.
Qed.

(** A call to a service on behalf of the job. *)
Definition called (svc : service) (s s' : RowState) : Prop :=
  s'.(rs_job) = s.(rs_job) /\ s.(rs_clock) <= s'.(rs_clock) /\
  s'.(rs_launches) = (s.(rs_launches) + if bool_decide (svc = SvcAAPLaunch) then 1 else 0)%nat.

Lemma wp_net_call {T} id svc body (reply : nat -> T) (Q : T -> RowState -> Prop) s :
  (forall r s', called svc s s' -> Q r s') ->
  wp id (net_call {| nc_service := svc; nc_subject := id; nc_body := body |} reply) Q s.
Proof.
  intros HQ w a w' He Hs. unfold net_call. destruct (next_env w) as [e w1] eqn:Hn. intros [= <- <-].
  destruct (env_ok_next _ _ _ He Hn) as (He1 & Hj & Hsent & Hc & _).
  unfold row_state in Hs. apply fmap_Some in Hs as (j & Hjob & ->).
  assert (forall k, posts SvcAAPLaunch k [{| nc_service := svc; nc_subject := id; nc_body := body |}] =
    if bool_decide (svc = SvcAAPLaunch) then (if decide (k = id) then 1 else 0)%nat else 0%nat) as Hp.
  { intros k. unfold posts. rewrite filter_cons. simpl.
    case_decide as H1; case_bool_decide as H2; try case_decide as H3; simpl; naive_solver. }
  split_and!; [done| |].
  - split; [done|]. intros k Hk. simpl. rewrite Hj, Hsent, posts_app, Hp. split; [done|].
    rewrite decide_False by done. destruct (bool_decide _); lia.
  - unfold row_state. simpl. rewrite Hj, Hjob. simpl. eexists. split; [done|]. apply HQ.
    unfold called. simpl. rewrite Hsent, posts_app, Hp, decide_True by done. by split_and!.
Qed.
End Row.

(** ** The laws of the interface *)

Section Laws.
Context (ff : bool) (I : gmap uuid Certificate -> Prop).

(** A write of the row: done, or not done and reported; sure to be done when
    the store does not fail. *)
Definition updated (f : Ctx -> LifecycleJob -> LifecycleJob) (sure : Prop) (r : res unit)
    (s s' : RowState) : Prop :=
  s.(rs_clock) <= s'.(rs_clock) /\ s'.(rs_launches) = s.(rs_launches) /\
  ((s'.(rs_job) = s.(rs_job) /\ is_ok r = false /\ (ff = true -> sure -> False)) \/
   exists ctx, s'.(rs_job) = f ctx s.(rs_job) /\ (ff = true -> r = Ok tt)).

(** A claim leases in-flight rows and returns them as they are now. *)
Definition claims (P : JobStatus -> Prop) (m : M (res (list LifecycleJob))) : Prop :=
  forall w r w', env_ok ff I w -> m w = (r, w') ->
    env_ok ff I w' /\ w.(w_clock) <= w'.(w_clock) /\ w'.(w_sent) = w.(w_sent) /\
    (forall k, w'.(w_db).(lifecycle_jobs) !! k = w.(w_db).(lifecycle_jobs) !! k \/
       exists j o x t, w.(w_db).(lifecycle_jobs) !! k = Some j /\ in_flight j.(j_Status) = true /\
         w'.(w_db).(lifecycle_jobs) !! k = Some (lease_job o x t j)) /\
    forall l, r = Ok l -> NoDup (map j_ID l) /\
      forall j, j ∈ l -> w'.(w_db).(lifecycle_jobs) !! j.(j_ID) = Some j /\ P j.(j_Status).

Class JobStoreLaws `{JobStore} : Prop := {
  law_update id p s Q :
    (forall r s', updated (update_status p) (p.(us_SuccessorCertID) = None) r s s' -> Q r s') ->
    wp ff I id (js_UpdateLifecycleStatus id p) Q s;
  law_set_ref id n wf st s Q :
    (forall r s', updated (set_aap_ref n wf st) True r s s' -> Q r s') ->
    wp ff I id (js_SetLifecycleAAPRef id n wf st) Q s;
  law_schedule id n t s Q :
    (forall r s', updated (schedule_verify n t) True r s s' -> Q r s') ->
    wp ff I id (js_ScheduleNextVerify id n t) Q s;
  law_append_job jid ty p : stills ff I (js_AppendLifecycleJobEvent jid ty p);
  law_append_outbox ty k p : stills ff I (js_AppendRenewalOutboxEvent ty k p);
  law_get_certificate id k s Q :
    (forall r s', later s s' -> Q r s') -> wp ff I id (js_GetCertificate k) Q s;
  law_list_certificates id f s Q :
    (forall r s', later s s' ->
       (forall l n, r = Ok (l, n) -> exists m, I m /\ forall c, c ∈ l -> exists k, m !! k = Some c) ->
       Q r s') -> wp ff I id (js_ListCertificates f) Q s;
  law_claim o d n : claims (fun s => in_flight s = true) (js_ClaimLifecycleJobs o d n);
  law_claim_due now n d : claims (fun s => s = LifecyclePendingVerify) (js_ClaimDueVerifyJobs now n d);
  law_expire now w r w' :
    env_ok ff I w -> js_ExpireTimedOutVerifyJobs now w = (r, w') -> now <= w.(w_clock) ->
    env_ok ff I w' /\ w.(w_clock) <= w'.(w_clock) /\ w'.(w_sent) = w.(w_sent) /\
    ((w'.(w_db).(lifecycle_jobs) = w.(w_db).(lifecycle_jobs) /\ ff = false) \/
     exists now' t, now' <= w'.(w_clock) /\ (IsZero now = false -> now' = now) /\
       w'.(w_db).(lifecycle_jobs) = update_where (overdue now') (time_out t) w.(w_db).(lifecycle_jobs))
}.
End Laws.

(** ** The Postgres store satisfies them *)

Section PgLaws.
Context `{UuidGen} (ff : bool) (I : gmap uuid Certificate -> Prop).

(** A transaction that leaves jobs and certificates alone. *)
Definition quiet_txn {A} (f : txn A) : Prop := forall c db db' a, f c db = Ok (db', a) ->
  db'.(lifecycle_jobs) = db.(lifecycle_jobs) /\ db'.(certificates) = db.(certificates).

Lemma quiet_call {A} (f : txn A) w r w' :
  quiet_txn f -> env_ok ff I w -> store_call f w = (r, w') ->
  still ff I w w' /\ forall a, r = Ok a -> exists c db db', I db.(certificates) /\ f c db = Ok (db', a).
Proof.
  intros Hf He E. apply store_call_spec in E as (e & w1 & Hn & Hcase).
  destruct (env_ok_next ff I _ _ _ He Hn) as (He1 & Hj & Hsent & Hc & _).
  destruct Hcase as [(-> & err & -> & _)|(a & db' & Ht & -> & Hr)]; [by split|].
  destruct (Hf _ _ _ _ Ht) as [Hj' Hc'], He1 as (HI & Hok & He1). split.
  - split_and!; [|simpl; congruence|done|done]. unfold env_ok. simpl. rewrite Hj', Hc'. by split_and!.
  - intros a' ->. destruct Hr as [[= <-]|[=]]. eauto.
Qed.

Lemma stills_quiet {A} (f : txn A) : quiet_txn f -> stills ff I (store_call f).
Proof. intros Hf w r w' He E. by eapply quiet_call. Qed.

Lemma wp_quiet {A} id (f : txn A) s (Q : res A -> RowState -> Prop) :
  quiet_txn f ->
  (forall r s', later s s' -> (forall a, r = Ok a -> exists c db db', I db.(certificates) /\
     f c db = Ok (db', a)) -> Q r s') ->
  wp ff I id (store_call f) Q s.
Proof.
  intros Hf HQ w r w' He Hs E. destruct (quiet_call f w r w' Hf He E) as [(He1 & Hj & Hsent & Hc) Hr].
  destruct (row_state_same id w w' s Hj Hsent Hc Hs) as (s' & Hs' & Hl).
  split_and!; [done|by apply frame_same|eauto].
Qed.

Lemma wp_update id o f sure s (Q : res unit -> RowState -> Prop) :
  (forall c, keeps_ident (f c)) ->
  (sure -> o = None) ->
  (forall r s', updated ff f sure r s s' -> Q r s') ->
  wp ff I id (store_call (_ <-! fk_certificate o ;; update_job id f)) Q s.
Proof.
  intros Hf Hsure HQ w r w' He Hs E.
  unfold store_call in E. destruct (next_env w) as [e w1] eqn:Hn.
  destruct (env_ok_next ff I _ _ _ He Hn) as (He1 & Hj & Hsent & Hc & Hff).
  destruct (row_state_same id w w1 s Hj Hsent Hc Hs) as (s1 & Hs1 & Hjob & Hl & Hcl).
  assert (forall err, r = Err err -> w' = w1 -> (ff = true -> sure -> False) ->
    env_ok ff I w' /\ frame id w w' /\ exists s', row_state id w' = Some s' /\ Q r s') as Hnone.
  { intros err -> -> Hno. split_and!; [done|by apply frame_same|]. exists s1. split; [done|].
    apply HQ. split_and!; [done|done|]. left. by split_and!. }
  set (c := {| NOW := w_clock w1; locked := es_locked e |}) in *.
  destruct (fk_certificate o c (w_db w1)) as [[db1 u]|err] eqn:Hfk.
  2: { unfold tbind in E. rewrite Hfk in E.
       assert (ff = true -> sure -> False) as Hno by (intros _ ->%Hsure; done).
       destruct (es_fault e); injection E as <- <-; by eapply Hnone. }
  unfold fk_certificate in Hfk. apply trequire_ok in Hfk as (_ & -> & _).
  unfold row_state in Hs1. apply fmap_Some in Hs1 as (j & Hj1 & ->). simpl in *.
  assert (update_job id f c (w_db w1) =
    Ok ((w_db w1) <| lifecycle_jobs := <[id := f c j]> (lifecycle_jobs (w_db w1)) |>, tt)) as Hu
    by (unfold update_job, update_row; by rewrite Hj1).
  unfold tbind, fk_certificate, trequire in E.
  destruct (match o with Some k => _ | None => _ end) eqn:Ho in E; [|].
  2: { assert (ff = true -> sure -> False) as Hno by (intros _ ->%Hsure; done).
       destruct (es_fault e); injection E as <- <-; by eapply Hnone. }
  rewrite Hu in E.
  assert (forall r0, (ff = true -> r0 = Ok tt) -> r = r0 ->
    w' = w1 <| w_db := (w_db w1) <| lifecycle_jobs := <[id := f c j]> (lifecycle_jobs (w_db w1)) |> |> ->
    env_ok ff I w' /\ frame id w w' /\ exists s', row_state id w' = Some s' /\ Q r s') as Hdone.
  { intros r0 Hr -> ->. destruct (keeps_ident_keys _ (Hf c)) as [Hid Hk]. split_and!.
    - destruct He1 as (HI & Hok & He1). split_and!; simpl; [done| |done]. by eapply table_ok_insert.
    - split; [done|]. intros k Hne. simpl. rewrite lookup_insert_ne by done. by rewrite Hj, Hsent.
    - unfold row_state. simpl. rewrite lookup_insert_eq. simpl. eexists. split; [done|].
      apply HQ. split_and!; simpl; [done|congruence|]. right. exists c. split; [congruence|done]. }
  destruct (es_fault e) eqn:Hfault; injection E as <- <-.
  - by eapply (Hdone (Ok tt)).
  - eapply Hnone; [done..|]. intros Ht. by specialize (Hff Ht).
  - eapply (Hdone (Err ErrDatabase)); [|done..]. intros Ht. by specialize (Hff Ht).
Qed.

Lemma get_job_still id w r w' :
  env_ok ff I w -> GetLifecycleJob id w = (r, w') ->
  still ff I w w' /\ forall j, r = Ok j -> w'.(w_db).(lifecycle_jobs) !! id = Some j.
Proof.
  intros He E. apply store_call_spec in E as (e & w1 & Hn & Hcase).
  destruct (env_ok_next ff I _ _ _ He Hn) as (He1 & Hj & Hsent & Hc & _).
  destruct Hcase as [(-> & err & -> & _)|(j & db' & Ht & -> & Hr)]; [by split|].
  unfold get_job_tx in Ht. txn_inv. rewrite world_db_id. split; [done|].
  intros j' ->. destruct Hr as [[= <-]|[=]]. done.
Qed.

Lemma collect_jobs_still ids w r w' :
  env_ok ff I w -> mcollect ids GetLifecycleJob w = (r, w') ->
  still ff I w w' /\ forall l, r = Ok l -> map j_ID l = ids /\
    forall j, j ∈ l -> w'.(w_db).(lifecycle_jobs) !! j.(j_ID) = Some j.
Proof.
  revert w r w'. induction ids as [|id ids IH]; intros w r w' He; simpl.
  { intros [= <- <-]. split; [by split_and!|]. intros l [= <-]. split; [done|]. by intros j ?%elem_of_nil. }
  unfold mtry at 1, mbind at 1. destruct (GetLifecycleJob id w) as [[j|err] w1] eqn:E1;
    destruct (get_job_still _ _ _ _ He E1) as [Hst1 Hj]; [|intros [= <- <-]; by split].
  unfold mtry, mbind. destruct (mcollect ids GetLifecycleJob w1) as [r2 w2] eqn:E2.
  destruct (IH w1 _ _ (proj1 Hst1) E2) as [Hst2 Hl].
  destruct r2 as [l|err]; intros [= <- <-]; (split; [by eapply still_trans|]); [|done].
  intros l' [= <-]. destruct (Hl l eq_refl) as [Hids Hall].
  assert (lifecycle_jobs (w_db w2) !! id = Some j) as Hj2 by (destruct Hst2 as (_ & -> & _); by apply Hj).
  assert (j_ID j = id) as Hid by (destruct Hst2 as ((_ & Hok & _) & _); by apply (table_keyed Hok)).
  split; [simpl; congruence|]. intros j' [->|Hin]%elem_of_cons; [congruence|by apply Hall].
Qed.

Lemma pg_claims (P : JobStatus -> Prop) wh less f (tx : txn (list uuid)) n :
  (forall c db, exists t ids, claim (wh c) less n (f c) c.(locked) db.(lifecycle_jobs) = (t, ids) /\
     tx c db = Ok (db <| lifecycle_jobs := t |>, ids)) ->
  (forall c, exists o x t, forall j, f c j = lease_job o x t j) ->
  (forall c j, wh c j = true -> in_flight j.(j_Status) = true /\ P j.(j_Status)) ->
  claims ff I P (mtry (store_call tx) (fun ids => mcollect ids GetLifecycleJob)).
Proof.
  intros Htx Hf Hwh w r w' He. unfold mtry, mbind.
  destruct (store_call tx w) as [r1 w1] eqn:E1. apply store_call_spec in E1 as (e & w0 & Hn & Hcase).
  destruct (env_ok_next ff I _ _ _ He Hn) as (He0 & Hj0 & Hs0 & Hc0 & _).
  destruct Hcase as [(-> & err & -> & _)|(ids & db' & Ht & -> & Hr)].
  { intros [= <- <-]. split_and!; try done. intros k. left. by rewrite Hj0. }
  set (c := {| NOW := w_clock w0; locked := es_locked e |}) in *.
  destruct (Htx c (w_db w0)) as (t & ids' & EC & Ht'). rewrite Ht' in Ht. injection Ht as <- <-.
  destruct (Hf c) as (o & x & tm & Hlease).
  set (w1 := w0 <| w_db := _ |>).
  assert (env_ok ff I w1) as He1.
  { destruct He0 as (HI & Hok & He0). split_and!; [done| |done]. simpl.
    injection EC as <- _. apply table_ok_update_ids; [done|..]; intros j; by rewrite Hlease. }
  assert (forall k, w1.(w_db).(lifecycle_jobs) !! k = w.(w_db).(lifecycle_jobs) !! k \/
    exists j o x t, w.(w_db).(lifecycle_jobs) !! k = Some j /\ in_flight j.(j_Status) = true /\
      w1.(w_db).(lifecycle_jobs) !! k = Some (lease_job o x t j)) as Hrows.
  { intros k. simpl. rewrite (claim_lookup _ _ _ _ _ _ _ _ k EC). case_decide as Hk.
    - destruct (claim_sound _ _ _ _ _ _ _ _ _ EC Hk) as (j & Hj & Hw & _).
      right. exists j, o, x, tm. rewrite Hj. simpl. rewrite Hlease, <- Hj0.
      split_and!; [done|by eapply Hwh|done].
    - left. by rewrite Hj0. }
  destruct Hr as [->| ->].
  2: { intros [= <- <-]. split_and!; [done|done|done|done|done]. }
  intros E2. destruct (collect_jobs_still _ _ _ _ He1 E2) as [(He2 & Hj2 & Hs2 & Hc2) Hl].
  simpl in Hc2. split_and!; [done|lia|by rewrite Hs2|intros k; rewrite Hj2; apply Hrows|].
  intros l ->. destruct (Hl l eq_refl) as [Hids Hall]. rewrite Hids. split.
  { injection EC as _ <-. apply select_NoDup. }
  intros j Hin. specialize (Hall j Hin). split; [done|].
  assert (j_ID j ∈ ids') as Hk by (rewrite <- Hids; by apply list_elem_of_fmap_2).
  destruct (claim_sound _ _ _ _ _ _ _ _ _ EC Hk) as (j0 & Hj0' & Hw & _ & Ht1).
  rewrite Hj2 in Hall. simpl in Hall. rewrite Ht1, Hlease in Hall. injection Hall as <-.
  exact (proj2 (Hwh _ _ Hw)).
Qed.

Lemma env_ok_time_now w t w' :
  env_ok ff I w -> time_now w = (t, w') -> still ff I w w' /\ t = w'.(w_clock).
Proof.
  intros He. unfold time_now. destruct (next_env w) as [e w1] eqn:Hn. intros [= <- <-].
  destruct (env_ok_next ff I _ _ _ He Hn) as (He1 & Hj & Hsent & Hc & _). by split_and!.
Qed.

Lemma claims_bind {A} P (m : M A) (f : A -> M (res (list LifecycleJob))) :
  (forall w a w', env_ok ff I w -> m w = (a, w') -> still ff I w w') ->
  (forall a, claims ff I P (f a)) -> claims ff I P (mbind m f).
Proof.
  intros Hm Hf w r w' He. unfold mbind. destruct (m w) as [a w1] eqn:E1. intros E2.
  destruct (Hm w a w1 He E1) as (He1 & Hj1 & Hs1 & Hc1).
  destruct (Hf a w1 r w' He1 E2) as (He2 & Hc2 & Hs2 & Hrows & Hl).
  split_and!; [done|lia|congruence| |done]. intros k. rewrite <- Hj1. apply Hrows.
Qed.

Lemma verify_due_status now j : verify_due now j = true -> j.(j_Status) = LifecyclePendingVerify.
Proof. unfold verify_due. intros. b2p. naive_solver. Qed.

#[export] Instance pg_job_store_laws : JobStoreLaws ff I.
Proof.
  split.
  - intros. apply (wp_update _ _ _ (us_SuccessorCertID p = None)); [by intros ? ?|done|done].
  - intros id n wf st s Q HQ.
    apply (wp_update id None (set_aap_ref n wf st) True); [by intros ? ?|done|done].
  - intros id n t s Q HQ. apply (wp_update id None (schedule_verify n t) True); [by intros ? ?|done|done].
  - intros jid ty p. apply stills_quiet. intros c db db' [] Ht. by apply insert_job_event_ok in Ht as ->.
  - intros ty k p. apply stills_quiet. intros c db db' [] Ht. by apply appendEventTx_ok in Ht as (? & _ & ->).
  - intros. apply wp_quiet; [|by eauto]. intros c db db' x Ht. by apply get_certificate_ok in Ht as [-> _].
  - intros id f s Q HQ. simpl. unfold ListCertificates. apply wp_try, wp_quiet; [intros ???? Ht; by txn_inv|].
    intros [n|e] s1 Hl1 _; [|apply HQ; [done|by intros]]. apply wp_try, wp_quiet.
    { intros c db db' l Ht. by txn_inv. }
    intros [l|e] s2 Hl2 Hrows; [apply wp_ret|]; apply HQ; try by intros.
    + destruct Hl1 as (? & ? & ?), Hl2 as (? & ? & ?). split_and!; [congruence..|lia].
    + intros l' n' [= <- <-]. destruct (Hrows l eq_refl) as (c & db & db' & HI & Ht). txn_inv.
      eexists. split; [exact HI|]. intros x Hx%elem_of_take_in.
      assert (x ∈ select (cert_where db' f) (cert_order f) (certificates db')) as Hx'.
      { rewrite <- (take_drop (Z.to_nat (cf_Offset f)) (select _ _ _)). apply elem_of_app. by right. }
      apply elem_of_select in Hx' as [_ ?]. done.
    + destruct Hl1 as (? & ? & ?), Hl2 as (? & ? & ?). split_and!; [congruence..|lia].
  - intros o d n. apply claims_bind; [by intros w a w' He Ht; destruct (env_ok_time_now w a w' He Ht)|].
    intros t. eapply pg_claims; [|intros c; by eauto|].
    + intros c db. unfold claim_jobs_tx. destruct (claim _ _ _ _ _ _) as [t' l'] eqn:E. eauto.
    + simpl. unfold job_claimable. intros c j Hw. b2p. naive_solver.
  - intros now n d. apply claims_bind.
    { destruct (IsZero now); intros w a w' He Ht.
      - by destruct (env_ok_time_now w a w' He Ht).
      - injection Ht as <- <-. by split_and!. }
    intros t. eapply pg_claims; [|intros c; by eauto|].
    + intros c db. unfold claim_due_tx. destruct (claim _ _ _ _ _ _) as [t' l'] eqn:E. eauto.
    + simpl. intros c j Hw%verify_due_status. rewrite Hw. done.
  - intros now w r w' He E Hnow. simpl in E. unfold ExpireTimedOutVerifyJobs, mbind in E.
    destruct ((if IsZero now then time_now else mret now) w) as [now' w1] eqn:E1.
    assert (still ff I w w1 /\ now' <= w1.(w_clock) /\ (IsZero now = false -> now' = now)) as (Hst & Hn' & Hnz).
    { destruct (IsZero now).
      - destruct (env_ok_time_now _ _ _ He E1) as [Hst ->]. split_and!; [done|lia|done].
      - injection E1 as <- <-. split_and!; done. }
    destruct Hst as (He1 & Hj1 & Hs1 & Hc1).
    unfold store_call in E. destruct (next_env w1) as [e w2] eqn:Hn.
    destruct (env_ok_next ff I _ _ _ He1 Hn) as (He2 & Hj2 & Hs2 & Hc2 & Hff).
    assert (env_ok ff I (w2 <| w_db ::= (fun db => db <| lifecycle_jobs ::=
      update_where (overdue now') (time_out w2.(w_clock)) |>) |>)) as He3.
    { destruct He2 as (HI & Hok & He2). split_and!; simpl; [done| |done]. by apply table_ok_update_where. }
    destruct (es_fault e) eqn:Hfault; injection E as <- <-; simpl; (split_and!; [done|lia|congruence|]).
    + right. exists now', (w_clock w2). split_and!; [lia|done|congruence].
    + left. split; [congruence|]. destruct ff; [by specialize (Hff eq_refl)|done].
    + right. exists now', (w_clock w2). split_and!; [lia|done|congruence].
Qed.
End PgLaws.

(** ** The handlers follow the machine *)

Section Handlers.
Context `{JobStore, Controller} (ff : bool) (I : gmap uuid Certificate -> Prop)
  `{!JobStoreLaws ff I} (cfg : WorkerConfig).

(** What the inventory may show. *)
Definition seen (c : Certificate) : Prop := exists m, I m /\ exists k, m !! k = Some c.

(** The way a job has gone by the time of [s]. *)
Definition path (s0 s : RowState) : Prop :=
  rtc (fun a b => exists t, t <= s.(rs_clock) /\ job_step seen t a b) s0.(rs_job) s.(rs_job).

Lemma path_refl s : path s s.
Proof. unfold path. reflexivity. Qed.

Lemma path_clock s0 s s' :
  path s0 s -> s.(rs_clock) <= s'.(rs_clock) -> s'.(rs_job) = s.(rs_job) -> path s0 s'.
Proof.
  unfold path. intros Hp Hc ->. eapply rtc_subrel; [|exact Hp].
  intros a b (t & Ht & Hs). exists t. split; [lia|done].
Qed.

Lemma path_later s0 s s' : path s0 s -> later s s' -> path s0 s'.
Proof. intros Hp (Hj & _ & Hc). by eapply path_clock. Qed.

Lemma path_called svc s0 s s' : path s0 s -> called svc s s' -> path s0 s'.
Proof. intros Hp (Hj & Hc & _). by eapply path_clock. Qed.

Lemma path_step s0 s s' t :
  path s0 s -> s.(rs_clock) <= s'.(rs_clock) -> t <= s'.(rs_clock) ->
  job_step seen t s.(rs_job) s'.(rs_job) -> path s0 s'.
Proof.
  intros Hp Hc Ht Hs. eapply rtc_r.
  - eapply (path_clock s0 s {| rs_job := s.(rs_job); rs_launches := 0; rs_clock := s'.(rs_clock) |}); done.
  - exists t. done.
Qed.

(** A write that would be a step is one, if it is done. *)
Lemma path_updated f sure r s0 s s' t :
  path s0 s -> updated ff f sure r s s' -> t <= s.(rs_clock) ->
  (forall ctx, job_step seen t s.(rs_job) (f ctx s.(rs_job))) -> path s0 s'.
Proof.
  intros Hp (Hc & _ & Hcase) Ht Hs. destruct Hcase as [(Hj & _)|(ctx & Hj & _)].
  - by eapply path_clock.
  - eapply path_step; [done|done| |]; [|rewrite Hj; apply Hs]. lia.
Qed.

(** The launches: at most one, from [launching], which it leaves if the store
    does not fail. *)
Definition launches_ok (s0 s : RowState) : Prop :=
  s.(rs_launches) = s0.(rs_launches) \/
  (s0.(rs_job).(j_Status) = LifecycleLaunching /\ s.(rs_launches) = S s0.(rs_launches) /\
   (ff = true -> s.(rs_job).(j_Status) <> LifecycleLaunching)).

Definition progress (s0 s : RowState) : Prop := path s0 s /\ launches_ok s0 s.

Lemma progress_later s0 s s' : progress s0 s -> later s s' -> progress s0 s'.
Proof.
  intros [Hp Hl] Hlt. split; [by eapply path_later|]. destruct Hlt as (Hj & Hn & _).
  unfold launches_ok in *. by rewrite Hj, Hn.
Qed.

Lemma progress_refl s : progress s s.
Proof. split; [apply path_refl|by left]. Qed.

(** A write away from the launch. *)
Lemma progress_updated f sure r s0 s s' t :
  path s0 s -> s.(rs_launches) = s0.(rs_launches) -> updated ff f sure r s s' -> t <= s.(rs_clock) ->
  (forall ctx, job_step seen t s.(rs_job) (f ctx s.(rs_job))) -> progress s0 s'.
Proof.
  intros Hp Hn Hu Ht Hs. split; [by eapply path_updated|]. left.
  destruct Hu as (_ & Hl & _). congruence.
Qed.

Lemma wp_append_job id jid ty p s Q :
  (forall r s', later s s' -> Q r s') -> wp ff I id (js_AppendLifecycleJobEvent jid ty p) Q s.
Proof. apply wp_still, (law_append_job ff I). Qed.
Lemma wp_append_outbox id ty k p s Q :
  (forall r s', later s s' -> Q r s') -> wp ff I id (js_AppendRenewalOutboxEvent ty k p) Q s.
Proof. apply wp_still, (law_append_outbox ff I). Qed.

(** Two appends, whose errors are not looked at, end most handlers. *)
Lemma wp_notify {A} id jid ty1 p1 ty2 k p2 (a : A) s0 s :
  progress s0 s ->
  wp ff I id (mbind (js_AppendLifecycleJobEvent jid ty1 p1) (fun _ =>
             mbind (js_AppendRenewalOutboxEvent ty2 k p2) (fun _ => mret a))) (fun _ => progress s0) s.
Proof.
  intros Hp. apply wp_bind. apply wp_append_job. intros _ s1 H1.
  apply wp_bind, wp_append_outbox. intros _ s2 H2. apply wp_ret. eauto using progress_later.
Qed.

Lemma wp_fail_with id reason s :
  (s.(rs_job).(j_Status) = LifecycleLaunching \/ polling s.(rs_job).(j_Status) \/ probing s.(rs_job).(j_Status)) ->
  wp ff I id (fail_with id reason) (fun _ => progress s) s.
Proof.
  intros Hs. unfold fail_with. apply wp_bind, (law_update ff I). intros r s1 Hu. apply wp_ret.
  eapply progress_updated; [apply path_refl|done|exact Hu|done|]. intros ctx. by apply step_failed.
Qed.

(** [launch] *)
Lemma wp_launch s :
  s.(rs_job).(j_Status) = LifecycleLaunching ->
  wp ff I s.(rs_job).(j_ID) (launch cfg s.(rs_job)) (fun _ => progress s) s.
Proof.
  intros Hst. unfold launch.
  destruct (match j_AAPJobID (rs_job s) with Some n => 0 <? n | None => false end) eqn:Hid.
  { apply (law_update ff I). intros r s1 Hu. eapply progress_updated; [apply path_refl|done|exact Hu|done|].
    intros ctx. destruct (j_AAPJobID (rs_job s)) as [n|] eqn:En; [|done]. b2p. by eapply step_recover. }
  assert (forall n', j_AAPJobID (rs_job s) = Some n' -> n' <= 0) as Hid'.
  { intros n' E. rewrite E in Hid. by apply Z.ltb_ge in Hid. }
  destruct (wk_AAP cfg); [|apply wp_fail_with; by left].
  destruct (j_PredecessorCertID (rs_job s)) as [pred|]; [|apply wp_fail_with; by left].
  apply wp_try, (law_get_certificate ff I). intros [cert|err] s1 Hl1; [|by apply progress_later with s; [apply progress_refl|]].
  assert (rs_job s1 = rs_job s /\ rs_launches s1 = rs_launches s) as [Hj1 Hn1] by (destruct Hl1; naive_solver).
  destruct (c_RenewalConfig cert) as [rc|].
  2: { eapply wp_mono; [apply wp_fail_with; left; congruence|]. intros a s2 [Hp Hlo]. split.
       - unfold path in *. by rewrite Hj1 in Hp.
       - unfold launches_ok in *. by rewrite Hj1, Hn1 in Hlo. }
  apply wp_bind, wp_net_call. intros r s2 (Hj2 & Hc2 & Hn2). rewrite bool_decide_true in Hn2 by done.
  assert (path s s2) as Hp2.
  { eapply path_clock; [eapply path_later; [apply path_refl|exact Hl1]|done|done]. }
  assert (j_Status (rs_job s2) = LifecycleLaunching) as Hst2 by congruence.
  destruct r as [[jobID wf]|err].
  - apply wp_try, (law_set_ref ff I). intros r s3 Hu3.
    assert (path s s3) as Hp3.
    { eapply path_updated; [exact Hp2|exact Hu3|done|]. intros ctx. apply step_launched; [done|].
      rewrite Hj2, Hj1. done. }
    destruct Hu3 as (Hc3 & Hn3 & Hcase).
    assert (launches_ok s s3) as Hlo3.
    { right. split_and!; [done|lia|]. intros Hff. destruct Hcase as [(_ & _ & Hno)|(ctx & Hj3 & _)].
      - by destruct (Hno Hff).
      - by rewrite Hj3. }
    destruct r as [u|err]; [|done].
    destruct Hcase as [(_ & Hr & _)|(ctx & Hj3 & _)]; [done|].
    apply wp_bind, wp_append_job. intros _ s4 H4. apply wp_bind, wp_append_outbox. intros _ s5 H5.
    apply wp_bind, (law_update ff I). intros r6 s6 Hu6. apply wp_ret.
    assert (progress s s5) as [Hp5 _] by (eapply progress_later; [eapply progress_later; [split|]|]; eauto).
    assert (rs_job s5 = rs_job s3) as Hj5 by (destruct H4 as [E4 _], H5 as [E5 _]; congruence).
    assert (j_Status (rs_job s5) = LifecycleAAPPending) as Hst5 by (by rewrite Hj5, Hj3).
    split.
    + eapply path_updated; [exact Hp5|exact Hu6|done|]. intros ctx'. apply step_clear. by rewrite Hst5.
    + right. destruct Hu6 as (_ & Hn6 & Hcase6). destruct H4 as (_ & Hn4 & _), H5 as (_ & Hn5 & _).
      split_and!; [done|lia|]. intros _. destruct Hcase6 as [(-> & _)|(ctx' & -> & _)]; simpl; by rewrite Hst5.
  - apply wp_bind, (law_update ff I). intros r s3 Hu3. apply wp_notify. split.
    + eapply path_updated; [exact Hp2|exact Hu3|done|]. intros ctx. apply step_failed. by left.
    + right. destruct Hu3 as (_ & Hn3 & Hcase). split_and!; [done|lia|]. intros Hff.
      destruct Hcase as [(_ & _ & Hno)|(ctx & -> & _)]; [by destruct (Hno Hff)|done].
Qed.

(** A handler that goes on after time has passed. *)
Lemma progress_from s s1 s2 : later s s1 -> progress s1 s2 -> progress s s2.
Proof.
  intros (Hj & Hn & _) [Hp Hl]. split; [unfold path|unfold launches_ok]; by rewrite <- Hj, <- ?Hn.
Qed.

Lemma wp_later {A} id (m : M A) s s1 :
  later s s1 -> wp ff I id m (fun _ => progress s1) s1 -> wp ff I id m (fun _ => progress s) s1.
Proof. intros Hl Hw. eapply wp_mono; [exact Hw|]. intros a s2. by apply progress_from. Qed.

(** [enterPendingVerify] *)
Lemma wp_enterPendingVerify job s :
  job = s.(rs_job) -> polling s.(rs_job).(j_Status) \/ s.(rs_job).(j_Status) = LifecycleAAPSuccessful ->
  wp ff I job.(j_ID) (enterPendingVerify job) (fun _ => progress s) s.
Proof.
  intros -> Hst. unfold enterPendingVerify. apply wp_bind, wp_time_now. intros s1 Hl1.
  apply wp_later; [done|]. destruct (NextVerifyAt _ 1 _) as [next last] eqn:En.
  apply wp_try, (law_schedule ff I). intros r s2 Hu.
  assert (progress s1 s2) as Hp.
  { eapply progress_updated; [apply path_refl|done|exact Hu| |].
    - instantiate (1 := rs_clock s1). lia.
    - intros ctx. destruct Hl1 as [Hj1 _].
      replace next with (NextVerifyAt (rs_clock s1) 1 (job_timeout (rs_job s1) (rs_clock s1))).1
        by (by rewrite Hj1, En).
      apply step_pending. by rewrite Hj1. }
  destruct r; [by apply wp_ret|done].
Qed.

(** [pollAAP] *)
Lemma wp_pollAAP s :
  polling s.(rs_job).(j_Status) ->
  wp ff I s.(rs_job).(j_ID) (pollAAP cfg s.(rs_job)) (fun _ => progress s) s.
Proof.
  intros Hst. unfold pollAAP.
  assert (in_flight (j_Status (rs_job s)) = true) as Hfl by (by destruct Hst as [->| ->]).
  destruct (j_AAPJobID (rs_job s)) as [n|]; [|apply wp_fail_with; auto].
  destruct (wk_AAP cfg); [|apply wp_fail_with; auto].
  apply wp_bind, wp_net_call. intros r s1 (Hj1 & Hc1 & Hn1).
  rewrite bool_decide_false in Hn1 by done. rewrite Nat.add_0_r in Hn1.
  assert (later s s1) as Hl1 by done. rewrite <- Hj1 in *. apply wp_later; [done|].
  assert (forall r p s2, updated ff (update_status p) (us_SuccessorCertID p = None) r s1 s2 ->
    (forall ctx, job_step seen s1.(rs_clock) s1.(rs_job) (update_status p ctx s1.(rs_job))) ->
    progress s1 s2) as Hup.
  { intros r0 p s2 Hu Hs. eapply progress_updated; [apply path_refl|done|exact Hu| |exact Hs]. lia. }
  destruct r as [st|err].
  - case_bool_decide as Hf; [|case_bool_decide as Hok].
    + apply wp_bind, (law_update ff I). intros r2 s2 Hu. apply wp_notify.
      eapply Hup; [exact Hu|]. intros ctx. apply step_failed. auto.
    + apply wp_bind, wp_append_job. intros _ s2 Hl2. apply wp_later; [done|].
      assert (rs_job s2 = rs_job s1) as Hj2 by apply Hl2. rewrite <- Hj2.
      apply wp_enterPendingVerify; [done|]. left. by rewrite Hj2.
    + apply wp_bind, (law_update ff I). intros r2 s2 Hu. apply wp_ret.
      eapply Hup; [exact Hu|]. intros ctx. apply step_polled; [done|].
      unfold polling. destruct st; simpl in *; auto; done.
  - apply wp_bind, (law_update ff I). intros r2 s2 Hu. apply wp_ret.
    eapply Hup; [exact Hu|]. intros ctx. by apply step_clear.
Qed.

(** The candidate the loop of [observeSuccessor] keeps. *)
Lemma better_successor_from e l b c :
  foldl (better_successor e) b l = Some c ->
  b = Some c \/ (c ∈ l /\ c.(c_SubjectCN) = Some e.(ew_CommonName) /\
                 c.(c_FingerprintSHA256) <> e.(ew_PredecessorFP)).
Proof.
  revert b. induction l as [|x l IH]; intros b; simpl; [by left|].
  intros [Hb|Hc]%IH; [|right; destruct Hc as (? & ? & ?); split_and!; [by constructor|done..]].
  unfold better_successor in Hb. case_bool_decide as Hcn; simpl in Hb; [|by left].
  destruct (String.eqb_spec (c_FingerprintSHA256 x) (ew_PredecessorFP e)); [by left|].
  assert (b = Some c \/ Some x = Some c) as [?|[= ->]]; [|by left|right].
  { destruct b as [b|]; [destruct (c_NotAfter b <? c_NotAfter x)|]; auto. }
  split_and!; [constructor|done|done].
Qed.

Lemma wp_observeSuccessor id e s (Q : res ObservedWire -> RowState -> Prop) :
  (forall r s', later s s' ->
     (forall o, r = Ok o -> VerifyWire e o = None ->
        exists c, good_successor e c /\ seen c /\ o = observed_of e.(ew_CommonName) c) -> Q r s') ->
  wp ff I id (observeSuccessor e) Q s.
Proof.
  intros HQ. unfold observeSuccessor. destruct (String.eqb_spec (ew_CommonName e) "") as [|Hne].
  { apply wp_ret, HQ; [by split_and!|]. by intros o [= <-]. }
  apply wp_try, (law_list_certificates ff I). intros [[l n]|err] s1 Hl1 Hseen; [|by apply HQ].
  simpl. destruct (foldl _ None l) as [c|] eqn:Ef; apply wp_ret, HQ; try done.
  - intros o [= <-] Hv. apply better_successor_from in Ef as [?|(Hin & Hcn & Hfp)]; [done|].
    apply VerifyWire_spec in Hv as (_ & Hf & _ & _ & Hna). simpl in *.
    destruct (Hseen l n eq_refl) as (m & HI & Hm). exists c. split_and!; [by split_and!| |].
    + exists m. split; [done|by apply Hm].
    + unfold observed_of. by rewrite Hcn.
  - intros o [= <-] Hv. apply VerifyWire_spec in Hv as (_ & Hf & _). done.
Qed.

(** [verifyPending] *)
Lemma wp_verifyPending s now :
  probing s.(rs_job).(j_Status) -> now <= s.(rs_clock) ->
  wp ff I s.(rs_job).(j_ID) (verifyPending s.(rs_job) now) (fun _ => progress s) s.
Proof.
  intros Hst Hnow. unfold verifyPending.
  assert (forall r p s1 s2, later s s1 -> updated ff (update_status p) (us_SuccessorCertID p = None) r s1 s2 ->
    (forall ctx, job_step seen now s.(rs_job) (update_status p ctx s.(rs_job))) ->
    progress s s2) as Hup.
  { intros r p s1 s2 (Hj & Hn & Hc) Hu Hs. eapply progress_updated; [|done|exact Hu| |].
    - eapply path_clock; [apply path_refl|done|done].
    - instantiate (1 := now). lia.
    - intros ctx. rewrite Hj. apply Hs. }
  assert (later s s) as Hrefl by (by split_and!).
  destruct (Z.ltb_spec now (job_timeout (rs_job s) now)) as [Hlt|Hge]; simpl.
  2: { apply wp_bind, (law_update ff I). intros r s1 Hu. apply wp_notify.
       eapply Hup; [exact Hrefl|exact Hu|]. intros ctx. by apply step_timed_out. }
  destruct (UnmarshalExpected (j_Expected (rs_job s))) as [e|err] eqn:Ee.
  2: { apply wp_bind, (law_update ff I). intros r s1 Hu. apply wp_ret.
       eapply Hup; [exact Hrefl|exact Hu|]. intros ctx. apply step_failed. auto. }
  apply wp_try, wp_observeSuccessor. intros [o|err] s1 Hl1 Ho;
    [|by eapply progress_later; [apply progress_refl|]].
  destruct (VerifyWire e o) as [reason|] eqn:Ev.
  - pose proof (last_attempt_branch_dead now (j_VerifyAttempt (rs_job s) + 1) (job_timeout (rs_job s) now) Hlt) as Hdead.
    destruct (NextVerifyAt _ _ _) as [next last] eqn:En. rewrite Hdead.
    apply wp_bind, (law_update ff I). intros r2 s2 Hu2. apply (law_schedule ff I). intros r3 s3 Hu3.
    assert (progress s s2) as [Hp2 _].
    { eapply Hup; [exact Hl1|exact Hu2|]. intros ctx. by apply step_observed. }
    assert (exists j2, s2.(rs_job) = j2 /\ j_Status j2 = j_Status (rs_job s) /\
      j_VerifyAttempt j2 = j_VerifyAttempt (rs_job s) /\ j_TimeoutAt j2 = j_TimeoutAt (rs_job s))
      as (j2 & Hj2 & Hs2 & Ha2 & Ht2).
    { destruct Hl1 as (Hj1 & _), Hu2 as (_ & _ & [(Hj & _)|(ctx & Hj & _)]); rewrite Hj, Hj1; eexists;
        split_and!; reflexivity. }
    destruct Hl1 as (_ & Hn1 & Hc1), Hu2 as (Hc2 & Hn2 & _).
    eapply progress_updated; [exact Hp2|congruence|exact Hu3|instantiate (1 := now); lia|].
    intros ctx. rewrite Hj2.
    assert (job_timeout j2 now = job_timeout (rs_job s) now) as Hto by (unfold job_timeout; by rewrite Ht2).
    replace next with (NextVerifyAt now (j_VerifyAttempt j2 + 1) (job_timeout j2 now)).1
      by (by rewrite Hto, Ha2, En).
    rewrite <- Ha2. apply step_retry; [by rewrite Hs2|by rewrite Hto].
  - apply wp_bind, (law_update ff I). intros r s2 Hu. apply wp_notify.
    destruct (Ho o eq_refl Ev) as (c & Hgood & Hc & ->).
    eapply Hup; [exact Hl1|exact Hu|]. intros ctx. simpl. by apply step_verified.
Qed.

(** [process] *)
Lemma wp_process s :
  in_flight s.(rs_job).(j_Status) = true ->
  wp ff I s.(rs_job).(j_ID) (process cfg s.(rs_job)) (fun _ => progress s) s.
Proof.
  intros Hfl. unfold process. destruct (j_Status (rs_job s)) eqn:Hst; try done.
  - by apply wp_launch.
  - apply wp_pollAAP. by left.
  - apply wp_pollAAP. by right.
  - apply wp_enterPendingVerify; auto.
  - apply wp_bind, wp_time_now. intros s1 Hl1. apply wp_later; [done|].
    assert (rs_job s1 = rs_job s) as Hj1 by apply Hl1. rewrite <- Hj1.
    apply wp_verifyPending; [left; congruence|done].
  - apply wp_bind, wp_time_now. intros s1 Hl1. apply wp_later; [done|].
    assert (rs_job s1 = rs_job s) as Hj1 by apply Hl1. rewrite <- Hj1.
    destruct (match j_NextVerifyAt (rs_job s1) with Some t => _ | None => _ end).
    + apply wp_bind, (law_update ff I). intros r s2 Hu. apply wp_ret.
      eapply progress_updated; [apply path_refl|done|exact Hu|done|]. intros ctx.
      apply step_clear. by rewrite Hj1, Hst.
    + apply wp_verifyPending; [right; congruence|done].
Qed.
End Handlers.

(** ** A tick *)

Lemma step_never_launching seen t j j' :
  job_step seen t j j' -> j'.(j_Status) = LifecycleLaunching -> j.(j_Status) = LifecycleLaunching.
Proof.
  inversion 1; subst; simpl; try done. unfold polling in *. naive_solver.
Qed.

Section Tick.
Context `{JobStore, Controller} (ff : bool) (I : gmap uuid Certificate -> Prop)
  `{!JobStoreLaws ff I} (cfg : WorkerConfig).

(** A launched job is not launched again. *)
Definition launch_inv (s : RowState) : Prop :=
  (s.(rs_job).(j_Status) = LifecycleLaunching -> s.(rs_launches) = 0%nat) /\ (s.(rs_launches) <= 1)%nat.

Lemma path_never_launching s s' :
  path I s s' -> s'.(rs_job).(j_Status) = LifecycleLaunching -> s.(rs_job).(j_Status) = LifecycleLaunching.
Proof.
  unfold path. generalize (rs_clock s'). intros c. generalize (rs_job s), (rs_job s').
  induction 1 as [|a b d (t & _ & Hs) _ IH]; [done|]. intros Hd. by eapply step_never_launching, IH.
Qed.

Lemma progress_launch_inv s s' : ff = true -> progress ff I s s' -> launch_inv s -> launch_inv s'.
Proof.
  intros Hff [Hp [Hl|(Hst & Hl & Hno)]] [H1 H2].
  - split; [|lia]. intros Hs. rewrite Hl. by eapply H1, path_never_launching.
  - specialize (H1 Hst). specialize (Hno Hff). split; [done|lia].
Qed.

(** What a tick does to every job. *)
Definition ticks (w w' : World) : Prop := env_ok ff I w ->
  env_ok ff I w' /\ w.(w_clock) <= w'.(w_clock) /\
  forall k s, row_state k w = Some s -> exists s', row_state k w' = Some s' /\ path I s s' /\
    (ff = true -> launch_inv s -> launch_inv s').

Lemma row_state_clock k w s : row_state k w = Some s -> s.(rs_clock) = w.(w_clock).
Proof. unfold row_state. by intros (j & _ & ->)%fmap_Some. Qed.

#[local] Instance ticks_rel : WorldRel ticks.
Proof.
  split.
  - intros w He. split_and!; [done|lia|]. intros k s Hs. exists s. split_and!; [done|apply path_refl|done].
  - intros w1 w2 w3 H12 H23 He1. destruct (H12 He1) as (He2 & Hc2 & Hr2).
    destruct (H23 He2) as (He3 & Hc3 & Hr3). split_and!; [done|lia|]. intros k s Hs.
    destruct (Hr2 k s Hs) as (s2 & Hs2 & Hp2 & Hi2). destruct (Hr3 k s2 Hs2) as (s3 & Hs3 & Hp3 & Hi3).
    exists s3. split_and!; [done| |auto]. unfold path in *. etransitivity; [|exact Hp3].
    eapply rtc_subrel; [|exact Hp2]. intros a b (t & Ht & Hst). exists t. split; [|done].
    rewrite (row_state_clock _ _ _ Hs2) in Ht. rewrite (row_state_clock _ _ _ Hs3). lia.
Qed.

Lemma ticks_still w w' : still ff I w w' -> ticks w w'.
Proof.
  intros (He' & Hj & Hsent & Hc) He. split_and!; [done|done|]. intros k s Hs.
  destruct (row_state_same k w w' s Hj Hsent Hc Hs) as (s' & Hs' & Hl).
  exists s'. split_and!; [done|eapply path_later; [apply path_refl|done]|].
  destruct Hl as (Hj' & Hn' & _). intros _. unfold launch_inv. by rewrite Hj', Hn'.
Qed.

Lemma moves_stills {A} (m : M A) : stills ff I m -> moves ticks m.
Proof. intros Hm w a w' E He. eapply ticks_still; [by eapply Hm|done]. Qed.

(** From one row to all of them. *)
Lemma ticks_wp {A} id (m : M A) s w a w' :
  wp ff I id m (fun _ => progress ff I s) s -> row_state id w = Some s -> m w = (a, w') -> ticks w w'.
Proof.
  intros Hm Hs E He. destruct (Hm w a w' He Hs E) as (He' & [Hc Hf] & s' & Hs' & Hp).
  split_and!; [done|done|]. intros k sk Hk. destruct (decide (k = id)) as [->|Hne].
  - assert (sk = s) as -> by congruence. exists s'. split_and!; [done|apply Hp|].
    intros Hff. by apply progress_launch_inv.
  - destruct (Hf k Hne) as [Hj Hn]. unfold row_state in *. apply fmap_Some in Hk as (j & Hj0 & ->).
    rewrite Hj, Hj0, Hn. simpl. eexists. split; [done|]. split; [|done].
    eapply path_clock; [apply path_refl|done|done].
Qed.

Lemma frame_row id k w w' s :
  frame id w w' -> k <> id -> row_state k w = Some s -> w'.(w_db).(lifecycle_jobs) !! k = Some s.(rs_job).
Proof.
  intros [_ Hf] Hne Hs. destruct (Hf k Hne) as [-> _]. unfold row_state in Hs.
  by apply fmap_Some in Hs as (j & -> & ->).
Qed.

(** A loop over claimed jobs: each row is as its snapshot when its turn comes. *)
Lemma ticks_loop (h : LifecycleJob -> M (res unit)) (P : JobStatus -> Prop) c0 l w w' u :
  (forall s, P s.(rs_job).(j_Status) -> c0 <= s.(rs_clock) ->
     wp ff I s.(rs_job).(j_ID) (h s.(rs_job)) (fun _ => progress ff I s) s) ->
  c0 <= w.(w_clock) -> NoDup (map j_ID l) ->
  (forall j, j ∈ l -> w.(w_db).(lifecycle_jobs) !! j.(j_ID) = Some j /\ P j.(j_Status)) ->
  mfor l (fun job => mbind (h job) (fun _ => mret tt)) w = (u, w') -> ticks w w'.
Proof.
  intros Hh. revert w. induction l as [|j l IH]; intros w Hc Hnd Hl; simpl.
  { intros [= <- <-]. apply wr_refl. }
  apply NoDup_cons in Hnd as [Hni Hnd]. destruct (Hl j) as [Hj HP]; [constructor|].
  set (s := {| rs_job := j; rs_launches := posts SvcAAPLaunch (j_ID j) (w_sent w); rs_clock := w_clock w |}).
  assert (row_state (j_ID j) w = Some s) as Hs by (unfold row_state; by rewrite Hj).
  unfold mbind. destruct (h j w) as [r w1] eqn:E1. simpl. intros E2 He.
  destruct (Hh s HP Hc w r w1 He Hs E1) as (He1 & Hfr & _).
  assert (ticks w w1) as H1 by (eapply ticks_wp; [exact (Hh s HP Hc)|exact Hs|exact E1]).
  refine (wr_trans _ _ _ H1 (IH w1 _ Hnd _ E2) He).
  - destruct Hfr as [? _]. lia.
  - intros j' Hj'. destruct (Hl j') as [Hj1 HP1]; [by constructor|]. split; [|done].
    destruct Hfr as [_ Hfr]. rewrite <- Hj1. apply Hfr. intros E. apply Hni. change (j_ID j' = j_ID j) in E. rewrite <- E.
    by apply list_elem_of_fmap_2.
Qed.

(** A claim is a tick of leases. *)
Lemma ticks_claim P m w r w' : claims ff I P m -> m w = (r, w') -> ticks w w'.
Proof.
  intros Hm E He. destruct (Hm w r w' He E) as (He' & Hc & Hsent & Hrows & _). split_and!; [done|done|].
  intros k s Hs. unfold row_state in Hs. apply fmap_Some in Hs as (j & Hj & ->). unfold row_state.
  destruct (Hrows k) as [->|(j0 & o & x & t & Hj0 & Hfl & ->)].
  - rewrite Hj, Hsent. simpl. eexists. split; [done|]. split; [|done].
    eapply path_clock; [apply path_refl|done|done].
  - assert (j0 = j) as -> by congruence. simpl. rewrite Hsent. eexists. split; [done|]. split; [|done].
    eapply path_step; [apply path_refl|done|reflexivity|]. by apply step_lease.
Qed.

(** The sweep, and the notifications after it. *)
Lemma expireTimedOut_inv now w r w' :
  expireTimedOut now w = (r, w') ->
  exists r1 w1, js_ExpireTimedOutVerifyJobs now w = (r1, w1) /\ ticks w1 w'.
Proof.
  unfold expireTimedOut, mtry, mbind at 1.
  destruct (js_ExpireTimedOutVerifyJobs now w) as [r1 w1] eqn:E1. intros E. exists r1, w1. split; [done|].
  revert E.
  match goal with |- ?m w1 = _ -> _ => enough (moves ticks m) as Hm by (intros E; exact (Hm _ _ _ E)) end.
  destruct r1; moves_tac; apply moves_stills;
    [apply (law_append_job ff I)|apply (law_append_outbox ff I)].
Qed.

Lemma ticks_sweep now w r w' :
  now <= w.(w_clock) -> js_ExpireTimedOutVerifyJobs now w = (r, w') -> ticks w w'.
Proof.
  intros Hnow E He. destruct (law_expire ff I now w r w' He E Hnow) as (He1 & Hc1 & Hs1 & Hrows).
  split_and!; [done|done|]. intros k s Hs. unfold row_state in *.
  apply fmap_Some in Hs as (j & Hj & ->). rewrite Hs1.
  destruct Hrows as [[-> _]|(now' & t & Hn' & _ & ->)].
  - rewrite Hj. simpl. eexists. split; [done|]. split; [|done].
    eapply path_clock; [apply path_refl|done|done].
  - rewrite lookup_update_where, Hj. simpl. eexists. split; [done|].
    destruct (overdue now' j) eqn:Hov; (split; [|try done; by intros _ [? ?]]).
    + eapply path_step; [apply path_refl|done|exact Hn'|]. simpl. by apply step_expired.
    + eapply path_clock; [apply path_refl|done|done].
Qed.

Lemma ticks_tick_jobs now w u w' : now <= w.(w_clock) -> tick_jobs cfg now w = (u, w') -> ticks w w'.
Proof.
  intros Hnow. unfold tick_jobs, mbind at 1.
  destruct (js_ClaimLifecycleJobs _ _ _ w) as [r2 w2] eqn:E2. intros E He.
  assert (ticks w w2) as H2 by (eapply ticks_claim; [apply (law_claim ff I)|exact E2]).
  destruct (law_claim ff I _ _ _ _ _ _ He E2) as (He2 & Hc2 & _ & _ & Hl2).
  refine (wr_trans _ _ _ H2 _ He). destruct r2 as [jobs|err]; [|injection E as <- <-; apply wr_refl].
  destruct (Hl2 jobs eq_refl) as [Hnd2 Hfresh2]. revert E. unfold mbind at 1.
  destruct (mfor jobs _ w2) as [u3 w3] eqn:E3. intros E He2'.
  assert (ticks w2 w3) as H3.
  { eapply (ticks_loop (process cfg) (fun s => in_flight s = true) (w_clock w2)); [|done|done|done|exact E3].
    intros s Hs _. by apply wp_process. }
  destruct (H3 He2) as (He3 & Hc3 & _). refine (wr_trans _ _ _ H3 _ He2).
  revert E. unfold mbind at 1. destruct (js_ClaimDueVerifyJobs _ _ _ w3) as [r4 w4] eqn:E4. intros E He3'.
  assert (ticks w3 w4) as H4 by (eapply ticks_claim; [apply (law_claim_due ff I)|exact E4]).
  destruct (law_claim_due ff I _ _ _ _ _ _ He3 E4) as (He4 & Hc4 & _ & _ & Hl4).
  refine (wr_trans _ _ _ H4 _ He3). destruct r4 as [due|err]; [|injection E as <- <-; apply wr_refl].
  destruct (Hl4 due eq_refl) as [Hnd4 Hfresh4].
  eapply (ticks_loop (fun j => verifyPending j now) (fun s => s = LifecyclePendingVerify) now);
    [|lia|done|done|exact E].
  intros s Hs Hn. apply (wp_verifyPending ff I); [by right|done].
Qed.

(** The beginning of a tick. *)
Lemma tick_inv w u w' :
  env_ok ff I w -> tick cfg w = (u, w') ->
  exists now w0 r1 w1, still ff I w w0 /\ now = w0.(w_clock) /\
    expireTimedOut now w0 = (r1, w1) /\ tick_jobs cfg now w1 = (u, w').
Proof.
  intros He. unfold tick, mbind at 1. destruct (time_now w) as [now w0] eqn:E0. unfold mbind.
  destruct (expireTimedOut now w0) as [r1 w1] eqn:E1. intros E. exists now, w0, r1, w1.
  unfold time_now in E0. destruct (next_env w) as [e w2] eqn:Hn. injection E0 as <- <-.
  destruct (env_ok_next ff I _ _ _ He Hn) as (He1 & Hj & Hsent & Hc & _). by split_and!.
Qed.

Lemma ticks_tick w u w' : tick cfg w = (u, w') -> ticks w w'.
Proof.
  intros E He. destruct (tick_inv w u w' He E) as (now & w0 & r1 & w1 & Hst0 & -> & E1 & E2).
  refine (wr_trans _ _ _ (ticks_still _ _ Hst0) _ He). intros He0.
  destruct (expireTimedOut_inv _ _ _ _ E1) as (r2 & w2 & Ex & H2).
  assert (ticks w0 w2) as H1 by (eapply ticks_sweep; [|exact Ex]; lia).
  assert (ticks w0 w1) as H01 by (by eapply wr_trans).
  destruct (H01 He0) as (He1 & Hc1 & _). refine (wr_trans _ _ _ H01 _ He0).
  by eapply ticks_tick_jobs.
Qed.

Lemma path_terminal s s' :
  path I s s' -> in_flight s.(rs_job).(j_Status) = false -> s'.(rs_job) = s.(rs_job).
Proof.
  unfold path. generalize (rs_clock s'). intros c. generalize (rs_job s), (rs_job s').
  destruct 1 as [|a b d (t & _ & Hs)]; [done|]. apply step_in_flight in Hs. congruence.
Qed.

Lemma ticks_job w w' k j :
  ticks w w' -> env_ok ff I w -> w.(w_db).(lifecycle_jobs) !! k = Some j ->
  exists j', w'.(w_db).(lifecycle_jobs) !! k = Some j' /\
    rtc (fun a b => exists t, t <= w'.(w_clock) /\ job_step (seen I) t a b) j j'.
Proof.
  intros Ht He Hj. destruct (Ht He) as (_ & _ & Hr).
  destruct (Hr k {| rs_job := j; rs_launches := posts SvcAAPLaunch k w.(w_sent); rs_clock := w.(w_clock) |})
    as (s' & Hs' & Hp & _); [unfold row_state; by rewrite Hj|].
  unfold path in Hp. rewrite (row_state_clock _ _ _ Hs') in Hp. unfold row_state in Hs'.
  apply fmap_Some in Hs' as (j' & Hj' & ->). eauto.
Qed.

Lemma ticks_terminal w w' k j :
  ticks w w' -> env_ok ff I w -> w.(w_db).(lifecycle_jobs) !! k = Some j ->
  in_flight j.(j_Status) = false -> w'.(w_db).(lifecycle_jobs) !! k = Some j.
Proof.
  intros Ht He Hj Hf. destruct (ticks_job w w' k j Ht He Hj) as (j' & Hj' & Hp).
  destruct Hp as [|a b d (t & _ & Hs)]; [done|]. apply step_in_flight in Hs. congruence.
Qed.

(** Without store faults a tick leaves nothing overdue pending. *)
Lemma tick_sweeps w u w' k j :
  env_ok ff I w -> tick cfg w = (u, w') -> ff = true -> 0 <= w.(w_clock) ->
  w.(w_db).(lifecycle_jobs) !! k = Some j -> overdue w.(w_clock) j = true ->
  exists t, w'.(w_db).(lifecycle_jobs) !! k = Some (time_out t j).
Proof.
  intros He E Hff Hclock Hj Hov. destruct (tick_inv w u w' He E) as (now & w0 & r1 & w1 & Hst0 & -> & E1 & E2).
  destruct Hst0 as (He0 & Hj0 & _ & Hc0). destruct (expireTimedOut_inv _ _ _ _ E1) as (r2 & w2 & Ex & H2).
  assert (w_clock w0 <= w_clock w0) as Hle by lia.
  destruct (law_expire ff I _ _ _ _ He0 Ex Hle) as (He2 & Hc2 & _ & Hrows).
  destruct Hrows as [[_ ?]|(now' & t & _ & Hn & Hrows)]; [congruence|].
  rewrite Hn in Hrows by (unfold IsZero; apply Z.eqb_neq; unfold zero_time, Second, Millisecond; lia).
  exists t.
  assert (w2.(w_db).(lifecycle_jobs) !! k = Some (time_out t j)) as Hk.
  { rewrite Hrows, lookup_update_where, Hj0, Hj. simpl. unfold overdue in *. b2p. destruct Hov as [Hs Hle'].
    rewrite bool_decide_true by done. simpl. by rewrite (proj2 (Z.leb_le _ _)) by lia. }
  destruct (H2 He2) as (He1 & Hc1 & _).
  assert (ticks w1 w') as H3 by (eapply ticks_tick_jobs; [|exact E2]; lia).
  eapply (ticks_terminal w2 w'); [by eapply wr_trans|done|done|done].
Qed.
End Tick.

(** ** Theorems about the worker on the Postgres store *)

(** Certificates none of which proves a renewal. *)
Definition no_successor (e : ExpectedWire) (m : gmap uuid Certificate) : Prop :=
  forall k c, m !! k = Some c -> ~ good_successor e c.

Section WorkerTheorems.
Context `{UuidGen, Controller}.

(** C1. The worker refines the job machine: a tick moves every job along
    [job_step] at times it has reached, whatever the delays, the store faults,
    the answers of the Controller and the commits of others outside
    [lifecycle_jobs]. *)
Theorem tick_refines (I : gmap uuid Certificate -> Prop) cfg w w' k j :
  tick cfg w = (tt, w') -> env_ok false I w -> w.(w_db).(lifecycle_jobs) !! k = Some j ->
  exists j', w'.(w_db).(lifecycle_jobs) !! k = Some j' /\
    rtc (fun a b => exists t, t <= w'.(w_clock) /\ job_step (seen I) t a b) j j'.
Proof. intros E He Hj. eapply (ticks_job false I); [by eapply (ticks_tick _ _ cfg)|done|done]. Qed.

(** Settled jobs stay settled: a job that is verified, failed or timed
    out, or waits for an approval, is not touched by any tick. *)
Theorem tick_settled cfg w w' k j :
  tick cfg w = (tt, w') -> env_ok false (fun _ => True) w ->
  w.(w_db).(lifecycle_jobs) !! k = Some j -> in_flight j.(j_Status) = false ->
  w'.(w_db).(lifecycle_jobs) !! k = Some j.
Proof. intros E He Hj Hf. eapply (ticks_terminal false); [by eapply (ticks_tick _ _ cfg)|done..]. Qed.

Lemma step_to_verified seen t j j' :
  job_step seen t j j' -> j.(j_Status) <> LifecycleVerified -> j'.(j_Status) = LifecycleVerified ->
  exists e c, UnmarshalExpected j.(j_Expected) = Ok e /\ good_successor e c /\ seen c.
Proof.
  intros Hs Hn Hv. destruct Hs; simpl in Hv; try done; try by rewrite Hv in *.
  - unfold polling in *. naive_solver.
  - eauto.
Qed.

(** C3. No renewal is verified without its certificate: if the inventory
    shows no certificate with the expected name, another fingerprint than the
    predecessor's and a later expiry, and none is added meanwhile, a tick does
    not mark the job verified. *)
Theorem tick_verifies_only_successors cfg w w' k j e :
  tick cfg w = (tt, w') -> UnmarshalExpected j.(j_Expected) = Ok e ->
  env_ok false (no_successor e) w ->
  w.(w_db).(lifecycle_jobs) !! k = Some j -> j.(j_Status) <> LifecycleVerified ->
  exists j', w'.(w_db).(lifecycle_jobs) !! k = Some j' /\ j'.(j_Status) <> LifecycleVerified.
Proof.
  intros E Hex He Hj Hv. destruct (tick_refines _ cfg w w' k j E He Hj) as (j' & Hj' & Hp).
  exists j'. split; [done|]. clear Hj Hj'.
  assert (j'.(j_Status) <> LifecycleVerified /\ UnmarshalExpected j'.(j_Expected) = Ok e) as [? _]; [|done].
  induction Hp as [|a b d (t & _ & Hs) _ IH]; [done|]. apply IH.
  - by destruct (step_ident _ _ _ _ Hs) as [_ ->].
  - intros Hb. destruct (step_to_verified _ _ _ _ Hs Hv Hb) as (e' & c & He' & Hg & m & Hm & kc & Hc).
    assert (e' = e) as -> by congruence. by apply (Hm kc c).
Qed.

(** C4. One worker launches no job twice: over any number of its ticks, when
    the store does not fail and nobody else writes to the table of the jobs
    meanwhile ([env_ok true]), the Controller is asked at most once to launch
    a job that had not been launched at the start.  Both conditions are
    needed: [relaunch_after_lost_ref], [replicas_launch_twice]. *)
Theorem ticks_launch_once (cfgs : list WorkerConfig) w u w' k j :
  mfor cfgs (fun cfg => tick cfg) w = (u, w') -> env_ok true (fun _ => True) w ->
  w.(w_db).(lifecycle_jobs) !! k = Some j -> posts SvcAAPLaunch k w.(w_sent) = 0%nat ->
  (posts SvcAAPLaunch k w'.(w_sent) <= 1)%nat.
Proof.
  intros E He Hj H0'.
  assert (moves (ticks true (fun _ => True)) (mfor cfgs (fun cfg => tick cfg))) as Hm.
  { apply moves_for; [apply ticks_rel|]. intros cfg _ w1 [] w2. by apply (ticks_tick _ _ cfg). }
  destruct (Hm _ _ _ E He) as (_ & _ & Hr).
  destruct (Hr k {| rs_job := j; rs_launches := 0; rs_clock := w.(w_clock) |}) as (s' & Hs' & _ & Hi).
  { unfold row_state. by rewrite Hj, H0'. }
  destruct (Hi eq_refl) as [_ Hle]; [by split; simpl; [|lia]|].
  unfold row_state in Hs'. by apply fmap_Some in Hs' as (j' & _ & ->).
Qed.

(** Verification ends: a tick of a store that does not fail, at or
    after a job's timeout, times out the job if it is pending verification. *)
Theorem tick_times_out cfg w w' k j :
  tick cfg w = (tt, w') -> env_ok true (fun _ => True) w -> 0 <= w.(w_clock) ->
  w.(w_db).(lifecycle_jobs) !! k = Some j -> j.(j_Status) = LifecyclePendingVerify ->
  j.(j_TimeoutAt) <= w.(w_clock) ->
  exists t, w'.(w_db).(lifecycle_jobs) !! k = Some (time_out t j).
Proof.
  intros E He Hc Hj Hs Ht. eapply (tick_sweeps true _ cfg); try done. unfold overdue.
  rewrite bool_decide_true by done. simpl. by apply Z.leb_le.
Qed.
End WorkerTheorems.

(** ** Verification succeeds when it should *)

Section Completeness.
Context `{UuidGen}.

(** The candidates of the loop. *)
Definition candidate (e : ExpectedWire) (c : Certificate) : Prop :=
  c.(c_SubjectCN) = Some e.(ew_CommonName) /\ c.(c_FingerprintSHA256) <> e.(ew_PredecessorFP).

Lemma better_successor_latest e l b0 c :
  b0 = Some c \/ (c ∈ l /\ candidate e c) ->
  exists b, foldl (better_successor e) b0 l = Some b /\ c.(c_NotAfter) <= b.(c_NotAfter).
Proof.
  revert b0 c. induction l as [|x l IH]; intros b0 c Hc; simpl.
  { destruct Hc as [->|[Hc _]]; [exists c; split; [done|lia]|by apply elem_of_nil in Hc]. }
  assert (forall c', b0 = Some c' -> exists c2, better_successor e b0 x = Some c2 /\
    c_NotAfter c' <= c_NotAfter c2) as Hkeep.
  { intros c' ->. unfold better_successor. destruct (negb _); [eexists; split; [done|lia]|].
    destruct (String.eqb _ _); [eexists; split; [done|lia]|].
    destruct (Z.ltb_spec (c_NotAfter c') (c_NotAfter x)); eexists; (split; [done|lia]). }
  destruct Hc as [Hb|[[->|Hin]%elem_of_cons Hcand]].
  - destruct (Hkeep c Hb) as (c2 & E & Hle). destruct (IH _ c2 (or_introl E)) as (b & Hf & ?).
    exists b. split; [done|lia].
  - assert (exists c2, better_successor e b0 x = Some c2 /\ c_NotAfter x <= c_NotAfter c2) as (c2 & E & Hle).
    { destruct Hcand as [Hcn Hfp]. unfold better_successor. rewrite bool_decide_true by done.
      destruct (String.eqb_spec (c_FingerprintSHA256 x) (ew_PredecessorFP e)); [done|]. simpl.
      destruct b0 as [b|]; [|eexists; split; [done|lia]].
      destruct (Z.ltb_spec (c_NotAfter b) (c_NotAfter x)); eexists; (split; [done|lia]). }
    destruct (IH _ c2 (or_introl E)) as (b & Hf & ?). exists b. split; [done|lia].
  - destruct (IH (better_successor e b0 x) c (or_intror (conj Hin Hcand))) as (b & Hf & ?). eauto.
Qed.

(** Without interference the listing is the selection, cut at the limit. *)
Lemma ListCertificates_calm f w :
  w.(w_env) = [] -> filter_casts f = true -> 0 <= f.(cf_Offset) -> exists n,
  ListCertificates f w = (Ok (take (Z.to_nat (if f.(cf_Limit) <=? 0 then 50 else f.(cf_Limit)))
    (drop (Z.to_nat f.(cf_Offset)) (select (cert_where w.(w_db) f) (cert_order f) w.(w_db).(certificates))), n), w).
Proof.
  intros Henv Hcasts Hoff. unfold ListCertificates, mtry, mbind.
  erewrite (store_call_read (tbind _ _)); [|done|].
  2: { unfold tbind, trequire, tget. rewrite Hcasts. reflexivity. }
  erewrite (store_call_read (tbind _ _)); [|done|].
  2: { unfold tbind, trequire, tget. rewrite Hcasts, (proj2 (Z.leb_le _ _)) by done. reflexivity. }
  eexists. reflexivity.
Qed.

(** The rows the search of [observeSuccessor] selects. *)
Definition search_rows (e : ExpectedWire) (db : DB) : list Certificate :=
  select (cert_where db (search_filter e.(ew_CommonName))) (cert_order (search_filter e.(ew_CommonName)))
    db.(certificates).

Lemma observeSuccessor_finds e w k c :
  w.(w_env) = [] -> w.(w_db).(certificates) !! k = Some c -> good_successor e c ->
  string_forallb plain e.(ew_CommonName) = true -> (length (search_rows e w.(w_db)) <= 50)%nat ->
  exists b kb, observeSuccessor e w = (Ok (observed_of e.(ew_CommonName) b), w) /\
    w.(w_db).(certificates) !! kb = Some b /\ candidate e b /\ c.(c_NotAfter) <= b.(c_NotAfter).
Proof.
  intros Henv Hk (Hcn & Hne & Hfp & _ & _) Hplain Hlen.
  unfold observeSuccessor. destruct (String.eqb_spec (ew_CommonName e) ""); [done|].
  destruct (ListCertificates_calm (search_filter (ew_CommonName e)) w Henv) as [total Hlist]; [done..|].
  unfold mtry, mbind. cbn [js_ListCertificates pg_job_store]. rewrite Hlist.
  change (drop (Z.to_nat (cf_Offset (search_filter (ew_CommonName e)))) ?l) with l.
  fold (search_rows e (w_db w)). rewrite take_ge by (simpl; lia). simpl fst.
  assert (c ∈ search_rows e (w_db w)) as Hin.
  { apply elem_of_select. split; [|eauto]. unfold cert_where, search_filter, is_or_any. simpl.
    destruct (String.eqb_spec (ew_CommonName e) ""); [done|]. simpl.
    by rewrite (cert_search_own_cn c (ew_CommonName e)). }
  destruct (better_successor_latest e (search_rows e (w_db w)) None c) as (b & Hb & Hle);
    [right; split; [done|by split]|].
  cbn [fst]. rewrite Hb. apply better_successor_from in Hb as [?|(Hbin & Hbcn & Hbfp)]; [done|].
  apply elem_of_select in Hbin as [_ [kb Hkb]]. exists b, kb. split_and!; [|done|by split|done].
  rewrite Hbcn. done.
Qed.

(** The notifications leave the jobs alone. *)
Definition same_jobs (db db' : DB) : Prop := db'.(lifecycle_jobs) = db.(lifecycle_jobs).
#[local] Instance same_jobs_preorder : PreOrder same_jobs.
Proof. split; [by intros ?|]. unfold same_jobs. intros ???. congruence. Qed.

Lemma moves_same_jobs id ty p ty2 k p2 w r w' :
  mbind (AppendLifecycleJobEvent id ty p) (fun _ =>
    mbind (AppendRenewalOutboxEvent ty2 k p2) (fun _ => mret (@Ok error unit tt))) w = (r, w') ->
  others_ok same_jobs w -> w'.(w_db).(lifecycle_jobs) = w.(w_db).(lifecycle_jobs).
Proof.
  intros E Ho.
  assert (moves (evolves same_jobs) (mbind (AppendLifecycleJobEvent id ty p) (fun _ =>
    mbind (AppendRenewalOutboxEvent ty2 k p2) (fun _ => mret (@Ok error unit tt))))) as Hm.
  { moves_tac; apply moves_store_call; try exact _; intros c db db' [] Ht.
    - by apply insert_job_event_same in Ht.
    - by apply appendEventTx_jobs in Ht. }
  destruct (Hm _ _ _ E) as (_ & _ & H'). by apply H' in Ho as [_ ?].
Qed.

(** C36. Verification finds what is there: without interference, a probe
    before the timeout of a job some certificate of the inventory proves
    renewed marks it verified, with a successor from the inventory that the
    wire predicate accepts and that expires no earlier.  The search must show
    its candidates: at most 50 rows match the name, which has no wildcard. *)
Theorem verifyPending_complete job now w k c e :
  w.(w_env) = [] -> jobs_ok w.(w_db).(lifecycle_jobs) -> certs_ok w.(w_db).(certificates) ->
  w.(w_db).(lifecycle_jobs) !! job.(j_ID) = Some job -> now < job_timeout job now ->
  UnmarshalExpected job.(j_Expected) = Ok e ->
  w.(w_db).(certificates) !! k = Some c -> good_successor e c ->
  (forall kc c', w.(w_db).(certificates) !! kc = Some c' -> c'.(c_FingerprintSHA256) <> ""%string /\ kc <> ""%string) ->
  string_forallb plain e.(ew_CommonName) = true -> (length (search_rows e w.(w_db)) <= 50)%nat ->
  exists r w' j' b kb, verifyPending job now w = (r, w') /\
    w'.(w_db).(lifecycle_jobs) !! job.(j_ID) = Some j' /\
    j'.(j_Status) = LifecycleVerified /\ j'.(j_SuccessorCertID) = Some kb /\
    w.(w_db).(certificates) !! kb = Some b /\ good_successor e b /\ c.(c_NotAfter) <= b.(c_NotAfter).
Proof.
  intros Henv Hjok Hcok Hjob Hnow Hex Hk Hgood Hfull Hplain Hlen.
  destruct (observeSuccessor_finds e w k c Henv Hk Hgood Hplain Hlen) as (b & kb & Ho & Hkb & [Hbcn Hbfp] & Hle).
  destruct (Hfull kb b Hkb) as [Hbne Hkne]. pose proof (table_keyed Hcok _ _ Hkb) as Hbid.
  destruct Hgood as (_ & Hne & _ & _ & Hna).
  assert (good_successor e b) as Hgb by (split_and!; done || lia).
  unfold verifyPending. cbv zeta. rewrite (proj2 (Z.ltb_lt _ _)) by done. change (negb true) with false.
  cbv iota. rewrite Hex. cbv iota. unfold mtry, mbind at 1. rewrite Ho. cbv iota beta.
  rewrite (proj2 (VerifyWire_spec e (observed_of (ew_CommonName e) b))).
  2: { simpl. split_and!; [done|done|by right|done|lia]. }
  unfold mbind at 1. cbn [js_UpdateLifecycleStatus pg_job_store]. unfold UpdateLifecycleStatus.
  rewrite store_call_calm by done.
  set (p := to_verified _ _). set (ctx := {| NOW := w_clock w; locked := ∅ |}).
  assert (us_SuccessorCertID p = Some kb) as Hp.
  { unfold p. simpl. rewrite Hbid. by destruct (String.eqb_spec kb ""). }
  unfold tbind, fk_certificate, trequire. rewrite Hp, bool_decide_true by eauto.
  unfold update_job, update_row. rewrite Hjob.
  set (w1 := w <| w_db := _ |>). set (j' := update_status p ctx job) in *.
  assert (w1.(w_db).(lifecycle_jobs) !! job.(j_ID) = Some j') as Hj1 by (simpl; by rewrite lookup_insert_eq).
  match goal with |- context [mbind ?m ?f w1] => destruct (mbind m f w1) as [r2 w2] eqn:E2 end.
  exists r2, w2, j', b, kb. split_and!; [done| |done| |done..].
  - rewrite <- Hj1. f_equal. eapply moves_same_jobs; [exact E2|].
    unfold others_ok. simpl. rewrite Henv. constructor.
  - change (coalesce (us_SuccessorCertID p) (j_SuccessorCertID job) = Some kb). by rewrite Hp.
Qed.
End Completeness.

(** ** Witnesses *)

Section Demo.
#[local] Instance demo_uuid : UuidGen := fun n => pretty n.
#[local] Instance demo_controller : Controller :=
  {| aap_Renew := fun n => Ok (100 + Z.of_nat n, false); aap_WaitForJob := fun _ => Ok StatusSuccessful |}.
Definition demo_wcfg : WorkerConfig :=
  NewWorker {| wk_Owner := ""; wk_LeaseTTL := 0; wk_BatchSize := 0; wk_AAP := true |}.

(** A renewal of [c1] to launch, and one waiting for its verification. *)
Definition demo_expected : ExpectedWire := Build_ExpectedWire "app.corp" "aa" 0 "".
Definition demo_renewable : Certificate := demo_cert <| c_RenewalConfig := Some demo_cfg |>.
Definition demo_waiting : LifecycleJob :=
  demo_job <| j_Status := LifecyclePendingVerify |> <| j_AAPJobID := Some 7 |>
           <| j_Expected := MarshalExpected demo_expected |>.
Definition demo_w (j : LifecycleJob) (t : time) : World := calm_world (demo_jobs_db demo_renewable j) t.

Lemma demo_env_ok ff I j t : I (demo_db demo_renewable).(certificates) -> env_ok ff I (demo_w j t).
Proof.
  intros HI. split_and!; [exact HI| |constructor].
  exact (table_ok_singleton j_ID j_IdempotencyKey j).
Qed.

(** From launch to pending verification in two ticks. *)
Example demo_two_ticks :
  (j_Status <$> (tick demo_wcfg (demo_w demo_job Hour)).2.(w_db).(lifecycle_jobs) !! "j1"%string) = Some LifecycleAAPPending /\
  (j_Status <$> (tick demo_wcfg (tick demo_wcfg (demo_w demo_job Hour)).2).2.(w_db).(lifecycle_jobs) !! "j1"%string)
    = Some LifecyclePendingVerify.
Proof. vm_compute. done. Qed.

Lemma tick_refines_witness :
  exists j', (tick demo_wcfg (demo_w demo_job Hour)).2.(w_db).(lifecycle_jobs) !! "j1"%string = Some j' /\
    rtc (fun a b => exists t, t <= (tick demo_wcfg (demo_w demo_job Hour)).2.(w_clock) /\
           job_step (seen (fun _ => True)) t a b) demo_job j'.
Proof.
  apply (tick_refines (fun _ => True) demo_wcfg (demo_w demo_job Hour));
    [vm_compute; reflexivity|by apply demo_env_ok|reflexivity].
Defined.

Definition demo_failed : LifecycleJob := demo_job <| j_Status := LifecycleFailed |>.
Lemma tick_settled_witness :
  (tick demo_wcfg (demo_w demo_failed Hour)).2.(w_db).(lifecycle_jobs) !! "j1"%string = Some demo_failed.
Proof.
  apply (tick_settled demo_wcfg (demo_w demo_failed Hour));
    [vm_compute; reflexivity|by apply demo_env_ok|reflexivity..].
Defined.

Lemma demo_no_successor : no_successor demo_expected (demo_db demo_renewable).(certificates).
Proof.
  intros k c Hc (_ & _ & Hfp & _). simpl in Hc. apply lookup_singleton_Some in Hc as [_ <-].
  by apply Hfp.
Qed.

Lemma tick_verifies_only_successors_witness :
  exists j', (tick demo_wcfg (demo_w demo_waiting Hour)).2.(w_db).(lifecycle_jobs) !! "j1"%string = Some j' /\
    j'.(j_Status) <> LifecycleVerified.
Proof.
  apply (tick_verifies_only_successors demo_wcfg (demo_w demo_waiting Hour) _ "j1" demo_waiting demo_expected);
    [vm_compute; reflexivity|reflexivity|apply demo_env_ok, demo_no_successor|reflexivity|discriminate].
Defined.

Lemma ticks_launch_once_witness :
  (posts SvcAAPLaunch "j1" (mfor [demo_wcfg; demo_wcfg; demo_wcfg] (fun cfg => tick cfg) (demo_w demo_job Hour)).2.(w_sent)
    <= 1)%nat.
Proof.
  apply (ticks_launch_once [demo_wcfg; demo_wcfg; demo_wcfg] (demo_w demo_job Hour) tt _ "j1" demo_job);
    [vm_compute; reflexivity|by apply demo_env_ok|reflexivity..].
Defined.

Lemma tick_times_out_witness :
  exists t, (tick demo_wcfg (demo_w demo_waiting (25 * Hour))).2.(w_db).(lifecycle_jobs) !! "j1"%string
    = Some (time_out t demo_waiting).
Proof.
  apply (tick_times_out demo_wcfg (demo_w demo_waiting (25 * Hour)));
    [vm_compute; reflexivity|by apply demo_env_ok|vm_compute; discriminate|reflexivity..|vm_compute; discriminate].
Defined.

(** The successor of [c1] in the inventory. *)
Definition demo_new_cert : Certificate :=
  demo_cert <| c_ID := "c2"%string |> <| c_FingerprintSHA256 := "bb"%string |>.
Definition demo_verifiable : DB :=
  (demo_jobs_db demo_renewable demo_waiting) <| certificates ::= <["c2"%string := demo_new_cert]> |>.

Lemma demo_certs_inv k c : demo_verifiable.(certificates) !! k = Some c ->
  (k = "c1"%string /\ c = demo_renewable) \/ (k = "c2"%string /\ c = demo_new_cert).
Proof.
  simpl. rewrite lookup_insert. case_decide; [intros [= <-]; subst; by right|].
  intros [<- <-]%lookup_singleton_Some. by left.
Qed.

Lemma verifyPending_complete_witness :
  exists r w' j' b kb, verifyPending demo_waiting Hour (calm_world demo_verifiable Hour) = (r, w') /\
    w'.(w_db).(lifecycle_jobs) !! "j1"%string = Some j' /\
    j'.(j_Status) = LifecycleVerified /\ j'.(j_SuccessorCertID) = Some kb /\
    demo_verifiable.(certificates) !! kb = Some b /\ good_successor demo_expected b /\
    demo_new_cert.(c_NotAfter) <= b.(c_NotAfter).
Proof.
  apply (verifyPending_complete demo_waiting Hour (calm_world demo_verifiable Hour) "c2" demo_new_cert demo_expected);
    try reflexivity.
  - exact (table_ok_singleton j_ID j_IdempotencyKey demo_waiting).
  - split; intros *; intros [[-> ->]|[-> ->]]%demo_certs_inv; [done..| |];
      intros [[-> ->]|[-> ->]]%demo_certs_inv; done.
  - split_and!; done.
  - intros kc c' [[-> ->]|[-> ->]]%demo_certs_inv; done.
  - vm_compute. lia.
Defined.

(** *** What store faults can do

    The hypothesis of [ticks_launch_once] is needed: when the AAP id of a
    launched job cannot be stored, a later tick launches it again. *)
Definition ok_step : envstep := calm.
Definition failing_step : envstep :=
  {| es_delay := 0; es_fault := FailBefore; es_locked := ∅; es_others := id |}.
Definition later_step : envstep :=
  {| es_delay := Z.to_N (3 * Minute); es_fault := NoFault; es_locked := ∅; es_others := id |}.

(** Now, sweep, claim (two calls and the read), certificate, launch: then the
    store fails. *)
Example relaunch_after_lost_ref :
  let w := (demo_w demo_job Hour) <| w_env := repeat ok_step 7 ++ [failing_step; ok_step; ok_step; ok_step; later_step] |> in
  posts SvcAAPLaunch "j1" (tick demo_wcfg (tick demo_wcfg w).2).2.(w_sent) = 2%nat.
Proof. vm_compute. reflexivity. Qed.

(** So is the other one: a tick works through the jobs of a claim one after
    the other, and looks at neither the lease nor the row before it launches.
    Here it takes ten minutes from the claim to the certificate; the lease has
    run out, a second replica claims the job and launches it, and then the
    first one launches it again. *)
Definition demo_rival : WorkerConfig :=
  NewWorker {| wk_Owner := "rival"; wk_LeaseTTL := 0; wk_BatchSize := 0; wk_AAP := true |}.
Definition rival_step : envstep := {|
  es_delay := Z.to_N (10 * Minute); es_fault := NoFault; es_locked := ∅;
  es_others := fun db => (tick demo_rival (calm_world db (Hour + 10 * Minute))).2.(w_db) |}.
Definition job_launches (db : DB) (id : uuid) : nat :=
  length (filter (fun e => e.(je_JobID) = id /\ e.(je_EventType) = "job.launched"%string) db.(lifecycle_job_events)).
Example replicas_launch_twice :
  let w' := (tick demo_wcfg ((demo_w demo_job Hour) <| w_env := repeat ok_step 5 ++ [rival_step] |>)).2 in
  posts SvcAAPLaunch "j1" w'.(w_sent) = 1%nat /\ job_launches w'.(w_db) "j1" = 2%nat.
Proof. vm_compute. split; reflexivity. Qed.

(** A verification whose status update fails is announced all the same. *)
Example verified_announced_unrecorded :
  let w := (calm_world demo_verifiable Hour) <| w_env := [ok_step; ok_step; failing_step] |> in
  let w' := (verifyPending demo_waiting Hour w).2 in
  (j_Status <$> w'.(w_db).(lifecycle_jobs) !! "j1"%string) = Some LifecyclePendingVerify /\
  map (fun e => e.2.(e_EventType)) (map_to_list w'.(w_db).(events)) = ["renewal.verified"%string].
Proof. vm_compute. done. Qed.
End Demo.
