(* ===== verification/Issuers.v ===== *)
(** * The issuers table (internal/store/store.go)

    The CA certificates the scanner meets, and the reference to the Vault
    issuer an operator imported one as. *)

From S2P Require Import Prelude GoLib Records Db Queue Lifecycle CertStore.

Open Scope clm_scope.

Section Issuers.
Context `{UuidGen, StoreConfig}.

(** [UpsertIssuer]: a known fingerprint keeps its row, but for the expiry
    columns and the chain. *)
Definition upsert_issuer_tx (parsed : ParsedCertificate) (status : CertStatus) (days : Z)
    (caChain : list string) : txn unit :=
  existing <-! tget (fun _ db => row_by iss_FingerprintSHA256 parsed.(p_FingerprintSHA256) db.(issuers)) ;;
  match existing with
  | Some i =>
      tmod (fun _ db => db <| issuers ::= <[i.(iss_ID) :=
        i <| iss_DaysUntilExpiry := days |> <| iss_Status := status |> <| iss_CAChain := caChain |>]> |>)
  | None =>
      id <-! new_uuid ;;
      _ <-! trequire (fun db => bool_decide (db.(issuers) !! id = None)) (ErrMsg "duplicate key") ;;
      tmod (fun _ db => db <| issuers ::= <[id := {|
        iss_ID := id;
        iss_FingerprintSHA256 := parsed.(p_FingerprintSHA256);
        iss_SerialNumber := parsed.(p_SerialNumber);
        iss_SubjectCN := nullStr parsed.(p_SubjectCN);
        iss_IssuerDN := parsed.(p_IssuerDN);
        iss_NotBefore := parsed.(p_NotBefore);
        iss_NotAfter := parsed.(p_NotAfter);
        iss_KeyType := parsed.(p_KeyType);
        iss_KeyBits := parsed.(p_KeyBits);
        iss_IsCA := parsed.(p_IsCA);
        iss_PEM := parsed.(p_PEM);
        iss_DaysUntilExpiry := days;
        iss_Status := status;
        iss_IssuerName := None;
        iss_IssuerID := None;
        iss_CAChain := caChain;
        iss_VaultIssuerRef := None;
        iss_VaultPKIMount := None |}]> |>)
  end.

Definition UpsertIssuer (parsed : ParsedCertificate) (caChain : list string) : M (res unit) :=
  now <-- time_now ;;
  let '(status, days) := Compute now parsed.(p_NotAfter) expiringSoonDays false in
  store_call (upsert_issuer_tx parsed status days caChain).

(** [ListIssuers]: the first to expire first. *)
Definition soonest_issuer (a b : Issuer) : bool := a.(iss_NotAfter) <? b.(iss_NotAfter).
Definition ListIssuers (limit offset : Z) : M (res (list Issuer)) :=
  let limit := if limit <=? 0 then 50 else limit in
  store_call (
    _ <-! trequire (fun _ => 0 <=? offset) ErrDatabase ;;
    tget (fun _ db => take (Z.to_nat limit) (drop (Z.to_nat offset)
      (select (fun _ => true) soonest_issuer db.(issuers))))).

(** [GetIssuerPEMForCert]: the CA whose common name occurs in the issuer's
    distinguished name; among several the last to expire. *)
Definition names_issuer (issuerDN : string) (i : Issuer) : bool :=
  i.(iss_IsCA) &&
  match i.(iss_SubjectCN) with
  | Some cn => negb (String.eqb cn "") && Contains issuerDN cn
  | None => false
  end.
Definition GetIssuerPEMForCert (issuerDN : string) : M (res string) :=
  store_call (tget (fun _ db =>
    match select (names_issuer issuerDN) (fun a b => soonest_issuer b a) db.(issuers) with
    | i :: _ => i.(iss_PEM)
    | [] => ""%string
    end)).

(** [GetIssuer] *)
Definition get_issuer_tx (id : uuid) : txn Issuer :=
  i <-! tget (fun _ db => db.(issuers) !! id) ;; tsome i ErrIssuerNotFound.
Definition GetIssuer (id : uuid) : M (res Issuer) := store_call (get_issuer_tx id).

(** [SetIssuerVaultRef] *)
Definition set_issuer_ref (issuerRef mount : string) (i : Issuer) : Issuer :=
  i <| iss_VaultIssuerRef := Some issuerRef |> <| iss_VaultPKIMount := Some mount |>.
Definition SetIssuerVaultRef (id : uuid) (issuerRef mount : string) : M (res Issuer) :=
  _ <-? store_call (fun _ db =>
          match update_row id (set_issuer_ref issuerRef mount) db.(issuers) with
          | Some t => Ok (db <| issuers := t |>, tt)
          | None => Err ErrIssuerNotFound
          end) ;;
  GetIssuer id.

(** [DeleteIssuer] *)
Definition DeleteIssuer (id : uuid) : M (res unit) :=
  store_call (_ <-! trequire (fun db => bool_decide (is_Some (db.(issuers) !! id))) ErrIssuerNotFound ;;
              tmod (fun _ db => db <| issuers ::= delete id |>)).
End Issuers.

(** ** A stored issuer keeps what the operator did with it *)

Abbreviation issuers_ok := (table_ok iss_ID iss_FingerprintSHA256).

Definition same_issuer (i i' : Issuer) : Prop :=
  i'.(iss_FingerprintSHA256) = i.(iss_FingerprintSHA256) /\ i'.(iss_PEM) = i.(iss_PEM) /\
  i'.(iss_IsCA) = i.(iss_IsCA) /\
  (is_Some i.(iss_VaultIssuerRef) -> is_Some i'.(iss_VaultIssuerRef)) /\
  (is_Some i.(iss_VaultPKIMount) -> is_Some i'.(iss_VaultPKIMount)).

Definition issuers_grow (db db' : DB) : Prop :=
  issuers_ok db.(issuers) -> issuers_ok db'.(issuers) /\
  forall k i, db.(issuers) !! k = Some i -> exists i', db'.(issuers) !! k = Some i' /\ same_issuer i i'.

#[export] Instance issuers_grow_preorder : PreOrder issuers_grow.
Proof.
  split.
  - intros db Hok. split; [done|]. intros k i Hi. exists i. by split.
  - intros d1 d2 d3 H12 H23 Hok. destruct (H12 Hok) as [Hok2 H12']. destruct (H23 Hok2) as [? H23'].
    split; [done|]. intros k i Hi. destruct (H12' _ _ Hi) as (i2 & Hi2 & ?), (H23' _ _ Hi2) as (i3 & ? & ?).
    exists i3. split; [done|]. unfold same_issuer in *. intuition congruence.
Qed.

Section IssuerFacts.
Context `{UuidGen, StoreConfig}.

Lemma issuers_grow_same db db' : db'.(issuers) = db.(issuers) -> issuers_grow db db'.
Proof. intros E Hok. rewrite E. split; [done|]. intros k i Hi. exists i. by split. Qed.

Lemma issuers_grow_update db k i i' :
  db.(issuers) !! k = Some i -> iss_ID i' = iss_ID i -> same_issuer i i' ->
  issuers_grow db (db <| issuers ::= <[k := i']> |>).
Proof.
  intros Hi Hid Hs Hok. split; simpl.
  - eapply table_ok_insert; [done|exact Hi|done|apply Hs].
  - intros k2 i2 Hi2. destruct (decide (k2 = k)) as [->|].
    + exists i'. rewrite lookup_insert_eq. by simplify_eq.
    + exists i2. rewrite lookup_insert_ne by done. by split.
Qed.

Lemma upsert_issuer_grow parsed st days chain c db db' u :
  upsert_issuer_tx parsed st days chain c db = Ok (db', u) -> issuers_grow db db'.
Proof.
  unfold upsert_issuer_tx. rewrite tbind_ok. intros (db1 & o & [= <- <-] & Ht).
  destruct (row_by iss_FingerprintSHA256 _ (issuers db)) as [i|] eqn:E; txn_inv.
  - intros Hok. apply row_by_some in E as [Hfp [k Hi]]. pose proof (table_keyed Hok _ _ Hi) as <-.
    by apply (issuers_grow_update db _ i).
  - b2p. intros Hok. split; simpl; [by apply table_ok_new|].
    intros k i Hi. exists i. rewrite lookup_insert_ne by (intros <-; congruence). by split.
Qed.

Lemma moves_UpsertIssuer parsed chain : moves (evolves issuers_grow) (UpsertIssuer parsed chain).
Proof.
  unfold UpsertIssuer. moves_tac. apply moves_store_call; [exact _|].
  intros. by eapply upsert_issuer_grow.
Qed.

Lemma moves_SetIssuerVaultRef id ref mount : moves (evolves issuers_grow) (SetIssuerVaultRef id ref mount).
Proof.
  unfold SetIssuerVaultRef, GetIssuer. moves_tac; apply moves_store_call; try exact _; intros c db db' x Ht.
  - destruct (update_row _ _ _) as [t|] eqn:E; [injection Ht as <- <-|done].
    apply update_row_spec in E as (i & Hi & ->).
    apply (issuers_grow_update db id i); [done..|].
    unfold same_issuer, set_issuer_ref; simpl; intuition eauto.
  - unfold get_issuer_tx in Ht. txn_inv. by apply issuers_grow_same.
Qed.

(** A rescan keeps the record of an import: whatever CA certificates the
    scanner upserts and whatever faults and other imports happen meanwhile, an
    issuer keeps its row, its fingerprint, its PEM and, once imported, its
    Vault reference and mount, and no fingerprint gets a second row. *)
Theorem UpsertIssuer_keeps_import parsed chain w r w' k i ref :
  UpsertIssuer parsed chain w = (r, w') -> others_ok issuers_grow w -> issuers_ok w.(w_db).(issuers) ->
  w.(w_db).(issuers) !! k = Some i -> i.(iss_VaultIssuerRef) = Some ref ->
  issuers_ok w'.(w_db).(issuers) /\
  exists i', w'.(w_db).(issuers) !! k = Some i' /\ is_Some i'.(iss_VaultIssuerRef) /\
    i'.(iss_FingerprintSHA256) = i.(iss_FingerprintSHA256) /\ i'.(iss_PEM) = i.(iss_PEM).
Proof.
  intros Hu Hoth Hok Hi Href. destruct (moves_UpsertIssuer _ _ _ _ _ Hu) as (_ & _ & Hg).
  destruct (Hg Hoth) as [_ Hdb]. destruct (Hdb Hok) as [? Hrows]. split; [done|].
  destruct (Hrows _ _ Hi) as (i' & Hi' & Hs). exists i'. unfold same_issuer in Hs. naive_solver.
Qed.
End IssuerFacts.

(** *** A rescan of an imported issuer, with a fault *)

Section Demo.
#[local] Instance demo_uuid : UuidGen := fun n => pretty n.
#[local] Instance demo_store : StoreConfig := 30.

Definition demo_issuer : Issuer :=
  Build_Issuer "i1" "aa" "01" (Some "Corp CA"%string) "CN=Corp Root" 0 0 "RSA" 2048 true "PEM" 0 StatusValid None None []
    (Some "vault-issuer"%string) (Some "pki"%string).
Definition demo_issuer_world : World :=
  calm_world ((demo_db demo_cert) <| issuers := {["i1"%string := demo_issuer]} |>) Hour.

Lemma UpsertIssuer_keeps_import_witness :
  exists i', (UpsertIssuer demo_parsed ["PEM"%string] demo_issuer_world).2.(w_db).(issuers) !! "i1"%string = Some i' /\
    is_Some i'.(iss_VaultIssuerRef).
Proof.
  destruct (UpsertIssuer_keeps_import demo_parsed ["PEM"%string] demo_issuer_world
    (UpsertIssuer demo_parsed ["PEM"%string] demo_issuer_world).1
    (UpsertIssuer demo_parsed ["PEM"%string] demo_issuer_world).2 "i1" demo_issuer "vault-issuer")
    as (_ & i' & Hi' & Hr & _); [reflexivity|constructor| |reflexivity|reflexivity|by exists i'].
  exact (table_ok_singleton iss_ID iss_FingerprintSHA256 demo_issuer).
Defined.
End Demo.
