(* ===== verification/ScanQueue.v ===== *)
(** * The scan queue (internal/store/store.go, internal/store/diagnostics.go)

    [scans] is a durable queue: requests append pending rows, the replicas
    claim them with a lease, heartbeat it and complete, fail or release them. *)

From S2P Require Import Prelude GoLib Records Db Queue CertStore.

Open Scope clm_scope.

(** ** Counters of a run ([store.ScanStats], [store.ScanSummary]) *)

(** [scanner.Target] *)
Record Target := Build_Target { t_IP : string; t_Port : Z; t_Hostname : string }.

Definition MaxFailureSamples : Z := 50.

Record ScanStats := Build_ScanStats {
  st_Scanned : Z;
  st_Succeeded : Z;
  st_Failed : Z;
  st_CertsFound : Z;
  st_UpsertFailures : Z;
  st_FailureSamples : list TargetFailureSample
}.
#[export] Instance ScanStats_eta : Eta ScanStats := fun x =>
  Build_ScanStats (x.(st_Scanned)) (x.(st_Succeeded)) (x.(st_Failed)) (x.(st_CertsFound))
    (x.(st_UpsertFailures)) (x.(st_FailureSamples)).

Record ScanSummary := Build_ScanSummary {
  ss_TargetsTotal : Z;
  ss_TargetsScanned : Z;
  ss_TargetsSucceeded : Z;
  ss_TargetsFailed : Z;
  ss_CertsFound : Z;
  ss_UpsertFailures : Z;
  ss_ExpansionWarnings : list string;
  ss_FailureSamples : list TargetFailureSample
}.

Definition addSample (target : Target) (reason kind : string) (s : ScanStats) : ScanStats :=
  if MaxFailureSamples <=? Z.of_nat (length s.(st_FailureSamples)) then s
  else
    let sni := if String.eqb target.(t_Hostname) "" then target.(t_IP) else target.(t_Hostname) in
    s <| st_FailureSamples ::= (fun l => l ++ [Build_TargetFailureSample target.(t_IP) target.(t_Port)
                                                 target.(t_Hostname) sni reason kind]) |>.

Definition RecordProbeFailure (target : Target) (reason : string) (s : ScanStats) : ScanStats :=
  addSample target reason "probe" (s <| st_Failed ::= Z.succ |>).
Definition RecordProbeSuccess (s : ScanStats) : ScanStats := s <| st_Succeeded ::= Z.succ |>.
Definition RecordUpsertFailure (target : Target) (reason : string) (s : ScanStats) : ScanStats :=
  addSample target reason "upsert" (s <| st_UpsertFailures ::= Z.succ |>).
Definition RecordCertFound (s : ScanStats) : ScanStats := s <| st_CertsFound ::= Z.succ |>.

Definition Summary (s : ScanStats) (targetsTotal : Z) (warnings : list string) : ScanSummary :=
  Build_ScanSummary targetsTotal s.(st_Scanned) s.(st_Succeeded) s.(st_Failed) s.(st_CertsFound)
    s.(st_UpsertFailures) warnings s.(st_FailureSamples).

(** ** The queue *)

Section ScanQueue.
Context `{UuidGen}.

Definition is_pending (s : Scan) : bool := bool_decide (s.(s_Status) = scan_pending).
Definition pending_scans (db : DB) : gmap uuid Scan := filter (fun kv => is_pending kv.2 = true) db.(scans).

Definition new_scan (id : uuid) (source : string) (cidrs hostnames : list string) (ports : list Z)
    (concurrency : Z) (now : time) : Scan :=
  Build_Scan id source scan_pending cidrs hostnames ports concurrency None None 0 0 0 0 0 0 [] [] None None None now.

Definition pending_count (db : DB) : Z := Z.of_nat (size (pending_scans db)).

(** The INSERT of [CreateScanWithSource]; [NOW()] is the start of the statement. *)
Definition insert_scan_tx (source : string) (cidrs hostnames : list string) (ports : list Z)
    (concurrency : Z) (now : time) : txn Scan :=
  id <-! new_uuid ;;
  _ <-! trequire (fun db => bool_decide (db.(scans) !! id = None)) (ErrMsg "duplicate key") ;;
  fun _ db =>
    let s := new_scan id source cidrs hostnames ports concurrency now in
    Ok (db <| scans ::= <[id := s]> |>, s).

(** With a bound, the statement is INSERT ... SELECT, in two steps under READ
    COMMITTED: it counts the pending scans in the snapshot it takes when it
    starts, and inserts a row, or none when the count says that the queue is
    full, next to whatever others have committed meanwhile. *)
Definition count_pending_tx : txn (Z * time) := tget (fun c db => (pending_count db, c.(NOW))).
Definition create_scan_tx (source : string) (cidrs hostnames : list string) (ports : list Z)
    (concurrency maxPending : Z) (snapshot : Z * time) : txn Scan :=
  _ <-! trequire (fun _ => snapshot.1 <? maxPending) ErrScanQueueFull ;;
  insert_scan_tx source cidrs hostnames ports concurrency snapshot.2.

Definition CreateScanWithSource (source : string) (cidrs hostnames : list string) (ports : list Z)
    (concurrency maxPending : Z) : M (res Scan) :=
  let source := if String.eqb source "" then "network"%string else source in
  if 0 <? maxPending then
    snapshot <-? store_call count_pending_tx ;;
    store_call (create_scan_tx source cidrs hostnames ports concurrency maxPending snapshot)
  else store_call (now <-! tget (fun c _ => c.(NOW)) ;; insert_scan_tx source cidrs hostnames ports concurrency now).
Definition CreateScan := CreateScanWithSource "network".

(** [GetScan] *)
Definition get_scan_tx (id : uuid) : txn Scan :=
  s <-! tget (fun _ db => db.(scans) !! id) ;; tsome s ErrScanNotFound.
Definition GetScan (id : uuid) : M (res Scan) := store_call (get_scan_tx id).

(** The WHERE clause and the UPDATE of [ClaimNextScans]; its [now] is read in
    the transaction. *)
Definition scan_claimable (staleBefore : time) (s : Scan) : bool :=
  match s.(s_Status) with
  | scan_pending => true
  | scan_running => match s.(s_ClaimedAt) with None => true | Some t => t <? staleBefore end
  | _ => false
  end.
Definition run_scan (owner : string) (now : time) (s : Scan) : Scan :=
  s <| s_Status := scan_running |> <| s_ClaimedBy := Some owner |> <| s_ClaimedAt := Some now |>
    <| s_StartedAt ::= (fun o => match o with Some t => Some t | None => Some now end) |>.
Definition oldest_scan (a b : Scan) : bool := a.(s_CreatedAt) <? b.(s_CreatedAt).
Definition claim_scans_tx (owner : string) (staleBefore : time) (limit : Z) : txn (list uuid) :=
  fun c db =>
    let '(t, ids) := claim (scan_claimable staleBefore) oldest_scan (Z.to_nat limit)
                           (run_scan owner c.(NOW)) c.(locked) db.(scans) in
    Ok (db <| scans := t |>, ids).

Definition ClaimNextScans (owner : string) (leaseTTL : duration) (limit : Z) : M (res (list Scan)) :=
  if String.eqb owner "" then mret (Err (ErrMsg "claim owner required"))
  else
    let leaseTTL := if leaseTTL <=? 0 then 30 * Second else leaseTTL in
    let limit := if limit <=? 0 then 1 else limit in
    now <-- time_now ;;
    ids <-? store_call (claim_scans_tx owner (now - leaseTTL) limit) ;;
    mcollect ids GetScan.

(** [UPDATE scans SET f WHERE id = $1 AND p]: whether a row matched. *)
Definition update_scan (id : uuid) (p : Scan -> bool) (f : Ctx -> Scan -> Scan) : txn bool :=
  fun c db => match db.(scans) !! id with
              | Some s => if p s then Ok (db <| scans ::= <[id := f c s]> |>, true) else Ok (db, false)
              | None => Ok (db, false)
              end.
Definition owned_by (owner : string) (s : Scan) : bool :=
  bool_decide (s.(s_ClaimedBy) = Some owner) && bool_decide (s.(s_Status) = scan_running).
Definition unclaim (s : Scan) : Scan := s <| s_ClaimedBy := None |> <| s_ClaimedAt := None |>.

Definition HeartbeatScanClaim (id : uuid) (owner : string) : M (res unit) :=
  store_call (n <-! update_scan id (owned_by owner) (fun c s => s <| s_ClaimedAt := Some c.(NOW) |>) ;;
              if n then tret tt else tfail ErrScanNotFound).

Definition ReleaseScanClaim (id : uuid) (owner : string) : M (res unit) :=
  store_call (_ <-! update_scan id (owned_by owner) (fun _ => unclaim) ;; tret tt).

Definition UpdateScanRunning (id : uuid) (targetsTotal : Z) : M (res unit) :=
  now <-- time_now ;;
  store_call (_ <-! update_scan id (fun _ => true) (fun _ s =>
    s <| s_Status := scan_running |> <| s_StartedAt := Some now |> <| s_TargetsTotal := targetsTotal |>) ;; tret tt).

Definition UpdateScanProgress (id : uuid) (scanned certsFound : Z) : M (res unit) :=
  store_call (_ <-! update_scan id (fun _ => true) (fun _ s =>
    s <| s_TargetsScanned := scanned |> <| s_CertsFound := certsFound |>) ;; tret tt).

Definition complete_scan (now : time) (sm : ScanSummary) (s : Scan) : Scan :=
  unclaim (s <| s_Status := scan_completed |> <| s_FinishedAt := Some now |>
    <| s_TargetsScanned := sm.(ss_TargetsScanned) |> <| s_TargetsSucceeded := sm.(ss_TargetsSucceeded) |>
    <| s_TargetsFailed := sm.(ss_TargetsFailed) |> <| s_CertsFound := sm.(ss_CertsFound) |>
    <| s_UpsertFailures := sm.(ss_UpsertFailures) |> <| s_ExpansionWarnings := sm.(ss_ExpansionWarnings) |>
    <| s_FailureSamples := sm.(ss_FailureSamples) |> <| s_Error := None |>).
Definition CompleteScan (id : uuid) (sm : ScanSummary) : M (res unit) :=
  now <-- time_now ;;
  store_call (_ <-! update_scan id (fun _ => true) (fun _ => complete_scan now sm) ;; tret tt).

Definition FailScan (id : uuid) (errMsg : string) : M (res unit) :=
  now <-- time_now ;;
  store_call (_ <-! update_scan id (fun _ => true) (fun _ s =>
    unclaim (s <| s_Status := scan_failed |> <| s_FinishedAt := Some now |> <| s_Error := Some errMsg |>)) ;; tret tt).

Definition newest_scan (a b : Scan) : bool := b.(s_CreatedAt) <? a.(s_CreatedAt).
Definition ListScans (limit offset : Z) : M (res (list Scan)) :=
  let limit := if limit <=? 0 then 50 else limit in
  store_call (
    _ <-! trequire (fun _ => 0 <=? offset) ErrDatabase ;;
    tget (fun _ db => take (Z.to_nat limit) (drop (Z.to_nat offset)
      (select (fun _ => true) newest_scan db.(scans))))).

(** [DeleteScan]: observations go with their scan (ON DELETE CASCADE). *)
Definition DeleteScan (id : uuid) : M (res unit) :=
  store_call (_ <-! trequire (fun db => bool_decide (is_Some (db.(scans) !! id))) ErrScanNotFound ;;
    tmod (fun _ db => db <| scans ::= delete id |>
                         <| observations ::= (fun l => filter (fun o => o_ScanID o <> id) l) |>)).
End ScanQueue.

(** ** What the replicas do to the queue *)

Section QueueFacts.
Context `{UuidGen}.

Inductive ScanOp :=
| OpCreate (source : string) (cidrs hostnames : list string) (ports : list Z) (concurrency maxPending : Z)
| OpClaim (owner : string) (leaseTTL : duration) (limit : Z)
| OpHeartbeat (id : uuid) (owner : string)
| OpRelease (id : uuid) (owner : string)
| OpRunning (id : uuid) (targetsTotal : Z)
| OpProgress (id : uuid) (scanned certsFound : Z)
| OpComplete (id : uuid) (sm : ScanSummary)
| OpFail (id : uuid) (errMsg : string)
| OpDelete (id : uuid).

Definition drop_result {A} (m : M A) : M unit := mbind m (fun _ => mret tt).

(** POST /scans creates with the configured bound; the collectors and the
    command line create without one ([maxPending] is 0). *)
Definition run_scan_op (op : ScanOp) : M unit :=
  match op with
  | OpCreate src c h p n maxPending => drop_result (CreateScanWithSource src c h p n maxPending)
  | OpClaim o l n => drop_result (ClaimNextScans o l n)
  | OpHeartbeat id o => drop_result (HeartbeatScanClaim id o)
  | OpRelease id o => drop_result (ReleaseScanClaim id o)
  | OpRunning id n => drop_result (UpdateScanRunning id n)
  | OpProgress id a b => drop_result (UpdateScanProgress id a b)
  | OpComplete id sm => drop_result (CompleteScan id sm)
  | OpFail id e => drop_result (FailScan id e)
  | OpDelete id => drop_result (DeleteScan id)
  end.

Lemma update_scan_ok id p f c db db' b :
  update_scan id p f c db = Ok (db', b) ->
  db' = db \/ exists s, db.(scans) !! id = Some s /\ p s = true /\ db' = db <| scans ::= <[id := f c s]> |>.
Proof.
  unfold update_scan. destruct (scans db !! id) as [s|]; [|intros [= <- <-]; by left].
  destruct (p s) eqn:E; intros [= <- <-]; eauto 6.
Qed.

(** *** The queue bound *)

(** Pending scans only appear by a creation. *)
Definition no_new_pending (db db' : DB) : Prop :=
  forall k s, db'.(scans) !! k = Some s -> is_pending s = true ->
    exists s0, db.(scans) !! k = Some s0 /\ is_pending s0 = true.

#[export] Instance no_new_pending_preorder : PreOrder no_new_pending.
Proof.
  split; [intros db k s; eauto|]. intros d1 d2 d3 H12 H23 k s Hs Hp.
  destruct (H23 k s Hs Hp) as (s2 & Hs2 & Hp2). by apply (H12 k s2).
Qed.

Lemma no_new_pending_same db db' : db'.(scans) = db.(scans) -> no_new_pending db db'.
Proof. intros E k s. rewrite E. eauto. Qed.

Lemma no_new_pending_update id (f : Ctx -> Scan -> Scan) p c db db' b :
  (forall s, is_pending (f c s) = true -> is_pending s = true) ->
  update_scan id p f c db = Ok (db', b) -> no_new_pending db db'.
Proof.
  intros Hf [->|(s & Hs & _ & ->)]%update_scan_ok; [by apply no_new_pending_same|].
  intros k s'. simpl. rewrite lookup_insert. case_decide as E; [intros [= <-] Hp; subst; eauto|eauto].
Qed.

Lemma claim_scans_quiet owner stale limit c db db' ids :
  claim_scans_tx owner stale limit c db = Ok (db', ids) -> no_new_pending db db'.
Proof.
  unfold claim_scans_tx. destruct (claim _ _ _ _ _ _) as [t l] eqn:E. intros [= <- <-].
  intros k s. simpl. rewrite (claim_lookup _ _ _ _ _ _ _ _ _ E).
  case_decide; [|eauto]. intros (s0 & Hs0 & ->)%fmap_Some Hp. done.
Qed.

Lemma no_new_pending_txn {A} id p f (k : bool -> txn A) c db db' a :
  (forall b c db db' a, k b c db = Ok (db', a) -> db' = db) ->
  (forall s, is_pending (f c s) = true -> is_pending s = true) ->
  (tbind (update_scan id p f) k) c db = Ok (db', a) -> no_new_pending db db'.
Proof.
  intros Hk Hf (db1 & b & Hu & Ht)%tbind_ok. apply Hk in Ht as ->. by eapply no_new_pending_update.
Qed.

Ltac quiet_update :=
  apply moves_store_call; [exact _|]; intros ????; apply no_new_pending_txn;
  [intros [] ????; unfold tret, tfail; congruence|done].

Lemma moves_get_scan id : moves (evolves no_new_pending) (GetScan id).
Proof.
  apply moves_store_call; [exact _|]. unfold get_scan_tx. intros c db db' a Ht. txn_inv. by apply no_new_pending_same.
Qed.
#[local] Hint Resolve moves_get_scan : moves.

Definition creates (op : ScanOp) : bool := match op with OpCreate _ _ _ _ _ _ => true | _ => false end.

Lemma moves_run_scan_op op : creates op = false -> moves (evolves no_new_pending) (run_scan_op op).
Proof.
  intros Hc. destruct op; try done; unfold run_scan_op, drop_result, ClaimNextScans,
    HeartbeatScanClaim, ReleaseScanClaim, UpdateScanRunning, UpdateScanProgress, CompleteScan, FailScan, DeleteScan;
    moves_tac; try quiet_update.
  - apply moves_store_call; [exact _|]. intros. by eapply claim_scans_quiet.
  - apply moves_store_call; [exact _|]. intros c db db' a Ht. txn_inv. intros k s. simpl.
    intros [_ Hs]%lookup_delete_Some. eauto.
Qed.

(** The queue while replicas and requests work on it: the creations with a
    bound that have counted and not yet inserted, with what they counted, and
    the scans that were created without a bound. *)
Record Queue := Build_Queue { q_db : DB; q_counted : list (Z * time); q_unbounded : gset uuid }.

(** With the bound [n] and at most [K] creations with a bound at work at once. *)
Inductive queue_step (n : Z) (K : nat) : Queue -> Queue -> Prop :=
| queue_counts db l u c r : (length l < K)%nat -> count_pending_tx c db = Ok (db, r) ->
    queue_step n K (Build_Queue db l u) (Build_Queue db (l ++ [r]) u)
| queue_inserts db l1 r l2 u src ci h po co c db' s :
    create_scan_tx src ci h po co n r c db = Ok (db', s) ->
    queue_step n K (Build_Queue db (l1 ++ r :: l2) u) (Build_Queue db' (l1 ++ l2) u)
| queue_gives_up db l1 r l2 u : queue_step n K (Build_Queue db (l1 ++ r :: l2) u) (Build_Queue db (l1 ++ l2) u)
| queue_unbounded db l u src ci h po co now c db' s :
    insert_scan_tx src ci h po co now c db = Ok (db', s) ->
    queue_step n K (Build_Queue db l u) (Build_Queue db' l ({[s.(s_ID)]} ∪ u))
| queue_operates db l u op w :
    creates op = false -> w.(w_db) = db -> Forall (fun e => e.(es_others) = id) w.(w_env) ->
    queue_step n K (Build_Queue db l u) (Build_Queue (run_scan_op op w).2.(w_db) l u).

(** The pending scans that were created under the bound. *)
Definition bounded_pending (q : Queue) : gmap uuid Scan :=
  filter (fun kv => kv.1 ∉ q.(q_unbounded)) (pending_scans q.(q_db)).
(** The creations that will insert. *)
Definition inserting (n : Z) (l : list (Z * time)) : nat := length (filter (fun r => (r.1 <? n) = true) l).
Definition queue_ok (n : Z) (K : nat) (q : Queue) : Prop :=
  (length q.(q_counted) <= K)%nat /\
  Z.of_nat (size (bounded_pending q)) + Z.of_nat (inserting n q.(q_counted)) <= n - 1 + Z.of_nat K.

Lemma pending_known q k : k ∈ dom (bounded_pending q) <->
  k ∉ q.(q_unbounded) /\ exists s, q.(q_db).(scans) !! k = Some s /\ is_pending s = true.
Proof.
  rewrite elem_of_dom. unfold bounded_pending, pending_scans. split.
  - intros [s [[Hs Hp]%map_lookup_filter_Some Hk]%map_lookup_filter_Some]. eauto.
  - intros (Hk & s & Hs & Hp). exists s. rewrite !map_lookup_filter_Some. done.
Qed.
Lemma bounded_le q q' : (forall k, k ∈ dom (bounded_pending q') -> k ∈ dom (bounded_pending q)) ->
  (size (bounded_pending q') <= size (bounded_pending q))%nat.
Proof. intros Hd. rewrite <- !size_dom. by apply subseteq_size. Qed.
Lemma bounded_all q : (size (bounded_pending q) <= size (pending_scans q.(q_db)))%nat.
Proof.
  rewrite <- !size_dom. apply subseteq_size. intros k (_ & s & Hs & Hp)%pending_known.
  apply elem_of_dom. exists s. by apply map_lookup_filter_Some.
Qed.

Lemma inserting_app n l l' : inserting n (l ++ l') = (inserting n l + inserting n l')%nat.
Proof. unfold inserting. by rewrite filter_app, length_app. Qed.
Lemma inserting_le n l : (inserting n l <= length l)%nat.
Proof. apply length_filter. Qed.
Lemma inserting_one n r : inserting n [r] = if r.1 <? n then 1%nat else 0%nat.
Proof. unfold inserting. rewrite filter_cons. by destruct (r.1 <? n). Qed.

Lemma insert_scan_ok src ci h po co now c db db' s :
  insert_scan_tx src ci h po co now c db = Ok (db', s) ->
  db.(scans) !! s.(s_ID) = None /\ db'.(scans) = <[s.(s_ID) := s]> db.(scans) /\ is_pending s = true.
Proof. unfold insert_scan_tx. intros Ht. txn_inv. b2p. split_and!; done. Qed.

Lemma queue_step_ok n K q q' : queue_step n K q q' -> queue_ok n K q -> queue_ok n K q'.
Proof.
  intros Hs [HK Hb]. destruct Hs as [db l u c r Hl Hr|db l1 r l2 u src ci h po co c db' s Hc|db l1 r l2 u
    |db l u src ci h po co now c db' s Hi|db l u op w Hop <- He]; unfold queue_ok in *; cbn [q_counted] in *.
  - injection Hr as <-. rewrite length_app. split; [simpl; lia|].
    rewrite inserting_app, inserting_one. cbn [fst]. pose proof (inserting_le n l).
    pose proof (bounded_all (Build_Queue db l u)) as Hall. simpl in Hall.
    change (bounded_pending (Build_Queue db (l ++ [_]) u)) with (bounded_pending (Build_Queue db l u)).
    unfold pending_count. destruct (Z.ltb_spec (Z.of_nat (size (pending_scans db))) n); lia.
  - unfold create_scan_tx in Hc. apply tbind_ok in Hc as (db1 & [] & (Hr & -> & _)%trequire_ok & Hi).
    apply insert_scan_ok in Hi as (Hn & Hs & _). rewrite !length_app, !inserting_app in *. cbn [length] in *.
    change (r :: l2) with ([r] ++ l2) in Hb. rewrite inserting_app, inserting_one, Hr in Hb. split; [lia|].
    enough (size (bounded_pending (Build_Queue db' (l1 ++ l2) u)) <= 1 + size (bounded_pending (Build_Queue db (l1 ++ [r] ++ l2) u)))%nat by lia.
    rewrite <- !size_dom. etransitivity; [apply (subseteq_size _ ({[s.(s_ID)]} ∪ dom (bounded_pending (Build_Queue db (l1 ++ [r] ++ l2) u))))|
      rewrite size_union_alt, size_singleton; apply Nat.add_le_mono_l, subseteq_size; set_solver].
    intros k (Hk & s' & Hs' & Hp)%pending_known. simpl in Hs', Hk. rewrite Hs, lookup_insert in Hs'.
    rewrite elem_of_union, elem_of_singleton, pending_known. simpl. case_decide; [by left|]. right. eauto.
  - rewrite !length_app, !inserting_app in *. cbn [length] in *. change (r :: l2) with ([r] ++ l2) in Hb.
    rewrite inserting_app in Hb. split; [lia|].
    change (bounded_pending (Build_Queue db (l1 ++ [r] ++ l2) u)) with (bounded_pending (Build_Queue db (l1 ++ l2) u)) in Hb. lia.
  - split; [done|]. apply insert_scan_ok in Hi as (Hn & Hs & _).
    pose proof (bounded_le (Build_Queue db l u) (Build_Queue db' l ({[s.(s_ID)]} ∪ u))) as Hle.
    enough (size (bounded_pending (Build_Queue db' l ({[s.(s_ID)]} ∪ u))) <= size (bounded_pending (Build_Queue db l u)))%nat by lia.
    apply Hle. intros k. rewrite !pending_known. simpl. rewrite Hs. intros (Hk & s' & Hs' & Hp).
    rewrite lookup_insert_ne in Hs' by set_solver. split; [set_solver|eauto].
  - split; [done|]. destruct (run_scan_op op w) as [x w'] eqn:E. cbn [snd].
    destruct (moves_run_scan_op op Hop _ _ _ E) as (_ & _ & Ho). destruct Ho as [_ Hnew].
    { eapply Forall_impl; [exact He|]. intros e ->. intros db. reflexivity. }
    pose proof (bounded_le (Build_Queue w.(w_db) l u) (Build_Queue w'.(w_db) l u)) as Hle.
    enough (size (bounded_pending (Build_Queue w'.(w_db) l u)) <= size (bounded_pending (Build_Queue w.(w_db) l u)))%nat by lia.
    apply Hle. intros k. rewrite !pending_known. simpl. intros (Hk & s' & Hs' & Hp). split; [done|]. by apply (Hnew k s').
Qed.

(** C22. The queue is bounded: however replicas and requests interleave, creations
    included that count and insert next to each other, at most
    [n - 1 + K] of the scans created under the bound [n] wait, when at most
    [K] such creations are at work at once; without concurrent creations that
    is the bound itself.  Scans created without a bound come on top. *)
Theorem queue_bounded n K db q :
  rtc (queue_step n K) (Build_Queue db [] ∅) q -> pending_count db <= n - 1 + Z.of_nat K ->
  Z.of_nat (size (bounded_pending q)) <= n - 1 + Z.of_nat K /\
  pending_count q.(q_db) <= n - 1 + Z.of_nat K + Z.of_nat (size (filter (fun kv => kv.1 ∈ q.(q_unbounded)) (pending_scans q.(q_db)))).
Proof.
  intros Hs Hn. assert (queue_ok n K q) as [_ Hq].
  { assert (queue_ok n K (Build_Queue db [] ∅)) as H0.
    { split; [simpl; lia|]. pose proof (bounded_all (Build_Queue db [] ∅)) as Hall. cbn [q_db q_counted] in *.
      change (inserting n []) with 0%nat. unfold pending_count in Hn. lia. }
    clear Hn. induction Hs as [|q1 q2 q3 H12 _ IH]; [done|]. apply IH. by eapply queue_step_ok. }
  split; [lia|]. unfold pending_count.
  rewrite <- (map_filter_union_complement (fun kv => kv.1 ∈ q.(q_unbounded)) (pending_scans q.(q_db))) at 1.
  rewrite map_size_disj_union by apply map_disjoint_filter_complement. unfold bounded_pending in Hq. lia.
Qed.

(** Undisturbed, a creation adds the scan it returns or changes nothing. *)
Lemma CreateScanWithSource_calm src ci h po co m w r w1 :
  w.(w_env) = [] -> CreateScanWithSource src ci h po co m w = (r, w1) ->
  w1.(w_env) = [] /\
  match r with
  | Ok scan => w.(w_db).(scans) !! scan.(s_ID) = None /\ w1.(w_db).(scans) = <[scan.(s_ID) := scan]> w.(w_db).(scans) /\
               scan.(s_Status) = scan_pending
  | Err _ => w1 = w
  end.
Proof.
  intros He. unfold CreateScanWithSource. destruct (0 <? m).
  - unfold mtry, mbind. rewrite (store_call_read _ w (pending_count w.(w_db), w.(w_clock))) by done.
    rewrite store_call_calm by done. unfold create_scan_tx, tbind at 1, trequire.
    destruct (_ <? m); [|by intros [= <- <-]]. destruct (insert_scan_tx _ _ _ _ _ _ _ _) as [[db' scan]|e] eqn:Et; intros [= <- <-]; [|done].
    apply insert_scan_ok in Et as (? & ? & ?%bool_decide_eq_true). done.
  - rewrite store_call_calm by done. unfold tbind at 1, tget. destruct (insert_scan_tx _ _ _ _ _ _ _ _) as [[db' scan]|e] eqn:Et; intros [= <- <-]; [|done].
    apply insert_scan_ok in Et as (? & ? & ?%bool_decide_eq_true). done.
Qed.
End QueueFacts.

(** ** The lease *)

Definition lease_ttl (l : duration) : duration := if l <=? 0 then 30 * Second else l.

Section Lease.
Context `{UuidGen} (k : uuid) (owner : string) (t0 : time) (L : duration).

(** [owner] runs scan [k] and has shown it at [t0] or later. *)
Definition held (db : DB) : Prop :=
  exists s t, db.(scans) !! k = Some s /\ s.(s_Status) = scan_running /\
    s.(s_ClaimedBy) = Some owner /\ s.(s_ClaimedAt) = Some t /\ t0 <= t.

Definition keeps_held (db db' : DB) : Prop := held db -> held db'.
#[export] Instance keeps_held_preorder : PreOrder keeps_held.
Proof. split; unfold keeps_held; [by intros db|intros ??? H1 H2 H3; auto]. Qed.

(** The operations of replicas that use leases of at least [L], are not told
    the owner's name, and leave the end of the scan to it. *)
Definition friendly (op : ScanOp) : Prop :=
  match op with
  | OpClaim _ l _ => L <= lease_ttl l
  | OpRelease id o => id <> k \/ o <> owner
  | OpComplete id _ | OpFail id _ | OpDelete id => id <> k
  | _ => True
  end.

(** Within the lease the scan stays held. *)
Definition holds_on (w w' : World) : Prop :=
  w.(w_clock) <= w'.(w_clock) /\
  (t0 <= w.(w_clock) -> w'.(w_clock) <= t0 + L -> others_ok keeps_held w ->
   others_ok keeps_held w' /\ keeps_held w.(w_db) w'.(w_db)).

#[export] Instance holds_on_rel : WorldRel holds_on.
Proof.
  split.
  - intros w. split; [lia|]. by intros.
  - intros w1 w2 w3 [Hc1 H1] [Hc2 H2]. split; [lia|]. intros Ht Hl Ho.
    destruct (H1 Ht) as [Ho2 Hk2]; [lia|done|]. destruct (H2 ltac:(lia) Hl Ho2) as [Ho3 Hk3].
    split; [done|]. intros ?. by apply Hk3, Hk2.
Qed.

Lemma evolves_holds_on w w' : evolves keeps_held w w' -> holds_on w w'.
Proof. intros (Hc & _ & He). split; [done|]. intros _ _. done. Qed.

Lemma moves_holds_on {A} (m : M A) : moves (evolves keeps_held) m -> moves holds_on m.
Proof. intros Hm w a w' E. by eapply evolves_holds_on, Hm. Qed.

Lemma moves_held_call {A} (f : txn A) :
  (forall c db db' a, f c db = Ok (db', a) -> t0 <= c.(NOW) -> keeps_held db db') ->
  moves holds_on (store_call f).
Proof.
  intros Hf w r w' (e & w1 & He & Hs)%store_call_spec.
  eapply wr_trans; [eapply evolves_holds_on, evolves_next_env; [exact _|exact He]|].
  destruct Hs as [[-> _]|(a & db' & Ht & -> & _)]; [apply wr_refl|].
  split; simpl; [lia|]. intros Hc _ Ho. split; [done|]. by eapply Hf.
Qed.

Lemma held_update_other id p f c db db' b :
  id <> k -> update_scan id p f c db = Ok (db', b) -> keeps_held db db'.
Proof.
  intros Hid [->|(s & _ & _ & ->)]%update_scan_ok; [done|]. intros (s0 & t & Hs & Hr).
  exists s0, t. simpl. by rewrite lookup_insert_ne.
Qed.

Lemma held_update id p f c db db' b :
  (forall s, p s = true -> s.(s_Status) = scan_running -> s.(s_ClaimedBy) = Some owner ->
     (f c s).(s_Status) = scan_running /\ (f c s).(s_ClaimedBy) = Some owner /\
     ((f c s).(s_ClaimedAt) = s.(s_ClaimedAt) \/ (f c s).(s_ClaimedAt) = Some c.(NOW) /\ t0 <= c.(NOW))) ->
  update_scan id p f c db = Ok (db', b) -> keeps_held db db'.
Proof.
  intros Hf [->|(s & Hs & Hp & ->)]%update_scan_ok; [done|]. intros (s0 & t & Hs0 & Hst & Hby & Hat & Ht).
  destruct (decide (id = k)) as [->|Hne]; [|exists s0, t; simpl; by rewrite lookup_insert_ne].
  rewrite Hs in Hs0. injection Hs0 as ->.
  destruct (Hf _ Hp Hst Hby) as (? & ? & Hor).
  exists (f c s0). destruct Hor as [E|[E ?]]; eexists; simpl; rewrite lookup_insert_eq, E; eauto.
Qed.

Lemma held_then {A} (u : txn bool) (g : bool -> txn A) c db db' a :
  (forall b c db db' a, g b c db = Ok (db', a) -> db' = db) ->
  (forall db db' b, u c db = Ok (db', b) -> keeps_held db db') ->
  tbind u g c db = Ok (db', a) -> keeps_held db db'.
Proof. intros Hg Hu (db1 & b & H1 & H2)%tbind_ok. apply Hg in H2 as ->. by eapply Hu. Qed.

Lemma moves_held_get_scan id : moves holds_on (GetScan id).
Proof. apply moves_held_call. unfold get_scan_tx. intros c db db' a Ht _. txn_inv. done. Qed.

(** A claim finds the scan taken. *)
Lemma claim_scans_held o stale limit c db db' ids :
  stale <= t0 -> claim_scans_tx o stale limit c db = Ok (db', ids) -> keeps_held db db'.
Proof.
  intros Hst Ht (s & t & Hs & Hr & Hby & Hat & Hge). unfold claim_scans_tx in Ht.
  destruct (claim _ _ _ _ _ _) as [tab l] eqn:E. injection Ht as <- <-.
  exists s, t. simpl. split; [|done]. rewrite (claim_lookup _ _ _ _ _ _ _ _ _ E).
  rewrite decide_False; [done|]. intros Hin.
  destruct (claim_sound _ _ _ _ _ _ _ _ _ E Hin) as (s' & Hs' & Hc & _).
  unfold scan_claimable in Hc. simplify_eq. rewrite Hr, Hat in Hc. b2p. lia.
Qed.

Lemma moves_ClaimNextScans o l n : L <= lease_ttl l -> moves holds_on (ClaimNextScans o l n).
Proof.
  intros Hl. unfold ClaimNextScans. destruct (String.eqb o ""); [apply moves_ret; exact _|].
  intros w r w'. unfold mbind, time_now. destruct (next_env w) as [e w1] eqn:He. fold (lease_ttl l).
  set (rest := mtry _ _). intros Hrest.
  assert (holds_on w w1) as H1 by (eapply evolves_holds_on, evolves_next_env; [exact _|exact He]).
  eapply wr_trans; [exact H1|].
  destruct (Z.le_gt_cases w1.(w_clock) (t0 + L)) as [Hle|Hgt].
  - enough (moves holds_on rest) as Hm by (by eapply Hm). unfold rest.
    apply moves_try; [exact _| |intros ids; apply moves_collect; [exact _|apply moves_held_get_scan]].
    apply moves_held_call. intros. eapply claim_scans_held; [|eassumption]. lia.
  - assert (moves (evolves (fun _ _ => True)) rest) as Hm.
    { unfold rest. assert (PreOrder (fun _ _ : DB => True)) by by split.
      apply moves_try; [exact _|apply moves_store_call; [exact _|done]|].
      intros ids. apply moves_collect; [exact _|]. intros id. apply moves_store_call; [exact _|done]. }
    destruct (Hm _ _ _ Hrest) as (Hc & _). split; [done|]. intros _ ?. lia.
Qed.

(** A creation does not touch the scans there are. *)
Lemma insert_scan_held src ci h po co now c db db' s :
  insert_scan_tx src ci h po co now c db = Ok (db', s) -> keeps_held db db'.
Proof.
  intros (Hn & Hs & _)%insert_scan_ok (s0 & t & Hs0 & Hr). exists s0, t. rewrite Hs.
  by rewrite lookup_insert_ne by congruence.
Qed.
Lemma moves_CreateScanWithSource src ci h po co m : moves holds_on (CreateScanWithSource src ci h po co m).
Proof.
  unfold CreateScanWithSource. destruct (0 <? m); [apply moves_try; [exact _| |intros snap]|]; apply moves_held_call; intros c db db' a Ht _.
  - by injection Ht as <- _.
  - unfold create_scan_tx in Ht. apply tbind_ok in Ht as (db1 & [] & (_ & -> & _)%trequire_ok & Ht). by eapply insert_scan_held.
  - apply tbind_ok in Ht as (db1 & now & [= <- _] & Ht). by eapply insert_scan_held.
Qed.

Lemma moves_friendly op : friendly op -> moves holds_on (run_scan_op op).
Proof.
  intros Hf. destruct op; simpl in Hf; unfold run_scan_op, drop_result, HeartbeatScanClaim,
    ReleaseScanClaim, UpdateScanRunning, UpdateScanProgress, CompleteScan, FailScan, DeleteScan;
    (apply moves_bind; [exact _| |intros; apply moves_ret; exact _]);
    try (apply moves_bind; [exact _|apply moves_holds_on, moves_time_now; exact _|intros now]);
    try (apply moves_held_call; intros c db db' a Ht Hc);
    try (eapply held_then; [|  |exact Ht]; [intros [] ????; unfold tret, tfail; congruence|clear Ht; intros ??? Ht]).
  - by apply moves_CreateScanWithSource.
  - by apply moves_ClaimNextScans.
  - eapply held_update; [|exact Ht]. intros s [_ _]%andb_true_iff. simpl. eauto.
  - destruct (decide (id = k)) as [->|]; [|by eapply held_update_other]. destruct Hf as [|Hf]; [done|].
    eapply held_update; [|exact Ht]. intros s Hp _ Hby. unfold owned_by in Hp. b2p. destruct Hp. congruence.
  - eapply held_update; [|exact Ht]. simpl. auto.
  - eapply held_update; [|exact Ht]. simpl. auto.
  - by eapply held_update_other.
  - by eapply held_update_other.
  - intros (s & t & Hs & Hr). txn_inv. exists s, t. simpl. by rewrite lookup_delete_ne.
Qed.

(** C33. A healthy worker keeps its scan: from a claim or heartbeat on and for as
    long as the lease, no claims with leases that are not shorter, heartbeats,
    releases by others, creations or progress reports take it, in any order,
    with any faults and delays. *)
Theorem scan_lease_holds ops w :
  Forall friendly ops -> others_ok keeps_held w -> t0 <= w.(w_clock) -> held w.(w_db) ->
  (mfor ops run_scan_op w).2.(w_clock) <= t0 + L ->
  held (mfor ops run_scan_op w).2.(w_db).
Proof.
  intros Hops Ho Ht Hh. destruct (mfor ops run_scan_op w) as [u w'] eqn:E. simpl. intros Hl.
  assert (moves holds_on (mfor ops run_scan_op)) as Hm.
  { apply moves_for; [exact _|]. intros op Hop. apply moves_friendly. by eapply Forall_forall. }
  destruct (Hm _ _ _ E) as [_ Hk]. by apply Hk.
Qed.
End Lease.

(** ** Two replicas *)

Section Demo.
#[local] Instance demo_uuid : UuidGen := fun n => pretty n.

Definition demo_empty : World := calm_world ((demo_db demo_cert) <| scans := ∅ |>) Hour.
Definition demo_create (host : string) (maxPending : Z) : M (res Scan) := CreateScan [] [host] [443] 50 maxPending.

(** Two requests under the bound 1 that are at work at once: both count no
    pending scan, and both insert one. *)
Definition demo_counted : list (Z * time) := [(0, Hour); (0, Hour)].
Definition demo_two : option DB :=
  match create_scan_tx "network" [] ["app.corp"] [443] 50 1 (0, Hour) {| NOW := Hour; locked := ∅ |} demo_empty.(w_db) with
  | Ok (db1, _) =>
      match create_scan_tx "network" [] ["web.corp"] [443] 50 1 (0, Hour) {| NOW := Hour; locked := ∅ |} db1 with
      | Ok (db2, _) => Some db2
      | Err _ => None
      end
  | Err _ => None
  end%string.

Lemma demo_two_pending : pending_count <$> demo_two = Some 2.
Proof. vm_compute. reflexivity. Qed.

Lemma demo_two_steps db2 : demo_two = Some db2 ->
  rtc (queue_step 1 2) (Build_Queue demo_empty.(w_db) [] ∅) (Build_Queue db2 [] ∅).
Proof.
  unfold demo_two. destruct (create_scan_tx _ _ _ _ _ _ _ _ demo_empty.(w_db)) as [[db1 s1]|] eqn:E1; [|done].
  destruct (create_scan_tx _ _ _ _ _ _ _ _ db1) as [[db2' s2]|] eqn:E2; [|done]. intros [= <-].
  set (c := {| NOW := Hour; locked := ∅ |}).
  eapply rtc_l; [eapply (queue_counts 1 2 _ [] ∅ c (0, Hour)); [simpl; lia|vm_compute; reflexivity]|].
  eapply rtc_l; [eapply (queue_counts 1 2 _ [(0, Hour)] ∅ c (0, Hour)); [simpl; lia|vm_compute; reflexivity]|].
  eapply rtc_l; [eapply (queue_inserts 1 2 _ [] (0, Hour) [(0, Hour)]), E1|].
  eapply rtc_l; [eapply (queue_inserts 1 2 _ [] (0, Hour) []), E2|]. apply rtc_refl.
Qed.

Lemma queue_bounded_witness :
  exists db2, demo_two = Some db2 /\ pending_count db2 = 2 /\
    Z.of_nat (size (bounded_pending (Build_Queue db2 [] ∅))) <= 1 - 1 + Z.of_nat 2.
Proof.
  pose proof demo_two_pending as Hp. destruct demo_two as [db2|] eqn:E; [|discriminate]. exists db2. split; [reflexivity|].
  split; [by injection Hp|]. by apply (queue_bounded 1 2 _ _ (demo_two_steps db2 E)).
Defined.

(** The same through the method: the second request works while the first one
    is between its count and its insert, and both succeed. *)
Example bound_exceeded :
  let rival := {| es_delay := 0; es_fault := NoFault; es_locked := ∅;
                  es_others := fun db => (demo_create "web.corp" 1 (calm_world db Hour)).2.(w_db) |} in
  let '(r, w) := demo_create "app.corp" 1 (demo_empty <| w_env := [calm; rival] |>) in
  is_ok r = true /\ pending_count w.(w_db) = 2.
Proof. vm_compute. split; reflexivity. Qed.
(** One after the other the second is refused. *)
Example bound_kept :
  let '(r, w) := (demo_create "app.corp" 1 ;;; demo_create "web.corp" 1) demo_empty in
  r = Err ErrScanQueueFull /\ pending_count w.(w_db) = 1.
Proof. vm_compute. split; reflexivity. Qed.

Definition demo_claimed : World :=
  (mfor [OpCreate "" [] ["app.corp"%string] [443] 50 0; OpClaim "a" 0 0] run_scan_op demo_empty).2.
Definition demo_rivals : list ScanOp :=
  [OpClaim "b" Minute 5; OpHeartbeat "0" "b"; OpRelease "0" "b"; OpProgress "0" 1 1; OpClaim "c" 0 0].

Lemma scan_lease_holds_witness :
  held "0" "a" Hour (mfor demo_rivals run_scan_op demo_claimed).2.(w_db).
Proof.
  apply (scan_lease_holds "0" "a" Hour (30 * Second)); [..|by vm_compute].
  - repeat constructor; simpl; try (by vm_compute); by right.
  - constructor.
  - by vm_compute.
  - eexists _, _. split; [vm_compute; reflexivity|]. split_and!; [reflexivity..|vm_compute; discriminate].
Defined.

(** Completion does not ask who owns the scan: once its lease has run out and
    another replica has taken the scan over, the first one still ends it. *)
Example stale_worker_completes :
  let later := demo_claimed <| w_clock ::= Z.add Minute |> in
  let w := (mfor [OpClaim "b" 0 0; OpComplete "0" (Summary (Build_ScanStats 0 0 0 0 0 []) 1 [])] run_scan_op later).2 in
  ((fun s => (s.(s_Status), s.(s_ClaimedBy))) <$> w.(w_db).(scans) !! "0"%string) = Some (scan_completed, None).
Proof. vm_compute. reflexivity. Qed.
End Demo.
