(* ===== verification/ScanRunner.v ===== *)
(** * The scan runner (internal/scanrunner/runner.go)

    A scan probes its targets in goroutines that share counters under a mutex
    and write to the store.  Each section of code between two synchronisation
    points is one step: a critical section of the mutex, a probe or a store
    call.  A run is any interleaving of the steps. *)

From Stdlib Require Import Relation_Operators Lexicographic_Product Wf_nat.
From S2P Require Import Prelude GoLib Records Db Queue CertStore Issuers ScanQueue.

Open Scope clm_scope.

(** [scanner.ProbeResult], the stapled OCSP answer by its outcome. *)
Record ProbeResult := Build_ProbeResult {
  pr_Certificate : ParsedCertificate;
  pr_Chain : list ParsedCertificate;
  pr_Observation : WireObservation;
  pr_Verified : bool;
  pr_Revoked : bool;
  pr_Source : string;
  pr_Error : option string
}.

(** [prober]: the network's answer to the probe of a target at some time. *)
Class Prober := Probe : nat -> Target -> time -> ProbeResult.

Record Job := Build_Job {
  job_ScanID : uuid;
  job_Concurrency : Z
}.

(** ** One goroutine *)

(** Where it stands in the body of the loop of [Run]: what it does next. *)
Inductive pc :=
| PcProbe
| PcCount (r : ProbeResult)
| PcProbeFailed (reason : string) (curScanned : Z)
| PcProbeOk (r : ProbeResult) (curScanned : Z)
| PcUpsert (r : ProbeResult) (curScanned : Z)
| PcUpsertFailed (e : error) (curScanned : Z)
| PcFound (r : ProbeResult) (curScanned : Z) (certID : uuid)
| PcRevoke (r : ProbeResult) (curScanned curCerts : Z) (certID : uuid)
| PcIssuers (todo : list ParsedCertificate) (chainPEMs : list string) (curScanned curCerts : Z)
| PcReadCerts (curScanned : Z)
| PcProgress (curScanned curCerts : Z)
| PcDone.

Section Goroutine.
Context `{UuidGen, StoreConfig, Prober} (job : Job) (targets : Z).

(** Progress is written every ten targets and at the last one. *)
Definition progress_due (curScanned : Z) : bool :=
  (curScanned mod 10 =? 0) || (curScanned =? targets).

Definition then_progress (curScanned curCerts : Z) : pc :=
  if progress_due curScanned then PcProgress curScanned curCerts else PcDone.

(** The CAs of the chain that are still to be stored. *)
Definition issuers_of (r : ProbeResult) : list ParsedCertificate :=
  filter (fun c => c.(p_IsCA) = true) r.(pr_Chain).

Definition quietly {A B} (m : M (res A)) (b : B) : M B := mbind m (fun _ => mret b).

(** The next step of the goroutine for the i-th target [t]. *)
Definition step_pc (i : nat) (t : Target) (p : pc) (st : ScanStats) : M (pc * ScanStats) :=
  match p with
  | PcProbe =>
      now <-- time_now ;; mret (PcCount (Probe i t now), st)
  | PcCount r =>
      let st := st <| st_Scanned ::= Z.succ |> in
      let cur := st.(st_Scanned) in
      mret (match r.(pr_Error) with Some e => PcProbeFailed e cur | None => PcProbeOk r cur end, st)
  | PcProbeFailed e cur =>
      mret (if progress_due cur then PcReadCerts cur else PcDone, RecordProbeFailure t e st)
  | PcProbeOk r cur => mret (PcUpsert r cur, RecordProbeSuccess st)
  | PcUpsert r cur =>
      res <-- UpsertCertificate job.(job_ScanID) r.(pr_Certificate) r.(pr_Observation) ;;
      mret (match res with Ok id => PcFound r cur id | Err e => PcUpsertFailed e cur end, st)
  | PcUpsertFailed e cur => mret (PcReadCerts cur, RecordUpsertFailure t (error_text e) st)
  | PcFound r cur id =>
      let st := RecordCertFound st in mret (PcRevoke r cur st.(st_CertsFound) id, st)
  | PcRevoke r cur certs id =>
      let next := (PcIssuers (issuers_of r) (map p_PEM r.(pr_Chain)) cur certs, st) in
      if r.(pr_Verified) && r.(pr_Revoked) then quietly (MarkRevoked id r.(pr_Source)) next else mret next
  | PcIssuers (ca :: todo) pems cur certs => quietly (UpsertIssuer ca pems) (PcIssuers todo pems cur certs, st)
  | PcIssuers [] _ cur certs => mret (then_progress cur certs, st)
  | PcReadCerts cur => mret (then_progress cur st.(st_CertsFound), st)
  | PcProgress cur certs => quietly (UpdateScanProgress job.(job_ScanID) cur certs) (PcDone, st)
  | PcDone => mret (PcDone, st)
  end.
End Goroutine.

(** ** The pool of goroutines *)

Record Pool := Build_Pool {
  pl_todo : list Target;
  pl_run : list (Target * pc);
  pl_stats : ScanStats
}.

Definition is_done (p : pc) : bool := match p with PcDone => true | _ => false end.

(** The goroutines that hold a slot of the semaphore. *)
Definition slots_taken (run : list (Target * pc)) : nat :=
  length (filter (fun tp => is_done tp.2 = false) run).

Definition finished (s : Pool) : bool :=
  match s.(pl_todo) with [] => forallb (fun tp => is_done tp.2) s.(pl_run) | _ => false end.

(** The scheduler lets the loop launch the next target, or goroutine [i] go on. *)
Inductive choice := Launch | Advance (i : nat).

Section Pool.
Context `{UuidGen, StoreConfig, Prober} (job : Job) (targets : Z).

Definition concurrency : Z := if job.(job_Concurrency) <=? 0 then 50 else job.(job_Concurrency).

Definition pool_step (c : choice) (s : Pool) (w : World) : option (Pool * World) :=
  match c with
  | Launch =>
      match s.(pl_todo) with
      | t :: todo =>
          if Z.of_nat (slots_taken s.(pl_run)) <? concurrency
          then Some (Build_Pool todo (s.(pl_run) ++ [(t, PcProbe)]) s.(pl_stats), w) else None
      | [] => None
      end
  | Advance i =>
      match s.(pl_run) !! i with
      | Some (t, p) =>
          if is_done p then None
          else let '((p', st'), w') := step_pc job targets i t p s.(pl_stats) w in
               Some (Build_Pool s.(pl_todo) (<[i := (t, p')]> s.(pl_run)) st', w')
      | None => None
      end
  end.

(** An interleaving. *)
Fixpoint run_pool (cs : list choice) (s : Pool) (w : World) : option (Pool * World) :=
  match cs with
  | [] => Some (s, w)
  | c :: cs' => match pool_step c s w with Some (s', w') => run_pool cs' s' w' | None => None end
  end.

Definition start_pool (ts : list Target) : Pool := Build_Pool ts [] (Build_ScanStats 0 0 0 0 0 []).
End Pool.

(** ** [Run]

    [expansion] is the answer of [scanner.ExpandScanTargets]; [cs] is the
    order in which the scheduler ran the goroutines.  [None] when that order
    is not one the program can take. *)
Definition failScan (scanID : uuid) `{UuidGen} (msg : string) : M unit :=
  quietly (FailScan scanID msg) tt.

Definition Run `{UuidGen, StoreConfig, Prober} (job : Job) (expansion : res (list Target * list string))
    (cs : list choice) (w : World) : option (res unit * World) :=
  match expansion with
  | Err e => Some (Err e, (failScan job.(job_ScanID) (error_text e) w).2)
  | Ok (ts, warnings) =>
      let n := Z.of_nat (length ts) in
      match UpdateScanRunning job.(job_ScanID) n w with
      | (Err e, w1) =>
          Some (Err e, (failScan job.(job_ScanID) ("failed to mark scan running: " ++ error_text e) w1).2)
      | (Ok _, w1) =>
          match run_pool job n cs (start_pool ts) w1 with
          | Some (s, w2) =>
              if finished s
              then Some (Ok tt, (CompleteScan job.(job_ScanID) (Summary s.(pl_stats) n warnings) w2).2)
              else None
          | None => None
          end
      end
  end.

(** ** The counters account for every target *)

Definition total {A} (f : A -> Z) (l : list A) : Z := foldr (fun x n => f x + n) 0 l.

Lemma total_app {A} (f : A -> Z) l l' : total f (l ++ l') = total f l + total f l'.
Proof. unfold total. induction l as [|x l IH]; simpl in *; lia. Qed.

Lemma total_insert {A} (f : A -> Z) l i x y :
  l !! i = Some x -> total f (<[i := y]> l) = total f l - f x + f y.
Proof.
  unfold total. revert i. induction l as [|z l IH]; intros [|i] Hi; simplify_eq/=; [lia|].
  rewrite IH by done. lia.
Qed.

Lemma total_const {A} (f : A -> Z) l n : Forall (fun x => f x = n) l -> total f l = n * Z.of_nat (length l).
Proof. unfold total. induction 1; simpl; lia. Qed.

(** What a goroutine has contributed so far: to [Scanned], to [Succeeded] or
    [Failed], and whether its certificate is being stored. *)
Definition counted (tp : Target * pc) : Z :=
  match tp.2 with PcProbe | PcCount _ => 0 | _ => 1 end.
Definition recorded (tp : Target * pc) : Z :=
  match tp.2 with PcProbe | PcCount _ | PcProbeFailed _ _ | PcProbeOk _ _ => 0 | _ => 1 end.
Definition storing (tp : Target * pc) : Z :=
  match tp.2 with PcUpsert _ _ | PcUpsertFailed _ _ | PcFound _ _ _ => 1 | _ => 0 end.

(** A failure sample describes one of the targets. *)
Definition sample_of (ts : list Target) (f : TargetFailureSample) : Prop :=
  exists t, t ∈ ts /\ f.(fs_IP) = t.(t_IP) /\ f.(fs_Port) = t.(t_Port) /\ f.(fs_Hostname) = t.(t_Hostname).

Record stats_ok (ts : list Target) (st : ScanStats) : Prop := {
  so_pos : 0 <= st.(st_Failed) /\ 0 <= st.(st_CertsFound) /\ 0 <= st.(st_UpsertFailures);
  so_samples : Z.of_nat (length st.(st_FailureSamples)) = Z.min MaxFailureSamples (st.(st_Failed) + st.(st_UpsertFailures));
  so_from : Forall (sample_of ts) st.(st_FailureSamples)
}.

Record pool_ok (job : Job) (ts : list Target) (s : Pool) : Prop := {
  po_targets : map fst s.(pl_run) ++ s.(pl_todo) = ts;
  po_scanned : s.(pl_stats).(st_Scanned) = total counted s.(pl_run);
  po_recorded : s.(pl_stats).(st_Succeeded) + s.(pl_stats).(st_Failed) = total recorded s.(pl_run);
  po_stored : s.(pl_stats).(st_Succeeded) =
    s.(pl_stats).(st_CertsFound) + s.(pl_stats).(st_UpsertFailures) + total storing s.(pl_run);
  po_stats : stats_ok ts s.(pl_stats);
  po_slots : Z.of_nat (slots_taken s.(pl_run)) <= concurrency job
}.

Lemma addSample_counts t reason kind st :
  let st' := addSample t reason kind st in
  st'.(st_Scanned) = st.(st_Scanned) /\ st'.(st_Succeeded) = st.(st_Succeeded) /\ st'.(st_Failed) = st.(st_Failed) /\
  st'.(st_CertsFound) = st.(st_CertsFound) /\ st'.(st_UpsertFailures) = st.(st_UpsertFailures).
Proof. unfold addSample. by case_match. Qed.

(** One more failure, one more sample, up to the cap. *)
Lemma addSample_ok ts t reason kind st st0 :
  t ∈ ts -> stats_ok ts st0 -> st.(st_FailureSamples) = st0.(st_FailureSamples) ->
  0 <= st.(st_Failed) /\ 0 <= st.(st_CertsFound) /\ 0 <= st.(st_UpsertFailures) ->
  st.(st_Failed) + st.(st_UpsertFailures) = st0.(st_Failed) + st0.(st_UpsertFailures) + 1 ->
  stats_ok ts (addSample t reason kind st).
Proof.
  intros Ht [Hp Hl Hf] Hs Hp' Hc. destruct (addSample_counts t reason kind st) as (E1 & E2 & E3 & E4 & E5).
  split; [by rewrite E3, E4, E5| |]; rewrite ?E3, ?E5; unfold addSample; rewrite Hs; unfold MaxFailureSamples in *;
    destruct (Z.leb_spec 50 (Z.of_nat (length (st_FailureSamples st0)))); simpl; rewrite Hs; try done.
  - lia.
  - rewrite length_app. simpl. lia.
  - apply Forall_app. split; [done|]. repeat constructor. exists t. done.
Qed.

Section Accounts.
Context `{UuidGen, StoreConfig, Prober} (job : Job) (ts : list Target).

Lemma step_pc_counts n i t p st w p' st' w' :
  step_pc job n i t p st w = ((p', st'), w') ->
  st'.(st_Scanned) = st.(st_Scanned) - counted (t, p) + counted (t, p') /\
  st'.(st_Succeeded) + st'.(st_Failed) = st.(st_Succeeded) + st.(st_Failed) - recorded (t, p) + recorded (t, p') /\
  st'.(st_Succeeded) - st'.(st_CertsFound) - st'.(st_UpsertFailures)
    = st.(st_Succeeded) - st.(st_CertsFound) - st.(st_UpsertFailures) - storing (t, p) + storing (t, p').
Proof.
  unfold step_pc, quietly, mbind, mret, then_progress, RecordProbeFailure, RecordUpsertFailure,
    counted, recorded, storing.
  destruct p as [| | | | | | | |todo pems| | |]; try destruct todo; intros Hs;
    repeat case_match; simplify_eq/=;
    repeat match goal with |- context [addSample ?t ?r ?k ?s] =>
      destruct (addSample_counts t r k s) as (-> & -> & -> & -> & ->) end; simpl; lia.
Qed.

Lemma step_pc_stats n i t p st w p' st' w' :
  t ∈ ts -> step_pc job n i t p st w = ((p', st'), w') -> stats_ok ts st -> stats_ok ts st'.
Proof.
  intros Ht. unfold step_pc, quietly, mbind, mret, then_progress, RecordProbeFailure, RecordUpsertFailure.
  destruct p as [| | | | | | | |todo pems| | |]; try destruct todo; intros Hs Hok;
    pose proof Hok as [Hp Hl Hf]; repeat case_match; simplify_eq/=; try done.
  all: try (by split).
  all: try (eapply addSample_ok; [done|exact Hok|done|simpl; lia|simpl; lia]).
  split; simpl; [lia|done|done].
Qed.

Lemma in_flight_app run run' : slots_taken (run ++ run') = (slots_taken run + slots_taken run')%nat.
Proof. unfold slots_taken. by rewrite filter_app, length_app. Qed.

Lemma in_flight_insert run i t p x :
  run !! i = Some (t, p) -> is_done p = false -> (slots_taken (<[i := x]> run) <= slots_taken run)%nat.
Proof.
  unfold slots_taken. revert i. induction run as [|y run IH]; intros [|i] Hi Hp; simplify_eq/=.
  - rewrite !filter_cons. simpl. rewrite Hp. repeat case_decide; simpl; lia || done.
  - rewrite !filter_cons. specialize (IH _ Hi Hp). repeat case_decide; simpl; lia.
Qed.

Lemma start_pool_ok : 0 < concurrency job -> pool_ok job ts (start_pool ts).
Proof. intros. split; simpl; [done..| |unfold slots_taken; simpl; lia]. split; simpl; [lia|done|constructor]. Qed.

Lemma concurrency_pos : 0 < concurrency job.
Proof. unfold concurrency. destruct (Z.leb_spec (job_Concurrency job) 0); lia. Qed.

Lemma pool_step_ok n c s w s' w' :
  pool_step job n c s w = Some (s', w') -> pool_ok job ts s -> pool_ok job ts s'.
Proof.
  intros Hs [Htg Hn1 Hn2 Hn3 Hst Hfl]. unfold pool_step in Hs. destruct c as [|i].
  - destruct (pl_todo s) as [|t todo] eqn:E; [done|]. destruct (Z.ltb_spec (Z.of_nat (slots_taken (pl_run s))) (concurrency job)); [|done].
    injection Hs as <- <-. split; simpl; rewrite ?total_app; unfold counted, recorded, storing in *; simpl; try lia; [|done|].
    + by rewrite map_app, <- app_assoc.
    + rewrite in_flight_app. unfold slots_taken at 2. simpl. lia.
  - destruct (pl_run s !! i) as [[t p]|] eqn:Hi; [|done]. destruct (is_done p) eqn:Hp; [done|].
    destruct (step_pc job n i t p (pl_stats s) w) as [[p' st'] w2] eqn:Hpc. injection Hs as <- <-.
    destruct (step_pc_counts _ _ _ _ _ _ _ _ _ Hpc) as (E1 & E2 & E3).
    split; simpl; rewrite ?(total_insert _ _ _ _ _ Hi); try lia.
    + rewrite list_fmap_insert. simpl. rewrite list_insert_id; [done|]. by rewrite list_lookup_fmap, Hi.
    + eapply step_pc_stats; [|exact Hpc|done]. rewrite <- Htg. apply elem_of_app. left.
      apply list_elem_of_fmap. exists (t, p). split; [done|]. by eapply list_elem_of_lookup_2.
    + pose proof (in_flight_insert _ _ _ _ (t, p') Hi Hp). lia.
Qed.

Lemma run_pool_ok n cs s w s' w' :
  run_pool job n cs s w = Some (s', w') -> pool_ok job ts s -> pool_ok job ts s'.
Proof.
  revert s w. induction cs as [|c cs IH]; simpl; intros s w; [by intros [= <- <-]|].
  destruct (pool_step job n c s w) as [[s1 w1]|] eqn:E; [|done]. intros Hr Hok.
  eapply IH; [exact Hr|]. by eapply pool_step_ok.
Qed.

Lemma finished_totals s :
  pool_ok job ts s -> finished s = true ->
  total counted s.(pl_run) = Z.of_nat (length ts) /\ total recorded s.(pl_run) = Z.of_nat (length ts) /\
  total storing s.(pl_run) = 0.
Proof.
  intros [Htg _ _ _ _ _]. unfold finished. destruct (pl_todo s); [|done]. intros Hd.
  rewrite app_nil_r in Htg. rewrite <- Htg, length_map. rewrite forallb_forall in Hd.
  assert (forall (f : Target * pc -> Z) (n : Z), (forall t, f (t, PcDone) = n) -> Forall (fun tp => f tp = n) (pl_run s)) as Hall.
  { intros f n Hf. apply Forall_forall. intros [t p] Hin. apply list_elem_of_In, Hd in Hin.
    by destruct p. }
  rewrite (total_const counted _ 1), (total_const recorded _ 1), (total_const storing _ 0) by (by apply Hall). lia.
Qed.

(** What a completed run must report. *)
Definition accounts (sm : ScanSummary) : Prop :=
  sm.(ss_TargetsTotal) = Z.of_nat (length ts) /\ sm.(ss_TargetsScanned) = sm.(ss_TargetsTotal) /\
  sm.(ss_TargetsSucceeded) + sm.(ss_TargetsFailed) = sm.(ss_TargetsTotal) /\
  sm.(ss_CertsFound) + sm.(ss_UpsertFailures) = sm.(ss_TargetsSucceeded) /\
  0 <= sm.(ss_TargetsFailed) /\ 0 <= sm.(ss_CertsFound) /\ 0 <= sm.(ss_UpsertFailures) /\
  Z.of_nat (length sm.(ss_FailureSamples)) = Z.min MaxFailureSamples (sm.(ss_TargetsFailed) + sm.(ss_UpsertFailures)) /\
  Forall (sample_of ts) sm.(ss_FailureSamples).

Lemma CompleteScan_row id sm w w' s :
  CompleteScan id sm w = (Ok tt, w') -> w'.(w_db).(scans) !! id = Some s ->
  exists now s0, s = complete_scan now sm s0.
Proof.
  unfold CompleteScan, mbind, time_now. destruct (next_env w) as [e w1].
  intros (e2 & w2 & _ & Hs)%store_call_spec. destruct Hs as [(_ & ? & ? & _)|(a & db' & Ht & -> & _)]; [done|].
  apply tbind_ok in Ht as (db1 & b & Hu & Ht). injection Ht as <- _. simpl.
  unfold update_scan in Hu. destruct (scans (w_db w2) !! id) as [s0|] eqn:E; injection Hu as <- _; simpl.
  - rewrite lookup_insert_eq. intros [= <-]. eauto.
  - by rewrite E.
Qed.

End Accounts.

(** ** Every interleaving ends *)

Lemma sum_insert {A} (f : A -> nat) l i x y :
  l !! i = Some x -> (sum_list_with f (<[i := y]> l) + f x = sum_list_with f l + f y)%nat.
Proof.
  revert i. induction l as [|z l IH]; intros [|i] Hi; simplify_eq/=; [lia|]. specialize (IH _ Hi). lia.
Qed.

(** The steps a goroutine has left once its probe has answered. *)
Definition steps_left (tp : Target * pc) : nat :=
  match tp.2 with
  | PcDone | PcProbe => 0
  | PcProgress _ _ => 1
  | PcReadCerts _ => 2
  | PcIssuers todo _ _ _ => 2 + length todo
  | PcRevoke r _ _ _ => 3 + length (issuers_of r)
  | PcFound r _ _ => 4 + length (issuers_of r)
  | PcUpsertFailed _ _ | PcProbeFailed _ _ => 3
  | PcUpsert r _ => 5 + length (issuers_of r)
  | PcProbeOk r _ => 6 + length (issuers_of r)
  | PcCount r => 7 + length (issuers_of r)
  end.
Definition to_probe (tp : Target * pc) : nat := match tp.2 with PcProbe => 1 | _ => 0 end.
Definition pool_measure (s : Pool) : nat * nat :=
  (2 * length s.(pl_todo) + sum_list_with to_probe s.(pl_run), sum_list_with steps_left s.(pl_run))%nat.
Definition shorter : nat * nat -> nat * nat -> Prop := slexprod nat nat lt lt.

Section Termination.
Context `{UuidGen, StoreConfig, Prober} (job : Job) (n : Z).

Lemma step_pc_decreases i t p st w p' st' w' :
  step_pc job n i t p st w = ((p', st'), w') -> is_done p = false ->
  (to_probe (t, p') < to_probe (t, p))%nat \/
  to_probe (t, p') = to_probe (t, p) /\ (steps_left (t, p') < steps_left (t, p))%nat.
Proof.
  unfold step_pc, quietly, mbind, mret, then_progress, to_probe, steps_left.
  destruct p as [| | | | | | | |todo pems| | |]; try destruct todo; intros Hs Hd;
    repeat case_match; simplify_eq/=; solve [left; lia|right; lia].
Qed.

(** One scheduling step of the pool. *)
Definition pool_next (s' s : Pool) : Prop := exists c w w', pool_step job n c s w = Some (s', w').

Lemma pool_next_shorter s' s : pool_next s' s -> shorter (pool_measure s') (pool_measure s).
Proof.
  intros (c & w & w' & Hs). unfold pool_step in Hs. destruct c as [|i].
  - destruct (pl_todo s) as [|t todo] eqn:E; [done|]. case_match; [|done]. injection Hs as <- <-.
    apply left_slex. unfold pool_measure. simpl. rewrite E, sum_list_with_app. unfold to_probe at 2. simpl. lia.
  - destruct (pl_run s !! i) as [[t p]|] eqn:Hi; [|done]. destruct (is_done p) eqn:Hp; [done|].
    destruct (step_pc job n i t p (pl_stats s) w) as [[p' st'] w2] eqn:Hpc. injection Hs as <- <-.
    unfold pool_measure. simpl. pose proof (sum_insert to_probe _ _ _ (t, p') Hi) as E1.
    pose proof (sum_insert steps_left _ _ _ (t, p') Hi) as E2.
    destruct (step_pc_decreases _ _ _ _ _ _ _ _ Hpc Hp) as [Hlt|[Heq Hlt]].
    + apply left_slex. lia.
    + replace (sum_list_with to_probe (<[i := (t, p')]> (pl_run s))) with (sum_list_with to_probe (pl_run s)) by lia.
      apply right_slex. lia.
Qed.

Lemma pool_next_wf : well_founded pool_next.
Proof.
  apply (wf_projected shorter pool_measure); [apply pool_next_shorter|].
  apply wf_slexprod; apply lt_wf.
Qed.

(** The pool is never stuck. *)
Lemma pool_progress s w :
  finished s = false -> exists c s' w', pool_step job n c s w = Some (s', w').
Proof.
  intros Hf. destruct (decide (Exists (fun tp => is_done tp.2 = false) s.(pl_run))) as [Hex|Hno].
  - apply Exists_exists in Hex as ([t p] & [i Hi]%list_elem_of_lookup & Hp). exists (Advance i). simpl in Hp.
    unfold pool_step. rewrite Hi, Hp. destruct (step_pc _ _ _ _ _ _ w) as [[p' st'] w']. eauto.
  - exists Launch. unfold pool_step, finished in *.
    assert (Forall (fun tp => is_done tp.2 <> false) s.(pl_run)) as Hall by (by apply Forall_Exists_neg).
    assert (slots_taken s.(pl_run) = 0%nat) as Hfl.
    { unfold slots_taken. clear -Hall. induction Hall; [done|]. by rewrite filter_cons_False. }
    destruct (pl_todo s) as [|t todo].
    + apply not_true_iff_false in Hf. destruct Hf. apply forallb_forall.
      intros x Hx%list_elem_of_In. rewrite Forall_forall in Hall. apply Hall in Hx. by destruct (is_done x.2).
    + rewrite Hfl. pose proof (concurrency_pos job). destruct (Z.ltb_spec (Z.of_nat 0) (concurrency job)); [eauto|lia].
Qed.

Lemma run_pool_app cs cs' s w :
  run_pool job n (cs ++ cs') s w =
  match run_pool job n cs s w with Some (s1, w1) => run_pool job n cs' s1 w1 | None => None end.
Proof.
  revert s w. induction cs as [|c cs IH]; intros s w; simpl; [done|].
  destruct (pool_step job n c s w) as [[s1 w1]|]; [apply IH|done].
Qed.

Lemma run_pool_finishes s w : exists cs s' w', run_pool job n cs s w = Some (s', w') /\ finished s' = true.
Proof.
  revert w. induction (pool_next_wf s) as [s _ IH]. intros w.
  destruct (finished s) eqn:Hf; [by exists [], s, w|].
  destruct (pool_progress s w Hf) as (c & s1 & w1 & Hs).
  destruct (IH s1) with w1 as (cs & s' & w' & Hr & Hd); [by exists c, w, w1|].
  exists (c :: cs), s', w'. simpl. by rewrite Hs.
Qed.
End Termination.

(** Some schedule takes a run to its end. *)
Lemma Run_some `{UuidGen, StoreConfig, Prober} job expansion w : exists cs x, Run job expansion cs w = Some x.
Proof.
  unfold Run. destruct expansion as [[ts warnings]|e]; [|by exists [], (Err e, (failScan job.(job_ScanID) (error_text e) w).2)].
  destruct (UpdateScanRunning _ _ w) as [[u|e] w1]; [|by eexists [], _].
  destruct (run_pool_finishes job (Z.of_nat (length ts)) (start_pool ts) w1) as (cs & st & w2 & Hr & Hf).
  eexists cs, _. by rewrite Hr, Hf.
Qed.

(** C29. A scan ends.  However far an interleaving has come, it never had more
    goroutines in flight than the configured concurrency, it cannot go on for
    ever, it stops only when every target is done, and it can be carried on to
    that point. *)
Theorem Run_ends `{UuidGen, StoreConfig, Prober} job ts cs w s w1 :
  run_pool job (Z.of_nat (length ts)) cs (start_pool ts) w = Some (s, w1) ->
  Z.of_nat (slots_taken s.(pl_run)) <= concurrency job /\
  Acc (pool_next job (Z.of_nat (length ts))) s /\
  ((forall c, pool_step job (Z.of_nat (length ts)) c s w1 = None) -> finished s = true) /\
  exists cs' s' w', run_pool job (Z.of_nat (length ts)) (cs ++ cs') (start_pool ts) w = Some (s', w') /\ finished s' = true.
Proof.
  intros Hr. split_and!.
  - eapply po_slots, run_pool_ok; [exact Hr|]. apply (start_pool_ok job ts), concurrency_pos.
  - apply pool_next_wf.
  - intros Hstuck. destruct (finished s) eqn:Hf; [done|].
    destruct (pool_progress job (Z.of_nat (length ts)) s w1 Hf) as (c & s' & w' & Hs). by rewrite Hstuck in Hs.
  - destruct (run_pool_finishes job (Z.of_nat (length ts)) s w1) as (cs' & s' & w' & Hr' & Hd).
    exists cs', s', w'. by rewrite run_pool_app, Hr.
Qed.

(** ** A scan of two targets, one of which answers *)

Section Demo.
#[local] Instance demo_uuid : UuidGen := fun n => pretty n.
#[local] Instance demo_store : StoreConfig := 30.
#[local] Instance demo_prober : Prober := fun i t _ =>
  Build_ProbeResult demo_parsed [demo_parsed] demo_obs false false ""
    (if String.eqb t.(t_IP) "10.0.0.2" then Some "connection refused"%string else None).

Definition demo_job : Job := Build_Job "s1" 1.
Definition demo_targets : list Target := [Build_Target "10.0.0.1" 443 "app.corp"; Build_Target "10.0.0.2" 443 ""].
Definition demo_schedule : list choice :=
  Launch :: repeat (Advance 0) 7 ++ Launch :: repeat (Advance 1) 5.
Definition demo_scan_world : World := calm_world (demo_db demo_cert) Hour.
Definition demo_run : option (res unit * World) :=
  Run demo_job (Ok (demo_targets, [])) demo_schedule demo_scan_world.

Definition demo_run_world : World := match demo_run with Some (_, w) => w | None => demo_scan_world end.


Lemma Run_ends_witness :
  exists cs' s' w', run_pool demo_job 2 ([Launch; Advance 0] ++ cs') (start_pool demo_targets) demo_scan_world = Some (s', w')
    /\ finished s' = true.
Proof.
  destruct (run_pool demo_job 2 [Launch; Advance 0] (start_pool demo_targets) demo_scan_world) as [[s w1]|] eqn:E.
  - exact (proj2 (proj2 (proj2 (Run_ends demo_job demo_targets _ _ _ _ E)))).
  - by vm_compute in E.
Defined.
End Demo.
