(* ===== verification/Compliance.v ===== *)
(** * Compliance packs (internal/compliance)

    Each pack turns a certificate into findings: SC-081 validity and expiry,
    PCI inventory, key and signature algorithms. *)

From S2P Require Import Prelude GoLib Records Db Queue CertStore.

Open Scope clm_scope.

(** ** Dates *)

(** Days from 1970-01-01 to a date of the Gregorian calendar. *)
Definition days_from_civil (y m d : Z) : Z :=
  let y := if m <=? 2 then y - 1 else y in
  let era := y / 400 in
  let yoe := y - era * 400 in
  let doy := (153 * (if 2 <? m then m - 3 else m + 9) + 2) / 5 + d - 1 in
  let doe := yoe * 365 + yoe / 4 - yoe / 100 + doy in
  era * 146097 + doe - 719468.
(** [time.Date(y, m, d, 0, 0, 0, 0, time.UTC)] *)
Definition utc_date (y m d : Z) : time := days_from_civil y m d * 24 * Hour.

Example date_examples :
  utc_date 1970 1 1 = 0 /\ utc_date 2000 3 1 = 951868800 * Second /\ utc_date 2026 3 15 = 1773532800 * Second.
Proof. vm_compute. done. Qed.

Definition pad2 (n : Z) : string := if n <? 10 then ("0" ++ Itoa n)%string else Itoa n.
(** [Format("2006-01-02")] *)
Definition date_text (y m d : Z) : string := (Itoa y ++ "-" ++ pad2 m ++ "-" ++ pad2 d)%string.

(** ** Findings *)

Record Finding := Build_Finding {
  fi_RuleID : string;
  fi_Pack : string;
  fi_Severity : string;
  fi_Title : string;
  fi_Detail : string;
  fi_CertID : uuid;
  fi_Fingerprint : string;
  fi_SubjectCN : string
}.
#[export] Instance Finding_eta : Eta Finding := fun x =>
  Build_Finding (x.(fi_RuleID)) (x.(fi_Pack)) (x.(fi_Severity)) (x.(fi_Title)) (x.(fi_Detail))
    (x.(fi_CertID)) (x.(fi_Fingerprint)) (x.(fi_SubjectCN)).

(** The view of a row the packs use. *)
Record CertInput := Build_CertInput {
  ci_ID : uuid;
  ci_Fingerprint : string;
  ci_SubjectCN : string;
  ci_NotBefore : time;
  ci_NotAfter : time;
  ci_KeyType : string;
  ci_KeyBits : Z;
  ci_SignatureAlgorithm : string;
  ci_CertScope : CertScope;
  ci_Environment : option string;
  ci_Owner : option string;
  ci_Tags : list string;
  ci_ManagedStatus : ManagedStatus;
  ci_DaysUntilExpiry : Z
}.
Definition or_blank (o : option string) : string := match o with Some s => s | None => "" end.
Definition CertInputFromStore (c : Certificate) : CertInput :=
  Build_CertInput c.(c_ID) c.(c_FingerprintSHA256) (or_blank c.(c_SubjectCN)) c.(c_NotBefore) c.(c_NotAfter)
    c.(c_KeyType) c.(c_KeyBits) c.(c_SignatureAlgorithm) c.(c_CertScope) c.(c_Environment) c.(c_Owner)
    c.(c_Tags) c.(c_ManagedStatus) c.(c_DaysUntilExpiry).

Definition finding_of (cert : CertInput) (rule pack severity title detail : string) : Finding :=
  Build_Finding rule pack severity title detail cert.(ci_ID) cert.(ci_Fingerprint) cert.(ci_SubjectCN).

Definition isProd (env : option string) : bool := bool_decide (env = Some "prod"%string).
Definition isMissingOwner (owner : option string) : bool :=
  match owner with None => true | Some o => String.eqb o "" end.

(** ** SC-081 *)

Record sc081Ceiling := Build_sc081Ceiling { ce_date : Z * Z * Z; ce_maxDays : Z; ce_ruleID : string }.
Definition ce_effective (c : sc081Ceiling) : time := let '(y, m, d) := c.(ce_date) in utc_date y m d.
Definition ce_text (c : sc081Ceiling) : string := let '(y, m, d) := c.(ce_date) in date_text y m d.

Definition sc081Ceilings : list sc081Ceiling := [
  Build_sc081Ceiling (2029, 3, 15) 47 "sc081.validity.47d";
  Build_sc081Ceiling (2028, 3, 15) 64 "sc081.validity.64d";
  Build_sc081Ceiling (2027, 3, 15) 99 "sc081.validity.99d";
  Build_sc081Ceiling (2026, 3, 15) 199 "sc081.validity.199d"].

Definition sc081CeilingFor (notBefore : time) : option sc081Ceiling :=
  find (fun c => negb (notBefore <? ce_effective c)) sc081Ceilings.

Definition validityDays (notBefore notAfter : time) : Z := ceil_days (time_sub notAfter notBefore).

Definition sc081ValidityFinding (cert : CertInput) : option Finding :=
  match sc081CeilingFor cert.(ci_NotBefore) with
  | None => None
  | Some c =>
      let maxValidity := c.(ce_maxDays) * 24 * Hour in
      if time_sub cert.(ci_NotAfter) cert.(ci_NotBefore) <=? maxValidity then None
      else
        let days := validityDays cert.(ci_NotBefore) cert.(ci_NotAfter) in
        Some (finding_of cert c.(ce_ruleID) "sc081" "critical" "SC-081 issued validity exceeds ceiling"
          ("Certificate issued with " ++ Itoa days ++ "-day validity; SC-081 ceiling is " ++ Itoa c.(ce_maxDays)
             ++ " days from " ++ ce_text c)%string)
  end.

Definition sc081ExpirySeverity (cert : CertInput) (base : string) : string :=
  if bool_decide (cert.(ci_CertScope) = ScopeInternal) && negb (isProd cert.(ci_Environment)) then "info" else base.

Definition sc081ExpiryFindingAt (cert : CertInput) (now : time) : option Finding :=
  let finding rule title detail base :=
    Some (finding_of cert rule "sc081" (sc081ExpirySeverity cert base) title detail) in
  if cert.(ci_NotAfter) <? now then
    finding "sc081.expiry.expired" "Certificate has expired"
      ("Certificate expired " ++ Itoa (whole_days (time_sub now cert.(ci_NotAfter))) ++ " day(s) ago")%string "critical"
  else
    let days := whole_days (time_sub cert.(ci_NotAfter) now) in
    let detail := ("Certificate expires in " ++ Itoa days ++ " days")%string in
    if days <=? 14 then finding "sc081.expiry.critical" "Certificate expires within 14 days" detail "critical"
    else if days <=? 60 then finding "sc081.expiry.warning" "Certificate expires within 60 days" detail "warning"
    else None.

Definition opt_list {A} (o : option A) : list A := match o with Some a => [a] | None => [] end.

(** [EvaluateSC081], with the clock it reads. *)
Definition EvaluateSC081 (now : time) (cert : CertInput) : list Finding :=
  opt_list (sc081ValidityFinding cert) ++ opt_list (sc081ExpiryFindingAt cert now).

(** ** PCI inventory *)

Definition finding_if (b : bool) (f : Finding) : list Finding := if b then [f] else [].

Definition EvaluatePCI (cert : CertInput) : list Finding :=
  let external := bool_decide (cert.(ci_CertScope) = ScopeExternal) in
  let prod := isProd cert.(ci_Environment) in
  finding_if (external && isMissingOwner cert.(ci_Owner))
    (finding_of cert "pci.inventory.missing_owner" "pci" "warning" "External certificate missing owner"
       "PCI inventory requires an owner for externally scoped certificates") ++
  finding_if (prod && (isMissingOwner cert.(ci_Owner) || Nat.eqb (length cert.(ci_Tags)) 0))
    (finding_of cert "pci.inventory.untagged_prod" "pci" "warning" "Production certificate missing inventory metadata"
       "Production certificates require owner and tags for PCI inventory completeness") ++
  finding_if (bool_decide (cert.(ci_ManagedStatus) = unmanaged) && external && prod)
    (finding_of cert "pci.inventory.not_in_vault" "pci" "info" "External production certificate not in Vault"
       ("Certificate " ++ cert.(ci_Fingerprint) ++ " is unmanaged and not correlated to Vault PKI")%string).

(** ** Algorithms *)

Definition containsSHA1 (alg : string) : bool :=
  let upper := ToUpper alg in Contains upper "SHA1" || Contains upper "SHA-1".

Definition EvaluateCrypto (cert : CertInput) : list Finding :=
  finding_if (EqualFold cert.(ci_KeyType) "RSA" && (cert.(ci_KeyBits) <? 2048))
    (finding_of cert "crypto.rsa.weak_key" "crypto" "critical" "RSA key below 2048 bits"
       "RSA keys must be at least 2048 bits") ++
  finding_if (containsSHA1 cert.(ci_SignatureAlgorithm))
    (finding_of cert "crypto.signature.sha1" "crypto" "critical" "SHA-1 signature algorithm"
       "SHA-1 signed certificates are deprecated") ++
  finding_if (EqualFold cert.(ci_KeyType) "ECDSA" && (cert.(ci_KeyBits) <? 256))
    (finding_of cert "crypto.key.ecdsa.weak" "crypto" "warning" "ECDSA key below 256 bits"
       "ECDSA keys should be at least 256 bits").

(** ** Severities *)

Definition MapPackSeverity (pack severity : string) : string :=
  if existsb (String.eqb severity) ["critical"; "high"; "medium"; "low"; "info"] then severity
  else if String.eqb severity "warning" then (if String.eqb pack "pci" then "medium" else "high")
  else "info"%string.

Definition ScoreSeverity (severity : string) : Z :=
  if String.eqb severity "critical" then 90
  else if String.eqb severity "high" then 70
  else if String.eqb severity "medium" then 40
  else if String.eqb severity "low" then 20
  else if String.eqb severity "info" then 5
  else 0.

Definition MapFindingForPersist (f : Finding) : Finding :=
  f <| fi_Severity := MapPackSeverity f.(fi_Pack) f.(fi_Severity) |>.

(** ** Evaluation of a certificate, of a scan, of the estate *)

Definition severityRank (s : string) : Z :=
  if String.eqb s "critical" then 0
  else if String.eqb s "high" || String.eqb s "warning" then 1
  else if String.eqb s "medium" then 2
  else if String.eqb s "low" then 3
  else if String.eqb s "info" then 4
  else 99.

(** By severity, then pack, then rule. *)
Definition finding_less : Finding -> Finding -> bool :=
  rank_then (fun f => severityRank f.(fi_Severity))
    (key_then fi_Pack (fun a b => string_lt a.(fi_RuleID) b.(fi_RuleID))).
#[export] Instance finding_less_sw : StrictWeak finding_less.
Proof. apply rank_then_sw, key_then_sw, image_sw, string_lt_sw. Qed.
Definition sortFindings : list Finding -> list Finding := stable_sort finding_less.

Definition EvaluateCert (now : time) (cert : Certificate) : list Finding :=
  let input := CertInputFromStore cert in
  sortFindings (EvaluateSC081 now input ++ EvaluatePCI input ++ EvaluateCrypto input).

Record AlgorithmInventory := Build_AlgorithmInventory {
  ai_RSA2048Plus : Z;
  ai_RSAUnder2048 : Z;
  ai_ECDSA : Z;
  ai_Ed25519 : Z;
  ai_SHA1Signatures : Z
}.
#[export] Instance AlgorithmInventory_eta : Eta AlgorithmInventory := fun x =>
  Build_AlgorithmInventory (x.(ai_RSA2048Plus)) (x.(ai_RSAUnder2048)) (x.(ai_ECDSA)) (x.(ai_Ed25519))
    (x.(ai_SHA1Signatures)).

Definition updateAlgorithmInventory (cert : Certificate) (inv : AlgorithmInventory) : AlgorithmInventory :=
  let kt := cert.(c_KeyType) in
  let inv :=
    if EqualFold kt "RSA" && (2048 <=? cert.(c_KeyBits)) then inv <| ai_RSA2048Plus ::= Z.succ |>
    else if EqualFold kt "RSA" && (cert.(c_KeyBits) <? 2048) then inv <| ai_RSAUnder2048 ::= Z.succ |>
    else if EqualFold kt "ECDSA" then inv <| ai_ECDSA ::= Z.succ |>
    else if EqualFold kt "Ed25519" || EqualFold kt "ED25519" then inv <| ai_Ed25519 ::= Z.succ |>
    else inv in
  if containsSHA1 cert.(c_SignatureAlgorithm) then inv <| ai_SHA1Signatures ::= Z.succ |> else inv.

(** A counter map: [m[k]++]. *)
Definition incr {K} `{Countable K} (k : K) (m : gmap K Z) : gmap K Z := <[k := default 0 (m !! k) + 1]> m.

Record ComplianceSummary := Build_ComplianceSummary {
  cs_ScanID : option uuid;
  cs_GeneratedAt : time;
  cs_TotalCerts : Z;
  cs_FindingsBySeverity : gmap string Z;
  cs_FindingsByPack : gmap string Z;
  cs_AlgorithmInventory : AlgorithmInventory;
  cs_SC081ViolationCount : Z;
  cs_PCIFindingCount : Z;
  cs_Findings : list Finding
}.
#[export] Instance ComplianceSummary_eta : Eta ComplianceSummary := fun x =>
  Build_ComplianceSummary (x.(cs_ScanID)) (x.(cs_GeneratedAt)) (x.(cs_TotalCerts)) (x.(cs_FindingsBySeverity))
    (x.(cs_FindingsByPack)) (x.(cs_AlgorithmInventory)) (x.(cs_SC081ViolationCount)) (x.(cs_PCIFindingCount))
    (x.(cs_Findings)).

Definition isSC081Violation (f : Finding) : bool :=
  String.eqb f.(fi_Pack) "sc081" && negb (String.eqb f.(fi_Severity) "info").

Definition add_finding (s : ComplianceSummary) (f : Finding) : ComplianceSummary :=
  let s := s <| cs_Findings ::= (fun l => l ++ [f]) |>
             <| cs_FindingsBySeverity ::= incr f.(fi_Severity) |> <| cs_FindingsByPack ::= incr f.(fi_Pack) |> in
  let s := if isSC081Violation f then s <| cs_SC081ViolationCount ::= Z.succ |> else s in
  if String.eqb f.(fi_Pack) "pci" then s <| cs_PCIFindingCount ::= Z.succ |> else s.

Definition add_cert (now : time) (cert : Certificate) (s : ComplianceSummary) : ComplianceSummary :=
  fold_left add_finding (EvaluateCert now cert) (s <| cs_AlgorithmInventory ::= updateAlgorithmInventory cert |>).

(** The loop of [EvaluateCerts]: each certificate is judged at its own time. *)
Fixpoint add_certs (certs : list Certificate) (s : ComplianceSummary) : M ComplianceSummary :=
  match certs with
  | [] => mret s
  | c :: certs' => now <-- time_now ;; add_certs certs' (add_cert now c s)
  end.

Definition EvaluateCerts (certs : list Certificate) : M ComplianceSummary :=
  now <-- time_now ;;
  s <-- add_certs certs (Build_ComplianceSummary None now (Z.of_nat (length certs)) ∅ ∅
                           (Build_AlgorithmInventory 0 0 0 0 0) 0 0 []) ;;
  mret (s <| cs_Findings ::= sortFindings |>).

Definition count_violations (now : time) (c : Certificate) : Z :=
  Z.of_nat (length (filter (fun f => isSC081Violation f = true) (EvaluateSC081 now (CertInputFromStore c)))).
Fixpoint count_all (certs : list Certificate) (n : Z) : M Z :=
  match certs with
  | [] => mret n
  | c :: certs' => now <-- time_now ;; count_all certs' (n + count_violations now c)
  end.

(** *** Paging through the certificates

    [compliance.CertStore], and the loop of [loadAllCertificates], which
    [posture.loadScanCerts] and [report.loadScanCertificates] repeat.  A
    lister says how many pages it may still give: the store's table is finite,
    and grows only as long as others take steps ([load_pages_enough]: the loop
    always ends within that number). *)
Class CertLister := {
  list_certificates : CertificateFilter -> M (res (list Certificate * Z));
  pages_left : World -> nat
}.
(** The database when the others are done. *)
Definition settled (w : World) : DB := fold_left (fun db e => e.(es_others) db) w.(w_env) w.(w_db).
#[export] Instance pg_cert_lister : CertLister := {
  list_certificates := ListCertificates;
  pages_left := fun w => S (length w.(w_env) + size (settled w).(certificates))
}.

Section Evaluation.
Context `{CertLister}.

Definition page_filter (scanID : option uuid) (offset : Z) : CertificateFilter :=
  {| cf_Status := ""; cf_ChainStatus := ""; cf_Search := ""; cf_ScanID := scanID; cf_PQCTag := "";
     cf_MinRisk := None; cf_SortBy := ""; cf_SortDesc := false; cf_Limit := 500; cf_Offset := offset |}.

Fixpoint load_pages (n : nat) (scanID : option uuid) (offset : Z) (all : list Certificate) :
    M (res (list Certificate)) :=
  match n with
  | O => mret (Ok all)
  | S n' =>
      page <-? list_certificates (page_filter scanID offset) ;;
      let '(batch, total) := page in
      let all := all ++ batch in
      let offset := offset + Z.of_nat (length batch) in
      if (total <=? offset) || Nat.eqb (length batch) 0 then mret (Ok all)
      else load_pages n' scanID offset all
  end.
Definition loadAllCertificates (scanID : option uuid) : M (res (list Certificate)) := fun w =>
  load_pages (pages_left w) scanID 0 [] w.

Definition EvaluateScan (scanID : option uuid) : M (res ComplianceSummary) :=
  certs <-? loadAllCertificates scanID ;;
  s <-- EvaluateCerts certs ;;
  mret (Ok (match scanID with Some id => s <| cs_ScanID := Some id |> | None => s end)).

Definition CountSC081Violations (scanID : option uuid) : M (res Z) :=
  certs <-? loadAllCertificates scanID ;;
  n <-- count_all certs 0 ;;
  mret (Ok n).
End Evaluation.

(** ** The ceilings *)

(** The ceiling of an issuance date is the strictest of those in force on it:
    none before 15 March 2026, and from then on the one that allows the fewest
    days among those whose date has passed. *)
Theorem sc081CeilingFor_spec nb :
  match sc081CeilingFor nb with
  | None => nb < utc_date 2026 3 15
  | Some c => c ∈ sc081Ceilings /\ ce_effective c <= nb /\
      forall c', c' ∈ sc081Ceilings -> ce_effective c' <= nb -> c.(ce_maxDays) <= c'.(ce_maxDays)
  end.
Proof.
  unfold sc081CeilingFor, sc081Ceilings. cbn [find].
  repeat match goal with |- context [Z.ltb ?a ?b] => destruct (Z.ltb_spec a b); cbn [negb] end; [done|..].
  all: split_and!; [set_solver|done|].
  all: intros c' Hc' Hle; repeat (apply elem_of_cons in Hc' as [->|Hc']; [simpl in *; lia || done|]).
  all: by apply elem_of_nil in Hc'.
Qed.

(** ** Counting *)

Definition count_if {A} (p : A -> bool) (l : list A) : Z := Z.of_nat (length (filter (fun x => p x = true) l)).

Lemma count_if_app {A} (p : A -> bool) l l' : count_if p (l ++ l') = count_if p l + count_if p l'.
Proof. unfold count_if. rewrite filter_app, length_app. lia. Qed.

Lemma count_if_one {A} (p : A -> bool) x : count_if p [x] = if p x then 1 else 0.
Proof. unfold count_if. rewrite filter_cons. by destruct (p x). Qed.

Lemma count_if_perm {A} (p : A -> bool) l l' : l ≡ₚ l' -> count_if p l = count_if p l'.
Proof. intros Hp. unfold count_if. by rewrite Hp. Qed.

Lemma count_if_none {A} (p : A -> bool) l : Forall (fun x => p x = false) l -> count_if p l = 0.
Proof. unfold count_if. induction 1 as [|x l Hx _ IH]; [done|]. rewrite filter_cons_False; congruence. Qed.

Lemma incr_count {A} (key : A -> string) k x l (m : gmap string Z) :
  (forall k', default 0 (m !! k') = count_if (fun y => String.eqb (key y) k') l) ->
  default 0 (incr (key x) m !! k) = count_if (fun y => String.eqb (key y) k) (l ++ [x]).
Proof.
  intros Hm. unfold incr. rewrite lookup_insert, count_if_app, count_if_one.
  destruct (String.eqb_spec (key x) k); case_decide; subst; try done; rewrite ?Hm; simpl; rewrite ?Hm; lia.
Qed.

(** A summary that reports the findings [l]. *)
Record summary_of (s : ComplianceSummary) (l : list Finding) : Prop := {
  so_findings : s.(cs_Findings) ≡ₚ l;
  so_severity : forall k, default 0 (s.(cs_FindingsBySeverity) !! k) = count_if (fun f => String.eqb f.(fi_Severity) k) l;
  so_pack : forall k, default 0 (s.(cs_FindingsByPack) !! k) = count_if (fun f => String.eqb f.(fi_Pack) k) l;
  so_violations : s.(cs_SC081ViolationCount) = count_if isSC081Violation l;
  so_pci : s.(cs_PCIFindingCount) = count_if (fun f => String.eqb f.(fi_Pack) "pci") l
}.

Lemma add_finding_summary s l f : summary_of s l -> summary_of (add_finding s f) (l ++ [f]).
Proof.
  intros [Hf Hs Hp Hv Hc]. unfold add_finding.
  split; try intros k; destruct (isSC081Violation f) eqn:Ev, (String.eqb (fi_Pack f) "pci") eqn:Ep; simpl.
  1-4: by rewrite Hf.
  1-4: by apply (incr_count fi_Severity).
  1-4: by apply (incr_count fi_Pack).
  all: rewrite count_if_app, count_if_one, ?Ev, ?Ep; lia.
Qed.

Lemma add_findings_summary s l fs : summary_of s l -> summary_of (fold_left add_finding fs s) (l ++ fs).
Proof.
  revert s l. induction fs as [|f fs IH]; intros s l Hs; simpl; [by rewrite app_nil_r|].
  rewrite cons_middle, app_assoc. by apply IH, add_finding_summary.
Qed.

Lemma add_certs_calm certs s l w :
  w.(w_env) = [] -> summary_of s l ->
  exists s', add_certs certs s w = (s', w) /\ s'.(cs_TotalCerts) = s.(cs_TotalCerts) /\
    summary_of s' (l ++ concat (map (EvaluateCert w.(w_clock)) certs)).
Proof.
  intros Henv. revert s l. induction certs as [|c certs IH]; intros s l Hs; simpl.
  - exists s. by rewrite app_nil_r.
  - unfold mbind, time_now, next_env. rewrite Henv.
    assert (forall fs s0, cs_TotalCerts (fold_left add_finding fs s0) = cs_TotalCerts s0) as Htot.
    { induction fs as [|f fs IHf]; intros s0; simpl; [done|]. rewrite IHf. unfold add_finding. by repeat case_match. }
    edestruct (IH (add_cert (w_clock w) c s) (l ++ EvaluateCert (w_clock w) c)) as (s' & E & Ht & Hs').
    { apply add_findings_summary. by destruct Hs. }
    exists s'. rewrite E. split_and!; [done| |by rewrite app_assoc].
    rewrite Ht. unfold add_cert. by rewrite Htot.
Qed.

Lemma sortFindings_perm l : sortFindings l ≡ₚ l.
Proof. apply stable_sort_perm. Qed.

(** Only the SC-081 pack makes violations. *)
Lemma violations_sc081 now c :
  count_if isSC081Violation (EvaluateCert now c) = count_violations now c.
Proof.
  unfold EvaluateCert. rewrite (count_if_perm _ _ _ (sortFindings_perm _)), !count_if_app.
  rewrite (count_if_none _ (EvaluatePCI _)), (count_if_none _ (EvaluateCrypto _)); [unfold count_violations, count_if; lia|..];
    unfold EvaluatePCI, EvaluateCrypto, finding_if; repeat case_match; repeat constructor.
Qed.

Lemma count_all_calm certs n w :
  w.(w_env) = [] ->
  count_all certs n w = (n + count_if isSC081Violation (concat (map (EvaluateCert w.(w_clock)) certs)), w).
Proof.
  intros Henv. revert n. induction certs as [|c certs IH]; intros n; simpl.
  - unfold mret, count_if. simpl. f_equal. lia.
  - unfold mbind, time_now, next_env. rewrite Henv, IH, count_if_app, violations_sc081. f_equal. lia.
Qed.

(** ** Paging reaches every certificate *)

Section PagingFacts.
Context `{UuidGen, StoreConfig}.

Definition scan_certs (scanID : option uuid) (db : DB) : list Certificate :=
  let f := page_filter scanID 0 in select (cert_where db f) (cert_order f) db.(certificates).

Lemma list_page scanID offset w :
  w.(w_env) = [] -> 0 <= offset ->
  ListCertificates (page_filter scanID offset) w =
  (Ok (take 500 (drop (Z.to_nat offset) (scan_certs scanID w.(w_db))), Z.of_nat (length (scan_certs scanID w.(w_db)))), w).
Proof.
  intros Henv Ho. unfold ListCertificates, mtry, mbind at 1. rewrite (store_call_read _ _ _ Henv) by done.
  unfold mbind at 1. erewrite (store_call_read _ _ _ Henv).
  2: { unfold tbind, trequire. simpl. rewrite (proj2 (Z.leb_le _ _)) by done. done. }
  unfold mret. do 3 f_equal. unfold scan_certs, select. by rewrite !length_stable_sort.
Qed.

Lemma load_pages_all n scanID (k : nat) w :
  let rows := scan_certs scanID w.(w_db) in
  w.(w_env) = [] -> (k <= length rows)%nat -> (0 < n)%nat -> Z.of_nat (length rows) <= Z.of_nat k + 500 * Z.of_nat n ->
  load_pages n scanID (Z.of_nat k) (take k rows) w = (Ok rows, w).
Proof.
  intros rows Henv. revert k. induction n as [|n IH]; intros k Hk Hn Hlen; [lia|]. simpl load_pages.
  unfold list_certificates, pg_cert_lister, mtry, mbind. rewrite list_page by (done || lia). fold rows.
  rewrite Nat2Z.id, take_take_drop. set (b := take 500 (drop k rows)).
  assert (length b = min 500 (length rows - k)) as Hb by (unfold b; rewrite length_take, length_drop; lia).
  destruct (Z.leb_spec (Z.of_nat (length rows)) (Z.of_nat k + Z.of_nat (length b))); simpl.
  - unfold mret. rewrite take_ge by lia. done.
  - destruct (Nat.eqb_spec (length b) 0); [lia|].
    replace (Z.of_nat k + Z.of_nat (length b)) with (Z.of_nat (k + 500)) by lia. apply IH; lia.
Qed.

Lemma scan_certs_size scanID db : (length (scan_certs scanID db) <= size db.(certificates))%nat.
Proof.
  unfold scan_certs, select. rewrite length_stable_sort. etransitivity; [apply length_filter|].
  by rewrite length_map, length_map_to_list.
Qed.
Lemma load_all_calm scanID w : w.(w_env) = [] -> loadAllCertificates scanID w = (Ok (scan_certs scanID w.(w_db)), w).
Proof.
  intros Henv. pose proof (scan_certs_size scanID w.(w_db)). unfold loadAllCertificates. cbn [pages_left pg_cert_lister].
  unfold settled. rewrite Henv. refine (load_pages_all _ scanID 0 w Henv _ _ _); simpl; lia.
Qed.

(** What a store call does to the steps the others have left. *)
Lemma store_call_settled {A} (f : txn A) w r w' :
  (forall c db db' a, f c db = Ok (db', a) -> db' = db) -> store_call f w = (r, w') ->
  w'.(w_env) = tail w.(w_env) /\ settled w' = settled w.
Proof.
  intros Hf (e & w1 & He & Hcase)%store_call_spec.
  assert (w1.(w_env) = tail w.(w_env) /\ settled w1 = settled w) as [E1 E2].
  { unfold settled. apply next_env_spec in He as (_ & -> & _ & [->|(E & -> & ->)]); [done|]. by rewrite E. }
  destruct Hcase as [[-> _]|(a & db' & ->%Hf & -> & _)]; [done|]. by destruct w1.
Qed.
Lemma list_certificates_settled f w r w' :
  ListCertificates f w = (r, w') ->
  (length w'.(w_env) <= pred (length w.(w_env)))%nat /\ settled w' = settled w /\
  (w.(w_env) = [] -> forall rows total, r = Ok (rows, total) -> total <= Z.of_nat (size (settled w).(certificates))).
Proof.
  unfold ListCertificates, mtry, mbind at 1. destruct (store_call _ w) as [r1 w1] eqn:E1. pose proof E1 as E1'.
  apply store_call_settled in E1 as [He1 Hs1]; [|by intros; txn_inv].
  assert (length w1.(w_env) = pred (length w.(w_env))) as Hl by (rewrite He1; by destruct (w_env w)).
  destruct r1 as [total|e]; [|intros [= <- <-]; split_and!; [lia|done|done]].
  unfold mbind. destruct (store_call _ w1) as [r2 w2] eqn:E2. apply store_call_settled in E2 as [He2 Hs2]; [|by intros; txn_inv].
  assert (length w2.(w_env) <= length w1.(w_env))%nat by (rewrite He2; destruct (w_env w1); simpl; lia).
  destruct r2 as [rows|e]; intros [= <- <-]; (split_and!; [lia|congruence|]); [|done]. intros Henv rows' total' [= -> ->].
  rewrite store_call_calm in E1' by done. unfold tbind, trequire, tget in E1'. destruct (filter_casts f); [|done].
  injection E1' as E1' _. subst total'. unfold settled. rewrite Henv. simpl. apply inj_le. unfold select.
  rewrite length_stable_sort. etransitivity; [apply length_filter|]. by rewrite length_map, length_map_to_list.
Qed.

(** The loop ends within [pages_left]: more fuel changes nothing. *)
Lemma load_pages_enough n m scanID offset all w :
  0 <= offset -> (length w.(w_env) + (size (settled w).(certificates) - Z.to_nat offset) < n)%nat -> (n <= m)%nat ->
  load_pages m scanID offset all w = load_pages n scanID offset all w.
Proof.
  revert m offset all w. induction n as [|n IH]; intros m offset all w Ho Hn Hm; [lia|]. destruct m as [|m]; [lia|].
  cbn [load_pages]. unfold mtry, mbind. destruct (list_certificates _ w) as [[[batch total]|e] w1] eqn:E; [|done].
  apply list_certificates_settled in E as (Hl & Hs & Ht).
  destruct (Z.leb_spec total (offset + Z.of_nat (length batch))); [done|]. destruct (Nat.eqb_spec (length batch) 0); [done|]. simpl.
  apply IH; [lia| |lia]. rewrite Hs. destruct (w_env w) as [|x l]; simpl in *; [|lia].
  specialize (Ht eq_refl _ _ eq_refl). lia.
Qed.
(** Whoever interferes, as much fuel as one likes gives the same answer. *)
Lemma loadAllCertificates_ends n scanID w : (pages_left w <= n)%nat -> load_pages n scanID 0 [] w = loadAllCertificates scanID w.
Proof. intros Hn. apply load_pages_enough; [done| |done]. simpl. lia. Qed.

(** Paging finds every certificate: undisturbed, the loop of
    [loadAllCertificates] returns exactly the certificates of the scan, or of
    the estate, each once, last seen first. *)
Theorem loadAllCertificates_all scanID w :
  w.(w_env) = [] ->
  exists certs, loadAllCertificates scanID w = (Ok certs, w) /\
    StronglySorted (fun a b => b.(c_LastSeen) <= a.(c_LastSeen)) certs /\
    certs ≡ₚ filter (fun c => match scanID with Some s => observed_in w.(w_db) s c | None => true end = true)
               (map snd (map_to_list w.(w_db).(certificates))).
Proof.
  intros Henv. exists (scan_certs scanID w.(w_db)). split_and!.
  - by apply load_all_calm.
  - assert (StrictWeak (cert_order (page_filter scanID 0))) by exact (flip_sw (fun a b => c_LastSeen a <? c_LastSeen b)).
    eapply StronglySorted_impl; [|apply stable_sort_sorted; assumption].
    intros a b. unfold not_after, cert_order. simpl. by intros Hab%Z.ltb_ge.
  - unfold scan_certs, select. rewrite stable_sort_perm. erewrite list_filter_iff; [reflexivity|].
    intros c. unfold cert_where. simpl. by destruct scanID; rewrite ?andb_true_r.
Qed.

(** The evaluation of a scan is consistent, and its cheap variant agrees with
    it: undisturbed, the report's counters are the numbers of its findings by
    severity, by pack and of violations, its findings are those of its
    certificates, worst first, and [CountSC081Violations], which runs one pack
    only, returns the same count of violations. *)
Theorem EvaluateScan_consistent scanID w :
  w.(w_env) = [] ->
  exists s, EvaluateScan scanID w = (Ok s, w) /\
    s.(cs_Findings) ≡ₚ concat (map (EvaluateCert w.(w_clock)) (scan_certs scanID w.(w_db))) /\
    StronglySorted (not_after finding_less) s.(cs_Findings) /\
    (forall k, default 0 (s.(cs_FindingsBySeverity) !! k) = count_if (fun f => String.eqb f.(fi_Severity) k) s.(cs_Findings)) /\
    (forall k, default 0 (s.(cs_FindingsByPack) !! k) = count_if (fun f => String.eqb f.(fi_Pack) k) s.(cs_Findings)) /\
    s.(cs_SC081ViolationCount) = count_if isSC081Violation s.(cs_Findings) /\
    CountSC081Violations scanID w = (Ok s.(cs_SC081ViolationCount), w).
Proof.
  intros Henv. unfold EvaluateScan, CountSC081Violations, mtry, mbind. rewrite load_all_calm by done.
  set (certs := scan_certs scanID (w_db w)). unfold EvaluateCerts, mbind, time_now, next_env. rewrite Henv.
  rewrite count_all_calm by done.
  set (s0 := Build_ComplianceSummary _ _ _ _ _ _ _ _ _).
  destruct (add_certs_calm certs s0 [] w Henv) as (s & E & _ & Hs).
  { split; try done; intros; simpl; by rewrite lookup_empty. }
  rewrite E. simpl. destruct Hs as [Hfi Hsev Hpk Hv _]. simpl in *.
  assert (sortFindings (cs_Findings s) ≡ₚ concat (map (EvaluateCert (w_clock w)) certs)) as Hperm
    by by rewrite sortFindings_perm.
  exists (match scanID with Some id => (s <| cs_Findings ::= sortFindings |>) <| cs_ScanID := Some id |>
                       | None => s <| cs_Findings ::= sortFindings |> end).
  assert (forall p, count_if p (concat (map (EvaluateCert (w_clock w)) certs)) = count_if p (sortFindings (cs_Findings s))) as Hc
    by (intros p; by apply count_if_perm).
  split_and!; destruct scanID; simpl; rewrite <- ?Hc; try done; try (intros k; rewrite <- Hc; by auto);
    try (apply stable_sort_sorted, finding_less_sw); by rewrite Hv.
Qed.
End PagingFacts.

(** ** The estate of one certificate *)

Section Demo.
#[local] Instance demo_uuid : UuidGen := fun n => pretty n.
#[local] Instance demo_store : StoreConfig := 30.

Definition demo_estate : World := calm_world (demo_db demo_cert) (50 * 24 * Hour).

Lemma loadAllCertificates_all_witness :
  exists certs, loadAllCertificates None demo_estate = (Ok certs, demo_estate) /\ certs = [demo_cert].
Proof.
  destruct (loadAllCertificates_all None demo_estate) as (certs & E & _ & Hp); [reflexivity|].
  exists certs. split; [done|]. vm_compute in E. by injection E as <-.
Defined.

Lemma EvaluateScan_consistent_witness :
  exists s, EvaluateScan None demo_estate = (Ok s, demo_estate) /\
    CountSC081Violations None demo_estate = (Ok s.(cs_SC081ViolationCount), demo_estate).
Proof.
  destruct (EvaluateScan_consistent None demo_estate) as (s & E & _ & _ & _ & _ & _ & Ec); [reflexivity|]. by exists s.
Defined.

(** The demo certificate is internal, so its expiry in 50 days is reported but
    is no violation. *)
Example demo_findings :
  map (fun f => (f.(fi_RuleID), f.(fi_Severity))) (EvaluateCert (50 * 24 * Hour) demo_cert)
    = [("sc081.expiry.warning"%string, "info"%string)].
Proof. vm_compute. reflexivity. Qed.
End Demo.
