(* ===== verification/Report.v ===== *)
(** * Scan reports (internal/report)

    Insights per certificate, the aggregates and ranked recommendations of a
    report, its assembly for a scan, and the CSV rendering. *)

From Stdlib Require Import Ascii.
From S2P Require Import Prelude GoLib Records Db Queue CertStore ScanQueue Compliance.

Open Scope clm_scope.

(** ** Insights *)

Record Insight := Build_Insight {
  in_Category : string;
  in_Type : string;
  in_Severity : string;
  in_Recommendation : string;
  in_SubjectCN : string;
  in_Fingerprint : string;
  in_IssuerDN : string;
  in_Description : string;
  in_Tags : list string;
  in_Metadata : gmap string string
}.

Definition certTags (c : Certificate) : list string :=
  [cert_scope_text c.(c_CertScope); managed_status_text c.(c_ManagedStatus)].

Definition isWeakKey (c : Certificate) : bool :=
  EqualFold c.(c_KeyType) "RSA" && (0 <? c.(c_KeyBits)) && (c.(c_KeyBits) <? 2048).

Definition insight_of (c : Certificate) (category type severity rec description : string) : Insight :=
  Build_Insight category type severity rec (or_blank c.(c_SubjectCN)) c.(c_FingerprintSHA256) c.(c_IssuerDN)
    description (certTags c) ∅.

Definition status_insights (c : Certificate) : list Insight :=
  match c.(c_Status) with
  | StatusExpired => [insight_of c "certificate" "expired" "high" "plan_renewal"
      "Certificate has expired but is still served on the wire"]
  | StatusRevoked => [insight_of c "certificate" "revoked" "critical" "plan_renewal"
      "Certificate is revoked in Vault but still served on the wire"]
  | StatusExpiringSoon =>
      let days := Itoa c.(c_DaysUntilExpiry) in
      [Build_Insight "certificate" "expiring_soon" "medium" "plan_renewal" (or_blank c.(c_SubjectCN))
         c.(c_FingerprintSHA256) c.(c_IssuerDN) ("Certificate expires in " ++ days ++ " day(s)")%string
         (certTags c) {["days_until_expiry"%string := days]}]
  | StatusValid => []
  end.

Definition chain_insights (c : Certificate) : list Insight :=
  match c.(c_ChainStatus) with
  | ChainIncomplete => [insight_of c "issuer" "incomplete_chain" "medium" "rescan"
      "Presented chain is incomplete; import the intermediate and rescan"]
  | ChainUntrustedRoot => [insight_of c "issuer" "untrusted_root" "medium" "import_ca"
      "Chain terminates in an untrusted root"]
  | _ => []
  end.

(** [ClassifyCertificate] *)
Definition ClassifyCertificate (c : Certificate) : list Insight :=
  status_insights c ++ chain_insights c ++
  (if c.(c_HostnameMatchesSAN) then [] else [insight_of c "certificate" "san_mismatch" "low" "fix_san"
      "Observed hostname does not match certificate SANs"]) ++
  (if isWeakKey c then [insight_of c "certificate" "weak_key" "high" "plan_renewal"
      ("Weak key: " ++ c.(c_KeyType) ++ " " ++ Itoa c.(c_KeyBits) ++ "-bit")%string] else []) ++
  match c.(c_ManagedStatus) with
  | unmanaged =>
      if bool_decide (c.(c_CertScope) = ScopeExternal)
      then [insight_of c "governance" "shadow_external" "info" "monitor_external"
              "External (public CA) certificate not managed by Vault"]
      else [insight_of c "governance" "shadow_internal" "low" "reconcile_vault"
              "Internal certificate on the wire but not matched to Vault PKI"]
  | _ => []
  end.

Definition insightRank (s : string) : Z :=
  if String.eqb s "critical" then 4
  else if String.eqb s "high" then 3
  else if String.eqb s "medium" then 2
  else if String.eqb s "low" then 1
  else 0.

(** The worst first, then by name and type. *)
Definition insight_less : Insight -> Insight -> bool :=
  rank_then (fun i => - insightRank i.(in_Severity))
    (key_then in_SubjectCN (fun a b => string_lt a.(in_Type) b.(in_Type))).
Definition SortInsights : list Insight -> list Insight := stable_sort insight_less.
Definition ClassifyAll (certs : list Certificate) : list Insight := SortInsights (concat (map ClassifyCertificate certs)).

(** ** Aggregates *)

Record ExpiryBuckets := Build_ExpiryBuckets {
  eb_Expired : Z; eb_Within7 : Z; eb_Within30 : Z; eb_Within90 : Z; eb_Beyond90 : Z
}.
#[export] Instance ExpiryBuckets_eta : Eta ExpiryBuckets := fun x =>
  Build_ExpiryBuckets (x.(eb_Expired)) (x.(eb_Within7)) (x.(eb_Within30)) (x.(eb_Within90)) (x.(eb_Beyond90)).
Record CertHealth := Build_CertHealth { ch_Total : Z; ch_ByStatus : gmap string Z; ch_ExpiryBuckets : ExpiryBuckets }.
#[export] Instance CertHealth_eta : Eta CertHealth := fun x =>
  Build_CertHealth (x.(ch_Total)) (x.(ch_ByStatus)) (x.(ch_ExpiryBuckets)).

Definition add_health (h : CertHealth) (c : Certificate) : CertHealth :=
  let days := c.(c_DaysUntilExpiry) in
  h <| ch_ByStatus ::= incr (cert_status_text c.(c_Status)) |>
    <| ch_ExpiryBuckets ::= (fun b =>
         if bool_decide (c.(c_Status) = StatusExpired) then b <| eb_Expired ::= Z.succ |>
         else if days <=? 7 then b <| eb_Within7 ::= Z.succ |>
         else if days <=? 30 then b <| eb_Within30 ::= Z.succ |>
         else if days <=? 90 then b <| eb_Within90 ::= Z.succ |>
         else b <| eb_Beyond90 ::= Z.succ |>) |>.
Definition BuildCertHealth (certs : list Certificate) : CertHealth :=
  fold_left add_health certs (Build_CertHealth (Z.of_nat (length certs)) ∅ (Build_ExpiryBuckets 0 0 0 0 0)).

Record ExpiryCounts := Build_ExpiryCounts { ec_Within7 : Z; ec_Within30 : Z; ec_Within90 : Z }.
Record ExpiryRisk := Build_ExpiryRisk { er_Counts : ExpiryCounts; er_ByScope : gmap string ExpiryCounts }.

Definition count_expiry (days : Z) (e : ExpiryCounts) : ExpiryCounts :=
  Build_ExpiryCounts (if days <=? 7 then e.(ec_Within7) + 1 else e.(ec_Within7))
    (if days <=? 30 then e.(ec_Within30) + 1 else e.(ec_Within30))
    (if days <=? 90 then e.(ec_Within90) + 1 else e.(ec_Within90)).
Definition no_expiry : ExpiryCounts := Build_ExpiryCounts 0 0 0.
Definition add_risk (r : ExpiryRisk) (c : Certificate) : ExpiryRisk :=
  if bool_decide (c.(c_Status) = StatusExpired) || (c.(c_DaysUntilExpiry) <? 0) then r
  else
    let scope := cert_scope_text c.(c_CertScope) in
    Build_ExpiryRisk (count_expiry c.(c_DaysUntilExpiry) r.(er_Counts))
      (<[scope := count_expiry c.(c_DaysUntilExpiry) (default no_expiry (r.(er_ByScope) !! scope))]> r.(er_ByScope)).
Definition BuildExpiryRisk (certs : list Certificate) : ExpiryRisk :=
  fold_left add_risk certs (Build_ExpiryRisk no_expiry ∅).

Record IssuerSummary := Build_IssuerSummary {
  is_IssuerDN : string;
  is_CertCount : Z;
  is_CACount : Z;
  is_InVault : Z;
  is_ChainStatus : gmap string Z;
  is_ImportCandidate : bool
}.

Definition count_if_b (b : bool) (n : Z) : Z := if b then n + 1 else n.
Definition add_issuer (m : gmap string IssuerSummary) (c : Certificate) : gmap string IssuerSummary :=
  let s := default (Build_IssuerSummary c.(c_IssuerDN) 0 0 0 ∅ false) (m !! c.(c_IssuerDN)) in
  <[c.(c_IssuerDN) := Build_IssuerSummary s.(is_IssuerDN) (s.(is_CertCount) + 1)
      (count_if_b c.(c_IsCA) s.(is_CACount))
      (count_if_b (bool_decide (c.(c_ManagedStatus) = managed_in_vault)) s.(is_InVault))
      (incr (chain_status_text c.(c_ChainStatus)) s.(is_ChainStatus)) s.(is_ImportCandidate)]> m.

Definition import_candidate (s : IssuerSummary) : IssuerSummary :=
  Build_IssuerSummary s.(is_IssuerDN) s.(is_CertCount) s.(is_CACount) s.(is_InVault) s.(is_ChainStatus)
    ((s.(is_InVault) =? 0) && (0 <? s.(is_CACount))).
(** The most certificates first, then by name. *)
Definition issuer_less : IssuerSummary -> IssuerSummary -> bool :=
  rank_then (fun s => - s.(is_CertCount)) (fun a b => string_lt a.(is_IssuerDN) b.(is_IssuerDN)).

Definition issuers_by_dn (certs : list Certificate) : gmap string IssuerSummary := fold_left add_issuer certs ∅.
Definition issuer_rows (order : list (string * IssuerSummary)) : list IssuerSummary :=
  stable_sort issuer_less (map (fun kv => import_candidate kv.2) order).
Definition BuildIssuerTrust (certs : list Certificate) : list IssuerSummary :=
  issuer_rows (map_to_list (issuers_by_dn certs)).

Record ScopeGovernance := Build_ScopeGovernance {
  sg_ByScope : gmap string Z;
  sg_ByManagedStatus : gmap string Z;
  sg_WithOwner : Z;
  sg_Total : Z
}.
Definition add_governance (g : ScopeGovernance) (c : Certificate) : ScopeGovernance :=
  Build_ScopeGovernance (incr (cert_scope_text c.(c_CertScope)) g.(sg_ByScope))
    (incr (managed_status_text c.(c_ManagedStatus)) g.(sg_ByManagedStatus))
    (count_if_b (negb (isMissingOwner c.(c_Owner))) g.(sg_WithOwner)) g.(sg_Total).
Definition BuildScopeGovernance (certs : list Certificate) : ScopeGovernance :=
  fold_left add_governance certs (Build_ScopeGovernance ∅ ∅ 0 (Z.of_nat (length certs))).

(** ** Recommendations *)

Record Recommendation := Build_Recommendation { re_Code : string; re_Count : Z; re_Phase : string; re_Title : string }.

(** [recMeta]: phase, title and rank of a code. *)
Definition recMeta (code : string) : string * string * Z :=
  if String.eqb code "rescan" then ("Discover", "Import intermediates and rescan to complete chains", 0)
  else if String.eqb code "monitor_external" then ("Choose", "Track public-CA certificates in CLM only", 1)
  else if String.eqb code "import_ca" then ("Import", "Import CA/issuer material into Vault PKI", 2)
  else if String.eqb code "catalog_import" then ("Import", "Catalog certificate in CLM without a Vault write", 2)
  else if String.eqb code "reconcile_vault" then ("Manage", "Run Vault PKI reconcile to match deployed certs", 3)
  else if String.eqb code "plan_renewal" then ("Manage", "Plan renewal/replacement for expiring or invalid certs", 3)
  else if String.eqb code "fix_san" then ("Manage", "Fix hostname/SAN mismatches", 3)
  else ("", "", 0)%string.
Definition rec_rank (r : Recommendation) : Z := (recMeta r.(re_Code)).2.

Definition rec_counts (insights : list Insight) : gmap string Z :=
  fold_left (fun m i => if String.eqb i.(in_Recommendation) "" then m else incr i.(in_Recommendation) m) insights ∅.
Definition recommendation (kv : string * Z) : Recommendation :=
  let '(phase, title, _) := recMeta kv.1 in Build_Recommendation kv.1 kv.2 phase title.
Definition rec_less : Recommendation -> Recommendation -> bool :=
  rank_then rec_rank (rank_then (fun r => - r.(re_Count)) (fun a b => string_lt a.(re_Code) b.(re_Code))).
Definition recommendation_rows (order : list (string * Z)) : list Recommendation :=
  stable_sort rec_less (map recommendation order).
Definition BuildRecommendations (insights : list Insight) : list Recommendation :=
  recommendation_rows (map_to_list (rec_counts insights)).

(** ** The document *)

Record BlindSpotSummary := Build_BlindSpotSummary {
  bs_VaultManaged : Z; bs_Discovered : Z; bs_Shadow : Z; bs_SC081Violations : Z
}.
Definition BuildBlindSpotSummary (managed discovered sc081Violations : Z) : BlindSpotSummary :=
  let shadow := discovered - managed in
  Build_BlindSpotSummary managed discovered (if shadow <? 0 then 0 else shadow) sc081Violations.

(** [Document]; its scope and diagnostics are the columns of the scan. *)
Record Document := Build_Document {
  doc_ReportVersion : string;
  doc_GeneratedAt : time;
  doc_Scan : Scan;
  doc_BlindSpot : BlindSpotSummary;
  doc_Compliance : ComplianceSummary;
  doc_CertHealth : CertHealth;
  doc_ExpiryRisk : ExpiryRisk;
  doc_IssuerTrust : list IssuerSummary;
  doc_Governance : ScopeGovernance;
  doc_Insights : list Insight;
  doc_Recommends : list Recommendation
}.

Definition Generate (scan : Scan) (blindSpot : BlindSpotSummary) (compliance : ComplianceSummary)
    (certs : list Certificate) : M Document :=
  now <-- time_now ;;
  let insights := ClassifyAll certs in
  mret (Build_Document "0.2.0" now scan blindSpot compliance (BuildCertHealth certs) (BuildExpiryRisk certs)
    (BuildIssuerTrust certs) (BuildScopeGovernance certs) insights (BuildRecommendations insights)).

Definition ErrScanNotCompleted : error := ErrMsg "scan not completed".

Section Build.
Context `{UuidGen}.

(** [loadScanCertificates]: the same loop a third time. *)
Definition loadScanCertificates (scanID : uuid) : M (res (list Certificate)) := loadAllCertificates (Some scanID).
Definition BuildForScan (scanID : uuid) : M (res Document) :=
  scan <-? GetScan scanID ;;
  if negb (bool_decide (scan.(s_Status) = scan_completed)) then mret (Err ErrScanNotCompleted)
  else
    counts <-? CountByManagedStatus (Some scanID) ;;
    summary <-? EvaluateScan (Some scanID) ;;
    certs <-? loadScanCertificates scanID ;;
    let blindSpot := BuildBlindSpotSummary counts.1 counts.2 summary.(cs_SC081ViolationCount) in
    doc <-- Generate scan blindSpot summary certs ;;
    mret (Ok doc).
End Build.

(** ** The aggregates add up *)

(** A field a loop increments for the elements that satisfy [p]. *)
Lemma fold_count {S A} (add : S -> A -> S) (g : S -> Z) (p : A -> bool) l s :
  (forall s c, g (add s c) = g s + if p c then 1 else 0) -> g (fold_left add l s) = g s + count_if p l.
Proof.
  intros Hg. revert s. induction l as [|x l IH]; intros s; [unfold count_if; simpl; lia|].
  change (x :: l) with ([x] ++ l) at 2. rewrite count_if_app, count_if_one. simpl. rewrite IH, Hg. lia.
Qed.

Lemma lookup_incr {K} `{Countable K} (k k' : K) m :
  default 0 (incr k m !! k') = default 0 (m !! k') + if bool_decide (k = k') then 1 else 0.
Proof. unfold incr. rewrite lookup_insert. case_decide; case_bool_decide; subst; try done; simpl; lia. Qed.

Definition near (days : Z) (c : Certificate) : bool :=
  negb (bool_decide (c.(c_Status) = StatusExpired)) && (0 <=? c.(c_DaysUntilExpiry)) && (c.(c_DaysUntilExpiry) <=? days).
Definition of_scope (scope : string) (c : Certificate) : bool := String.eqb (cert_scope_text c.(c_CertScope)) scope.

Lemma add_risk_within (get : ExpiryCounts -> Z) d scope r c :
  (get = ec_Within7 /\ d = 7) \/ (get = ec_Within30 /\ d = 30) \/ (get = ec_Within90 /\ d = 90) ->
  get (add_risk r c).(er_Counts) = get r.(er_Counts) + (if near d c then 1 else 0) /\
  get (default no_expiry ((add_risk r c).(er_ByScope) !! scope))
    = get (default no_expiry (r.(er_ByScope) !! scope)) + (if of_scope scope c && near d c then 1 else 0).
Proof.
  intros Hg. unfold add_risk, near, of_scope.
  destruct (bool_decide (c_Status c = StatusExpired)); simpl.
  { rewrite andb_false_r. lia. }
  destruct (Z.ltb_spec (c_DaysUntilExpiry c) 0), (Z.leb_spec 0 (c_DaysUntilExpiry c)); simpl; try lia.
  { rewrite andb_false_r. lia. }
  rewrite lookup_insert.
  destruct (String.eqb_spec (cert_scope_text (c_CertScope c)) scope); case_decide; subst; try done; simpl;
    unfold count_expiry; destruct Hg as [[-> ->]|[[-> ->]|[-> ->]]]; simpl; split; try lia; case_match; lia.
Qed.

Lemma risk_within (get : ExpiryCounts -> Z) d scope certs :
  (get = ec_Within7 /\ d = 7) \/ (get = ec_Within30 /\ d = 30) \/ (get = ec_Within90 /\ d = 90) ->
  get (BuildExpiryRisk certs).(er_Counts) = count_if (near d) certs /\
  get (default no_expiry ((BuildExpiryRisk certs).(er_ByScope) !! scope))
    = count_if (fun c => of_scope scope c && near d c) certs.
Proof.
  intros Hg. unfold BuildExpiryRisk.
  rewrite (fold_count add_risk (fun r => get r.(er_Counts)) (near d)) by (intros r c; by apply (add_risk_within _ _ scope)).
  rewrite (fold_count add_risk (fun r => get (default no_expiry (r.(er_ByScope) !! scope)))
             (fun c => of_scope scope c && near d c)) by (intros r c; by apply add_risk_within).
  simpl. rewrite lookup_empty. by destruct Hg as [[-> ->]|[[-> ->]|[-> ->]]].
Qed.

Definition buckets_total (b : ExpiryBuckets) : Z :=
  b.(eb_Expired) + b.(eb_Within7) + b.(eb_Within30) + b.(eb_Within90) + b.(eb_Beyond90).

Lemma count_if_all {A} (l : list A) : count_if (fun _ => true) l = Z.of_nat (length l).
Proof. unfold count_if. induction l as [|x l IH]; [done|]. rewrite filter_cons_True by done. simpl. lia. Qed.

Lemma count_if_le {A} (p q : A -> bool) l : (forall x, p x = true -> q x = true) -> count_if p l <= count_if q l.
Proof.
  intros Hpq. unfold count_if. induction l as [|x l IH]; [done|]. rewrite !filter_cons.
  specialize (Hpq x). case_decide; case_decide; simpl; try lia. naive_solver.
Qed.

(** The rows of the issuer map carry their key and count their certificates. *)
Lemma issuers_by_dn_spec certs dn :
  match issuers_by_dn certs !! dn with
  | Some s => s.(is_IssuerDN) = dn /\ s.(is_CertCount) = count_if (fun c => String.eqb c.(c_IssuerDN) dn) certs
  | None => count_if (fun c => String.eqb c.(c_IssuerDN) dn) certs = 0
  end.
Proof.
  unfold issuers_by_dn.
  assert (forall l m,
    (match m !! dn with
     | Some s => s.(is_IssuerDN) = dn /\ s.(is_CertCount) = count_if (fun c => String.eqb c.(c_IssuerDN) dn) l
     | None => count_if (fun c => String.eqb c.(c_IssuerDN) dn) l = 0 end) ->
    match fold_left add_issuer certs m !! dn with
    | Some s => s.(is_IssuerDN) = dn /\ s.(is_CertCount) = count_if (fun c => String.eqb c.(c_IssuerDN) dn) (l ++ certs)
    | None => count_if (fun c => String.eqb c.(c_IssuerDN) dn) (l ++ certs) = 0
    end) as Hall; [|by apply (Hall [])].
  induction certs as [|c certs IH]; intros l m Hm; [by rewrite app_nil_r|].
  rewrite cons_middle, app_assoc. apply (IH (l ++ [c])).
  rewrite count_if_app, count_if_one. unfold add_issuer. rewrite lookup_insert.
  destruct (String.eqb_spec (c_IssuerDN c) dn); case_decide; subst; try done; simpl.
  - destruct (m !! c_IssuerDN c); simpl; naive_solver lia.
  - destruct (m !! dn); naive_solver lia.
Qed.

(** The sections of a report agree with its certificates.  The expiry buckets
    are disjoint and cover every certificate, the counts by status are those
    of the certificates, the near-term counts are cumulative, overall and in
    each scope, count exactly the unexpired certificates, and a certificate is
    counted under its issuer. *)
Theorem aggregates_consistent certs :
  buckets_total (BuildCertHealth certs).(ch_ExpiryBuckets) = Z.of_nat (length certs) /\
  (forall st, default 0 ((BuildCertHealth certs).(ch_ByStatus) !! st)
     = count_if (fun c => String.eqb (cert_status_text c.(c_Status)) st) certs) /\
  (let r := (BuildExpiryRisk certs).(er_Counts) in
   r.(ec_Within7) = count_if (near 7) certs /\ r.(ec_Within30) = count_if (near 30) certs /\
   r.(ec_Within90) = count_if (near 90) certs /\ r.(ec_Within7) <= r.(ec_Within30) <= r.(ec_Within90)) /\
  (forall scope, let r := default no_expiry ((BuildExpiryRisk certs).(er_ByScope) !! scope) in
   r.(ec_Within90) = count_if (fun c => of_scope scope c && near 90 c) certs /\
   r.(ec_Within7) <= r.(ec_Within30) <= r.(ec_Within90)) /\
  (forall s, s ∈ BuildIssuerTrust certs ->
     s.(is_CertCount) = count_if (fun c => String.eqb c.(c_IssuerDN) s.(is_IssuerDN)) certs) /\
  (BuildScopeGovernance certs).(sg_WithOwner) = count_if (fun c => negb (isMissingOwner c.(c_Owner))) certs.
Proof.
  assert (forall x, near 7 x = true -> near 30 x = true) as H730
    by (intros x; unfold near; rewrite !andb_true_iff, !Z.leb_le; intuition lia).
  assert (forall x, near 30 x = true -> near 90 x = true) as H3090
    by (intros x; unfold near; rewrite !andb_true_iff, !Z.leb_le; intuition lia).
  split_and!.
  - unfold BuildCertHealth. rewrite (fold_count add_health (fun h => buckets_total h.(ch_ExpiryBuckets)) (fun _ => true)).
    + simpl. by rewrite count_if_all.
    + intros h c. unfold buckets_total. simpl. repeat case_match; simpl; lia.
  - intros st. unfold BuildCertHealth. rewrite (fold_count add_health (fun h => default 0 (h.(ch_ByStatus) !! st))
      (fun c => String.eqb (cert_status_text c.(c_Status)) st)); [simpl; by rewrite lookup_empty|].
    intros h c. simpl. rewrite lookup_incr. by destruct (String.eqb_spec (cert_status_text (c_Status c)) st); case_bool_decide.
  - cbv zeta. destruct (risk_within ec_Within7 7 "" certs) as [-> _]; [auto|].
    destruct (risk_within ec_Within30 30 "" certs) as [-> _]; [auto|].
    destruct (risk_within ec_Within90 90 "" certs) as [-> _]; [auto|].
    split_and!; try done; by apply count_if_le.
  - intros scope. cbv zeta. destruct (risk_within ec_Within7 7 scope certs) as [_ ->]; [auto|].
    destruct (risk_within ec_Within30 30 scope certs) as [_ ->]; [auto|].
    destruct (risk_within ec_Within90 90 scope certs) as [_ ->]; [auto|].
    split_and!; [done|..]; apply count_if_le; intros x; rewrite !andb_true_iff; naive_solver.
  - intros s. unfold BuildIssuerTrust, issuer_rows. rewrite elem_of_stable_sort.
    intros ([dn s0] & -> & Hin%elem_of_map_to_list)%list_elem_of_fmap. simpl.
    pose proof (issuers_by_dn_spec certs dn) as Hs. rewrite Hin in Hs. by destruct Hs as [-> ?].
  - unfold BuildScopeGovernance. rewrite (fold_count add_governance sg_WithOwner (fun c => negb (isMissingOwner c.(c_Owner)))); [done|].
    intros g c. simpl. unfold count_if_b. case_match; lia.
Qed.

(** ** The order of Go's map iteration does not show *)

#[export] Instance issuer_less_sw : StrictWeak issuer_less.
Proof. apply rank_then_sw, image_sw, string_lt_sw. Qed.
#[export] Instance rec_less_sw : StrictWeak rec_less.
Proof. apply rank_then_sw, rank_then_sw, image_sw, string_lt_sw. Qed.

Lemma rank_then_tie {A} (f : A -> Z) (less : A -> A -> bool) x y :
  rank_then f less x y = false -> rank_then f less y x = false -> less x y = false /\ less y x = false.
Proof.
  unfold rank_then. rewrite (Z.eqb_sym (f y)). destruct (Z.eqb_spec (f x) (f y)); simpl; [done|].
  rewrite !Z.ltb_ge. lia.
Qed.

(** Reports are reproducible: the issuer table and the recommendations are
    built by iterating over Go maps, whose order is random, and come out the
    same whatever that order is. *)
Theorem report_order_independent certs insights o1 o2 :
  map_order (issuers_by_dn certs) o1 -> map_order (rec_counts insights) o2 ->
  issuer_rows o1 = BuildIssuerTrust certs /\ recommendation_rows o2 = BuildRecommendations insights.
Proof.
  unfold map_order. intros H1 H2. split; apply (stable_sort_unique _); try (by apply Permutation_map).
  - intros x y. rewrite !list_elem_of_fmap. intros ([d1 s1] & -> & Hx) ([d2 s2] & -> & Hy) Hl Hl'.
    rewrite H1 in Hx, Hy. apply elem_of_map_to_list in Hx, Hy.
    destruct (rank_then_tie _ _ _ _ Hl Hl') as [E1 E2]. simpl in *.
    pose proof (issuers_by_dn_spec certs d1) as S1. pose proof (issuers_by_dn_spec certs d2) as S2.
    rewrite Hx in S1. rewrite Hy in S2. destruct S1 as [<- _], S2 as [<- _].
    assert (is_IssuerDN s1 = is_IssuerDN s2) as E by by apply string_lt_total. rewrite E in Hx. congruence.
  - intros x y. rewrite !list_elem_of_fmap. intros ([c1 n1] & -> & Hx) ([c2 n2] & -> & Hy) Hl Hl'.
    rewrite H2 in Hx, Hy. apply elem_of_map_to_list in Hx, Hy.
    destruct (rank_then_tie _ _ _ _ Hl Hl') as [E1 E2]. destruct (rank_then_tie _ _ _ _ E1 E2) as [E3 E4].
    unfold recommendation in *. simpl in *. destruct (recMeta c1) as [[p1 t1] k1] eqn:M1, (recMeta c2) as [[p2 t2] k2] eqn:M2.
    simpl in *. assert (c1 = c2) as -> by by apply string_lt_total. congruence.
Qed.

Section OrderWitness.
#[local] Instance order_uuid : UuidGen := fun n => pretty n.
(** The demo certificate next to one of another issuer, the maps iterated backwards. *)
Definition two_issuers : list Certificate := [demo_cert; demo_cert <| c_IssuerDN := "CN=Other CA"%string |>].

Lemma report_order_independent_witness :
  issuer_rows (reverse (map_to_list (issuers_by_dn two_issuers))) = BuildIssuerTrust two_issuers /\
  recommendation_rows (reverse (map_to_list (rec_counts (ClassifyAll two_issuers)))) =
    BuildRecommendations (ClassifyAll two_issuers).
Proof. apply report_order_independent; apply reverse_Permutation. Defined.

(** The backward iteration is another one, and the report has two rows. *)
Example orders_differ :
  map fst (reverse (map_to_list (issuers_by_dn two_issuers))) <> map fst (map_to_list (issuers_by_dn two_issuers)) /\
  length (BuildIssuerTrust two_issuers) = 2%nat.
Proof. split; [vm_compute; discriminate|vm_compute; reflexivity]. Qed.
End OrderWitness.

(** ** CSV (internal/report/csv.go) *)

Definition dquote : ascii := ascii_of_nat 34.
Definition newline : ascii := ascii_of_nat 10.
Definition tab : ascii := ascii_of_nat 9.
Definition cr : ascii := ascii_of_nat 13.

Definition csvHeader : list string :=
  ["category"; "type"; "severity"; "recommendation"; "subject_cn"; "fingerprint_sha256"; "issuer_dn";
   "days_until_expiry"; "tags"; "description"]%string.

Definition formula_char (a : ascii) : bool :=
  existsb (Ascii.eqb a) ["="%char; "+"%char; "-"%char; "@"%char; tab; cr].
Definition sanitizeCSVCell (s : string) : string :=
  match s with
  | EmptyString => s
  | String a _ => if formula_char a then String "'" s else s
  end.

Definition csv_row (i : Insight) : list string :=
  map sanitizeCSVCell
    [i.(in_Category); i.(in_Type); i.(in_Severity); i.(in_Recommendation); i.(in_SubjectCN); i.(in_Fingerprint);
     i.(in_IssuerDN); default ""%string (i.(in_Metadata) !! "days_until_expiry"%string); Join i.(in_Tags) "|";
     i.(in_Description)].

(** *** [encoding/csv.Writer] with its default settings *)

Definition csv_special (a : ascii) : bool :=
  Ascii.eqb a "," || Ascii.eqb a dquote || Ascii.eqb a cr || Ascii.eqb a newline.
Definition fieldNeedsQuotes (f : string) : bool :=
  if String.eqb f "" then false
  else if String.eqb f "\." then true
  else string_existsb csv_special f || match f with String a _ => is_space a | EmptyString => false end.

Fixpoint double_quotes (f : string) : string :=
  match f with
  | EmptyString => EmptyString
  | String a f' => if Ascii.eqb a dquote then String dquote (String dquote (double_quotes f')) else String a (double_quotes f')
  end.
Definition csv_field (f : string) : string :=
  if fieldNeedsQuotes f then String dquote (double_quotes f ++ String dquote "") else f.
Fixpoint csv_record (r : list string) : string :=
  match r with
  | [] => String newline ""
  | [f] => csv_field f ++ String newline ""
  | f :: r' => csv_field f ++ String "," (csv_record r')
  end.
Definition csv_write (rows : list (list string)) : string := foldr (fun r s => (csv_record r ++ s)%string) ""%string rows.

Definition RenderCSV (insights : list Insight) : string := csv_write (csvHeader :: map csv_row insights).

(** *** How a reader takes the text apart (RFC 4180) *)

Inductive csv_state := AtStart | InPlain | InQuoted | AfterQuote.

Fixpoint csv_read (s : string) (st : csv_state) (field : string) (row : list string) : option (list (list string)) :=
  let next f s' := csv_read s' AtStart "" (row ++ [f]) in
  let end_row f s' := (fun rows => (row ++ [f]) :: rows) <$> csv_read s' AtStart "" [] in
  match s with
  | EmptyString => match st, row with AtStart, [] => Some [] | _, _ => None end
  | String a s' =>
      match st with
      | AtStart =>
          if Ascii.eqb a dquote then csv_read s' InQuoted "" row
          else if Ascii.eqb a "," then next "" s'
          else if Ascii.eqb a newline then end_row "" s'
          else csv_read s' InPlain (String a "") row
      | InPlain =>
          if Ascii.eqb a "," then next field s'
          else if Ascii.eqb a newline then end_row field s'
          else csv_read s' InPlain (field ++ String a "") row
      | InQuoted =>
          if Ascii.eqb a dquote then csv_read s' AfterQuote field row
          else csv_read s' InQuoted (field ++ String a "") row
      | AfterQuote =>
          if Ascii.eqb a dquote then csv_read s' InQuoted (field ++ String dquote "") row
          else if Ascii.eqb a "," then next field s'
          else if Ascii.eqb a newline then end_row field s'
          else None
      end
  end%string.
Definition csv_parse (s : string) : option (list (list string)) := csv_read s AtStart "" [].

(** *** No cell breaks out *)

Lemma csv_read_quoted f acc row rest :
  csv_read (double_quotes f ++ String dquote rest) InQuoted acc row = csv_read rest AfterQuote (acc ++ f) row.
Proof.
  revert acc. induction f as [|a f IH]; intros acc; simpl double_quotes.
  - rewrite string_app_nil, string_app_empty_r. cbn [csv_read]. by rewrite Ascii.eqb_refl.
  - destruct (Ascii.eqb_spec a dquote) as [->|Ha]; rewrite !string_app_cons; cbn [csv_read].
    + rewrite !Ascii.eqb_refl. rewrite IH. by rewrite string_app_assoc.
    + rewrite (proj2 (Ascii.eqb_neq _ _)) by done. rewrite IH. by rewrite string_app_assoc.
Qed.

Lemma csv_read_plain f acc row rest :
  string_existsb csv_special f = false ->
  csv_read (f ++ rest) InPlain acc row = csv_read rest InPlain (acc ++ f) row.
Proof.
  revert acc. induction f as [|a f IH]; intros acc; simpl string_existsb.
  - intros _. by rewrite string_app_nil, string_app_empty_r.
  - intros [Ha Hf]%orb_false_iff. unfold csv_special in Ha. rewrite !orb_false_iff in Ha.
    destruct Ha as [[[H1 _] _] H2]. rewrite string_app_cons. cbn [csv_read]. rewrite H1, H2, IH by done.
    by rewrite string_app_assoc.
Qed.

(** The reader at a separator after the field [f]. *)
Definition at_separator (a : ascii) (f : string) (row : list string) (rest : string) : option (list (list string)) :=
  if Ascii.eqb a "," then csv_read rest AtStart "" (row ++ [f])
  else (fun rows => (row ++ [f]) :: rows) <$> csv_read rest AtStart "" [].

Lemma csv_read_field a f row rest :
  a = ","%char \/ a = newline -> csv_read (csv_field f ++ String a rest) AtStart "" row = at_separator a f row rest.
Proof.
  intros Ha. unfold csv_field. destruct (fieldNeedsQuotes f) eqn:Hq.
  - rewrite string_app_cons. cbn [csv_read]. rewrite Ascii.eqb_refl, string_app_assoc, string_app_cons, csv_read_quoted.
    rewrite !string_app_nil. unfold at_separator. by destruct Ha as [-> | ->].
  - unfold fieldNeedsQuotes in Hq. destruct f as [|b f]; [by destruct Ha as [-> | ->]|].
    destruct (String.eqb (String b f) "") eqn:E1; [by apply String.eqb_eq in E1|].
    destruct (String.eqb (String b f) "\."); [done|].
    apply orb_false_iff in Hq as [Hs _]. simpl string_existsb in Hs. apply orb_false_iff in Hs as [Hb Hf].
    unfold csv_special in Hb. rewrite !orb_false_iff in Hb. destruct Hb as [[[H1 H2] H3] H4].
    rewrite string_app_cons. cbn [csv_read]. rewrite H1, H2, H4, csv_read_plain by done.
    unfold at_separator. by destruct Ha as [-> | ->].
Qed.

Lemma csv_read_record r row rest :
  r <> [] -> csv_read (csv_record r ++ rest) AtStart "" row = (fun rows => (row ++ r) :: rows) <$> csv_read rest AtStart "" [].
Proof.
  revert row. induction r as [|f r IH]; intros row Hr; [done|]. destruct r as [|g r].
  - simpl csv_record. rewrite string_app_assoc, string_app_cons, string_app_nil, csv_read_field by auto. done.
  - change (csv_record (f :: g :: r)) with (csv_field f ++ String "," (csv_record (g :: r)))%string.
    rewrite string_app_assoc, string_app_cons, csv_read_field by auto. unfold at_separator. simpl (Ascii.eqb _ _).
    rewrite IH by done. by rewrite <- app_assoc.
Qed.

Lemma csv_parse_write rows : Forall (fun r => r <> []) rows -> csv_parse (csv_write rows) = Some rows.
Proof.
  unfold csv_parse. induction 1 as [|r rows Hr _ IH]; [done|]. simpl. by rewrite csv_read_record, IH.
Qed.

(** A cell no spreadsheet reads as a formula. *)
Definition inert (s : string) : Prop := match s with String a _ => formula_char a = false | EmptyString => True end.

(** C39. Untrusted names cannot escape their cell.  Whatever bytes a scanned
    endpoint puts in the subject, issuer and other fields of the insights, the
    CSV report reads back as the header and one row of ten cells per insight,
    no cell starts with a formula character, and each cell is the field, with
    a quote before it only where it started with one. *)
Theorem RenderCSV_safe insights :
  csv_parse (RenderCSV insights) = Some (csvHeader :: map csv_row insights) /\
  Forall (fun row => length row = 10%nat /\ Forall inert row) (csvHeader :: map csv_row insights) /\
  (forall s, sanitizeCSVCell s = s \/ sanitizeCSVCell s = String "'" s /\ ~ inert s).
Proof.
  assert (forall s, inert (sanitizeCSVCell s)) as Hi
    by (intros [|a s]; simpl; [done|]; destruct (formula_char a) eqn:E; done).
  split_and!.
  - apply csv_parse_write. constructor; [done|]. apply Forall_map, Forall_true. done.
  - constructor; [split; [done|repeat constructor]|]. apply Forall_map, Forall_true. intros i.
    split; [done|]. unfold csv_row. apply Forall_map, Forall_true. intros s. apply Hi.
  - intros [|a s]; simpl; [by left|]. destruct (formula_char a); [right|by left]. by split.
Qed.

(** Two cells of the demo report. *)
Example csv_example :
  csv_parse (csv_write [["=cmd()"; "a,b"]; [String dquote "x"; "y"]]%string) = Some [["=cmd()"; "a,b"]; [String dquote "x"; "y"]]%string /\
  sanitizeCSVCell "=cmd()" = "'=cmd()"%string.
Proof. vm_compute. done. Qed.
