(* ===== verification/Posture.v ===== *)
(** * Posture: findings, waivers and the risk score

    The finding and waiver tables (internal/store/findings.go, waivers.go),
    the operational pack and the recomputation of a certificate's risk
    (internal/posture). *)

From S2P Require Import Prelude GoLib Records Db Queue CertStore Compliance Report.

Open Scope clm_scope.

(** ** Findings (internal/store/findings.go) *)

Record FindingUpsert := Build_FindingUpsert {
  fu_CertID : uuid;
  fu_RuleID : string;
  fu_Pack : string;
  fu_Severity : string;
  fu_Title : string;
  fu_Detail : string;
  fu_PolicyVersionID : option uuid;
  fu_Waived : bool
}.

(** The five severities of the CHECK constraint. *)
Definition ui_severity (s : string) : bool := existsb (String.eqb s) ["critical"; "high"; "medium"; "low"; "info"]%string.

Definition upsert_finding (now : time) (f : FindingUpsert) (m : gmap (uuid * string) FindingRow) :
    gmap (uuid * string) FindingRow :=
  let first := match m !! (f.(fu_CertID), f.(fu_RuleID)) with Some r => r.(f_FirstSeenAt) | None => now end in
  <[(f.(fu_CertID), f.(fu_RuleID)) := {|
      f_CertID := f.(fu_CertID); f_RuleID := f.(fu_RuleID); f_Pack := f.(fu_Pack); f_Severity := f.(fu_Severity);
      f_Title := f.(fu_Title); f_Detail := f.(fu_Detail); f_Open := true;
      f_PolicyVersionID := f.(fu_PolicyVersionID); f_Waived := f.(fu_Waived);
      f_FirstSeenAt := first; f_LastSeenAt := now; f_ResolvedAt := None |}]> m.

(** The open findings of the certificate that were not seen are resolved. *)
Definition resolve_unseen (now : time) (certID : uuid) (seen : list string) (k : uuid * string) (r : FindingRow) : FindingRow :=
  if bool_decide (k.1 = certID) && r.(f_Open) && negb (bool_decide (k.2 ∈ seen))
  then r <| f_Open := false |> <| f_ResolvedAt := Some now |> else r.

(** A statement per element of a list. *)
Fixpoint tfor {A} (l : list A) (t : A -> txn unit) : txn unit :=
  match l with
  | [] => tret tt
  | x :: l' => tbind (t x) (fun _ => tfor l' t)
  end.

Section FindingStore.
Context `{UuidGen}.

Definition upsert_one (f : FindingUpsert) : txn unit :=
  _ <-! fk_certificate (Some f.(fu_CertID)) ;;
  _ <-! trequire (fun _ => ui_severity f.(fu_Severity)) (ErrMsg "check constraint") ;;
  tmod (fun c db => db <| findings ::= upsert_finding c.(NOW) f |>).
Definition upsert_findings_tx (certID : uuid) (current : list FindingUpsert) : txn unit :=
  _ <-! tfor current upsert_one ;;
  tmod (fun c db => db <| findings ::=
    map_imap (fun k r => Some (resolve_unseen c.(NOW) certID (map fu_RuleID current) k r)) |>).

Definition open_of (certID : uuid) (r : FindingRow) : bool := bool_decide (r.(f_CertID) = certID) && r.(f_Open).
Definition by_pack_rule : FindingRow -> FindingRow -> bool :=
  key_then f_Pack (fun a b => string_lt a.(f_RuleID) b.(f_RuleID)).
Definition finding_rows (p : FindingRow -> bool) (less : FindingRow -> FindingRow -> bool) (db : DB) : list FindingRow :=
  stable_sort less (filter (fun r => p r = true) (map snd (map_to_list db.(findings)))).

Definition ListOpenFindings (certID : uuid) : M (res (list FindingRow)) :=
  store_call (tget (fun _ db => finding_rows (open_of certID) by_pack_rule db)).

Definition UpsertFindings (certID : uuid) (current : list FindingUpsert) : M (res (list FindingRow)) :=
  _ <-? store_call (upsert_findings_tx certID current) ;; ListOpenFindings certID.

Definition ListFindingsForScan (scanID : uuid) : M (res (list FindingRow)) :=
  store_call (tget (fun _ db =>
    finding_rows (fun r => r.(f_Open) && existsb (fun o => bool_decide (o.(o_CertificateID) = r.(f_CertID)) &&
                                                          bool_decide (o.(o_ScanID) = scanID)) db.(observations))
      (key_then f_Severity by_pack_rule) db)).

Definition set_risk (score : Z) (reasons : list RiskReason) (now : time) (c : Certificate) : Certificate :=
  c <| c_RiskScore := score |> <| c_RiskReasons := reasons |> <| c_UpdatedAt := now |>.
Definition UpdateCertificateRisk (certID : uuid) (score : Z) (reasons : list RiskReason) : M (res unit) :=
  store_call (n <-! update_cert certID (fun c => set_risk score reasons c.(NOW)) ;;
              if n then tret tt else tfail ErrCertificateNotFound).

(** [CurrentOpsPolicyVersionID]: the table is filled by a migration and no
    code writes it, so its latest version is a constant. *)
Class OpsPolicy := ops_policy : option uuid.
Definition CurrentOpsPolicyVersionID `{OpsPolicy} : M (res (option uuid)) :=
  store_call (tget (fun _ _ => ops_policy)).

(** [CountPQCTags]: every tag has a count. *)
Definition CountPQCTags : M (res (gmap string Z)) :=
  store_call (tget (fun _ db =>
    fold_left (fun m c => incr (pqc_text c.(c_PQCTag)) m) (map snd (map_to_list db.(certificates)))
      (list_to_map [("classic"%string, 0); ("hybrid"%string, 0); ("pqc"%string, 0); ("unknown"%string, 0)]))).

(** ** Waivers (internal/store/waivers.go) *)

Definition waiver_active (certID : uuid) (ruleID : string) (now : time) (w : Waiver) : bool :=
  bool_decide (w.(w_CertID) = certID) && String.eqb w.(w_RuleID) ruleID &&
  bool_decide (w.(w_RevokedAt) = None) && (now <? w.(w_ExpiresAt)).
Definition ActiveWaiver (certID : uuid) (ruleID : string) (now : time) : M (res (option Waiver)) :=
  store_call (tget (fun _ db =>
    head (select (waiver_active certID ruleID now) (fun a b => b.(w_ExpiresAt) <? a.(w_ExpiresAt)) db.(waivers)))).

Definition ListWaiversForCert (certID : uuid) : M (res (list Waiver)) :=
  store_call (tget (fun _ db =>
    select (fun w => bool_decide (w.(w_CertID) = certID)) (fun a b => b.(w_CreatedAt) <? a.(w_CreatedAt)) db.(waivers))).

Definition insert_waiver (certID : uuid) (ruleID reason actor : string) (expiresAt : time) : txn Waiver :=
  _ <-! fk_certificate (Some certID) ;;
  id <-! new_uuid ;;
  _ <-! trequire (fun db => bool_decide (db.(waivers) !! id = None)) (ErrMsg "duplicate key") ;;
  fun c db =>
    let w := Build_Waiver id certID ruleID reason actor expiresAt c.(NOW) None in
    Ok (db <| waivers ::= <[id := w]> |>, w).
Definition CreateWaiver (certID : uuid) (ruleID reason actor : string) (expiresAt : time) : M (res Waiver) :=
  if String.eqb actor "" then mret (Err (ErrMsg "waiver actor required"))
  else if String.eqb reason "" then mret (Err (ErrMsg "waiver reason required"))
  else
    now <-- time_now ;;
    if negb (now <? expiresAt) then mret (Err ErrWaiverExpired)
    else store_call (insert_waiver certID ruleID reason actor expiresAt).

Definition RevokeWaiver (id : uuid) : M (res unit) :=
  store_call (fun c db =>
    match db.(waivers) !! id with
    | Some w =>
        if bool_decide (w.(w_RevokedAt) = None)
        then Ok (db <| waivers ::= <[id := w <| w_RevokedAt := Some c.(NOW) |>]> |>, tt)
        else Err ErrWaiverNotFound
    | None => Err ErrWaiverNotFound
    end).

Definition GetWaiver (id : uuid) : M (res Waiver) :=
  store_call (w <-! tget (fun _ db => db.(waivers) !! id) ;; tsome w ErrWaiverNotFound).
End FindingStore.

(** ** The operational pack (internal/posture/ops.go) *)

Definition hasSC081ExpiryViolation (fs : list Finding) : bool :=
  existsb (fun f => String.eqb f.(fi_Pack) "sc081" && negb (String.eqb f.(fi_Severity) "info") &&
    existsb (String.eqb f.(fi_RuleID)) ["sc081.expiry.expired"; "sc081.expiry.critical"; "sc081.expiry.warning"]%string) fs.

(** Every case of the switch is the type with a prefix. *)
Definition opsRuleID (i : Insight) : string := if String.eqb i.(in_Type) "" then "" else ("ops." ++ i.(in_Type))%string.

Definition opsTitle (i : Insight) : string :=
  let ty := String.eqb i.(in_Type) in
  if ty "expired" then "Certificate expired on the wire"
  else if ty "revoked" then "Revoked certificate still served"
  else if ty "expiring_soon" then "Certificate expiring soon"
  else if ty "incomplete_chain" then "Incomplete certificate chain"
  else if ty "untrusted_root" then "Untrusted root"
  else if ty "san_mismatch" then "Hostname / SAN mismatch"
  else if ty "weak_key" then "Weak key"
  else if ty "shadow_external" then "External shadow certificate"
  else if ty "shadow_internal" then "Internal shadow certificate"
  else ("Operational finding (" ++ i.(in_Type) ++ ")")%string.

Definition ops_skipped (skipExpiry : bool) (i : Insight) : bool :=
  String.eqb (opsRuleID i) "" ||
  (skipExpiry && (String.eqb i.(in_Type) "expired" || String.eqb i.(in_Type) "expiring_soon")).
Definition ops_finding (c : Certificate) (i : Insight) : Finding :=
  Build_Finding (opsRuleID i) "ops" i.(in_Severity) (opsTitle i) i.(in_Description) c.(c_ID) c.(c_FingerprintSHA256)
    (or_blank c.(c_SubjectCN)).
Definition EvaluateOps (c : Certificate) (sc081 : list Finding) : list Finding :=
  let skipExpiry := hasSC081ExpiryViolation sc081 in
  map (ops_finding c) (filter (fun i => ops_skipped skipExpiry i = false) (ClassifyCertificate c)).

Definition EvaluateCertAll (now : time) (c : Certificate) : list Finding :=
  let input := CertInputFromStore c in
  let sc081 := EvaluateSC081 now input in
  sc081 ++ EvaluatePCI input ++ EvaluateCrypto input ++ EvaluateOps c sc081.

(** ** Recomputation (internal/posture/recompute.go) *)

Definition risk_reason (r : FindingRow) : RiskReason :=
  Build_RiskReason r.(f_RuleID) r.(f_Pack) r.(f_Severity) r.(f_Title) (ScoreSeverity r.(f_Severity)) r.(f_Waived).
Definition max_score (score : Z) (r : FindingRow) : Z :=
  if r.(f_Waived) then score
  else if score <? ScoreSeverity r.(f_Severity) then ScoreSeverity r.(f_Severity) else score.
Definition scoreFromFindings (rows : list FindingRow) : Z * list RiskReason :=
  (fold_left max_score rows 0, map risk_reason rows).

Section Recompute.
Context `{UuidGen, StoreConfig, OpsPolicy}.

Definition to_upsert (c : Certificate) (policyID : option uuid) (now : time) (f : Finding) : M (res FindingUpsert) :=
  let mapped := MapFindingForPersist f in
  w <-? ActiveWaiver c.(c_ID) mapped.(fi_RuleID) now ;;
  mret (Ok (Build_FindingUpsert c.(c_ID) mapped.(fi_RuleID) mapped.(fi_Pack) mapped.(fi_Severity) mapped.(fi_Title)
    mapped.(fi_Detail) policyID (bool_decide (is_Some w)))).

Definition RecomputeCert (certID : uuid) : M (res Certificate) :=
  c <-? GetCertificate certID ;;
  policyID <-? CurrentOpsPolicyVersionID ;;
  evalNow <-- time_now ;;
  let raw := EvaluateCertAll evalNow c in
  now <-- time_now ;;
  upserts <-? mcollect raw (to_upsert c policyID now) ;;
  rows <-? UpsertFindings c.(c_ID) upserts ;;
  let '(score, reasons) := scoreFromFindings rows in
  _ <-? UpdateCertificateRisk c.(c_ID) score reasons ;;
  GetCertificate c.(c_ID).

(** The loop over the certificates of a scan stops at the first error. *)
Fixpoint recompute_all (certs : list Certificate) : M (res unit) :=
  match certs with
  | [] => mret (Ok tt)
  | c :: certs' => _ <-? RecomputeCert c.(c_ID) ;; recompute_all certs'
  end.
(** [loadScanCerts]: the loop of [loadAllCertificates] again. *)
Definition loadScanCerts (scanID : uuid) : M (res (list Certificate)) := loadAllCertificates (Some scanID).
Definition RecomputeScan (scanID : uuid) : M (res unit) :=
  certs <-? loadScanCerts scanID ;; recompute_all certs.
End Recompute.

(** ** Every rule fires at most once per certificate *)

Definition all_rules : list string :=
  ["sc081.validity.47d"; "sc081.validity.64d"; "sc081.validity.99d"; "sc081.validity.199d";
   "sc081.expiry.expired"; "sc081.expiry.critical"; "sc081.expiry.warning";
   "pci.inventory.missing_owner"; "pci.inventory.untagged_prod"; "pci.inventory.not_in_vault";
   "crypto.rsa.weak_key"; "crypto.signature.sha1"; "crypto.key.ecdsa.weak";
   "ops.expired"; "ops.revoked"; "ops.expiring_soon"; "ops.incomplete_chain"; "ops.untrusted_root";
   "ops.san_mismatch"; "ops.weak_key"; "ops.shadow_external"; "ops.shadow_internal"]%string.

Lemma all_rules_NoDup : NoDup all_rules.
Proof. by apply (bool_decide_unpack _). Qed.

Ltac sublist_tac := repeat first [apply sublist_nil_l|apply sublist_skip|apply sublist_cons].

Lemma sc081_rules now cert : map fi_RuleID (EvaluateSC081 now cert) `sublist_of` take 7 all_rules.
Proof.
  unfold EvaluateSC081. rewrite map_app.
  change (take 7 all_rules) with (take 4 all_rules ++ take 3 (drop 4 all_rules)). apply sublist_app.
  - unfold sc081ValidityFinding, sc081CeilingFor, sc081Ceilings. cbn [find].
    repeat (case_match; simplify_eq); simpl; sublist_tac.
  - unfold sc081ExpiryFindingAt. repeat case_match; simpl; sublist_tac.
Qed.

Lemma pci_rules cert : map fi_RuleID (EvaluatePCI cert) `sublist_of` take 3 (drop 7 all_rules).
Proof.
  unfold EvaluatePCI. cbv zeta. generalize (bool_decide (ci_CertScope cert = ScopeExternal)) as b1.
  generalize (isProd (ci_Environment cert)) as b2. intros b2 b1.
  destruct (b1 && isMissingOwner _), (b2 && (_ || _)), (_ && b1 && b2); simpl; sublist_tac.
Qed.

Lemma crypto_rules cert : map fi_RuleID (EvaluateCrypto cert) `sublist_of` take 3 (drop 10 all_rules).
Proof. unfold EvaluateCrypto, finding_if. repeat case_match; simpl; sublist_tac. Qed.

Lemma ops_rules c sc081 : map fi_RuleID (EvaluateOps c sc081) `sublist_of` drop 13 all_rules.
Proof.
  unfold EvaluateOps. etransitivity; [apply fmap_sublist, fmap_sublist, sublist_filter|].
  unfold ClassifyCertificate, status_insights, chain_insights. rewrite <- list_fmap_compose, !fmap_app.
  change (drop 13 all_rules) with (take 3 (drop 13 all_rules) ++ take 2 (drop 16 all_rules) ++ take 1 (drop 18 all_rules)
    ++ take 1 (drop 19 all_rules) ++ drop 20 all_rules).
  repeat apply sublist_app; repeat case_match; simpl; sublist_tac.
Qed.

Lemma EvaluateCertAll_NoDup now c : NoDup (map fi_RuleID (EvaluateCertAll now c)).
Proof.
  eapply sublist_NoDup; [apply all_rules_NoDup|]. unfold EvaluateCertAll. cbv zeta. rewrite !map_app.
  change all_rules with (take 7 all_rules ++ take 3 (drop 7 all_rules) ++ take 3 (drop 10 all_rules) ++ drop 13 all_rules).
  repeat apply sublist_app; [apply sc081_rules|apply pci_rules|apply crypto_rules|apply ops_rules].
Qed.

(** ** The pieces of a recomputation *)

(** The score is the largest of the findings that are not waived. *)
Lemma max_score_spec rows s0 :
  let s := fold_left max_score rows s0 in
  s0 <= s /\ (forall r, r ∈ rows -> r.(f_Waived) = false -> ScoreSeverity r.(f_Severity) <= s) /\
  (s = s0 \/ exists r, r ∈ rows /\ r.(f_Waived) = false /\ s = ScoreSeverity r.(f_Severity)).
Proof.
  revert s0. induction rows as [|r rows IH]; intros s0; simpl.
  { split_and!; [lia|by intros r Hr%elem_of_nil|by left]. }
  destruct (IH (max_score s0 r)) as (H1 & H2 & H3).
  assert (s0 <= max_score s0 r /\ (r.(f_Waived) = false -> ScoreSeverity r.(f_Severity) <= max_score s0 r) /\
    (max_score s0 r = s0 \/ r.(f_Waived) = false /\ max_score s0 r = ScoreSeverity r.(f_Severity))) as (G1 & G2 & G3).
  { unfold max_score. destruct (f_Waived r); [split_and!; [lia|done|by left]|].
    destruct (Z.ltb_spec s0 (ScoreSeverity (f_Severity r))); split_and!; (lia || auto). }
  split_and!; [lia| |].
  - intros x [->|Hx]%elem_of_cons Hw; [specialize (G2 Hw); lia|by apply H2].
  - destruct H3 as [->|(x & Hx & Hw & ->)].
    + destruct G3 as [?|[Hw ?]]; [by left|]. right. exists r. split_and!; [constructor|done|done].
    + right. exists x. split_and!; [by constructor|done|done].
Qed.

Lemma MapPackSeverity_ui pack s : ui_severity (MapPackSeverity pack s) = true.
Proof.
  unfold MapPackSeverity. destruct (existsb (String.eqb s) _) eqn:E; [exact E|].
  destruct (String.eqb s "warning"), (String.eqb pack "pci"); done.
Qed.

Definition upsert_all (now : time) (fs : list FindingUpsert) (m : gmap (uuid * string) FindingRow) :=
  fold_left (fun m f => upsert_finding now f m) fs m.

Section Recomputation.
Context `{UuidGen, StoreConfig, OpsPolicy}.

Lemma time_now_calm w : w.(w_env) = [] -> time_now w = (w.(w_clock), w).
Proof. intros E. unfold time_now, next_env. by rewrite E. Qed.

Lemma tfor_upsert id fs c db :
  is_Some (db.(certificates) !! id) -> Forall (fun f => f.(fu_CertID) = id /\ ui_severity f.(fu_Severity) = true) fs ->
  tfor fs upsert_one c db = Ok (db <| findings ::= upsert_all c.(NOW) fs |>, tt).
Proof.
  intros Hid Hfs. revert db Hid. induction Hfs as [|f fs [Hf Hsev] _ IH]; intros db Hid; simpl; [by destruct db|].
  assert (upsert_one f c db = Ok (db <| findings ::= upsert_finding c.(NOW) f |>, tt)) as E.
  { unfold upsert_one, tbind, fk_certificate, trequire. by rewrite Hf, bool_decide_true, Hsev by done. }
  unfold tbind. by rewrite E, IH.
Qed.

(** What the upserts leave under a key. *)
Lemma upsert_all_other now fs m k :
  Forall (fun f => (f.(fu_CertID), f.(fu_RuleID)) <> k) fs -> upsert_all now fs m !! k = m !! k.
Proof.
  unfold upsert_all. revert m. induction fs as [|f fs IH]; intros m; [done|].
  intros [Hf Hfs]%Forall_cons. simpl. rewrite IH by done. unfold upsert_finding. by rewrite lookup_insert_ne.
Qed.

Lemma upsert_all_seen now id fs m f :
  Forall (fun f => f.(fu_CertID) = id) fs -> NoDup (map fu_RuleID fs) -> f ∈ fs ->
  exists r, upsert_all now fs m !! (id, f.(fu_RuleID)) = Some r /\ r.(f_CertID) = id /\ r.(f_RuleID) = f.(fu_RuleID) /\
    r.(f_Open) = true /\ r.(f_Waived) = f.(fu_Waived) /\ r.(f_Severity) = f.(fu_Severity).
Proof.
  intros Hid. revert m. unfold upsert_all. induction Hid as [|g fs Hg Hfs IH]; intros m Hnd Hf; [by apply elem_of_nil in Hf|].
  apply NoDup_cons in Hnd as [Hn Hnd]. apply elem_of_cons in Hf as [->|Hf].
  - simpl. fold (upsert_all now fs (upsert_finding now g m)). rewrite upsert_all_other.
    + unfold upsert_finding. rewrite Hg, lookup_insert_eq. eexists. split; [done|]. done.
    + apply Forall_forall. intros x Hx Heq. apply Hn. injection Heq as _ <-. by apply list_elem_of_fmap_2.
  - by apply IH.
Qed.

Definition findings_keyed (m : gmap (uuid * string) FindingRow) : Prop :=
  forall k r, m !! k = Some r -> k = (r.(f_CertID), r.(f_RuleID)).

Lemma upsert_all_keyed now fs m : findings_keyed m -> findings_keyed (upsert_all now fs m).
Proof.
  unfold upsert_all. revert m. induction fs as [|f fs IH]; intros m Hm; [done|]. apply IH. intros k r.
  unfold upsert_finding. rewrite lookup_insert. case_decide; [by intros [= <-]|apply Hm].
Qed.

(** The findings after [UpsertFindings]. *)
Definition recomputed (now : time) (id : uuid) (fs : list FindingUpsert) (m : gmap (uuid * string) FindingRow) :=
  map_imap (fun k r => Some (resolve_unseen now id (map fu_RuleID fs) k r)) (upsert_all now fs m).

Lemma recomputed_lookup now id fs m k :
  recomputed now id fs m !! k = resolve_unseen now id (map fu_RuleID fs) k <$> upsert_all now fs m !! k.
Proof. unfold recomputed. rewrite map_lookup_imap. by destruct (upsert_all now fs m !! k). Qed.

Lemma recomputed_open now id fs m rule r :
  Forall (fun f => f.(fu_CertID) = id) fs -> NoDup (map fu_RuleID fs) ->
  recomputed now id fs m !! (id, rule) = Some r -> r.(f_Open) = true ->
  exists f, f ∈ fs /\ f.(fu_RuleID) = rule /\ r.(f_CertID) = id /\ r.(f_Waived) = f.(fu_Waived) /\ r.(f_Severity) = f.(fu_Severity).
Proof.
  intros Hid Hnd. rewrite recomputed_lookup. intros (r0 & Hr0 & ->)%fmap_Some. unfold resolve_unseen. simpl.
  rewrite bool_decide_true by done. destruct (bool_decide_reflect (rule ∈ map fu_RuleID fs)) as [Hin|Hout].
  - rewrite andb_false_r. intros _. apply list_elem_of_fmap in Hin as (f & -> & Hf).
    destruct (upsert_all_seen now id fs m f Hid Hnd Hf) as (r & Hr & ? & ? & ? & ? & ?). exists f. naive_solver.
  - destruct (f_Open r0) eqn:E; simpl; [done|]. intros ?. congruence.
Qed.

Lemma recomputed_seen now id fs m f :
  Forall (fun f => f.(fu_CertID) = id) fs -> NoDup (map fu_RuleID fs) -> f ∈ fs ->
  exists r, recomputed now id fs m !! (id, f.(fu_RuleID)) = Some r /\ r.(f_Open) = true.
Proof.
  intros Hid Hnd Hf. destruct (upsert_all_seen now id fs m f Hid Hnd Hf) as (r & Hr & _ & _ & Ho & _).
  exists r. rewrite recomputed_lookup, Hr. simpl. unfold resolve_unseen. simpl.
  rewrite (bool_decide_true (_ ∈ _)) by by apply list_elem_of_fmap_2. by rewrite andb_false_r.
Qed.

Lemma recomputed_other now id fs m k :
  Forall (fun f => f.(fu_CertID) = id) fs -> k.1 <> id -> recomputed now id fs m !! k = m !! k.
Proof.
  intros Hid Hk. rewrite recomputed_lookup, upsert_all_other.
  - destruct (m !! k); [|done]. simpl. unfold resolve_unseen. by rewrite bool_decide_false.
  - eapply Forall_impl; [exact Hid|]. intros f <- <-. by apply Hk.
Qed.

Lemma recomputed_keyed now id fs m : findings_keyed m -> findings_keyed (recomputed now id fs m).
Proof.
  intros Hm k r. rewrite recomputed_lookup. intros (r0 & Hr & ->)%fmap_Some.
  apply (upsert_all_keyed now fs m Hm) in Hr as ->. unfold resolve_unseen. by destruct (_ && _).
Qed.

Lemma elem_of_open_rows id F r :
  findings_keyed F.(findings) ->
  r ∈ finding_rows (open_of id) by_pack_rule F <-> exists rule, F.(findings) !! (id, rule) = Some r /\ r.(f_Open) = true.
Proof.
  intros Hk. unfold finding_rows. rewrite elem_of_stable_sort, list_elem_of_filter, list_elem_of_fmap. unfold open_of.
  rewrite andb_true_iff, bool_decide_eq_true. split.
  - intros [[Hc Ho] ([k r'] & -> & Hin%elem_of_map_to_list)]. simpl in *. exists (f_RuleID r').
    rewrite <- Hc. by rewrite <- (Hk _ _ Hin).
  - intros (rule & Hr & Ho). pose proof (Hk _ _ Hr) as [= -> ->]. split; [done|].
    eexists (_, r). split; [done|]. by apply elem_of_map_to_list.
Qed.

(** A rule is waived at [now] when some waiver of it is active. *)
Definition waived_at (db : DB) (id : uuid) (rule : string) (now : time) : bool :=
  existsb (waiver_active id rule now) (map snd (map_to_list db.(waivers))).

Lemma waived_at_spec db id rule now :
  waived_at db id rule now = true <-> exists k w, db.(waivers) !! k = Some w /\ waiver_active id rule now w = true.
Proof.
  unfold waived_at. rewrite existsb_exists. split.
  - intros (w & Hin & Hw). apply list_elem_of_In, list_elem_of_fmap in Hin as ([k w'] & -> & Hk%elem_of_map_to_list). eauto.
  - intros (k & w & Hk & Hw). exists w. split; [|done]. apply list_elem_of_In, list_elem_of_fmap. exists (k, w).
    split; [done|]. by apply elem_of_map_to_list.
Qed.

Definition upsert_of (db : DB) (id : uuid) (policyID : option uuid) (now : time) (f : Finding) : FindingUpsert :=
  let m := MapFindingForPersist f in
  Build_FindingUpsert id m.(fi_RuleID) m.(fi_Pack) m.(fi_Severity) m.(fi_Title) m.(fi_Detail) policyID
    (waived_at db id m.(fi_RuleID) now).

Lemma to_upsert_calm c policyID now f w :
  w.(w_env) = [] -> to_upsert c policyID now f w = (Ok (upsert_of w.(w_db) c.(c_ID) policyID now f), w).
Proof.
  intros Henv. unfold to_upsert, ActiveWaiver, mtry, mbind. rewrite (store_call_read _ _ _ Henv) by done.
  unfold mret, upsert_of. do 3 f_equal.
  set (p := waiver_active _ _ _). destruct (select p _ _) as [|x l] eqn:E.
  - rewrite bool_decide_false by (by intros [? ?]). symmetry. apply not_true_iff_false. intros (k & x & Hk & Hp)%waived_at_spec.
    assert (x ∈ select p (fun a b => w_ExpiresAt b <? w_ExpiresAt a) (waivers (w_db w))) as Hx by (apply elem_of_select; eauto).
    rewrite E in Hx. by apply elem_of_nil in Hx.
  - rewrite bool_decide_true by eauto. symmetry. apply waived_at_spec.
    assert (x ∈ select p (fun a b => w_ExpiresAt b <? w_ExpiresAt a) (waivers (w_db w))) as Hx by (rewrite E; constructor).
    apply elem_of_select in Hx as [Hp [k Hk]]. eauto.
Qed.

(** What an undisturbed recomputation leaves behind. *)
Definition upserts_of (db : DB) (id : uuid) (now : time) (c : Certificate) : list FindingUpsert :=
  map (upsert_of db id ops_policy now) (EvaluateCertAll now c).
Definition with_findings (db : DB) (id : uuid) (now : time) (c : Certificate) : DB :=
  db <| findings := recomputed now id (upserts_of db id now c) db.(findings) |>.
Definition open_rows (db : DB) (id : uuid) : list FindingRow := finding_rows (open_of id) by_pack_rule db.
Definition rescored (db : DB) (id : uuid) (now : time) (c : Certificate) : Certificate :=
  let rows := open_rows (with_findings db id now c) id in
  set_risk (fold_left max_score rows 0) (map risk_reason rows) now c.

Lemma upserts_of_cert db id now c : Forall (fun f => f.(fu_CertID) = id) (upserts_of db id now c).
Proof. by apply Forall_map, Forall_true. Qed.
Lemma upserts_of_rules db id now c : map fu_RuleID (upserts_of db id now c) = map fi_RuleID (EvaluateCertAll now c).
Proof. unfold upserts_of. by rewrite <- list_fmap_compose. Qed.
Lemma upserts_of_NoDup db id now c : NoDup (map fu_RuleID (upserts_of db id now c)).
Proof. rewrite upserts_of_rules. apply EvaluateCertAll_NoDup. Qed.

Lemma get_certificate_calm w k x :
  w.(w_env) = [] -> w.(w_db).(certificates) !! k = Some x -> store_call (get_certificate_tx k) w = (Ok x, w).
Proof. intros Henv Hx. apply store_call_read; [done|]. unfold get_certificate_tx, tbind, tget. by rewrite Hx. Qed.

Lemma RecomputeCert_calm id w c :
  w.(w_env) = [] -> w.(w_db).(certificates) !! id = Some c -> c.(c_ID) = id ->
  let c' := rescored w.(w_db) id w.(w_clock) c in
  RecomputeCert id w = (Ok c', w <| w_db := (with_findings w.(w_db) id w.(w_clock) c)
                                              <| certificates := <[id := c']> w.(w_db).(certificates) |> |>).
Proof.
  intros Henv Hc Hid. set (now := w_clock w). intros c'. set (ups := upserts_of (w_db w) id now c).
  unfold RecomputeCert, GetCertificate, CurrentOpsPolicyVersionID, mtry, mbind.
  rewrite (get_certificate_calm w id c) by done. rewrite (store_call_read _ _ _ Henv) by done.
  rewrite !(time_now_calm w) by done. fold now. rewrite (mcollect_reads _ _ ups).
  2: { apply Forall2_fmap_r, Forall_Forall2_diag, Forall_true. intros f. rewrite to_upsert_calm by done. by rewrite Hid. }
  unfold UpsertFindings, mtry, mbind. rewrite Hid, store_call_calm by done. unfold upsert_findings_tx, tbind at 1.
  rewrite (tfor_upsert id); [|by eexists|].
  2: { apply Forall_map, Forall_true. intros f. split; [done|]. apply MapPackSeverity_ui. }
  unfold tmod at 1. unfold ListOpenFindings.
  rewrite (store_call_read _ _ (open_rows (with_findings (w_db w) id now c) id)) by done.
  unfold scoreFromFindings, UpdateCertificateRisk. rewrite store_call_calm by done.
  unfold tbind, update_cert, update_row. simpl certificates. rewrite Hc. simpl.
  rewrite (get_certificate_calm _ id c'); [done|done|]. simpl. by rewrite lookup_insert_eq.
Qed.

(** The open findings it leaves are waived as the waivers say. *)
Lemma with_findings_waived db id now c rule f :
  (with_findings db id now c).(findings) !! (id, rule) = Some f -> f.(f_Open) = true ->
  f.(f_Waived) = waived_at db id rule now.
Proof.
  intros Hf Ho. destruct (recomputed_open _ _ _ _ _ _ (upserts_of_cert db id now c) (upserts_of_NoDup db id now c) Hf Ho)
    as (u & Hu & <- & _ & -> & _).
  unfold upserts_of in Hu. by apply list_elem_of_fmap in Hu as (g & -> & _).
Qed.

(** C15. The risk of a certificate is explained by its open findings.  Undisturbed,
    a recomputation leaves the certificate's open findings exactly those the
    packs report now, marks each as waived exactly when a waiver of its rule is
    active, lists them all as the reasons, sets the risk score to the largest
    score among those not waived (0 if there is none), and touches no other
    certificate or finding. *)
Theorem RecomputeCert_spec id w c :
  w.(w_env) = [] -> w.(w_db).(certificates) !! id = Some c -> c.(c_ID) = id -> findings_keyed w.(w_db).(findings) ->
  exists w', let now := w.(w_clock) in let F := w'.(w_db).(findings) in
    exists score reasons, let c' := set_risk score reasons now c in
    RecomputeCert id w = (Ok c', w') /\
    w'.(w_db).(certificates) = <[id := c']> w.(w_db).(certificates) /\
    (forall rule, (exists f, F !! (id, rule) = Some f /\ f.(f_Open) = true) <-> rule ∈ map fi_RuleID (EvaluateCertAll now c)) /\
    (forall rule f, F !! (id, rule) = Some f -> f.(f_Open) = true -> f.(f_Waived) = waived_at w.(w_db) id rule now) /\
    (forall x, x ∈ reasons <-> exists rule f, F !! (id, rule) = Some f /\ f.(f_Open) = true /\ x = risk_reason f) /\
    (forall rule f, F !! (id, rule) = Some f -> f.(f_Open) = true -> f.(f_Waived) = false -> ScoreSeverity f.(f_Severity) <= score) /\
    (score = 0 \/ exists rule f, F !! (id, rule) = Some f /\ f.(f_Open) = true /\ f.(f_Waived) = false /\
       score = ScoreSeverity f.(f_Severity)) /\
    (forall k, k.1 <> id -> F !! k = w.(w_db).(findings) !! k).
Proof.
  intros Henv Hc Hid Hkeyed. set (now := w_clock w).
  pose proof (upserts_of_cert w.(w_db) id now c) as Hups. pose proof (upserts_of_NoDup w.(w_db) id now c) as Hnd.
  pose proof (upserts_of_rules w.(w_db) id now c) as Hrules.
  set (db1 := with_findings w.(w_db) id now c). set (rows := open_rows db1 id).
  assert (findings_keyed db1.(findings)) as Hk1 by by apply recomputed_keyed.
  eexists _, (fold_left max_score rows 0), (map risk_reason rows). split; [by apply RecomputeCert_calm|].
  split; [done|]. simpl. fold now. split_and!.
  - intros rule. split.
    + intros (f & Hf & Ho). destruct (recomputed_open _ _ _ _ _ _ Hups Hnd Hf Ho) as (u & Hu & <- & _).
      rewrite <- Hrules. by apply list_elem_of_fmap_2.
    + rewrite <- Hrules. intros (u & -> & Hu)%list_elem_of_fmap. by apply recomputed_seen.
  - intros rule f. apply with_findings_waived.
  - intros x. rewrite list_elem_of_fmap. split.
    + intros (f & -> & Hf). apply (elem_of_open_rows id db1 f Hk1) in Hf as (rule & ? & ?). eauto.
    + intros (rule & f & Hf & Ho & ->). exists f. split; [done|]. apply elem_of_open_rows; eauto.
  - intros rule f Hf Ho Hw. apply (max_score_spec rows 0); [|done]. apply elem_of_open_rows; eauto.
  - destruct (max_score_spec rows 0) as (_ & _ & [?|(f & Hf & Hw & ?)]); [by left|]. right.
    apply (elem_of_open_rows id db1 f Hk1) in Hf as (rule & ? & ?). eauto 6.
  - intros k Hk. by apply recomputed_other.
Qed.
End Recomputation.

(** ** A weak key, waived *)

Section Demo.
#[local] Instance demo_uuid : UuidGen := fun n => pretty n.
#[local] Instance demo_store : StoreConfig := 30.
#[local] Instance demo_policy : OpsPolicy := Some "p1"%string.

Definition demo_weak : Certificate := demo_cert <| c_KeyBits := 1024 |>.
Definition demo_waiver : Waiver :=
  Build_Waiver "w1" "c1" "crypto.rsa.weak_key" "legacy appliance" "alice" (200 * 24 * Hour) 0 None.
Definition demo_posture : World :=
  calm_world ((demo_db demo_weak) <| waivers := {["w1"%string := demo_waiver]} |>) (10 * 24 * Hour).

Lemma RecomputeCert_spec_witness :
  exists score reasons w', RecomputeCert "c1" demo_posture = (Ok (set_risk score reasons (10 * 24 * Hour) demo_weak), w') /\
    (score = 0 \/ exists rule f, w'.(w_db).(findings) !! ("c1"%string, rule) = Some f /\ f.(f_Waived) = false /\
       score = ScoreSeverity f.(f_Severity)).
Proof.
  destruct (RecomputeCert_spec "c1" demo_posture demo_weak) as (w' & score & reasons & E & _ & _ & _ & _ & _ & Hs & _);
    [reflexivity|reflexivity|reflexivity|by intros k r; simpl; rewrite lookup_empty|].
  exists score, reasons, w'. split; [exact E|]. destruct Hs as [->|(rule & f & ? & _ & ? & ?)]; [by left|right; eauto].
Defined.

(** The waived critical finding stays listed and does not count. *)
Example demo_score :
  match (RecomputeCert "c1" demo_posture).1 with
  | Ok c => (c.(c_RiskScore), map (fun r => (r.(rr_RuleID), r.(rr_Score), r.(rr_Waived))) c.(c_RiskReasons))
  | Err _ => (0, [])
  end = (70, [("crypto.rsa.weak_key", 90, true); ("ops.shadow_internal", 20, false); ("ops.weak_key", 70, false)])%string.
Proof. vm_compute. reflexivity. Qed.
End Demo.
