(* ===== verification/Access.v ===== *)
(** * Access control: tokens, roles, audit

    Bearer tokens and their configuration (internal/config/config.go), the
    authentication and permission middleware (internal/api/auth.go, rbac.go),
    the audit of its decisions (internal/api/audit.go, internal/store/audit.go)
    and the routes it guards (internal/api/server.go). *)

From Stdlib Require Import Ascii.
From S2P Require Import Prelude GoLib Records Db Sha256.

Open Scope clm_scope.

(** ** Static tokens (internal/config/config.go) *)

(** The errors of [normalizeAuth] and [parseStaticTokens], with what they name. *)
Inductive ConfigError :=
| UnknownMode (mode : string)
| InvalidEntry (part : string)
| UnknownRole (role : string)
| DuplicateRole (role : string)
| BadDigestLength (role : string)
| BadDigestHex (role : string).

Definition knownStaticRoles : list string :=
  ["viewer"; "scanner_operator"; "remediator"; "vault_import_admin"; "approver"; "platform_admin"; "inventory"]%string.
Definition known_static_role (role : string) : bool := existsb (String.eqb role) knownStaticRoles.

Definition sha256_prefix : string := "sha256:".

Definition validateStaticTokenSecret (role token : string) : result ConfigError unit :=
  if negb (HasPrefix token sha256_prefix) then Ok tt
  else
    let digest := TrimPrefix token sha256_prefix in
    if negb (String.length digest =? 64)%nat then Err (BadDigestLength role)
    else match hex_DecodeString digest with
         | None => Err (BadDigestHex role)
         | Some _ => Ok tt
         end.

Fixpoint parse_parts (parts : list string) (out : gmap string string) : result ConfigError (gmap string string) :=
  match parts with
  | [] => Ok out
  | part :: parts' =>
      let part := TrimSpace part in
      if String.eqb part "" then parse_parts parts' out
      else
        let '(role, token, ok) := Cut part ":" in
        let role := TrimSpace role in
        let token := TrimSpace token in
        if negb ok || String.eqb role "" || String.eqb token "" then Err (InvalidEntry part)
        else if negb (known_static_role role) then Err (UnknownRole role)
        else if bool_decide (is_Some (out !! role)) then Err (DuplicateRole role)
        else match validateStaticTokenSecret role token with
             | Err e => Err e
             | Ok _ => parse_parts parts' (<[role := token]> out)
             end
  end.
Definition parseStaticTokens (raw : string) : result ConfigError (gmap string string) :=
  let raw := TrimSpace raw in
  if String.eqb raw "" then Ok ∅ else parse_parts (Split raw ",") ∅.

(** The fields of [Config] that select identities. *)
Record AuthConfig := Build_AuthConfig {
  ac_InsecureNoAuth : bool;
  ac_AuthMode : string;
  ac_StaticTokensRaw : string;
  ac_StaticTokens : gmap string string;
  ac_VaultAuthMethod : string;
  ac_VaultImportToken : string;
  ac_VaultImportRoleID : string;
  ac_VaultImportSecretID : string;
  ac_VaultImportAuthMethod : string
}.
#[export] Instance AuthConfig_eta : Eta AuthConfig := fun x =>
  Build_AuthConfig (x.(ac_InsecureNoAuth)) (x.(ac_AuthMode)) (x.(ac_StaticTokensRaw)) (x.(ac_StaticTokens))
    (x.(ac_VaultAuthMethod)) (x.(ac_VaultImportToken)) (x.(ac_VaultImportRoleID)) (x.(ac_VaultImportSecretID))
    (x.(ac_VaultImportAuthMethod)).

Definition auth_mode (c : AuthConfig) : string :=
  let mode := TrimSpace c.(ac_AuthMode) in if String.eqb mode "" then "static_token"%string else mode.

Definition normalizeAuth (c : AuthConfig) : result ConfigError AuthConfig :=
  let mode := auth_mode c in
  if negb (String.eqb mode "static_token") then Err (UnknownMode mode)
  else match parseStaticTokens c.(ac_StaticTokensRaw) with
       | Err e => Err e
       | Ok tokens => Ok (c <| ac_AuthMode := mode |> <| ac_StaticTokens := tokens |>)
       end.

(** [AuthPostureWarnings]: the two warnings. *)
Inductive AuthWarning := WarnInsecureNoAuth | WarnNoTokens.
Definition AuthPostureWarnings (c : AuthConfig) : list AuthWarning :=
  (if c.(ac_InsecureNoAuth) then [WarnInsecureNoAuth] else []) ++
  (if String.eqb (auth_mode c) "static_token" && bool_decide (size c.(ac_StaticTokens) = 0%nat) && negb c.(ac_InsecureNoAuth)
   then [WarnNoTokens] else []).

Definition ConstantTimeCompare (x y : list Z) : bool := bool_decide (x = y).

Definition staticTokenMatches (configured presented : string) : bool :=
  if HasPrefix configured sha256_prefix then
    match hex_DecodeString (TrimPrefix configured sha256_prefix) with
    | Some want =>
        if (length want =? 32)%nat then ConstantTimeCompare want (Sum256 (bytes_of presented)) else false
    | None => false
    end
  else if negb (String.length configured =? String.length presented)%nat then false
  else ConstantTimeCompare (bytes_of configured) (bytes_of presented).

(** [order] is the order the loop ranges over the map of tokens in. *)
Definition LookupStaticRole (order : list (string * string)) (presented : string) : option string :=
  if String.eqb presented "" || (length order =? 0)%nat then None
  else fst <$> find (fun kv => staticTokenMatches kv.2 presented) order.

Definition not_blank (s : string) : bool := negb (String.eqb (TrimSpace s) "").

Definition HasVaultImportIdentity (c : AuthConfig) : bool :=
  if not_blank c.(ac_VaultImportToken) then true
  else not_blank c.(ac_VaultImportRoleID) && not_blank c.(ac_VaultImportSecretID).

Definition ResolveVaultImportAuthMethod (c : AuthConfig) : string :=
  if not_blank c.(ac_VaultImportAuthMethod) then TrimSpace c.(ac_VaultImportAuthMethod)
  else
    let hasToken := not_blank c.(ac_VaultImportToken) in
    let hasAppRole := not_blank c.(ac_VaultImportRoleID) && not_blank c.(ac_VaultImportSecretID) in
    if hasToken && negb hasAppRole then "token"%string
    else if hasAppRole && negb hasToken then "approle"%string
    else if not_blank c.(ac_VaultAuthMethod) then TrimSpace c.(ac_VaultAuthMethod)
    else "token"%string.

(** ** Permissions (internal/api/rbac.go) *)

Definition roleViewer : string := "viewer".
Definition roleScannerOperator : string := "scanner_operator".
Definition roleRemediator : string := "remediator".
Definition roleVaultImportAdmin : string := "vault_import_admin".
Definition roleApprover : string := "approver".
Definition rolePlatformAdmin : string := "platform_admin".
Definition roleInventory : string := "inventory".

Definition knownRBACRole (role : string) : bool :=
  existsb (String.eqb role)
    [roleViewer; roleScannerOperator; roleRemediator; roleVaultImportAdmin; roleApprover; rolePlatformAdmin; roleInventory].

Definition isInventoryGET (method path : string) : bool :=
  String.eqb method "GET" && String.eqb path "/api/v1/inventory".

Definition viewer_prefixes : list string :=
  ["/api/v1/inventory"; "/api/v1/scans"; "/api/v1/certificates"; "/api/v1/issuers"; "/api/v1/events";
   "/api/v1/lifecycle-jobs"; "/api/v1/blindspot"; "/api/v1/compliance"; "/api/v1/waivers"]%string.
Definition isViewerRead (method path : string) : bool :=
  if negb (String.eqb method "GET") then false
  else if HasPrefix path "/api/v1/settings/" then false
  else existsb (fun prefix => String.eqb path prefix || HasPrefix path (prefix ++ "/")%string) viewer_prefixes.

Definition isCreateScan (method path : string) : bool :=
  if negb (String.eqb method "POST") then false
  else String.eqb path "/api/v1/scans" || String.eqb path "/api/v1/scans/collect" ||
       String.eqb path "/api/v1/scans/adcs" || String.eqb path "/api/v1/scans/akv".

Definition isWaiverWrite (method path : string) : bool :=
  if String.eqb method "POST" && HasPrefix path "/api/v1/certificates/" && HasSuffix path "/waivers" then true
  else String.eqb method "DELETE" && HasPrefix path "/api/v1/waivers/".

Definition isRemediate (method path : string) : bool :=
  if String.eqb method "POST" then
    if String.eqb path "/api/v1/renew-expiring" || String.eqb path "/api/v1/migrate-eligible" ||
       String.eqb path "/api/v1/lifecycle-jobs/claim" then true
    else if HasPrefix path "/api/v1/certificates/" then
      HasSuffix path "/catalog-import" || HasSuffix path "/renew" || HasSuffix path "/migrate" ||
      HasSuffix path "/revoke" || HasSuffix path "/revocation-check" || HasSuffix path "/waivers"
    else false
  else if String.eqb method "PATCH" then
    let rest := TrimPrefix path "/api/v1/certificates/" in
    negb (String.eqb rest path) && negb (String.eqb rest "") && negb (Contains rest "/")
  else if String.eqb method "DELETE" then isWaiverWrite method path
  else false.

Definition isVaultImport (method path : string) : bool :=
  if negb (String.eqb method "POST") then false
  else if String.eqb path "/api/v1/reconcile" then true
  else HasPrefix path "/api/v1/issuers/" && HasSuffix path "/import".

Definition isSettingsRead (method path : string) : bool :=
  String.eqb method "GET" && HasPrefix path "/api/v1/settings/".

Definition roleAllows (role method path : string) : bool :=
  let path := TrimSuffix path "/" in
  if String.eqb role roleInventory then isInventoryGET method path
  else if String.eqb role roleViewer then isViewerRead method path
  else if String.eqb role roleApprover then isViewerRead method path || isWaiverWrite method path
  else if String.eqb role roleScannerOperator then isViewerRead method path || isCreateScan method path
  else if String.eqb role roleRemediator then
    isViewerRead method path || isCreateScan method path || isRemediate method path || isSettingsRead method path
  else if String.eqb role roleVaultImportAdmin then
    isViewerRead method path || isCreateScan method path || isRemediate method path || isVaultImport method path
  else String.eqb role rolePlatformAdmin.

(** ** Audit (internal/api/audit.go, internal/store/audit.go) *)

(** A payload value ([any]): [AOther] is a value the redaction passes on (a
    number, a boolean, bytes, a struct). *)
Inductive any :=
| AMap (m : list (string * any))
| AList (l : list any)
| AStrings (l : list string)
| AStr (s : string)
| AOther (j : json).

Record AuditEvent := Build_AuditEvent {
  au_ActorID : string;
  au_ActorType : string;
  au_Role : string;
  au_Action : string;
  au_TargetType : string;
  au_TargetID : string;
  au_Decision : string;
  au_RequestID : string;
  au_RemoteIP : string;
  au_Payload : option any
}.
#[export] Instance AuditEvent_eta : Eta AuditEvent := fun x =>
  Build_AuditEvent (x.(au_ActorID)) (x.(au_ActorType)) (x.(au_Role)) (x.(au_Action)) (x.(au_TargetType)) (x.(au_TargetID))
    (x.(au_Decision)) (x.(au_RequestID)) (x.(au_RemoteIP)) (x.(au_Payload)).

Definition sensitiveAuditKey (k : string) : bool :=
  let n := ReplaceByte (ToLower (TrimSpace k)) "-" "_" in
  if existsb (String.eqb n)
       ["authorization"; "token"; "secret"; "secret_id"; "role_id"; "password"; "pem"; "pem_bundle"; "ca_chain";
        "secrets"; "secrets_enc"; "aap_token"; "vault_token"; "api_key"; "bearer"]%string then true
  else if Contains n "token" || Contains n "secret" || Contains n "password" then true
  else HasSuffix n "_pem" || String.eqb n "pem".

Definition looksLikePEM (s : string) : bool := Contains s "-----BEGIN".

Definition redact_string (s : string) : any := AStr (if looksLikePEM s then "[redacted]"%string else s).
Fixpoint redactAuditValue (v : any) : any :=
  match v with
  | AMap m =>
      AMap ((fix go (m : list (string * any)) : list (string * any) :=
               match m with
               | [] => []
               | (k, val) :: m' => if sensitiveAuditKey k then go m' else (k, redactAuditValue val) :: go m'
               end) m)
  | AList l => AList (map redactAuditValue l)
  | AStrings l => AList (map redact_string l)
  | AStr s => redact_string s
  | AOther j => AOther j
  end.

(** What the payload column stores the JSON of. *)
Definition marshalAuditPayload (payload : option any) : any :=
  match payload with
  | None => AMap []
  | Some p => redactAuditValue p
  end.

(** [auditor]: where audit events go; its errors are dropped. *)
Class AuditSink (W : Type) := AppendAudit : AuditEvent -> W -> W.

(** The table [audit_events], in order of insertion; the insert fails or not. *)
Record AuditTable := Build_AuditTable { at_rows : list AuditEvent; at_faults : list bool }.
Definition store_AppendAudit (ev : AuditEvent) (t : AuditTable) : AuditTable :=
  let row := ev <| au_Payload := Some (marshalAuditPayload ev.(au_Payload)) |> in
  match t.(at_faults) with
  | true :: faults => Build_AuditTable t.(at_rows) faults
  | _ => Build_AuditTable (t.(at_rows) ++ [row]) (tail t.(at_faults))
  end.
#[export] Instance storeAuditor : AuditSink AuditTable := store_AppendAudit.

(** ** The middleware (internal/api/auth.go, rbac.go) *)

(** The parts of a request the middleware reads; [rq_actor] is the role in its
    context. *)
Record Request := Build_Request {
  rq_Method : string;
  rq_Path : string;
  rq_Authorization : string;
  rq_RemoteAddr : string;
  rq_RequestID : string;
  rq_actor : option string
}.
#[export] Instance Request_eta : Eta Request := fun x =>
  Build_Request (x.(rq_Method)) (x.(rq_Path)) (x.(rq_Authorization)) (x.(rq_RemoteAddr)) (x.(rq_RequestID)) (x.(rq_actor)).
Record Response := Build_Response { rs_status : Z; rs_body : string }.

Record Server := Build_Server {
  sv_cfg : AuthConfig;
  sv_actor : string;
  sv_auditor : bool
}.

Definition ContextWithActor (role : string) (r : Request) : Request := r <| rq_actor := Some role |>.
Definition requestActor (s : Server) (r : Request) : string :=
  let role := default ""%string r.(rq_actor) in
  if negb (String.eqb role "") then role
  else if negb (String.eqb s.(sv_actor) "") then s.(sv_actor)
  else if s.(sv_cfg).(ac_InsecureNoAuth) then rolePlatformAdmin
  else ""%string.

Definition bearerPrefix : string := "Bearer ".
Definition bearerToken (header : string) : string :=
  let n := String.length bearerPrefix in
  if (String.length header <? n)%nat || negb (EqualFold (string_take n header) bearerPrefix) then ""%string
  else TrimSpace (string_drop n header).

(** [http.ResponseWriter]: the answers of type [R] that a server gives include
    the refusals of the middleware. *)
Class ResponseWriter (R : Type) := write_response : Response -> R.
#[export] Instance plain_response : ResponseWriter Response := fun r => r.

Section Middleware.
Context {W R : Type} `{AuditSink W, ResponseWriter R}.

(** A handler answers a request and acts on the server's world. *)
Abbreviation Handler := (Request -> W -> R * W) (only parsing).

Definition audit_event (r : Request) (role decision action targetType targetID : string) (payload : option any) : AuditEvent :=
  {| au_ActorID := if String.eqb role "" then "" else ("static:" ++ role)%string;
     au_ActorType := if String.eqb role "" then "" else "user"%string;
     au_Role := role; au_Action := action; au_TargetType := targetType; au_TargetID := targetID;
     au_Decision := decision; au_RequestID := r.(rq_RequestID); au_RemoteIP := r.(rq_RemoteAddr);
     au_Payload := payload |}.
Definition appendAudit (s : Server) (r : Request) (role decision action targetType targetID : string)
    (payload : option any) (w : W) : W :=
  if negb s.(sv_auditor) then w else AppendAudit (audit_event r role decision action targetType targetID payload) w.
Definition auditDeny (s : Server) (r : Request) (role : string) : W -> W :=
  appendAudit s r role "deny" (r.(rq_Method) ++ " " ++ r.(rq_Path))%string "" "" None.
Definition auditAllow (s : Server) (r : Request) (action targetType targetID : string) (payload : option any) : W -> W :=
  appendAudit s r (requestActor s r) "allow" action targetType targetID payload.

Definition unauthorized : Response := Build_Response 401 "unauthorized".
Definition forbidden : Response := Build_Response 403 "forbidden".

Definition requireAuth (s : Server) (order : list (string * string)) (next : Handler) : Handler := fun r w =>
  if s.(sv_cfg).(ac_InsecureNoAuth) then
    match r.(rq_actor) with
    | Some role => if String.eqb role "" then next (ContextWithActor rolePlatformAdmin r) w else next r w
    | None => next (ContextWithActor rolePlatformAdmin r) w
    end
  else match LookupStaticRole order (bearerToken r.(rq_Authorization)) with
       | None => (write_response unauthorized, auditDeny s r "" w)
       | Some role => next (ContextWithActor role r) w
       end.

Definition requirePermission (s : Server) (next : Handler) : Handler := fun r w =>
  let role := requestActor s r in
  if String.eqb role "" || negb (knownRBACRole role) then (write_response unauthorized, auditDeny s r role w)
  else if negb (roleAllows role r.(rq_Method) r.(rq_Path)) then (write_response forbidden, auditDeny s r role w)
  else next r w.

(** The two layers every route under /api/v1 but the health check goes through. *)
Definition guarded (s : Server) (order : list (string * string)) (next : Handler) : Handler :=
  requireAuth s order (requirePermission s next).
End Middleware.

(** ** The routes (internal/api/server.go, [Router]) *)

Record Route := Build_Route { rt_method : string; rt_before : string; rt_id : bool; rt_after : string; rt_handler : string }.
(** The path of a route, with the identifier of its [{id}]. *)
Definition route_path (rt : Route) (id : string) : string :=
  ("/api/v1" ++ rt.(rt_before) ++ (if rt.(rt_id) then id ++ rt.(rt_after) else ""))%string.
Definition plain (method path handler : string) : Route := Build_Route method path false "" handler.
Definition with_id (method before after handler : string) : Route := Build_Route method before true after handler.

Definition routes : list Route :=
  [plain "POST" "/scans" "handleCreateScan";
   plain "POST" "/scans/collect" "handleCollectScan";
   plain "POST" "/scans/adcs" "handleCollectADCS";
   plain "POST" "/scans/akv" "handleCollectAKV";
   plain "GET" "/scans" "handleListScans";
   with_id "GET" "/scans/" "" "handleGetScan";
   with_id "GET" "/scans/" "/blindspot" "handleGetScanBlindSpot";
   with_id "GET" "/scans/" "/compliance" "handleGetScanCompliance";
   with_id "GET" "/scans/" "/report" "handleGetScanReport";
   with_id "GET" "/scans/" "/findings" "handleListScanFindings";
   with_id "GET" "/scans/" "/certificates" "handleListScanCertificates";
   with_id "DELETE" "/scans/" "" "handleDeleteScan";
   plain "GET" "/certificates" "handleListCertificates";
   with_id "GET" "/certificates/" "" "handleGetCertificate";
   with_id "GET" "/certificates/" "/pem" "handleGetCertificatePEM";
   with_id "GET" "/certificates/" "/choose" "handleGetCertificateChoose";
   with_id "GET" "/certificates/" "/findings" "handleListCertFindings";
   with_id "GET" "/certificates/" "/waivers" "handleListCertWaivers";
   with_id "POST" "/certificates/" "/waivers" "handleCreateCertWaiver";
   with_id "GET" "/certificates/" "/renewal-kit" "handleRenewalKit";
   with_id "POST" "/certificates/" "/revocation-check" "handleRevocationCheck";
   with_id "POST" "/certificates/" "/renew" "handleRenewCertificate";
   with_id "POST" "/certificates/" "/migrate" "handleMigrateCertificate";
   with_id "POST" "/certificates/" "/revoke" "handleRevokeCertificate";
   with_id "PATCH" "/certificates/" "" "handlePatchCertificate";
   with_id "POST" "/certificates/" "/catalog-import" "handleCatalogImport";
   with_id "DELETE" "/certificates/" "" "handleDeleteCertificate";
   with_id "DELETE" "/waivers/" "" "handleRevokeWaiver";
   plain "GET" "/issuers" "handleListIssuers";
   with_id "POST" "/issuers/" "/import" "handleImportIssuer";
   with_id "DELETE" "/issuers/" "" "handleDeleteIssuer";
   plain "POST" "/reconcile" "handleReconcile";
   plain "POST" "/renew-expiring" "handleRenewExpiring";
   plain "POST" "/migrate-eligible" "handleMigrateEligible";
   plain "GET" "/inventory" "handleInventory";
   plain "GET" "/inventory/pqc" "handlePQCInventory";
   plain "GET" "/events" "handleListEvents";
   with_id "GET" "/lifecycle-jobs/" "" "handleGetLifecycleJob";
   with_id "GET" "/certificates/" "/lifecycle-jobs" "handleListCertLifecycleJobs";
   plain "POST" "/lifecycle-jobs/claim" "handleClaimLifecycleJob";
   plain "GET" "/blindspot" "handleGetBlindSpot";
   plain "GET" "/compliance/summary" "handleGetComplianceSummary";
   plain "GET" "/settings/connections" "handleGetConnections";
   plain "PUT" "/settings/connections" "handlePutConnections";
   plain "PATCH" "/settings/connections" "handlePatchConnections";
   plain "POST" "/settings/connections/test" "handleTestConnections";
   plain "GET" "/settings/connections/options/vault-pki-mounts" "handleOptionsVaultPKIMounts";
   plain "GET" "/settings/connections/options/aap-templates" "handleOptionsAAPTemplates"]%string.

(** ** Which tokens a configured secret accepts *)

Lemma byte_of_inj a b : byte_of a = byte_of b -> a = b.
Proof.
  unfold byte_of. intros E. rewrite <- (ascii_N_embedding a), <- (ascii_N_embedding b). f_equal. lia.
Qed.
Lemma bytes_of_inj s t : bytes_of s = bytes_of t -> s = t.
Proof.
  revert t. induction s as [|a s IH]; intros [|b t]; simpl; try done.
  intros [= Ea%byte_of_inj Es]. subst. by rewrite (IH t).
Qed.

(** A plain secret accepts itself, a hashed one the tokens of its digest. *)
Definition secret_accepts (configured presented : string) : Prop :=
  if HasPrefix configured sha256_prefix
  then hex_DecodeString (TrimPrefix configured sha256_prefix) = Some (Sum256 (bytes_of presented))
  else presented = configured.

Lemma staticTokenMatches_spec configured presented :
  staticTokenMatches configured presented = true <-> secret_accepts configured presented.
Proof.
  unfold staticTokenMatches, secret_accepts, ConstantTimeCompare. destruct (HasPrefix configured sha256_prefix).
  - destruct (hex_DecodeString _) as [want|]; [|done]. destruct (Nat.eqb_spec (length want) 32) as [E|N].
    + rewrite bool_decide_eq_true. split; congruence.
    + split; [done|]. intros [= ->]. by rewrite length_Sum256 in N.
  - destruct (Nat.eqb_spec (String.length configured) (String.length presented)) as [E|N]; simpl.
    + rewrite bool_decide_eq_true. split; [intros H; symmetry; by apply bytes_of_inj|by intros ->].
    + split; [done|]. intros ->. lia.
Qed.

(** A presented token that a secret accepts. *)
Definition accepted (presented configured : string) : Prop := presented <> ""%string /\ secret_accepts configured presented.

Lemma find_spec {A} (p : A -> bool) l :
  match find p l with
  | Some x => x ∈ l /\ p x = true
  | None => forall x, x ∈ l -> p x = false
  end.
Proof.
  induction l as [|y l IH]; simpl; [by intros x ?%elem_of_nil|]. destruct (p y) eqn:E.
  - split; [constructor|done].
  - destruct (find p l) as [x|]; [destruct IH; split; [by constructor|done]|].
    intros x [->|Hx]%elem_of_cons; auto.
Qed.

Lemma LookupStaticRole_spec tokens order presented :
  map_order tokens order ->
  match LookupStaticRole order presented with
  | Some role => exists tok, tokens !! role = Some tok /\ accepted presented tok
  | None => forall role tok, tokens !! role = Some tok -> ~ accepted presented tok
  end.
Proof.
  intros Ho. unfold LookupStaticRole, accepted.
  assert (forall role tok, tokens !! role = Some tok <-> (role, tok) ∈ order) as Hin
    by (intros; by rewrite Ho, elem_of_map_to_list).
  destruct (String.eqb_spec presented ""); simpl; [naive_solver|].
  destruct (Nat.eqb_spec (length order) 0) as [E|_].
  { apply nil_length_inv in E as ->. intros role tok H. apply Hin in H. by apply elem_of_nil in H. }
  pose proof (find_spec (fun kv => staticTokenMatches kv.2 presented) order) as Hf.
  destruct (find _ order) as [[role tok]|]; simpl in *.
  - destruct Hf as [Hf Hm]. exists tok. rewrite Hin. split; [done|]. split; [done|]. by apply staticTokenMatches_spec.
  - intros role tok Hr [_ Ha]. apply Hin, Hf in Hr. simpl in Hr. apply staticTokenMatches_spec in Ha. congruence.
Qed.

(** ** Parsing the token configuration *)

(** What the configuration promises of a secret. *)
Definition secret_ok (token : string) : Prop :=
  token <> ""%string /\
  (HasPrefix token sha256_prefix = true ->
   exists d, hex_DecodeString (TrimPrefix token sha256_prefix) = Some d /\ length d = 32%nat).

Lemma validateStaticTokenSecret_spec role token :
  validateStaticTokenSecret role token = Ok tt <->
  (HasPrefix token sha256_prefix = true ->
   exists d, hex_DecodeString (TrimPrefix token sha256_prefix) = Some d /\ length d = 32%nat).
Proof.
  unfold validateStaticTokenSecret. destruct (HasPrefix token sha256_prefix); simpl; [|by split].
  destruct (Nat.eqb_spec (String.length (TrimPrefix token sha256_prefix)) 64) as [E|N]; simpl.
  - destruct (hex_DecodeString _) as [d|] eqn:Hd; split; try done.
    + intros _ _. exists d. apply hex_decode_length in Hd as Hl. split; [done|lia].
    + intros H. destruct (H eq_refl) as (d & ? & _). done.
  - split; [done|]. intros H. destruct (H eq_refl) as (d & Hd & Hl). apply hex_decode_length in Hd. lia.
Qed.

Definition tokens_ok (m : gmap string string) : Prop :=
  forall role token, m !! role = Some token -> known_static_role role = true /\ secret_ok token.

Lemma parse_parts_sound parts out m : tokens_ok out -> parse_parts parts out = Ok m -> tokens_ok m.
Proof.
  revert out. induction parts as [|part parts IH]; intros out Ho; simpl; [by intros [= <-]|].
  destruct (String.eqb (TrimSpace part) ""); [by apply IH|].
  destruct (Cut (TrimSpace part) ":") as [[role token] ok].
  destruct (negb ok || String.eqb (TrimSpace role) "" || String.eqb (TrimSpace token) "") eqn:E1; [done|].
  destruct (known_static_role (TrimSpace role)) eqn:E2; simpl; [|done].
  destruct (bool_decide _); [done|].
  destruct (validateStaticTokenSecret (TrimSpace role) (TrimSpace token)) as [[]|] eqn:E3; [|done].
  intros Hp. eapply IH; [|exact Hp]. intros r t. rewrite lookup_insert_Some. intros [[<- <-]|[_ Hr]]; [|by apply Ho].
  split; [done|]. pose proof (proj1 (validateStaticTokenSecret_spec _ _) E3). rewrite !orb_false_iff, !String.eqb_neq in E1.
  split; [by destruct E1|done].
Qed.

Lemma parseStaticTokens_sound raw m : parseStaticTokens raw = Ok m -> tokens_ok m.
Proof.
  unfold parseStaticTokens. destruct (String.eqb _ ""); [by intros [= <-]|]. by apply parse_parts_sound.
Qed.

(** *** Printing and parsing *)

Definition token_text (entry : string * string) : string := (entry.1 ++ ":" ++ entry.2)%string.
Definition tokens_text (entries : list (string * string)) : string := Join (map token_text entries) ",".

Definition no_byte (a : ascii) (s : string) : Prop := string_forallb (fun c => negb (Ascii.eqb c a)) s = true.

(** An entry an operator can write: a known role and a token without a comma
    or white space around it, well formed if it is a digest. *)
Definition entry_ok (entry : string * string) : Prop :=
  known_static_role entry.1 = true /\ trimmed entry.2 /\ no_byte "," entry.2 /\ secret_ok entry.2.

Lemma known_role_shape role :
  known_static_role role = true -> trimmed role /\ role <> ""%string /\ no_byte "," role /\ no_byte ":" role.
Proof.
  intros H. assert (role ∈ knownStaticRoles) as Hin.
  { unfold known_static_role in H. apply existsb_exists in H as (r & Hr & ->%String.eqb_eq).
    by apply list_elem_of_In. }
  unfold knownStaticRoles in Hin. rewrite !elem_of_cons, elem_of_nil in Hin.
  destruct Hin as [->|[->|[->|[->|[->|[->|[->|[]]]]]]]]; (split_and!; [split; reflexivity|discriminate|reflexivity|reflexivity]).
Qed.

Lemma TrimLeft_app s t : TrimLeft s = s -> s <> ""%string -> TrimLeft (s ++ t) = (s ++ t)%string.
Proof.
  destruct s as [|a s]; [done|]. intros E _. rewrite string_app_cons. simpl in *. destruct (is_space a); [|done].
  exfalso. assert (forall u, (String.length (TrimLeft u) <= String.length u)%nat) as Hl.
  { induction u as [|b u IH]; simpl; [done|]. destruct (is_space b); simpl; lia. }
  pose proof (Hl s) as Hl'. rewrite E in Hl'. simpl in Hl'. lia.
Qed.

Lemma TrimRight_app s t : TrimRight t = t -> t <> ""%string -> TrimRight (s ++ t) = (s ++ t)%string.
Proof.
  intros Et Hne. induction s as [|a s IH]; [by rewrite string_app_nil|].
  rewrite string_app_cons. simpl. rewrite IH. destruct s, t; done.
Qed.

Lemma trimmed_app s t u :
  trimmed s -> s <> ""%string -> trimmed t -> t <> ""%string -> trimmed (s ++ u ++ t).
Proof.
  intros [Hs _] Hs' [_ Ht] Ht'. split; [by apply TrimLeft_app|].
  rewrite <- string_app_assoc. by apply TrimRight_app.
Qed.

Lemma token_text_shape e :
  entry_ok e -> trimmed (token_text e) /\ token_text e <> ""%string /\ no_byte "," (token_text e).
Proof.
  intros ([Ht [Hne [Hc _]]]%known_role_shape & Htt & Hct & [Hne' _]). unfold token_text. split_and!.
  - by apply trimmed_app.
  - destruct e.1; [done|]. by rewrite string_app_cons.
  - unfold no_byte in *. rewrite !string_forallb_app, Hc, Hct. done.
Qed.

Lemma Cut_app a s t : no_byte a s -> Cut (s ++ String a t) a = (s, t, true).
Proof.
  unfold no_byte. induction s as [|c s IH]; [intros _; rewrite string_app_nil; cbn [Cut Split]; by rewrite Ascii.eqb_refl|].
  cbn [string_forallb].
  rewrite andb_true_iff, negb_true_iff. intros [Hc Hs]. rewrite string_app_cons. cbn [Cut Split]. by rewrite Hc, (IH Hs).
Qed.

Lemma Split_none a s : no_byte a s -> Split s a = [s].
Proof.
  unfold no_byte. induction s as [|c s IH]; simpl; [done|].
  rewrite andb_true_iff, negb_true_iff. intros [Hc Hs]. by rewrite Hc, (IH Hs).
Qed.

Lemma Split_app a s t : no_byte a s -> Split (s ++ String a t) a = s :: Split t a.
Proof.
  unfold no_byte. induction s as [|c s IH]; [intros _; rewrite string_app_nil; cbn [Cut Split]; by rewrite Ascii.eqb_refl|].
  cbn [string_forallb].
  rewrite andb_true_iff, negb_true_iff. intros [Hc Hs]. rewrite string_app_cons. cbn [Cut Split]. by rewrite Hc, (IH Hs).
Qed.

Lemma Split_Join a l : Forall (no_byte a) l -> l <> [] -> Split (Join l (String a "")) a = l.
Proof.
  unfold Join. induction 1 as [|s l Hs _ IH]; [done|]. intros _. destruct l as [|t l]; [by apply Split_none|].
  change (String.concat (String a "") (s :: t :: l)) with (s ++ String a (String.concat (String a "") (t :: l)))%string.
  by rewrite Split_app, IH.
Qed.

Lemma parse_parts_entries entries out :
  Forall entry_ok entries -> NoDup entries.*1 -> (forall r, r ∈ entries.*1 -> out !! r = None) ->
  parse_parts (map token_text entries) out = Ok (list_to_map entries ∪ out).
Proof.
  intros Hok. revert out. induction Hok as [|[role token] entries He _ IH]; intros out Hnd Hout; simpl.
  { by rewrite (left_id_L ∅ (∪)). }
  destruct (token_text_shape _ He) as (Ht & Hne & _). rewrite (TrimSpace_trimmed _ Ht).
  rewrite (proj2 (String.eqb_neq _ _) Hne).
  destruct He as (Hk & Htt & _ & Hs). simpl in Hk, Htt, Hs. destruct (known_role_shape _ Hk) as (Hr & Hrne & _ & Hcolon).
  unfold token_text. simpl. rewrite string_app_cons, string_app_nil, Cut_app by done.
  rewrite !TrimSpace_trimmed by done. destruct Hs as [Htne Hs].
  rewrite (proj2 (String.eqb_neq role _)), (proj2 (String.eqb_neq token _)), Hk by done. simpl.
  simpl in Hnd. apply NoDup_cons in Hnd as [Hni Hnd]. rewrite (Hout role) by constructor.
  rewrite bool_decide_eq_false_2 by (by intros []).
  rewrite (proj2 (validateStaticTokenSecret_spec role token) Hs), IH.
  - f_equal. rewrite <- insert_union_l, insert_union_r; [done|]. by apply not_elem_of_list_to_map_1.
  - done.
  - intros r Hr'. rewrite lookup_insert_ne; [by apply Hout; constructor|]. intros ->. done.
Qed.

Lemma tokens_text_shape entries :
  Forall entry_ok entries -> entries <> [] -> trimmed (tokens_text entries) /\ tokens_text entries <> ""%string.
Proof.
  unfold tokens_text, Join. induction 1 as [|e entries He Hall IH]; [done|]. intros _.
  destruct (token_text_shape _ He) as (Ht & Hne & _). destruct entries as [|e' entries]; [done|].
  destruct IH as [IHt IHn]; [done|].
  change (String.concat "," (map token_text (e :: e' :: entries))) with
    (token_text e ++ "," ++ String.concat "," (map token_text (e' :: entries)))%string.
  split; [by apply trimmed_app|]. destruct (token_text e); [done|]. by rewrite string_app_cons.
Qed.

(** Token configurations mean what they say.  Every configuration the service
    starts with binds known roles only, to secrets that are not empty and,
    where they claim to be SHA-256 digests, are 32 bytes in hexadecimal; and
    the text of any such entries, with distinct roles, is read back as
    exactly the map from those roles to those tokens. *)
Theorem parseStaticTokens_spec :
  (forall raw m, parseStaticTokens raw = Ok m -> tokens_ok m) /\
  (forall entries, Forall entry_ok entries -> NoDup entries.*1 ->
     parseStaticTokens (tokens_text entries) = Ok (list_to_map entries)) /\
  (forall raw c c', normalizeAuth c = Ok c' -> c.(ac_StaticTokensRaw) = raw ->
     parseStaticTokens raw = Ok c'.(ac_StaticTokens) /\ c'.(ac_AuthMode) = "static_token"%string).
Proof.
  split_and!; [apply parseStaticTokens_sound| |].
  - intros entries Hok Hnd. unfold parseStaticTokens. destruct (decide (entries = [])) as [->|Hne]; [done|].
    destruct (tokens_text_shape _ Hok Hne) as [Ht Hne']. rewrite (TrimSpace_trimmed _ Ht).
    rewrite (proj2 (String.eqb_neq _ _) Hne'). unfold tokens_text. rewrite Split_Join.
    + rewrite parse_parts_entries by (done || (intros; apply lookup_empty)). by rewrite (right_id_L ∅ (∪)).
    + apply Forall_map. eapply Forall_impl; [exact Hok|]. intros e He. by apply token_text_shape.
    + by destruct entries.
  - intros raw c c' Hn <-. unfold normalizeAuth in Hn.
    destruct (String.eqb_spec (auth_mode c) "static_token"); simpl in Hn; [|done].
    destruct (parseStaticTokens _); [|done]. injection Hn as <-. done.
Qed.

(** ** The guard *)

Section GuardFacts.
Context {W R : Type} `{AuditSink W, ResponseWriter R}.

Lemma known_role_rbac role : known_static_role role = true -> knownRBACRole role = true /\ role <> ""%string.
Proof. intros Hk. split; [exact Hk|]. by destruct (known_role_shape _ Hk) as (_ & ? & _). Qed.

(** C7. Nothing under /api/v1 runs unauthorised.  A server that requires
    authentication, configured from any text the parser accepts, calls the
    handler of a request exactly when some role's secret accepts the bearer
    token presented and that role is allowed the method and path, and then
    with that role as the actor; otherwise the handler is not called, the
    answer is 403 for a role without the permission and 401 when no secret
    accepts the token, and the only effect is one audit event of the denial
    that names the role, the method and the path. *)
Theorem guarded_spec raw s order next r w :
  parseStaticTokens raw = Ok s.(sv_cfg).(ac_StaticTokens) -> map_order s.(sv_cfg).(ac_StaticTokens) order ->
  s.(sv_cfg).(ac_InsecureNoAuth) = false ->
  let token := bearerToken r.(rq_Authorization) in
  (exists role secret, s.(sv_cfg).(ac_StaticTokens) !! role = Some secret /\ accepted token secret /\
     guarded s order next r w =
       if roleAllows role r.(rq_Method) r.(rq_Path) then next (ContextWithActor role r) w
       else (write_response forbidden, auditDeny s r role w)) \/
  ((forall role secret, s.(sv_cfg).(ac_StaticTokens) !! role = Some secret -> ~ accepted token secret) /\
   guarded s order next r w = (write_response unauthorized, auditDeny s r "" w)).
Proof.
  intros Hp Ho Hi token. pose proof (LookupStaticRole_spec _ _ token Ho) as Hl.
  unfold guarded, requireAuth. rewrite Hi. fold token. destruct (LookupStaticRole order token) as [role|]; [left|by right].
  destruct Hl as (secret & Hs & Ha). exists role, secret. split_and!; [done|done|].
  destruct (parseStaticTokens_sound _ _ Hp _ _ Hs) as [[Hk Hne]%known_role_rbac _].
  unfold requirePermission, requestActor, ContextWithActor. simpl. rewrite (proj2 (String.eqb_neq _ _) Hne). simpl.
  rewrite (proj2 (String.eqb_neq _ _) Hne), Hk. simpl. by destruct (roleAllows _ _ _).
Qed.
End GuardFacts.

Section GuardWitness.
(** A server with a plain secret and a hashed one, that of [tok_p]. *)
Definition demo_raw : string :=
  ("viewer:tok_v, platform_admin:sha256:" ++ hex_EncodeToString (Sum256 (bytes_of "tok_p")))%string.
Definition demo_server : Server :=
  {| sv_cfg := Build_AuthConfig false "static_token" demo_raw
       (default ∅ (match parseStaticTokens demo_raw with Ok m => Some m | Err _ => None end)) "" "" "" "" "";
     sv_actor := ""; sv_auditor := true |}.
Definition demo_request (token : string) : Request :=
  Build_Request "DELETE" "/api/v1/scans/7" ("bearer " ++ token)%string "10.0.0.1" "req-1" None.
Definition no_content : Request -> AuditTable -> Response * AuditTable := fun r t => (Build_Response 204 "", t).

Lemma guarded_spec_witness :
  exists r, let '(resp, t) := guarded demo_server (map_to_list demo_server.(sv_cfg).(ac_StaticTokens)) no_content
                                (demo_request "tok_v") (Build_AuditTable [] []) in
    r = (resp.(rs_status), map au_Action t.(at_rows)) /\ r = (403, ["DELETE /api/v1/scans/7"%string]).
Proof.
  destruct (guarded_spec demo_raw demo_server (map_to_list demo_server.(sv_cfg).(ac_StaticTokens)) no_content
              (demo_request "tok_v") (Build_AuditTable [] [])) as [_|_]; [vm_compute; reflexivity|apply Permutation_refl|done|..];
    exists (403, ["DELETE /api/v1/scans/7"%string]); vm_compute; split; reflexivity.
Defined.

(** The hashed secret accepts its token, and the administrator may delete. *)
Example demo_admin :
  (guarded demo_server (map_to_list demo_server.(sv_cfg).(ac_StaticTokens)) no_content
     (demo_request "tok_p") (Build_AuditTable [] [])) = (Build_Response 204 "", Build_AuditTable [] []).
Proof. vm_compute. reflexivity. Qed.
End GuardWitness.

(** ** Who may call what *)

(** The permissions of the service. *)
Inductive Permission := PRead | PInventory | PScan | PRemediate | PWaive | PVault | PSettingsRead | PAdmin.

Definition may (role : string) (p : Permission) : bool :=
  let a := String.eqb role in
  a rolePlatformAdmin ||
  match p with
  | PInventory => a roleInventory || a roleViewer || a roleApprover || a roleScannerOperator || a roleRemediator ||
                  a roleVaultImportAdmin
  | PRead => a roleViewer || a roleApprover || a roleScannerOperator || a roleRemediator || a roleVaultImportAdmin
  | PScan => a roleScannerOperator || a roleRemediator || a roleVaultImportAdmin
  | PRemediate => a roleRemediator || a roleVaultImportAdmin
  | PWaive => a roleApprover || a roleRemediator || a roleVaultImportAdmin
  | PVault => a roleVaultImportAdmin
  | PSettingsRead => a roleRemediator
  | PAdmin => false
  end.

(** What each handler needs. *)
Definition permission_of (handler : string) : Permission :=
  let is_ l := existsb (String.eqb handler) l in
  if is_ ["handleInventory"]%string then PInventory
  else if is_ ["handleCreateScan"; "handleCollectScan"; "handleCollectADCS"; "handleCollectAKV"]%string then PScan
  else if is_ ["handleRevocationCheck"; "handleRenewCertificate"; "handleMigrateCertificate"; "handleRevokeCertificate";
               "handlePatchCertificate"; "handleCatalogImport"; "handleRenewExpiring"; "handleMigrateEligible";
               "handleClaimLifecycleJob"]%string then PRemediate
  else if is_ ["handleCreateCertWaiver"; "handleRevokeWaiver"]%string then PWaive
  else if is_ ["handleImportIssuer"; "handleReconcile"]%string then PVault
  else if is_ ["handleGetConnections"; "handleOptionsVaultPKIMounts"; "handleOptionsAAPTemplates"]%string then PSettingsRead
  else if is_ ["handleDeleteScan"; "handleDeleteCertificate"; "handleDeleteIssuer"; "handlePutConnections";
               "handlePatchConnections"; "handleTestConnections"]%string then PAdmin
  else PRead.

(** An identifier in a path: not empty and without a slash. *)
Definition path_id (id : string) : Prop := id <> ""%string /\ no_byte "/" id.

(** The seven tests of [roleAllows] on one request. *)
Definition capabilities (method path : string) : list bool :=
  [isInventoryGET method path; isViewerRead method path; isWaiverWrite method path; isCreateScan method path;
   isRemediate method path; isVaultImport method path; isSettingsRead method path].
Definition capabilities_of (p : Permission) : list bool :=
  match p with
  | PInventory => [true; true; false; false; false; false; false]
  | PRead => [false; true; false; false; false; false; false]
  | PWaive => [false; false; true; false; true; false; false]
  | PScan => [false; false; false; true; false; false; false]
  | PRemediate => [false; false; false; false; true; false; false]
  | PVault => [false; false; false; false; false; true; false]
  | PSettingsRead => [false; false; false; false; false; false; true]
  | PAdmin => [false; false; false; false; false; false; false]
  end.

Lemma roleAllows_may role method path p :
  capabilities method (TrimSuffix path "/") = capabilities_of p -> roleAllows role method path = may role p.
Proof.
  unfold capabilities, roleAllows, may. intros E.
  destruct p; simpl in E; injection E as -> -> -> -> -> -> ->; simpl;
    destruct (String.eqb_spec role roleInventory) as [->|]; try reflexivity;
    destruct (String.eqb_spec role roleViewer) as [->|]; try reflexivity;
    destruct (String.eqb_spec role roleApprover) as [->|]; try reflexivity;
    destruct (String.eqb_spec role roleScannerOperator) as [->|]; try reflexivity;
    destruct (String.eqb_spec role roleRemediator) as [->|]; try reflexivity;
    destruct (String.eqb_spec role roleVaultImportAdmin) as [->|]; try reflexivity;
    by destruct (String.eqb role rolePlatformAdmin).
Qed.

Lemma string_rev_forallb f s : string_forallb f (string_rev s) = string_forallb f s.
Proof.
  induction s as [|a s IH]; [done|]. cbn [string_rev]. rewrite string_forallb_app, IH. simpl.
  by rewrite andb_true_r, andb_comm.
Qed.

Lemma path_id_trim p id after :
  path_id id -> after = ""%string \/ after <> ""%string /\ HasPrefix (string_rev after) "/" = false ->
  TrimSuffix (p ++ id ++ after) "/" = (p ++ id ++ after)%string.
Proof.
  intros [Hne Hid] Ha. unfold TrimSuffix. rewrite HasSuffix_rev, !string_rev_app.
  assert (HasPrefix ((string_rev after ++ string_rev id) ++ string_rev p) (string_rev "/") = false) as ->; [|done].
  assert (string_rev id <> ""%string) as Hr.
  { intros E. apply (f_equal string_rev) in E. rewrite string_rev_involutive in E. done. }
  destruct Ha as [->|[Hn Ha]].
  - rewrite string_app_nil. unfold no_byte in Hid. rewrite <- string_rev_forallb in Hid.
    destruct (string_rev id) as [|a s]; [done|]. rewrite string_app_cons. cbn [string_forallb] in Hid.
    apply andb_true_iff in Hid as [Hid _]. change (string_rev "/") with "/"%string. cbn [HasPrefix].
    rewrite Ascii.eqb_sym. by rewrite negb_true_iff in Hid; rewrite Hid.
  - destruct (string_rev after) as [|a s] eqn:E.
    + apply (f_equal string_rev) in E. by rewrite string_rev_involutive in E.
    + rewrite !string_app_cons. change (string_rev "/") with "/"%string. cbn [HasPrefix] in *. done.
Qed.

Lemma isRemediate_patch id : path_id id -> isRemediate "PATCH" ("/api/v1/certificates/" ++ id)%string = true.
Proof.
  intros [Hne Hid]. unfold isRemediate. simpl (String.eqb "PATCH" _). cbv iota. rewrite TrimPrefix_app.
  rewrite (proj2 (String.eqb_neq id "")), Contains_byte, string_existsb_forallb by done.
  unfold no_byte in Hid. rewrite (string_forallb_impl _ _ id (fun c H => H)).
  - rewrite (proj2 (String.eqb_neq id _)); [done|]. intros E. apply (f_equal String.length) in E.
    rewrite string_length_app in E. simpl in E. lia.
  - erewrite string_forallb_impl; [done| |exact Hid]. intros c. by rewrite Ascii.eqb_sym.
Qed.

Ltac route_with_id Hid :=
  unfold route_path; cbn [with_id rt_before rt_id rt_after rt_method rt_handler];
  rewrite <- string_app_assoc, path_id_trim by (first [done | left; reflexivity | right; split; [discriminate|reflexivity]]);
  unfold capabilities, isWaiverWrite, isRemediate, isVaultImport;
  rewrite ?HasSuffix_rev, ?string_rev_app; vm_compute; reflexivity.

Lemma patch_capabilities id :
  path_id id -> capabilities "PATCH" (TrimSuffix ("/api/v1" ++ "/certificates/" ++ id ++ "") "/") = capabilities_of PRemediate.
Proof.
  intros Hid. rewrite <- string_app_assoc, path_id_trim by auto. rewrite string_app_empty_r.
  unfold capabilities. rewrite isRemediate_patch by done. reflexivity.
Qed.

Lemma route_capabilities rt id :
  rt ∈ routes -> path_id id ->
  capabilities rt.(rt_method) (TrimSuffix (route_path rt id) "/") = capabilities_of (permission_of rt.(rt_handler)).
Proof.
  intros Hin Hid. revert rt Hin. apply Forall_forall. unfold routes.
  repeat (apply Forall_cons; split;
    [first [vm_compute; reflexivity|exact (patch_capabilities id Hid)|route_with_id Hid]|]); try by constructor.
Qed.

(** C20. The permission matrix.  For every route of the API and every identifier in
    its path, a role may call it exactly if the role has the permission the
    handler needs, unknown roles having none: the platform administrator may
    call everything, the inventory role only the inventory, the viewer every
    read but the settings; scans, remediation, waivers, Vault writes and
    settings reads go to the roles of the table [may], and deletions and
    settings writes to the administrator alone, except that whoever may
    create a waiver may also revoke one. *)
Theorem role_matrix rt id role :
  rt ∈ routes -> path_id id ->
  roleAllows role rt.(rt_method) (route_path rt id) = may role (permission_of rt.(rt_handler)).
Proof. intros Hrt Hid. by apply roleAllows_may, route_capabilities. Qed.

Lemma role_matrix_witness :
  roleAllows "approver" "DELETE" "/api/v1/waivers/7" = true /\ roleAllows "approver" "DELETE" "/api/v1/scans/7" = false.
Proof.
  split.
  - apply (role_matrix (with_id "DELETE" "/waivers/" "" "handleRevokeWaiver") "7" "approver");
      [apply list_elem_of_In; vm_compute; tauto|by split].
  - apply (role_matrix (with_id "DELETE" "/scans/" "" "handleDeleteScan") "7" "approver");
      [apply list_elem_of_In; vm_compute; tauto|by split].
Defined.

(** ** What the audit keeps *)

(** A value without a sensitive key or a PEM text, at any depth. *)
Fixpoint clean (v : any) : Prop :=
  match v with
  | AMap m => (fix go (m : list (string * any)) : Prop :=
                 match m with
                 | [] => True
                 | (k, val) :: m' => sensitiveAuditKey k = false /\ clean val /\ go m'
                 end) m
  | AList l => (fix go (l : list any) : Prop := match l with [] => True | v :: l' => clean v /\ go l' end) l
  | AStrings _ => False
  | AStr s => looksLikePEM s = false
  | AOther _ => True
  end.

(** Induction over the values nested in a value. *)
Section AnyInd.
Context (P : any -> Prop)
  (Hmap : forall m, Forall (fun kv => P kv.2) m -> P (AMap m)) (Hlist : forall l, Forall P l -> P (AList l))
  (Hstrings : forall l, P (AStrings l)) (Hstr : forall s, P (AStr s)) (Hother : forall j, P (AOther j)).
Fixpoint any_nested_ind (v : any) : P v :=
  match v with
  | AMap m => Hmap m ((fix go m : Forall (fun kv => P kv.2) m :=
      match m with [] => Forall_nil_2 _ | kv :: m' => Forall_cons_2 _ kv m' (any_nested_ind kv.2) (go m') end) m)
  | AList l => Hlist l ((fix go l : Forall P l :=
      match l with [] => Forall_nil_2 _ | v :: l' => Forall_cons_2 _ v l' (any_nested_ind v) (go l') end) l)
  | AStrings l => Hstrings l
  | AStr s => Hstr s
  | AOther j => Hother j
  end.
End AnyInd.

Lemma redact_string_clean s : clean (redact_string s).
Proof. unfold redact_string. simpl. by destruct (looksLikePEM s) eqn:E. Qed.

Lemma redact_clean v : clean (redactAuditValue v).
Proof.
  induction v as [m IH|l IH|l|s|j] using any_nested_ind; simpl; try done.
  - induction IH as [|[k v] m Hv _ IHm]; [done|]. simpl in Hv. destruct (sensitiveAuditKey k) eqn:E; simpl; [done|auto].
  - induction IH; simpl; auto.
  - induction l as [|s l IHl]; simpl; [done|]. split; [apply redact_string_clean|done].
  - apply redact_string_clean.
Qed.

Lemma redact_id v : clean v -> redactAuditValue v = v.
Proof.
  induction v as [m IH|l IH|l|s|j] using any_nested_ind; simpl; try done.
  - intros Hc. f_equal. induction IH as [|[k v] m Hv _ IHm]; [done|]. simpl in Hv. destruct Hc as (Hk & Hc & Hm).
    rewrite Hk, Hv by done. f_equal. by apply IHm.
  - intros Hc. f_equal. induction IH as [|v l Hv _ IHl]; [done|]. destruct Hc as [Hc Hl]. simpl.
    rewrite Hv by done. f_equal. by apply IHl.
  - unfold redact_string. by intros ->.
Qed.

(** The audit trail keeps no secrets.  Every row the service adds for an event
    has a payload without a sensitive key (tokens, secrets, passwords, PEM
    bundles and their spellings) and without a PEM text in a string, at any
    depth of its maps and lists; a payload that was clean is stored as it is,
    and redacting twice is redacting once.  Rows are only ever appended. *)
Theorem audit_redacted ev t :
  exists rows, (store_AppendAudit ev t).(at_rows) = t.(at_rows) ++ rows /\ (length rows <= 1)%nat /\
    (forall row, row ∈ rows -> exists p, row.(au_Payload) = Some p /\ clean p /\
       (forall q, ev.(au_Payload) = Some q -> (clean q -> p = q) /\ p = redactAuditValue p)).
Proof.
  unfold store_AppendAudit. destruct t as [rows [|[] faults]]; simpl;
    [eexists; split_and!; [done|done|]|exists []; rewrite app_nil_r; split_and!; [done|simpl; lia|by intros row ?%elem_of_nil]
    |eexists; split_and!; [done|done|]].
  all: intros row ->%list_elem_of_singleton; eexists; split_and!; [done| |].
  all: destruct (ev.(au_Payload)) as [q|]; simpl; [|done || by intros ?].
  all: try apply redact_clean.
  all: intros q' [= <-]; split; [apply redact_id|by rewrite (redact_id _ (redact_clean q))].
Qed.

(** The demo payload of the tests: keys in other spellings and nested values go. *)
Example redaction_example :
  redactAuditValue (AMap [("mount", AStr "pki"); ("Authorization", AStr "Bearer tok"); ("aap-token", AStr "x");
    ("leaf", AStr "-----BEGIN CERTIFICATE-----"); ("nested", AMap [("Token", AStr "t"); ("n", AOther (JNum 3))])]%string)
  = AMap [("mount", AStr "pki"); ("leaf", AStr "[redacted]"); ("nested", AMap [("n", AOther (JNum 3))])]%string.
Proof. vm_compute. reflexivity. Qed.
