(* ===== verification/Renewal.v ===== *)
(** * The renewal kit (internal/renewal/kit.go)

    The validators of everything that flows into Vault Agent templates, Ansible
    playbooks and the extra variables of AAP jobs, and the two artifacts the
    kit renders. *)

From Stdlib Require Import Ascii.
From S2P Require Import Prelude GoLib Records Db.

Open Scope clm_scope.

Definition quote_char : ascii := ascii_of_nat 34.
Definition newline_char : ascii := ascii_of_nat 10.
Definition backslash : ascii := ascii_of_nat 92.
Definition q : string := String quote_char "".
Definition nl : string := String newline_char "".

(** ** Validators *)

Definition dns_char (c : ascii) : bool := Ascii.eqb c "." || Ascii.eqb c "-" || is_alnum c.
Definition name_char (c : ascii) : bool := Ascii.eqb c "-" || Ascii.eqb c "_" || Ascii.eqb c "/" || is_alnum c.
Definition reason_char (c : ascii) : bool :=
  Ascii.eqb c "-" || Ascii.eqb c "_" || Ascii.eqb c " " || Ascii.eqb c "." || is_alnum c.

Definition validName (s : string) : bool :=
  if String.eqb s "" || Contains s ".." || HasPrefix s "/" then false else string_forallb name_char s.

Definition validCommonName (cn : string) : bool :=
  let cn := TrimSpace cn in
  if String.eqb cn "" || (253 <? String.length cn)%nat || Contains cn ".." then false
  else
    let body := TrimPrefix cn "*." in
    if String.eqb body "" || HasPrefix body "." || HasSuffix body "." then false
    else string_forallb dns_char body.

Definition ValidService (s : string) : bool := String.eqb s "" || validName s.

Definition ValidReason (s : string) : bool :=
  let s := TrimSpace s in
  if String.eqb s "" || (128 <? String.length s)%nat then false
  else if Contains s "{{" || Contains s "}}" || Contains s "{%" then false
  else string_forallb reason_char s.

(** [^[0-9]+(s|m|h|d)$] *)
Fixpoint ttl_match (seen : bool) (s : string) : bool :=
  match s with
  | EmptyString => false
  | String c s' =>
      if is_digit c then ttl_match true s'
      else seen && String.eqb s' "" && existsb (Ascii.eqb c) ["s"; "m"; "h"; "d"]%char
  end.
Definition ValidTTL (s : string) : bool :=
  let s := TrimSpace s in if String.eqb s "" then true else ttl_match false s.

(** [strings.FieldsFunc]: the non-empty pieces between separators. *)
Fixpoint fields_func (sep : ascii -> bool) (s : string) (cur : string) : list string :=
  let flush l := if String.eqb cur "" then l else cur :: l in
  match s with
  | EmptyString => flush []
  | String c s' => if sep c then flush (fields_func sep s' "") else fields_func sep s' (cur ++ String c "")
  end.
Definition FieldsFunc (s : string) (sep : ascii -> bool) : list string := fields_func sep s "".

Definition san_separator (c : ascii) : bool := Ascii.eqb c "," || Ascii.eqb c " ".
Definition ValidAltNames (s : string) : bool :=
  let s := TrimSpace s in
  if String.eqb s "" then true
  else
    let fields := FieldsFunc s san_separator in
    if (length fields =? 0)%nat then false else forallb (fun f => validCommonName (TrimSpace f)) fields.

(** ** Artifacts *)

Record KitInput := Build_KitInput { ki_CommonName : string; ki_Mount : string; ki_Role : string; ki_Service : string }.
Record Artifact := Build_Artifact { ar_Filename : string; ar_Language : string; ar_Content : string }.

(** The errors of the package, by what they say. *)
Inductive KitError := InvalidMount | InvalidRole | InvalidCommonName | UnsupportedTarget (target : string).

Definition validate (i : KitInput) : result KitError unit :=
  if negb (validName i.(ki_Mount)) then Err InvalidMount
  else if negb (validName i.(ki_Role)) then Err InvalidRole
  else if negb (validCommonName i.(ki_CommonName)) then Err InvalidCommonName
  else Ok tt.
Definition Validate : KitInput -> result KitError unit := validate.

Definition fileSafe (cn : string) : string := ReplaceByte cn "*" "wildcard".

Definition reloadLine (service indent : string) : string :=
  if String.eqb (TrimSpace service) "" then "" else indent ++ "command = " ++ q ++ "systemctl reload " ++ service ++ q ++ nl.

(** A line of an artifact. *)
Definition line (s : string) : string := s ++ nl.
(** A value in double quotes. *)
Definition quoted (s : string) : string := q ++ s ++ q.
Definition lines (l : list string) : string := foldr (fun s t => line s ++ t)%string ""%string l.

Definition secret_line (i : KitInput) : string :=
  "    {{- with secret " ++ quoted (i.(ki_Mount) ++ "/issue/" ++ i.(ki_Role)) ++ " " ++
  quoted ("common_name=" ++ i.(ki_CommonName)) ++ " -}}".

Definition agentHCL (i : KitInput) : Artifact :=
  Build_Artifact "vault-agent.hcl" "hcl" (
    lines ["# Vault Agent renewal for " ++ i.(ki_CommonName);
           "# Auto-auth (AppRole shown; swap for k8s/jwt as appropriate).";
           "auto_auth {";
           "  method " ++ quoted "approle" ++ " {";
           "    config = {";
           "      role_id_file_path   = " ++ quoted "/etc/vault-agent/role_id";
           "      secret_id_file_path = " ++ quoted "/etc/vault-agent/secret_id";
           "    }"; "  }";
           "  sink " ++ quoted "file" ++ " { config = { path = " ++ quoted "/etc/vault-agent/token" ++ " } }";
           "}"; "";
           "# Issue the leaf from " ++ i.(ki_Mount) ++ "/issue/" ++ i.(ki_Role) ++ " and render cert + key.";
           "template {";
           "  contents    = <<-EOT"; secret_line i; "    {{ .Data.certificate }}";
           "    {{ range .Data.ca_chain }}{{ . }}"; "    {{ end }}"; "    {{- end -}}"; "  EOT";
           "  destination = " ++ quoted ("/etc/tls/" ++ fileSafe i.(ki_CommonName) ++ ".crt")]%string ++
    reloadLine i.(ki_Service) "  " ++
    lines ["}"; "";
           "template {";
           "  contents    = <<-EOT"; secret_line i; "    {{ .Data.private_key }}"; "    {{- end -}}"; "  EOT";
           "  destination = " ++ quoted ("/etc/tls/" ++ fileSafe i.(ki_CommonName) ++ ".key");
           "}"]%string)%string.

Definition aapPlaybook (i : KitInput) : Artifact :=
  Build_Artifact "reissue-playbook.yml" "yaml" (
    lines ["---";
           "# AAP playbook: reissue " ++ i.(ki_CommonName) ++ " from Vault PKI and deploy.";
           "- name: Reissue and deploy certificate";
           "  hosts: web";
           "  become: true";
           "  tasks:";
           "    - name: Issue leaf from Vault PKI";
           "      community.hashi_vault.vault_write:";
           "        path: " ++ i.(ki_Mount) ++ "/issue/" ++ i.(ki_Role);
           "        data:";
           "          common_name: " ++ i.(ki_CommonName);
           "      register: issued";
           "    - name: Write certificate";
           "      ansible.builtin.copy:";
           "        content: " ++ quoted ("{{ issued.data.data.certificate }}" ++ String backslash "n" ++
              "{{ issued.data.data.ca_chain | join('" ++ String backslash "n" ++ "') }}");
           "        dest: /etc/tls/" ++ fileSafe i.(ki_CommonName) ++ ".crt";
           "        mode: '0644'";
           "    - name: Write private key";
           "      ansible.builtin.copy:";
           "        content: " ++ quoted "{{ issued.data.data.private_key }}";
           "        dest: /etc/tls/" ++ fileSafe i.(ki_CommonName) ++ ".key";
           "        mode: '0600'"]%string ++
    (if String.eqb (TrimSpace i.(ki_Service)) "" then ""
     else lines ["    - name: Reload service"; "      ansible.builtin.service:"; "        name: " ++ i.(ki_Service);
                 "        state: reloaded"])%string)%string.

Definition Generate (target : string) (i : KitInput) : result KitError (list Artifact) :=
  match validate i with
  | Err e => Err e
  | Ok _ =>
      if String.eqb target "agent" then Ok [agentHCL i]
      else if String.eqb target "aap" then Ok [aapPlaybook i]
      else Err (UnsupportedTarget target)
  end.

(** ** What a valid value is made of *)

(** The bytes a value may bring into an artifact. *)
Definition plain_char (c : ascii) : bool :=
  Ascii.eqb c "." || Ascii.eqb c "-" || Ascii.eqb c "_" || Ascii.eqb c "/" || Ascii.eqb c "*" || is_alnum c.

Lemma validName_plain s : validName s = true -> string_forallb plain_char s = true.
Proof.
  unfold validName. destruct (_ || _ || _); [done|]. apply string_forallb_impl. intros c. unfold name_char, plain_char.
  rewrite !orb_true_iff. tauto.
Qed.

Lemma HasPrefix_split s p : HasPrefix s p = true -> s = (p ++ TrimPrefix s p)%string.
Proof. intros H. unfold TrimPrefix. rewrite H. apply HasPrefix_spec in H as [t ->]. by rewrite string_drop_app. Qed.

Lemma validCommonName_plain cn : validCommonName cn = true -> string_forallb plain_char (TrimSpace cn) = true.
Proof.
  unfold validCommonName. destruct (_ || _ || _); [done|]. destruct (_ || _ || _); [done|]. intros Hb.
  assert (string_forallb plain_char (TrimPrefix (TrimSpace cn) "*.") = true) as Hp.
  { revert Hb. apply string_forallb_impl. intros c. unfold dns_char, plain_char. rewrite !orb_true_iff. tauto. }
  destruct (HasPrefix (TrimSpace cn) "*.") eqn:E.
  - rewrite (HasPrefix_split _ _ E), string_forallb_app, Hp. done.
  - unfold TrimPrefix in Hp. by rewrite E in Hp.
Qed.

Lemma string_forallb_ReplaceByte f s a t :
  string_forallb f s = true -> string_forallb f t = true -> string_forallb f (ReplaceByte s a t) = true.
Proof.
  intros Hs Ht. induction s as [|c s IH]; [done|]. simpl in Hs. apply andb_true_iff in Hs as [Hc Hs]. simpl.
  destruct (Ascii.eqb c a); simpl; rewrite ?string_forallb_app, ?Ht, ?Hc, IH; done.
Qed.

(** ** No value breaks out of an artifact *)

(** What is left of a text without the bytes a value may bring: its quotes,
    braces, line ends, spaces and other structure, in order. *)
Fixpoint skeleton (s : string) : string :=
  match s with
  | EmptyString => EmptyString
  | String c s' => if plain_char c then skeleton s' else String c (skeleton s')
  end.

Lemma skeleton_app s t : skeleton (s ++ t) = (skeleton s ++ skeleton t)%string.
Proof.
  induction s as [|c s IH]; [done|]. rewrite string_app_cons. cbn [skeleton]. rewrite IH.
  destruct (plain_char c); [done|by rewrite string_app_cons].
Qed.

Lemma skeleton_plain s : string_forallb plain_char s = true -> skeleton s = ""%string.
Proof. induction s as [|c s IH]; [done|]. simpl. intros [-> Hs]%andb_true_iff. auto. Qed.

(** An input whose values are plain, as validation leaves them. *)
Definition plain_input (i : KitInput) : Prop :=
  string_forallb plain_char i.(ki_CommonName) = true /\ string_forallb plain_char i.(ki_Mount) = true /\
  string_forallb plain_char i.(ki_Role) = true /\ string_forallb plain_char i.(ki_Service) = true.

Lemma TrimSpace_empty s : string_forallb plain_char s = true -> String.eqb (TrimSpace s) "" = String.eqb s "".
Proof.
  intros Hs. assert (forall c, plain_char c = true -> is_space c = false) as Hc.
  { intros [b0 b1 b2 b3 b4 b5 b6 b7]. destruct b0, b1, b2, b3, b4, b5, b6, b7; vm_compute; congruence. }
  assert (TrimSpace s = s) as ->; [|done]. unfold TrimSpace. assert (TrimLeft s = s) as ->.
  { destruct s as [|c s]; [done|]. simpl in Hs. apply andb_true_iff in Hs as [Hs _]. simpl. by rewrite (Hc _ Hs). }
  induction s as [|c s IH]; [done|]. simpl in Hs. apply andb_true_iff in Hs as [H Hs]. simpl. rewrite (IH Hs).
  destruct s; [by rewrite (Hc _ H)|done].
Qed.

Lemma fileSafe_skeleton cn : string_forallb plain_char cn = true -> skeleton (fileSafe cn) = ""%string.
Proof. intros H. by apply skeleton_plain, string_forallb_ReplaceByte. Qed.

Ltac skeletons H :=
  let Hcn := fresh in let Hm := fresh in let Hr := fresh in let Hsv := fresh in
  destruct H as (Hcn & Hm & Hr & Hsv);
  rewrite ?(skeleton_plain _ Hcn), ?(skeleton_plain _ Hm), ?(skeleton_plain _ Hr), ?(skeleton_plain _ Hsv),
    ?(fileSafe_skeleton _ Hcn).

Lemma agent_skeleton i j :
  plain_input i -> plain_input j -> String.eqb i.(ki_Service) "" = String.eqb j.(ki_Service) "" ->
  skeleton (agentHCL i).(ar_Content) = skeleton (agentHCL j).(ar_Content).
Proof.
  intros Hi Hj Hs. unfold agentHCL, secret_line, reloadLine, lines, line, quoted. cbn [ar_Content foldr].
  rewrite !TrimSpace_empty, Hs by (apply Hi || apply Hj). rewrite !skeleton_app.
  destruct (String.eqb (ki_Service j) ""); rewrite ?skeleton_app; skeletons Hi; skeletons Hj; reflexivity.
Qed.

Lemma aap_skeleton i j :
  plain_input i -> plain_input j -> String.eqb i.(ki_Service) "" = String.eqb j.(ki_Service) "" ->
  skeleton (aapPlaybook i).(ar_Content) = skeleton (aapPlaybook j).(ar_Content).
Proof.
  intros Hi Hj Hs. unfold aapPlaybook, lines, line, quoted. cbn [ar_Content foldr].
  rewrite !TrimSpace_empty, Hs by (apply Hi || apply Hj). rewrite !skeleton_app.
  destruct (String.eqb (ki_Service j) ""); rewrite ?skeleton_app; skeletons Hi; skeletons Hj; reflexivity.
Qed.

(** What the kit does not render. *)
Definition refused_input (target : string) (i : KitInput) : Prop :=
  validName i.(ki_Mount) = false \/ validName i.(ki_Role) = false \/ validCommonName i.(ki_CommonName) = false \/
  target <> "agent"%string /\ target <> "aap"%string.

Lemma Generate_refuses target i : (exists e, Generate target i = Err e) <-> refused_input target i.
Proof.
  unfold Generate, validate, refused_input.
  destruct (validName (ki_Mount i)), (validName (ki_Role i)), (validCommonName (ki_CommonName i)); simpl;
    try (split; [|by eexists]; naive_solver).
  destruct (String.eqb_spec target "agent"), (String.eqb_spec target "aap"); split; naive_solver.
Qed.

(** C40. A rendered kit cannot be broken out of.  The kit refuses an input exactly
    when its mount, its role or its common name is not valid or its target is
    unknown.  When the common name has no white space around it and the
    service passes [ValidService], which the kit itself checks neither, every
    artifact it renders, for either target, has the same quotes, braces,
    spaces, line ends and other structure, in the same order, as the one it
    renders for a harmless input: the values only bring letters, digits and
    the bytes [. - _ / *], whatever the scanned certificate and the operator
    put in them.  Without these two conditions values do break out:
    [untrimmed_name], [service_breaks_out]. *)
Theorem Generate_structure target i :
  ((exists e, Generate target i = Err e) <-> refused_input target i) /\
  (trimmed i.(ki_CommonName) -> ValidService i.(ki_Service) = true ->
   let harmless := Build_KitInput "app.example.com" "pki" "web" (if String.eqb i.(ki_Service) "" then "" else "nginx") in
   match Generate target i, Generate target harmless with
   | Ok arts, Ok arts' =>
       Forall2 (fun a b => a.(ar_Filename) = b.(ar_Filename) /\ skeleton a.(ar_Content) = skeleton b.(ar_Content)) arts arts'
   | Err e, Ok _ => validate i = Err e
   | Err e, Err e' => validate i = Err e \/ e = e'
   | Ok _, Err _ => False
   end).
Proof.
  split; [apply Generate_refuses|].
  intros Ht Hsv harmless. unfold Generate. assert (validate harmless = Ok tt) as ->.
  { unfold harmless. destruct (String.eqb _ ""); reflexivity. }
  destruct (validate i) as [[]|e] eqn:Hv;
    [|destruct (String.eqb target "agent"), (String.eqb target "aap"); auto].
  assert (plain_input i) as Hi.
  { unfold validate in Hv. destruct (validName (ki_Mount i)) eqn:E1, (validName (ki_Role i)) eqn:E2,
      (validCommonName (ki_CommonName i)) eqn:E3; try done. apply validCommonName_plain in E3.
    rewrite TrimSpace_trimmed in E3 by done. split_and!; try done; try by apply validName_plain.
    unfold ValidService in Hsv. apply orb_true_iff in Hsv as [->%String.eqb_eq|?]; [done|by apply validName_plain]. }
  assert (plain_input harmless /\ String.eqb i.(ki_Service) "" = String.eqb harmless.(ki_Service) "") as [Hj Hs].
  { unfold harmless, plain_input. destruct (String.eqb (ki_Service i) ""); simpl; split_and!; reflexivity. }
  destruct (String.eqb target "agent"); [|destruct (String.eqb target "aap"); [|by right]].
  - apply Forall2_cons. split; [|by apply Forall2_nil]. split; [done|by apply agent_skeleton].
  - apply Forall2_cons. split; [|by apply Forall2_nil]. split; [done|by apply aap_skeleton].
Qed.

Lemma Generate_structure_witness :
  exists arts, Generate "agent" (Build_KitInput "*.corp.example" "pki/int" "web_server" "nginx") = Ok arts /\ length arts = 1%nat.
Proof.
  pose proof (proj2 (Generate_structure "agent" (Build_KitInput "*.corp.example" "pki/int" "web_server" "nginx"))
                ltac:(split; reflexivity) eq_refl) as H.
  destruct (Generate "agent" _) as [arts|] eqn:E; [|vm_compute in E; discriminate].
  exists arts. split; [done|]. vm_compute in E. injection E as <-. done.
Defined.

(** The validator looks at the trimmed name, the artifact gets the raw one: a
    name that ends in a line end adds a line to the playbook. *)
Example untrimmed_name :
  validCommonName ("app.example.com" ++ nl) = true /\
  match Generate "aap" (Build_KitInput ("app.example.com" ++ nl) "pki" "web" ""),
        Generate "aap" (Build_KitInput "app.example.com" "pki" "web" "") with
  | Ok [a], Ok [b] => CountByte (skeleton a.(ar_Content)) newline_char = (CountByte (skeleton b.(ar_Content)) newline_char + 4)%nat
  | _, _ => False
  end.
Proof. vm_compute. split; reflexivity. Qed.

(** [validate] does not look at the service, which the agent template quotes. *)
Example service_breaks_out :
  match Generate "agent" (Build_KitInput "app.example.com" "pki" "web" ("x" ++ q ++ nl ++ "  command = " ++ q ++ "id")) with
  | Ok [a] => Contains a.(ar_Content) (nl ++ "  command = " ++ q ++ "id" ++ q)
  | _ => false
  end = true.
Proof. vm_compute. reflexivity. Qed.
