(* ===== verification/Ip.v ===== *)
(** * IP addresses ([net/netip] and [net.IP] of Go's standard library)

    What the scanner and the revocation client use of them: reading a prefix,
    walking and printing its addresses, and the classes of addresses that must
    not be contacted.  Zones occur nowhere: [ParsePrefix] refuses them. *)

From Stdlib Require Import Ascii.
From S2P Require Import Prelude GoLib.

(** [netip.Addr]: 32 or 128 bits. *)
Inductive Addr := Addr4 (a : Z) | Addr6 (a : Z).
#[export] Instance Addr_eq_dec : EqDecision Addr.
Proof. solve_decision. Defined.

Definition Is4 (ip : Addr) : bool := match ip with Addr4 _ => true | Addr6 _ => false end.
Definition BitLen (ip : Addr) : Z := match ip with Addr4 _ => 32 | Addr6 _ => 128 end.
Definition addr_bits (ip : Addr) : Z := match ip with Addr4 a | Addr6 a => a end.
Definition with_bits (ip : Addr) (a : Z) : Addr := match ip with Addr4 _ => Addr4 a | Addr6 _ => Addr6 a end.

(** [Unmap]: an IPv4 address written in IPv6; [net.IP.To4] for IPv4. *)
Definition Unmap (ip : Addr) : Addr :=
  match ip with
  | Addr6 a => if Z.shiftr a 32 =? 0xffff then Addr4 (a mod 2 ^ 32) else ip
  | Addr4 _ => ip
  end.
Definition To4 (ip : Addr) : option Z := match Unmap ip with Addr4 a => Some a | Addr6 _ => None end.

(** [Next]; [None] is the zero [Addr] after the last address. *)
Definition Next (ip : Addr) : option Addr :=
  if addr_bits ip + 1 =? 2 ^ BitLen ip then None else Some (with_bits ip (addr_bits ip + 1)).

(** ** Classes of addresses *)

(** The byte at a position, from the left. *)
Definition byte_of (ip : Addr) (i : Z) : Z := Z.land (Z.shiftr (addr_bits ip) (BitLen ip - 8 - 8 * i)) 255.

Definition IsPrivate (ip : Addr) : bool :=
  let ip := Unmap ip in
  if Is4 ip then
    (byte_of ip 0 =? 10) || ((byte_of ip 0 =? 172) && (Z.land (byte_of ip 1) 0xf0 =? 16)) ||
    ((byte_of ip 0 =? 192) && (byte_of ip 1 =? 168))
  else Z.land (byte_of ip 0) 0xfe =? 0xfc.
Definition IsLoopback (ip : Addr) : bool :=
  let ip := Unmap ip in if Is4 ip then byte_of ip 0 =? 127 else addr_bits ip =? 1.
Definition IsUnspecified (ip : Addr) : bool := bool_decide (Unmap ip = Addr4 0) || bool_decide (ip = Addr6 0).
Definition IsLinkLocalUnicast (ip : Addr) : bool :=
  let ip := Unmap ip in
  if Is4 ip then (byte_of ip 0 =? 169) && (byte_of ip 1 =? 254)
  else (byte_of ip 0 =? 0xfe) && (Z.land (byte_of ip 1) 0xc0 =? 0x80).
Definition IsLinkLocalMulticast (ip : Addr) : bool :=
  let ip := Unmap ip in
  if Is4 ip then (byte_of ip 0 =? 224) && (byte_of ip 1 =? 0) && (byte_of ip 2 =? 0)
  else (byte_of ip 0 =? 0xff) && (Z.land (byte_of ip 1) 0x0f =? 2).

(** ** Text *)

Definition hex_digit (c : ascii) : option Z :=
  let n := Z.of_nat (nat_of_ascii c) in
  if is_digit c then Some (n - 48)
  else if ascii_between "a" "f" c then Some (n - 87)
  else if ascii_between "A" "F" c then Some (n - 55)
  else None.

(** The four fields of an IPv4 address: the value and number of digits of the
    field being read, the fields before it and their number. *)
Fixpoint parse_ipv4 (s : string) (val : Z) (digits : nat) (acc : Z) (pos : nat) : option Z :=
  match s with
  | EmptyString => if (pos =? 3)%nat && negb (digits =? 0)%nat then Some (256 * acc + val) else None
  | String c s' =>
      if is_digit c then
        if (digits =? 1)%nat && (val =? 0) then None
        else
          let val := 10 * val + (Z.of_nat (nat_of_ascii c) - 48) in
          if 255 <? val then None else parse_ipv4 s' val (S digits) acc pos
      else if Ascii.eqb c "." then
        if (digits =? 0)%nat || (pos =? 3)%nat then None else parse_ipv4 s' 0 0 (256 * acc + val) (S pos)
      else None
  end.
Definition parseIPv4 (s : string) : option Z := parse_ipv4 s 0 0 0 0.

(** The hexadecimal digits at the start: how many, their value, what follows;
    a fifth digit is refused. *)
Fixpoint hex_run (s : string) (n : nat) (acc : Z) : option (nat * Z * string) :=
  match s with
  | EmptyString => Some (n, acc, s)
  | String c s' =>
      match hex_digit c with
      | None => Some (n, acc, s)
      | Some d => if (3 <? n)%nat then None else hex_run s' (S n) (16 * acc + d)
      end
  end.

(** The groups of an IPv6 address, and where the ellipsis stands. *)
Fixpoint ipv6_groups (fuel : nat) (s : string) (groups : list Z) (ellipsis : option nat) :
    option (list Z * option nat) :=
  match fuel with
  | O => None
  | S fuel =>
      match hex_run s 0 0 with
      | None => None
      | Some (O, _, _) => None
      | Some (_, v, EmptyString) => Some (groups ++ [v], ellipsis)
      | Some (_, v, String c rest) =>
          if Ascii.eqb c "." then
            if bool_decide (ellipsis = None) && negb (length groups =? 6)%nat then None
            else if (6 <? length groups)%nat then None
            else a ← parseIPv4 s; Some (groups ++ [Z.shiftr a 16; a mod 2 ^ 16], ellipsis)
          else if negb (Ascii.eqb c ":") then None
          else
            let groups := groups ++ [v] in
            match rest with
            | EmptyString => None
            | String c' rest' =>
                if Ascii.eqb c' ":" then
                  if bool_decide (is_Some ellipsis) then None
                  else if String.eqb rest' "" then Some (groups, Some (length groups))
                  else if (8 <=? length groups)%nat then None
                  else ipv6_groups fuel rest' groups (Some (length groups))
                else if (8 <=? length groups)%nat then None
                else ipv6_groups fuel rest groups ellipsis
            end
      end
  end.

Definition groups_value (groups : list Z) : Z := foldl (fun a g => 2 ^ 16 * a + g) 0 groups.

(** The ellipsis stands for at least one group of zeros. *)
Definition expand_groups (groups : list Z) (ellipsis : option nat) : option Z :=
  if (length groups <? 8)%nat then
    n ← ellipsis;
    Some (groups_value (take n groups ++ repeat 0 (8 - length groups) ++ drop n groups))
  else match ellipsis with None => Some (groups_value groups) | Some _ => None end.

Definition parseIPv6 (s : string) : option Z :=
  if HasPrefix s "::" then
    let rest := string_drop 2 s in
    if String.eqb rest "" then Some 0
    else '(groups, e) ← ipv6_groups 9 rest [] (Some 0%nat); expand_groups groups e
  else '(groups, e) ← ipv6_groups 9 s [] None; expand_groups groups e.

(** [netip.ParseAddr] of an address without a zone: the first of the bytes
    [. : %] tells which kind it is. *)
Fixpoint addr_kind (s : string) : option ascii :=
  match s with
  | EmptyString => None
  | String c s' => if existsb (Ascii.eqb c) ["."; ":"; "%"]%char then Some c else addr_kind s'
  end.
Definition ParseAddr (s : string) : option Addr :=
  match addr_kind s with
  | Some "."%char => Addr4 <$> parseIPv4 s
  | Some ":"%char => if Contains s "%" then None else Addr6 <$> parseIPv6 s
  | _ => None
  end.

(** [netip.Prefix] *)
Record Prefix := Build_Prefix { pf_Addr : Addr; pf_Bits : Z }.

(** The bytes before and after the last [/]. *)
Fixpoint last_slash (s : string) : option (string * string) :=
  match s with
  | EmptyString => None
  | String c s' =>
      match last_slash s' with
      | Some (a, b) => Some (String c a, b)
      | None => if Ascii.eqb c "/" then Some (EmptyString, s') else None
      end
  end.

(** A decimal number without sign. *)
Fixpoint decimal (s : string) (acc : Z) : option Z :=
  match s with
  | EmptyString => Some acc
  | String c s' => if is_digit c then decimal s' (10 * acc + (Z.of_nat (nat_of_ascii c) - 48)) else None
  end.
Definition prefix_bits (s : string) : option Z :=
  match s with
  | EmptyString => None
  | String c s' => if negb (String.eqb s' "") && Ascii.eqb c "0" then None else decimal s 0
  end.

Definition ParsePrefix (s : string) : option Prefix :=
  '(a, b) ← last_slash s;
  ip ← ParseAddr a;
  bits ← prefix_bits b;
  if BitLen ip <? bits then None else Some (Build_Prefix ip bits).

(** [Masked().Addr()], [Contains] *)
Definition host_bits (p : Prefix) : Z := BitLen p.(pf_Addr) - p.(pf_Bits).
Definition Masked (p : Prefix) : Addr :=
  with_bits p.(pf_Addr) (Z.shiftl (Z.shiftr (addr_bits p.(pf_Addr)) (host_bits p)) (host_bits p)).
Definition Prefix_Contains (p : Prefix) (ip : Addr) : bool :=
  (BitLen ip =? BitLen p.(pf_Addr)) &&
  (Z.shiftr (Z.lxor (addr_bits ip) (addr_bits p.(pf_Addr))) (host_bits p) =? 0).

Definition nibble (d : Z) : ascii := ascii_of_nat (Z.to_nat (if d <? 10 then d + 48 else d + 87)).
(** A group in hexadecimal, without leading zeros. *)
Definition hex_group (g : Z) : string :=
  let d i := Z.land (Z.shiftr g (4 * i)) 15 in
  let from i := String (nibble (d i)) in
  if 0x1000 <=? g then from 3 (from 2 (from 1 (from 0 "")))
  else if 0x100 <=? g then from 2 (from 1 (from 0 ""))
  else if 0x10 <=? g then from 1 (from 0 "") else from 0 ""%string.

(** The length of the run of zeros at the start. *)
Fixpoint zero_run (l : list Z) : nat := match l with 0 :: l' => S (zero_run l') | _ => 0%nat end.
(** The first longest run of at least two zeros: start and end. *)
Fixpoint longest_zeros (l : list Z) (i : nat) (best : nat * nat) : nat * nat :=
  match l with
  | [] => best
  | _ :: l' =>
      let n := zero_run l in
      longest_zeros l' (S i) (if (2 <=? n)%nat && (best.2 - best.1 <? n)%nat then (i, i + n)%nat else best)
  end.
Definition hex_groups (l : list Z) : string := Join (map hex_group l) ":".
Definition groups_of (a : Z) : list Z := map (fun i => Z.land (Z.shiftr a (16 * (7 - i))) 0xffff) [0; 1; 2; 3; 4; 5; 6; 7].

Definition string4 (a : Z) : string :=
  let b i := Itoa (Z.land (Z.shiftr a (8 * i)) 255) in
  (b 3 ++ "." ++ b 2 ++ "." ++ b 1 ++ "." ++ b 0)%string.
Definition string6 (a : Z) : string :=
  let l := groups_of a in
  let '(i, j) := longest_zeros l 0 (0, 0)%nat in
  if (i <? j)%nat then (hex_groups (take i l) ++ "::" ++ hex_groups (drop j l))%string else hex_groups l.

(** [Addr.String] *)
Definition Addr_String (ip : Addr) : string :=
  match ip with
  | Addr4 a => string4 a
  | Addr6 a => match Unmap ip with Addr4 b => ("::ffff:" ++ string4 b)%string | Addr6 _ => string6 a end
  end.

Example parse_addrs :
  ParseAddr "192.168.1.20" = Some (Addr4 0xc0a80114) /\ ParseAddr "1.2.3" = None /\ ParseAddr "1.02.3.4" = None /\
  ParseAddr "::" = Some (Addr6 0) /\ ParseAddr "2001:db8::8:800:200c:417a" = Some (Addr6 0x20010db80000000000080800200c417a) /\
  ParseAddr "::ffff:10.0.0.1" = Some (Addr6 0xffff0a000001) /\ ParseAddr "1:2:3:4:5:6:7::" = Some (Addr6 0x10002000300040005000600070000) /\
  ParseAddr "1:2:3:4:5:6:7:8::" = None /\ ParseAddr "1::2::3" = None /\ ParseAddr "fe80::1%eth0" = None /\
  ParseAddr "12345::" = None /\ ParseAddr "1:2:3:4:5:6:7" = None /\ ParseAddr "1:2:3:4:5:6:7:8:9" = None.
Proof. vm_compute. done. Qed.

Example print_addrs :
  map Addr_String [Addr4 0x0a000001; Addr6 0; Addr6 1; Addr6 0x20010db80000000000080800200c417a; Addr6 0xffff0a000001;
                   Addr6 0x1000000020000000000030000] =
  ["10.0.0.1"; "::"; "::1"; "2001:db8::8:800:200c:417a"; "::ffff:10.0.0.1"; "0:1:0:2::3:0"]%string.
Proof. vm_compute. done. Qed.

(** ** What parsing returns is in range *)

Lemma digit_value c : is_digit c = true -> 0 <= Z.of_nat (nat_of_ascii c) - 48 <= 9.
Proof.
  destruct c as [b0 b1 b2 b3 b4 b5 b6 b7].
  destruct b0, b1, b2, b3, b4, b5, b6, b7; vm_compute; try discriminate; intros _; split; discriminate.
Qed.

Lemma hex_digit_value c d : hex_digit c = Some d -> 0 <= d < 16.
Proof.
  destruct c as [b0 b1 b2 b3 b4 b5 b6 b7].
  destruct b0, b1, b2, b3, b4, b5, b6, b7; vm_compute; try discriminate; intros [= <-]; split; done.
Qed.

Lemma parse_ipv4_range s val digits acc pos a :
  0 <= val <= 255 -> 0 <= acc < 256 ^ Z.of_nat pos -> (pos <= 3)%nat ->
  parse_ipv4 s val digits acc pos = Some a -> 0 <= a < 2 ^ 32.
Proof.
  revert val digits acc pos. induction s as [|c s IH]; intros val digits acc pos Hv Ha Hp; cbn [parse_ipv4].
  - destruct (Nat.eqb_spec pos 3) as [->|]; [|done]. destruct (negb _); [|done]. intros [= <-]. simpl in *. lia.
  - destruct (is_digit c) eqn:Hd.
    + apply digit_value in Hd. destruct (_ && _); [done|]. destruct (255 <? _) eqn:E; [done|].
      apply Z.ltb_ge in E. apply IH; lia.
    + destruct (Ascii.eqb c "."); [|done]. destruct (Nat.eqb_spec pos 3); rewrite ?orb_true_r; [done|].
      destruct (_ || _); [done|]. apply IH; [lia| |lia]. rewrite Nat2Z.inj_succ, Z.pow_succ_r by lia. lia.
Qed.

Lemma parseIPv4_range s a : parseIPv4 s = Some a -> 0 <= a < 2 ^ 32.
Proof. apply parse_ipv4_range; simpl; lia. Qed.

Definition group_ok (g : Z) : Prop := 0 <= g < 2 ^ 16.

Lemma hex_run_range s n acc n' v rest :
  (n <= 4)%nat -> 0 <= acc < 16 ^ Z.of_nat n -> hex_run s n acc = Some (n', v, rest) -> group_ok v.
Proof.
  assert (forall n acc, (n <= 4)%nat -> 0 <= acc < 16 ^ Z.of_nat n -> group_ok acc) as Hend.
  { intros m a Hm [? Ha]. split; [done|]. eapply Z.lt_le_trans; [exact Ha|].
    change (2 ^ 16) with (16 ^ 4). apply Z.pow_le_mono_r; lia. }
  revert n acc. induction s as [|c s IH]; intros n acc Hn Ha; cbn [hex_run].
  - intros [= <- <- <-]. eauto.
  - destruct (hex_digit c) as [d|] eqn:Hd; [|intros [= <- <- <-]; eauto].
    apply hex_digit_value in Hd. destruct (Nat.ltb_spec 3 n); [done|]. apply IH; [lia|].
    rewrite Nat2Z.inj_succ, Z.pow_succ_r by lia. lia.
Qed.

Lemma ipv6_groups_range fuel s groups e groups' e' :
  (length groups <= 7)%nat -> Forall group_ok groups ->
  ipv6_groups fuel s groups e = Some (groups', e') -> (length groups' <= 8)%nat /\ Forall group_ok groups'.
Proof.
  revert s groups e. induction fuel as [|fuel IH]; intros s groups e Hl Hg; cbn [ipv6_groups]; [done|].
  destruct (hex_run s 0 0) as [[[[|n] v] rest]|] eqn:Hr; [done| |done].
  apply hex_run_range in Hr; [|lia|done].
  assert (length (groups ++ [v]) <= 8 /\ Forall group_ok (groups ++ [v]))%nat as [Hl' Hg'].
  { rewrite length_app; simpl. split; [lia|]. apply Forall_app; auto. }
  destruct rest as [|c rest]; [by intros [= <- <-]|]. destruct (Ascii.eqb c ".").
  - destruct (_ && _); [done|]. destruct (Nat.ltb_spec 6 (length groups)); [done|].
    intros (a & Ha%parseIPv4_range & [= <- <-])%bind_Some. rewrite length_app; simpl. split; [lia|].
    apply Forall_app. split; [done|]. unfold group_ok. repeat constructor; rewrite ?Z.shiftr_div_pow2 by lia.
    + apply Z.div_pos; lia.
    + apply Z.div_lt_upper_bound; lia.
    + apply Z.mod_pos_bound; lia.
    + apply Z.mod_pos_bound; lia.
  - destruct (negb _); [done|]. destruct rest as [|c' rest']; [done|]. destruct (Ascii.eqb c' ":").
    + destruct (bool_decide _); [done|]. destruct (String.eqb rest' ""); [by intros [= <- <-]|].
      destruct (Nat.leb_spec 8 (length (groups ++ [v]))); [done|]. apply IH; [lia|done].
    + destruct (Nat.leb_spec 8 (length (groups ++ [v]))); [done|]. apply IH; [lia|done].
Qed.

Lemma groups_value_range groups n :
  Forall group_ok groups -> length groups = n -> 0 <= groups_value groups < 2 ^ (16 * Z.of_nat n).
Proof.
  intros Hg <-. unfold groups_value. induction groups as [|g groups IH] using rev_ind; [simpl; lia|].
  apply Forall_app in Hg as [Hg [Hb _]%Forall_cons]. specialize (IH Hg). rewrite foldl_snoc, length_app. simpl length.
  replace (16 * Z.of_nat (length groups + 1)) with (16 * Z.of_nat (length groups) + 16) by lia.
  unfold group_ok in Hb. rewrite Z.pow_add_r by lia. nia.
Qed.

Lemma expand_groups_range groups e a :
  (length groups <= 8)%nat -> Forall group_ok groups -> expand_groups groups e = Some a -> 0 <= a < 2 ^ 128.
Proof.
  intros Hl Hg. unfold expand_groups. destruct (Nat.ltb_spec (length groups) 8).
  - intros (n & -> & [= <-])%bind_Some. apply (groups_value_range _ 8).
    + apply Forall_app. split; [by apply Forall_take|]. apply Forall_app. split; [|by apply Forall_drop].
      apply Forall_forall. by intros x ->%list_elem_of_In%repeat_spec.
    + pose proof (take_drop n groups) as Ht. apply (f_equal length) in Ht.
      rewrite length_app in Ht. rewrite !length_app, repeat_length. lia.
  - destruct e; [done|]. intros [= <-]. apply (groups_value_range _ 8); [done|lia].
Qed.

Lemma parseIPv6_range s a : parseIPv6 s = Some a -> 0 <= a < 2 ^ 128.
Proof.
  assert (forall t e, ('(groups, e) ← ipv6_groups 9 t [] e; expand_groups groups e) = Some a -> 0 <= a < 2 ^ 128) as H.
  { intros t e ([groups e'] & Hg & He)%bind_Some. apply ipv6_groups_range in Hg as [Hl Hg]; [|simpl; lia|done].
    by eapply expand_groups_range. }
  unfold parseIPv6. destruct (HasPrefix s "::"); [|apply H]. destruct (String.eqb _ _); [|apply H].
  intros [= <-]. lia.
Qed.

Lemma ParseAddr_range s ip : ParseAddr s = Some ip -> 0 <= addr_bits ip < 2 ^ BitLen ip.
Proof.
  unfold ParseAddr. destruct (addr_kind s) as [c|]; [|done].
  destruct c as [[] [] [] [] [] [] [] []]; try done.
  - intros (a & Ha%parseIPv4_range & ->)%fmap_Some. done.
  - destruct (Contains s "%"); [done|]. intros (a & Ha%parseIPv6_range & ->)%fmap_Some. done.
Qed.

Lemma decimal_nonneg s acc n : 0 <= acc -> decimal s acc = Some n -> 0 <= n.
Proof.
  revert acc. induction s as [|c s IH]; intros acc Ha; cbn [decimal]; [by intros [= <-]|].
  destruct (is_digit c) eqn:Hd; [|done]. apply digit_value in Hd. apply IH. lia.
Qed.

(** A prefix as [ParsePrefix] returns it. *)
Definition prefix_ok (p : Prefix) : Prop :=
  0 <= addr_bits p.(pf_Addr) < 2 ^ BitLen p.(pf_Addr) /\ 0 <= p.(pf_Bits) <= BitLen p.(pf_Addr).

Lemma ParsePrefix_ok s p : ParsePrefix s = Some p -> prefix_ok p.
Proof.
  unfold ParsePrefix. intros ([a b] & _ & (ip & Hip%ParseAddr_range & (bits & Hb & H)%bind_Some)%bind_Some)%bind_Some.
  destruct (Z.ltb_spec (BitLen ip) bits); [done|]. injection H as <-. split; [done|]. simpl. split; [|done].
  unfold prefix_bits in Hb. destruct b as [|c b]; [done|]. destruct (_ && _); [done|]. by eapply decimal_nonneg in Hb.
Qed.
