(* ===== verification/Revocation.v ===== *)
(** * Revocation checks (internal/revocation/crl.go, ocsp.go)

    OCSP first, then the CRL, over a client that refuses to connect to inside
    addresses.  X.509, CRL and OCSP decoding and signatures are those of Go's
    [crypto/x509] and of [golang.org/x/crypto/ocsp]: parameters. *)

From Stdlib Require Import Ascii.
From S2P Require Import Prelude GoLib Db Ip Sends.

Open Scope clm_scope.

(** [Status] *)
Inductive RevStatus := RevGood | RevRevoked | RevUnknown.
#[export] Instance RevStatus_eq_dec : EqDecision RevStatus.
Proof. solve_decision. Defined.
Definition rev_status_text (s : RevStatus) : string :=
  match s with RevGood => "good" | RevRevoked => "revoked" | RevUnknown => "unknown" end.

(** [Result] *)
Record RevResult := Build_RevResult {
  rr_Status : RevStatus; rr_Source : string; rr_Verified : bool; rr_RevokedAt : option time; rr_CRLURL : string
}.

(** An entry of a parsed CRL, an OCSP answer. *)
Record CRLEntry := Build_CRLEntry { ce_SerialNumber : Z; ce_RevocationTime : time }.
Record OCSPResponse := Build_OCSPResponse { or_Status : RevStatus; or_RevokedAt : time }.

(** The libraries, and the network: the scheme of a URL; which addresses the
    n-th request to a URL tries to connect to and which connect ([None] is
    not an IP address); the status and the body of the n-th reply. *)
Class RevocationLib := {
  X509 : Type;
  RevocationList : Type;
  pem_Decode : string -> option string;
  x509_ParseCertificate : string -> option X509;
  ParseRevocationList : string -> option RevocationList;
  RevokedCertificateEntries : RevocationList -> list CRLEntry;
  crl_CheckSignatureFrom : RevocationList -> X509 -> bool;
  cert_CheckSignatureFrom : X509 -> X509 -> bool;
  ocsp_CreateRequest : X509 -> X509 -> option string;
  ParseResponseForCert : string -> X509 -> X509 -> option OCSPResponse;
  url_scheme : string -> option string;
  dial_attempts : nat -> string -> list (option Addr * bool);
  http_reply : nat -> option (Z * string)
}.

(** ** The client *)

(** [cgnatRange.Contains] *)
Definition in_cgnat (ip : Addr) : bool :=
  match To4 ip with Some a => Z.shiftr a 22 =? Z.shiftr 0x64400000 22 | None => false end.
Definition isPublicIP (ip : Addr) : bool :=
  negb (IsLoopback ip || IsUnspecified ip || IsLinkLocalUnicast ip || IsLinkLocalMulticast ip || IsPrivate ip ||
        in_cgnat ip).

(** The [Control] of the dialer. *)
Definition dial_control (address : option Addr) : bool :=
  match address with Some ip => isPublicIP ip | None => false end.
(** The connection that is made, if any. *)
Fixpoint dial (attempts : list (option Addr * bool)) : option Addr :=
  match attempts with
  | [] => None
  | (address, connects) :: attempts' => if dial_control address && connects then address else dial attempts'
  end.

(** [big.Int.SetString(s, 16)] *)
Fixpoint hex_digits (s : string) (acc : Z) : option Z :=
  match s with
  | EmptyString => Some acc
  | String c s' => match hex_digit c with Some d => hex_digits s' (16 * acc + d) | None => None end
  end.
Definition SetString16 (s : string) : option Z :=
  let digits t := if String.eqb t "" then None else hex_digits t 0 in
  match s with
  | String "-" t => Z.opp <$> digits t
  | String "+" t => digits t
  | _ => digits s
  end%char.

Section Revocation.
Context `{RevocationLib}.

Definition http_scheme (url : string) : bool :=
  match url_scheme url with
  | Some scheme => String.eqb scheme "http" || String.eqb scheme "https"
  | None => false
  end.

Definition request_body (ip : Addr) (method : string) (der : string) : json := JObj
  [("address"%string, JStr (Addr_String ip)); ("body"%string, JStr der); ("method"%string, JStr method)].

(** [client.Do]: connects, and sends the request over the connection. *)
Definition client_do (url method der : string) : M (option (Z * string)) := fun w =>
  let '(_, w1) := next_env w in
  match dial (dial_attempts (length w1.(w_sent)) url) with
  | None => (None, w1)
  | Some ip => net_call {| nc_service := SvcRevocation; nc_subject := url; nc_body := request_body ip method der |} http_reply w1
  end.

(** The body of a 200 reply. *)
Definition ok_body (limit : N) (r : option (Z * string)) : option string :=
  match r with Some (status, body) => if status =? 200 then Some (limit_bytes limit body) else None | None => None end.

Definition fetchCRL (url : string) : M (option string) :=
  if negb (http_scheme url) then mret None
  else r <-- client_do url "GET" "" ;; mret (ok_body (16 * 2 ^ 20) r).
Definition postOCSP (server reqDER : string) : M (option string) :=
  r <-- client_do server "POST" reqDER ;; mret (ok_body (2 ^ 20) r).

Definition parseCert (pemStr : string) : option X509 := block ← pem_Decode pemStr; x509_ParseCertificate block.

(** The first CRL that can be fetched and parsed. *)
Fixpoint first_crl (crlURLs : list string) : M (option (string * RevocationList)) :=
  match crlURLs with
  | [] => mret None
  | u :: crlURLs' =>
      der <-- fetchCRL u ;;
      match der ≫= ParseRevocationList with
      | Some crl => mret (Some (u, crl))
      | None => first_crl crlURLs'
      end
  end.

Definition crl_entry (serial : Z) (crl : RevocationList) : option CRLEntry :=
  head (filter (fun e => e.(ce_SerialNumber) = serial) (RevokedCertificateEntries crl)).
Definition crl_verified (crl : RevocationList) (issuerPEM : string) : bool :=
  if String.eqb issuerPEM "" then false
  else match parseCert issuerPEM with Some issuer => crl_CheckSignatureFrom crl issuer | None => false end.

Definition CheckCRL (serialHex : string) (crlURLs : list string) (issuerPEM : string) : M (result string RevResult) :=
  let unknown := Build_RevResult RevUnknown "crl" false None "" in
  match crlURLs with
  | [] => mret (Ok unknown)
  | _ =>
      match SetString16 serialHex with
      | None => mret (Err "invalid serial"%string)
      | Some serial =>
          found <-- first_crl crlURLs ;;
          mret (Ok match found with
                   | None => unknown
                   | Some (u, crl) =>
                       let verified := crl_verified crl issuerPEM in
                       match crl_entry serial crl with
                       | Some e => Build_RevResult RevRevoked "crl" verified (Some e.(ce_RevocationTime)) u
                       | None => Build_RevResult RevGood "crl" verified None u
                       end
                   end)
      end
  end.

(** An OCSP answer that was verified. *)
Definition ocsp_result (source : string) (r : OCSPResponse) : RevResult :=
  Build_RevResult r.(or_Status) source true
    (if bool_decide (r.(or_Status) = RevRevoked) then Some r.(or_RevokedAt) else None) "".

Fixpoint first_ocsp (leaf issuer : X509) (reqDER : string) (servers : list string) : M (option OCSPResponse) :=
  match servers with
  | [] => mret None
  | server :: servers' =>
      if negb (http_scheme server) then first_ocsp leaf issuer reqDER servers'
      else
        der <-- postOCSP server reqDER ;;
        match der ≫= fun d => ParseResponseForCert d leaf issuer with
        | Some r => mret (Some r)
        | None => first_ocsp leaf issuer reqDER servers'
        end
  end.

Definition CheckOCSP (leafPEM issuerPEM : string) (ocspServers : list string) : M (result string RevResult) :=
  let unknown := Build_RevResult RevUnknown "ocsp" false None "" in
  if (length ocspServers =? 0)%nat || String.eqb issuerPEM "" || String.eqb leafPEM "" then mret (Ok unknown)
  else
    match parseCert leafPEM, parseCert issuerPEM with
    | Some leaf, Some issuer =>
        match ocsp_CreateRequest leaf issuer with
        | None => mret (Err "create ocsp request"%string)
        | Some reqDER =>
            r <-- first_ocsp leaf issuer reqDER ocspServers ;;
            mret (Ok match r with Some resp => ocsp_result "ocsp" resp | None => unknown end)
        end
    | _, _ => mret (Ok unknown)
    end.

(** [CheckInput] *)
Record CheckInput := Build_CheckInput {
  ci_SerialHex : string; ci_LeafPEM : string; ci_IssuerPEM : string; ci_OCSPServers : list string; ci_CRLURLs : list string
}.

Definition Check_ (i : CheckInput) : M (result string RevResult) :=
  r <-- CheckOCSP i.(ci_LeafPEM) i.(ci_IssuerPEM) i.(ci_OCSPServers) ;;
  match r with
  | Ok res => if bool_decide (res.(rr_Status) = RevUnknown)
              then CheckCRL i.(ci_SerialHex) i.(ci_CRLURLs) i.(ci_IssuerPEM) else mret (Ok res)
  | Err _ => CheckCRL i.(ci_SerialHex) i.(ci_CRLURLs) i.(ci_IssuerPEM)
  end.

Definition ParseStapledOCSP (stapled leafPEM issuerPEM : string) : RevResult :=
  let unknown := Build_RevResult RevUnknown "ocsp_stapled" false None "" in
  if String.eqb stapled "" || String.eqb leafPEM "" || String.eqb issuerPEM "" then unknown
  else
    match parseCert leafPEM, parseCert issuerPEM with
    | Some leaf, Some issuer =>
        if negb (cert_CheckSignatureFrom leaf issuer) then unknown
        else match ParseResponseForCert stapled leaf issuer with
             | Some r => ocsp_result "ocsp_stapled" r
             | None => unknown
             end
    | _, _ => unknown
    end.
End Revocation.

(** ** What is asked, and what is believed *)

Section Facts.
Context `{RevocationLib}.

(** A request to one of the URLs of a certificate. *)
Definition revocation_request (urls : list string) (c : netcall) : Prop :=
  c.(nc_service) = SvcRevocation /\ c.(nc_subject) ∈ urls /\ http_scheme c.(nc_subject) = true /\
  exists ip method der, isPublicIP ip = true /\ c.(nc_body) = request_body ip method der.

Lemma dial_public attempts ip : dial attempts = Some ip -> isPublicIP ip = true.
Proof.
  induction attempts as [|[address connects] attempts IH]; simpl; [done|].
  destruct (dial_control address) eqn:E, connects; simpl; auto. intros ->. done.
Qed.

Lemma sends_client_do urls url method der :
  url ∈ urls -> http_scheme url = true -> moves (sends (revocation_request urls)) (client_do url method der).
Proof.
  intros Hin Hs w r w'. unfold client_do. destruct (next_env w) as [e w1] eqn:He.
  apply (sends_env (revocation_request urls)) in He.
  destruct (dial _) as [ip|] eqn:Ed; [|by intros [= <- <-]].
  intros Hc. etransitivity; [exact He|]. revert Hc. apply sends_net_call. apply dial_public in Ed.
  split_and!; simpl; eauto 6.
Qed.

Lemma sends_first_crl urls crls :
  crls ⊆ urls -> moves (sends (revocation_request urls)) (first_crl crls).
Proof.
  induction crls as [|u crls IH]; intros Hin; cbn [first_crl]; [sends_tac|].
  unfold fetchCRL. apply moves_bind; [exact _| |].
  - destruct (http_scheme u) eqn:Es; simpl; [|sends_tac].
    apply moves_bind; [exact _|by apply sends_client_do; [set_solver|]|intros; sends_tac].
  - intros der. destruct (der ≫= _); [sends_tac|]. apply IH. set_solver.
Qed.

Lemma sends_first_ocsp urls leaf issuer req servers :
  servers ⊆ urls -> moves (sends (revocation_request urls)) (first_ocsp leaf issuer req servers).
Proof.
  induction servers as [|s servers IH]; intros Hin; cbn [first_ocsp]; [sends_tac|].
  destruct (http_scheme s) eqn:Es; simpl; [|apply IH; set_solver].
  unfold postOCSP. apply moves_bind; [exact _| |].
  - apply moves_bind; [exact _|by apply sends_client_do; [set_solver|]|intros; sends_tac].
  - intros der. destruct (der ≫= _); [sends_tac|]. apply IH. set_solver.
Qed.

Lemma sends_CheckCRL urls serial crls issuer :
  crls ⊆ urls -> moves (sends (revocation_request urls)) (CheckCRL serial crls issuer).
Proof.
  intros Hin. unfold CheckCRL. destruct crls as [|u crls]; [sends_tac|]. destruct (SetString16 serial); [|sends_tac].
  apply moves_bind; [exact _|by apply sends_first_crl|intros; sends_tac].
Qed.

Lemma sends_CheckOCSP urls leaf issuer servers :
  servers ⊆ urls -> moves (sends (revocation_request urls)) (CheckOCSP leaf issuer servers).
Proof.
  intros Hin. unfold CheckOCSP. destruct (_ || _ || _); [sends_tac|].
  destruct (parseCert leaf), (parseCert issuer); try sends_tac. by apply sends_first_ocsp.
Qed.

Lemma sends_Check i :
  moves (sends (revocation_request (i.(ci_OCSPServers) ++ i.(ci_CRLURLs)))) (Check_ i).
Proof.
  unfold Check_. apply moves_bind; [exact _|apply sends_CheckOCSP; set_solver|].
  intros [r|e]; [destruct (bool_decide _); [|sends_tac]|]; apply sends_CheckCRL; set_solver.
Qed.

(** Someone who may say so has said that the certificate is revoked. *)
Definition revocation_proved (i : CheckInput) (res : RevResult) : Prop :=
  exists issuer, parseCert i.(ci_IssuerPEM) = Some issuer /\
  ((exists leaf der resp, res.(rr_Source) = "ocsp"%string /\ parseCert i.(ci_LeafPEM) = Some leaf /\
      ParseResponseForCert der leaf issuer = Some resp /\ resp.(or_Status) = RevRevoked) \/
   (exists crl e, res.(rr_Source) = "crl"%string /\ res.(rr_CRLURL) ∈ i.(ci_CRLURLs) /\
      crl_CheckSignatureFrom crl issuer = true /\ e ∈ RevokedCertificateEntries crl /\
      SetString16 i.(ci_SerialHex) = Some e.(ce_SerialNumber))).

Lemma first_crl_in crls w u crl w' : first_crl crls w = (Some (u, crl), w') -> u ∈ crls.
Proof.
  revert w. induction crls as [|v crls IH]; intros w; cbn [first_crl]; [done|].
  unfold mbind at 1. destruct (fetchCRL v w) as [der w1]. destruct (der ≫= _) as [c|].
  - intros [= <- _ _]. constructor.
  - intros E%IH. by constructor.
Qed.

Lemma CheckCRL_proved i w res w' :
  CheckCRL i.(ci_SerialHex) i.(ci_CRLURLs) i.(ci_IssuerPEM) w = (Ok res, w') ->
  res.(rr_Status) = RevRevoked -> res.(rr_Verified) = true -> revocation_proved i res.
Proof.
  unfold CheckCRL. destruct (ci_CRLURLs i) as [|u urls] eqn:Eu; [by intros [= <- _]|].
  destruct (SetString16 _) as [serial|] eqn:Es; [|by intros [= _]]. unfold mbind.
  destruct (first_crl (u :: urls) w) as [[[v crl]|] w1] eqn:Ef; [|by intros [= <- _]].
  apply first_crl_in in Ef. destruct (crl_entry serial crl) as [e|] eqn:Ee; [|by intros [= <- _]].
  intros [= <- _] _ Hv. simpl in Hv. unfold crl_verified in Hv. destruct (String.eqb _ _); [done|].
  destruct (parseCert (ci_IssuerPEM i)) as [issuer|] eqn:Ei; [|done]. exists issuer. split; [done|]. right.
  unfold crl_entry in Ee.
  assert (e ∈ filter (fun e => ce_SerialNumber e = serial) (RevokedCertificateEntries crl)) as [He Hin]%list_elem_of_filter
    by (by apply head_Some_elem_of).
  exists crl, e. simpl. rewrite Eu, He. done.
Qed.

Lemma first_ocsp_parsed leaf issuer req servers w r w' :
  first_ocsp leaf issuer req servers w = (Some r, w') -> exists der, ParseResponseForCert der leaf issuer = Some r.
Proof.
  revert w. induction servers as [|s servers IH]; intros w; cbn [first_ocsp]; [done|].
  destruct (negb _); [apply IH|]. unfold mbind at 1. destruct (postOCSP s req w) as [der w1].
  destruct (der ≫= _) as [c|] eqn:E; [|apply IH]. intros [= <- _]. apply bind_Some in E as (d & _ & E). eauto.
Qed.

Lemma CheckOCSP_proved i w res w' :
  CheckOCSP i.(ci_LeafPEM) i.(ci_IssuerPEM) i.(ci_OCSPServers) w = (Ok res, w') ->
  res.(rr_Status) <> RevUnknown -> res.(rr_Status) = RevRevoked -> revocation_proved i res.
Proof.
  unfold CheckOCSP. destruct (_ || _ || _); [by intros [= <- _]|].
  destruct (parseCert (ci_LeafPEM i)) as [leaf|] eqn:El; [|by intros [= <- _]].
  destruct (parseCert (ci_IssuerPEM i)) as [issuer|] eqn:Ei; [|by intros [= <- _]].
  destruct (ocsp_CreateRequest leaf issuer) as [req|]; [|by intros [= _]]. unfold mbind.
  destruct (first_ocsp leaf issuer req _ w) as [[r|] w1] eqn:Ef; [|by intros [= <- _]].
  apply first_ocsp_parsed in Ef as [der Hd]. intros [= <- _] _ Hr. simpl in Hr.
  exists issuer. split; [done|]. left. exists leaf, der, r. done.
Qed.

(** C14. A revocation check, against any network: it sends requests only to
    OCSP and CRL URLs of the certificate, only by http or https, and only over
    connections to public addresses, whatever the names resolve to; and it
    reports a verified revocation only if the issuer given parses and either
    an OCSP response verified for this leaf and issuer says revoked, or a CRL
    of one of the URLs with a signature of the issuer lists the serial. *)
Theorem Check_spec i w r w' :
  Check_ i w = (r, w') ->
  (exists l, w'.(w_sent) = w.(w_sent) ++ l /\
     Forall (revocation_request (i.(ci_OCSPServers) ++ i.(ci_CRLURLs))) l) /\
  (forall res, r = Ok res -> res.(rr_Status) = RevRevoked -> res.(rr_Verified) = true -> revocation_proved i res).
Proof.
  intros Hc. split; [by eapply sends_Check|]. intros res -> Hs Hv. unfold Check_, mbind in Hc.
  destruct (CheckOCSP _ _ _ w) as [[o|e] w1] eqn:Eo.
  - destruct (bool_decide (rr_Status o = RevUnknown)) eqn:Eb; [by eapply CheckCRL_proved|].
    apply bool_decide_eq_false in Eb. injection Hc as -> ->. by eapply CheckOCSP_proved.
  - by eapply CheckCRL_proved.
Qed.
End Facts.

(** A staple is believed only for a leaf that the issuer signed. *)
Lemma ParseStapledOCSP_fail_closed `{RevocationLib} stapled leafPEM issuerPEM :
  (ParseStapledOCSP stapled leafPEM issuerPEM).(rr_Verified) = true ->
  exists leaf issuer resp, parseCert leafPEM = Some leaf /\ parseCert issuerPEM = Some issuer /\
    cert_CheckSignatureFrom leaf issuer = true /\ ParseResponseForCert stapled leaf issuer = Some resp /\
    (ParseStapledOCSP stapled leafPEM issuerPEM).(rr_Status) = resp.(or_Status).
Proof.
  unfold ParseStapledOCSP. destruct (_ || _ || _); [done|].
  destruct (parseCert leafPEM) as [leaf|]; [|done]. destruct (parseCert issuerPEM) as [issuer|]; [|done].
  destruct (cert_CheckSignatureFrom leaf issuer) eqn:Es; [|done].
  destruct (ParseResponseForCert stapled leaf issuer) as [resp|] eqn:Er; [|done].
  intros _. exists leaf, issuer, resp. done.
Qed.

(** ** A witness

    The first address of the responder is inside and refused; the CRL is
    fetched from the second one. *)

Section Demo.
#[local] Instance demo_lib : RevocationLib := {|
  X509 := string; RevocationList := list CRLEntry;
  pem_Decode := Some; x509_ParseCertificate := Some;
  ParseRevocationList := fun d => if String.eqb d "crl" then Some [Build_CRLEntry 0x1f 5] else None;
  RevokedCertificateEntries := fun l => l;
  crl_CheckSignatureFrom := fun _ issuer => String.eqb issuer "ca";
  cert_CheckSignatureFrom := fun _ _ => false;
  ocsp_CreateRequest := fun _ _ => None;
  ParseResponseForCert := fun _ _ _ => None;
  url_scheme := fun u => if HasPrefix u "http://" then Some "http"%string else None;
  dial_attempts := fun _ _ => [(Some (Addr4 0x0a000001), true); (Some (Addr4 0x08080808), true)];
  http_reply := fun _ => Some (200, "crl"%string) |}.
Definition demo_check : CheckInput := Build_CheckInput "1F" "leaf" "ca" [] ["file:///etc"; "http://crl.example"].

Lemma Check_spec_witness :
  exists res l, (Check_ demo_check (calm_world (Build_DB ∅ [] ∅ ∅ [] [] ∅ ∅ ∅ ∅ ∅ 0) 0)).1 = Ok res /\
    rr_RevokedAt res = Some 5 /\ revocation_proved demo_check res /\ length l = 1%nat /\
    Forall (revocation_request (demo_check.(ci_OCSPServers) ++ demo_check.(ci_CRLURLs))) l.
Proof.
  destruct (Check_ demo_check (calm_world (Build_DB ∅ [] ∅ ∅ [] [] ∅ ∅ ∅ ∅ ∅ 0) 0)) as [r w'] eqn:E.
  destruct (Check_spec demo_check _ r w' E) as [(l & Hl & Hall) Hp]. vm_compute in E. injection E as <- <-.
  eexists _, l. split; [reflexivity|]. split; [reflexivity|]. split; [by apply Hp|]. split; [|exact Hall].
  simpl in Hl. by rewrite <- Hl.
Defined.
End Demo.
