(* ===== verification/LaunchApi.v ===== *)
(** * The handlers that change certificates (internal/api/server.go, migrate.go)

    Renewal, migration, revocation, catalogue import and CA import: what they
    check, what they ask of the Controller, of Vault and of the responder, and
    what they store. *)

From Stdlib Require Import Ascii.
From S2P Require Import Prelude GoLib Records Db Queue Outbox CertStore JobStore Worker Issuers ScanQueue Sha256 Access Renewal Ip Revocation.

Open Scope clm_scope.

(** ** Requests and replies *)

(** The JSON or the text a handler answers with. *)
Inductive Body :=
| BError (msg : string)
| BKitError (e : KitError)
| BJson (j : json)
| BCert (c : Certificate)
| BIssuer (i : Issuer)
| BScan (s : Scan)
| BCollected (s : option Scan) (ingested skipped : Z).

(** [auditAllow]: action, target type, target id, payload. *)
Record AuditEntry := Build_AuditEntry { ae_Action : string; ae_TargetType : string; ae_TargetID : string; ae_Payload : option any }.

(** What a handler answers, and the audit event it appends just before. *)
Record Reply := Build_Reply { rp_status : Z; rp_body : Body; rp_audit : option AuditEntry }.

Definition writeError (status : Z) (msg : string) : M Reply := mret (Build_Reply status (BError msg) None).
Definition writeJSON (status : Z) (audit : option AuditEntry) (b : Body) : M Reply := mret (Build_Reply status b audit).
Definition writeServerError (msg : string) : M Reply := writeError 500 msg.
(** [writeLookupError] *)
Definition writeLookupError (err notFound : error) (notFoundMsg serverMsg : string) : M Reply :=
  if bool_decide (err = notFound) then writeError 404 notFoundMsg else writeServerError serverMsg.

(** [uuid.Parse] (google/uuid). *)
Class UuidParse := uuid_parse : string -> option uuid.

Definition with_uuid `{UuidParse} (param msg : string) (k : uuid -> M Reply) : M Reply :=
  match uuid_parse param with Some id => k id | None => writeError 400 msg end.

(** The configuration the handlers read, and which clients are set
    ([NewServer] always sets the stores). *)
Record ApiConfig := Build_ApiConfig {
  api_renewer : bool;
  api_revoker : bool;
  api_importer : bool;
  api_VaultAddr : string;
  api_AAPDefaultMount : string;
  api_EDAWebhookURL : string;
  api_LifecycleVerifyTimeout : duration;
  api_ExpiringSoonDays : Z;
  api_DefaultConcurrency : Z;
  api_ScanQueueMaxPending : Z
}.

(** What the AAP revoke template and the Vault import endpoint (the imported
    issuers) answer to the n-th call. *)
Class Services := {
  aap_Revoke : nat -> result string (Z * bool);
  vault_Import : nat -> result string (list string)
}.

(** ** What is sent to AAP *)

(** [errors.New] texts of the validation, or the error of the kit. *)
Inductive LaunchError := LaunchKit (e : KitError) | LaunchInvalid (what : string).
(** [err.Error()] *)
Definition launch_error_text (e : LaunchError) : string :=
  match e with
  | LaunchKit InvalidMount => "invalid mount"
  | LaunchKit InvalidRole => "invalid role"
  | LaunchKit InvalidCommonName => "invalid common name"
  | LaunchKit (UnsupportedTarget t) => "unsupported target " ++ Quote t ++ " (want agent|aap)"
  | LaunchInvalid what => "invalid " ++ what
  end%string.

Definition validateRenewalLaunch (cn : string) (cfg : RenewalConfig) : result LaunchError unit :=
  match Validate (Build_KitInput cn cfg.(rc_Mount) cfg.(rc_Role) cfg.(rc_Service)) with
  | Err e => Err (LaunchKit e)
  | Ok _ =>
      if negb (ValidService cfg.(rc_Service)) then Err (LaunchInvalid "service")
      else if negb (ValidService cfg.(rc_TargetHosts)) then Err (LaunchInvalid "target_hosts")
      else if negb (ValidTTL cfg.(rc_TTL)) then Err (LaunchInvalid "ttl")
      else if negb (ValidAltNames cfg.(rc_AltNames)) then Err (LaunchInvalid "alt_names")
      else Ok tt
  end.

(** [renewExtraVars]; [json.Marshal] sorts the keys. *)
Definition renewExtraVars (cn : string) (cfg : RenewalConfig) : json := JObj (
  omit_empty "cert_alt_names_override" cfg.(rc_AltNames) ++
  [("cert_common_name_override"%string, JStr cn)] ++
  omit_empty "cert_service_type" cfg.(rc_Service) ++
  omit_empty "target_hosts" cfg.(rc_TargetHosts) ++
  omit_empty "vault_cert_ttl" cfg.(rc_TTL) ++
  [("vault_pki_mount"%string, JStr cfg.(rc_Mount)); ("vault_pki_role"%string, JStr cfg.(rc_Role))]).

Definition revokeExtraVars (certID : uuid) (serial fingerprint mount reason : string) : json := JObj
  [("certificate_id"%string, JStr certID); ("clm_action"%string, JStr "clm_revoke");
   ("fingerprint_sha256"%string, JStr fingerprint); ("reason"%string, JStr reason);
   ("serial_number"%string, JStr serial); ("vault_pki_mount"%string, JStr mount)].

(** The expectation stored with a launched job. *)
Definition expected_of (cn : string) (c : Certificate) (hosts : option string) : json := JObj (
  [("common_name"%string, JStr cn);
   ("predecessor_fingerprint"%string, JStr c.(c_FingerprintSHA256));
   ("predecessor_not_after"%string, JTime (truncate_second c.(c_NotAfter)))] ++
  match hosts with Some h => [("target_hosts"%string, JStr h)] | None => [] end).

(** ** Who can be migrated (migrate.go) *)

Inductive MigrateError := errMigrateCA | errMigrateManaged | errMigrateNoCN | errMigrateNoObservation | errMigrateOpenJob.
Definition migrate_error_text (e : MigrateError) : string :=
  match e with
  | errMigrateCA => "CA certificates use Import CA (Mode B), not Migrate to Vault"
  | errMigrateManaged => "certificate is already managed in Vault; use /renew"
  | errMigrateNoCN => "certificate has no common name"
  | errMigrateNoObservation => "certificate has no observation target for wire verify"
  | errMigrateOpenJob => "an open migrate job already exists for this certificate"
  end.

Definition or_blank_cn (c : Certificate) : string := match c.(c_SubjectCN) with Some cn => cn | None => ""%string end.

Definition migrateEligible (c : Certificate) (hasObservation openMigrate : bool) : option MigrateError :=
  if c.(c_IsCA) then Some errMigrateCA
  else if bool_decide (c.(c_ManagedStatus) = managed_in_vault) then Some errMigrateManaged
  else if String.eqb (TrimSpace (or_blank_cn c)) "" then Some errMigrateNoCN
  else if negb hasObservation then Some errMigrateNoObservation
  else if openMigrate then Some errMigrateOpenJob
  else None.

Definition hasOpenMigrateStatus (s : JobStatus) : bool :=
  match s with
  | LifecycleVerified | LifecycleTimedOut | LifecycleFailed | LifecycleVerifyFailed => false
  | _ => true
  end.

(** ** Request bodies; [None] is a body that does not decode *)

Record LaunchBody := Build_LaunchBody {
  lb_Consent : bool;
  lb_Mount : string;
  lb_Role : string;
  lb_Service : string;
  lb_TargetHosts : string;
  lb_TTL : string;
  lb_AltNames : string;
  lb_PEM : string
}.
Definition launch_config (cfg : ApiConfig) (b : LaunchBody) : RenewalConfig :=
  let mount := TrimSpace b.(lb_Mount) in
  {| rc_Role := TrimSpace b.(lb_Role);
     rc_Mount := if String.eqb mount "" then cfg.(api_AAPDefaultMount) else mount;
     rc_Service := TrimSpace b.(lb_Service);
     rc_TargetHosts := TrimSpace b.(lb_TargetHosts);
     rc_TTL := TrimSpace b.(lb_TTL);
     rc_AltNames := TrimSpace b.(lb_AltNames) |}.

(** The number of observations of a certificate, a column of its SELECT. *)
Definition obs_count (db : DB) (id : uuid) : Z :=
  Z.of_nat (length (filter (fun o => o_CertificateID o = id) db.(observations))).

Definition job_status_text (s : JobStatus) : string :=
  match s with
  | LifecyclePendingApproval => "pending_approval" | LifecycleLaunching => "launching"
  | LifecycleAAPPending => "aap_pending" | LifecycleAAPRunning => "aap_running"
  | LifecycleAAPSuccessful => "aap_successful" | LifecycleVerifying => "verifying"
  | LifecyclePendingVerify => "pending_verify" | LifecycleVerified => "verified"
  | LifecycleVerifyFailed => "verify_failed" | LifecycleTimedOut => "timed_out" | LifecycleFailed => "failed"
  end.

(** [RenewRef] in a reply. *)
Definition ref_json (ref : Z * bool) : json := JObj [("job_id"%string, JNum ref.1); ("workflow"%string, JBool ref.2)].

(** A job in a reply. *)
Definition opt_time (o : option time) : json := match o with Some t => JTime t | None => JNull end.
Definition job_summary (j : LifecycleJob) : list (string * json) :=
  [("status"%string, JStr (job_status_text j.(j_Status))); ("user_status"%string, JStr (UserStatus j.(j_Status)));
   ("lifecycle_job_id"%string, JStr j.(j_ID)); ("timeout_at"%string, JTime j.(j_TimeoutAt));
   ("next_verify_at"%string, opt_time j.(j_NextVerifyAt))].
Definition idempotent_flag : string * json := ("idempotent"%string, JBool true).

Definition verify_timeout (cfg : ApiConfig) : duration :=
  if cfg.(api_LifecycleVerifyTimeout) <=? 0 then 24 * Hour else cfg.(api_LifecycleVerifyTimeout).

Section LaunchApi.
Context `{UuidGen, StoreConfig, UuidParse, Controller, Services, RevocationLib} (cfg : ApiConfig).

(** A certificate with its number of observations, read by one query. *)
Definition GetCertificateCounted (id : uuid) : M (res (Certificate * Z)) :=
  store_call (c <-! get_certificate_tx id ;; n <-! tget (fun _ db => obs_count db id) ;; tret (c, n)).

(** [createScanRequest] *)
Definition handleCreateScan (body : option (bool * list string * list string * list Z * Z)) : M Reply :=
  match body with
  | None => writeError 400 "invalid request body"
  | Some (consent, cidrs, hostnames, ports, concurrency) =>
      if negb consent
      then writeError 400 "scan consent required; set consent=true to confirm authorized scanning"
      else if (length cidrs =? 0)%nat && (length hostnames =? 0)%nat then writeError 400 "cidrs or hostnames required"
      else
        let ports := if (length ports =? 0)%nat then [443; 8443; 6443; 993; 465] else ports in
        let concurrency := if concurrency <=? 0 then cfg.(api_DefaultConcurrency) else concurrency in
        let maxPending := if cfg.(api_ScanQueueMaxPending) <=? 0 then 32 else cfg.(api_ScanQueueMaxPending) in
        r <-- CreateScan cidrs hostnames ports concurrency maxPending ;;
        match r with
        | Err ErrScanQueueFull => writeError 503 "scan queue full; retry later"
        | Err _ => writeServerError "failed to create scan"
        | Ok scan =>
            writeJSON 202 (Some (Build_AuditEntry "create_scan" "scan" scan.(s_ID) (Some (AMap
              [("cidrs", AStrings cidrs); ("hostnames", AStrings hostnames); ("ports", AOther (JArr (map JNum ports)))]%string))))
              (BScan scan)
        end
  end.

(** [launchRenewal] *)
Definition launchRenewal (id : uuid) (cn : string) (rc : RenewalConfig) : M (result string (Z * bool)) :=
  net_call {| nc_service := SvcAAPLaunch; nc_subject := id; nc_body := renewExtraVars cn rc |} aap_Renew.

(** What a launched renewal answers. *)
Definition renew_reply (ref : Z * bool) (job : uuid) (cn : string) (rc : RenewalConfig) (flags : list (string * json)) : Body :=
  BJson (JObj ([("status"%string, JStr "launched"); ("job"%string, ref_json ref); ("lifecycle_job_id"%string, JStr job);
                ("common_name"%string, JStr cn); ("mount"%string, JStr rc.(rc_Mount)); ("role"%string, JStr rc.(rc_Role))] ++ flags)).
Definition launch_audit (action : string) (id : uuid) (rc : RenewalConfig) (ref : Z * bool) (job : uuid) : AuditEntry :=
  Build_AuditEntry action "certificate" id (Some (AMap
    [("mount", AStr rc.(rc_Mount)); ("role", AStr rc.(rc_Role)); ("job_id", AOther (JNum ref.1));
     ("lifecycle_job_id", AStr job)]%string)).

(** [handleRenewCertificate] *)
Definition handleRenewCertificate (param : string) (body : option LaunchBody) : M Reply :=
  with_uuid param "invalid certificate id" (fun id =>
  if negb cfg.(api_renewer) then writeError 503 "AAP not configured"
  else match body with
  | None => writeError 400 "invalid request body"
  | Some b =>
    if negb b.(lb_Consent) then writeError 400 "consent required to launch a renewal"
    else
      r <-- GetCertificate id ;;
      match r with
      | Err e => writeLookupError e ErrCertificateNotFound "certificate not found" "failed to load certificate"
      | Ok c =>
          let cn := or_blank_cn c in
          let rc := launch_config cfg b in
          match validateRenewalLaunch cn rc with
          | Err e => writeError 400 (launch_error_text e)
          | Ok _ =>
              l <-- launchRenewal id cn rc ;;
              match l with
              | Err _ => writeError 502 "failed to launch AAP renewal"
              | Ok ref =>
                  p <-- PersistRenewLaunch id rc c.(c_FingerprintSHA256) ref.1 ref.2
                          (Some (expected_of cn c (Some rc.(rc_TargetHosts)))) ;;
                  match p with
                  | Ok job => writeJSON 202 (Some (launch_audit "renew" id rc ref job.(j_ID))) (renew_reply ref job.(j_ID) cn rc [])
                  | Err ErrLifecycleIdempotencyConflict =>
                      g <-- GetLifecycleJobByIdempotency (RenewIdempotencyKey id c.(c_FingerprintSHA256)) ;;
                      match g with
                      | Ok existing => writeJSON 202 None (renew_reply ref existing.(j_ID) cn rc [idempotent_flag])
                      | Err _ => writeError 500 "failed to persist lifecycle job"
                      end
                  | Err _ => writeError 500 "failed to persist lifecycle job"
                  end
              end
          end
      end
  end).

(** An open migration of the certificate, if the lookup finds one. *)
Definition open_migrate (c : Certificate) : M (option LifecycleJob) :=
  g <-- GetLifecycleJobByIdempotency (MigrateIdempotencyKey c.(c_ID) c.(c_FingerprintSHA256)) ;;
  mret (match g with Ok j => if hasOpenMigrateStatus j.(j_Status) then Some j else None | Err _ => None end).

Definition migrate_status (e : MigrateError) : Z :=
  match e with errMigrateCA | errMigrateManaged => 409 | _ => 400 end.

(** From the eligible certificate on. *)
Definition migrate_launch (id : uuid) (c : Certificate) (b : LaunchBody) : M Reply :=
  let cn := TrimSpace (or_blank_cn c) in
  let rc := launch_config cfg b in
  match validateRenewalLaunch cn rc with
  | Err e => writeError 400 (launch_error_text e)
  | Ok _ =>
      l <-- launchRenewal id cn rc ;;
      match l with
      | Err _ => writeError 502 "failed to launch AAP migrate"
      | Ok ref =>
          now <-- time_now ;;
          p <-- PersistMigrateLaunch id rc c.(c_FingerprintSHA256) ref.1 ref.2
                  (Some (expected_of cn c (Some rc.(rc_TargetHosts)))) (verify_timeout cfg) (now + 10 * Second) ;;
          match p with
          | Ok job =>
              writeJSON 202 (Some (launch_audit "migrate" id rc ref job.(j_ID)))
                (BJson (JObj (job_summary job ++ [("job"%string, ref_json ref); ("common_name"%string, JStr cn);
                                                  ("mount"%string, JStr rc.(rc_Mount)); ("role"%string, JStr rc.(rc_Role))])))
          | Err ErrLifecycleIdempotencyConflict =>
              g <-- GetLifecycleJobByIdempotency (MigrateIdempotencyKey id c.(c_FingerprintSHA256)) ;;
              match g with
              | Ok existing => writeJSON 202 None (BJson (JObj (job_summary existing ++ [idempotent_flag])))
              | Err _ => writeError 500 "failed to persist lifecycle job"
              end
          | Err _ => writeError 500 "failed to persist lifecycle job"
          end
      end
  end.

(** [handleMigrateCertificate] *)
Definition handleMigrateCertificate (param : string) (body : option LaunchBody) : M Reply :=
  with_uuid param "invalid certificate id" (fun id =>
  if negb cfg.(api_renewer) then writeError 503 "AAP not configured"
  else match body with
  | None => writeError 400 "invalid request body"
  | Some b =>
    if negb (String.eqb (TrimSpace b.(lb_PEM)) "")
    then writeError 400 "leaf PEM upload is not supported; Migrate to Vault issues a new certificate via AAP"
    else if negb b.(lb_Consent) then writeError 400 "consent required to migrate to Vault"
    else
      r <-- GetCertificateCounted id ;;
      match r with
      | Err e => writeLookupError e ErrCertificateNotFound "certificate not found" "failed to load certificate"
      | Ok (c, observed) =>
          hasObs <-- (if 0 <? observed then mret true
                      else o <-- GetCertificateObservations id ;;
                           mret (match o with Ok (_ :: _) => true | _ => false end)) ;;
          g <-- GetLifecycleJobByIdempotency (MigrateIdempotencyKey id c.(c_FingerprintSHA256)) ;;
          match g with
          | Ok existing =>
              if hasOpenMigrateStatus existing.(j_Status)
              then writeJSON 202 None (BJson (JObj (job_summary existing ++ [idempotent_flag])))
              else match migrateEligible c hasObs false with
                   | Some e => writeError (migrate_status e) (migrate_error_text e)
                   | None => migrate_launch id c b
                   end
          | Err _ =>
              match migrateEligible c hasObs false with
              | Some e => writeError (migrate_status e) (migrate_error_text e)
              | None => migrate_launch id c b
              end
          end
      end
  end).

(** [int64] multiplication. *)
Definition wrap64 (z : Z) : Z := (z + 2 ^ 63) mod 2 ^ 64 - 2 ^ 63.

Definition list_filter (limit : Z) : CertificateFilter :=
  {| cf_Status := ""; cf_ChainStatus := ""; cf_Search := ""; cf_ScanID := None; cf_PQCTag := "";
     cf_MinRisk := None; cf_SortBy := ""; cf_SortDesc := false; cf_Limit := limit; cf_Offset := 0 |}.

(** [ListCertificates], each certificate with its number of observations. *)
Definition ListCertificatesCounted (f : CertificateFilter) : M (res (list (Certificate * Z) * Z)) :=
  let limit := if f.(cf_Limit) <=? 0 then 50 else f.(cf_Limit) in
  total <-? store_call (
    _ <-! trequire (fun _ => filter_casts f) ErrDatabase ;;
    tget (fun _ db => Z.of_nat (length (select (cert_where db f) (fun _ _ => false) db.(certificates))))) ;;
  rows <-? store_call (
    _ <-! trequire (fun _ => filter_casts f && (0 <=? f.(cf_Offset))) ErrDatabase ;;
    tget (fun _ db => map (fun c => (c, obs_count db c.(c_ID)))
      (take (Z.to_nat limit) (drop (Z.to_nat f.(cf_Offset)) (select (cert_where db f) (cert_order f) db.(certificates)))))) ;;
  mret (Ok (rows, total)).

(** The loop of [handleMigrateEligible]: the number of jobs enqueued. *)
Fixpoint enqueue_eligible (certs : list (Certificate * Z)) (limit enqueued : Z) (next : time) : M Z :=
  match certs with
  | [] => mret enqueued
  | (c, observed) :: certs' =>
      if limit <=? enqueued then mret enqueued
      else
        o <-- open_migrate c ;;
        match migrateEligible c (0 <? observed) (bool_decide (is_Some o)) with
        | Some _ => enqueue_eligible certs' limit enqueued next
        | None =>
            r <-- InsertMigrateJobPending c.(c_ID) c.(c_FingerprintSHA256) (Some (expected_of (or_blank_cn c) c None))
                    (verify_timeout cfg) next ;;
            enqueue_eligible certs' limit (match r with Ok _ => enqueued + 1 | Err _ => enqueued end) next
        end
  end.

(** [handleMigrateEligible]; the body is consent and limit. *)
Definition handleMigrateEligible (body : option (bool * Z)) : M Reply :=
  if negb cfg.(api_renewer) && String.eqb (TrimSpace cfg.(api_EDAWebhookURL)) ""
  then writeError 503 "AAP and EDA webhook both unset"
  else match body with
  | None => writeError 400 "invalid request body"
  | Some (consent, n) =>
      if negb consent then writeError 400 "consent required"
      else
        let limit := if n <=? 0 then 50 else n in
        r <-- ListCertificatesCounted (list_filter (wrap64 (limit * 4))) ;;
        match r with
        | Err _ => writeServerError "failed to list certificates"
        | Ok (certs, _) =>
            now <-- time_now ;;
            enqueued <-- enqueue_eligible certs limit 0 (now + 10 * Second) ;;
            let answer := JObj [("enqueued"%string, JNum enqueued)] in
            writeJSON 202 (Some (Build_AuditEntry "migrate_eligible" "certificates" ""
                                   (Some (AMap [("enqueued"%string, AOther (JNum enqueued))])))) (BJson answer)
        end
  end.

(** [handleClaimLifecycleJob]; the body is the key and the AAP job. *)
Definition handleClaimLifecycleJob (body : option (string * Z)) : M Reply :=
  match body with
  | None => writeError 400 "invalid request body"
  | Some (key, aapJobID) =>
      if String.eqb (TrimSpace key) "" || (aapJobID <=? 0) then writeError 400 "idempotency_key and aap_job_id required"
      else
        before <-- GetLifecycleJobByIdempotency key ;;
        r <-- ClaimByIdempotency key aapJobID ;;
        match r with
        | Err ErrLifecycleAAPRefConflict => writeError 409 "aap_job_id conflict"
        | Err ErrLifecycleJobNotFound => writeError 404 "lifecycle job not found"
        | Err _ => writeServerError "failed to claim lifecycle job"
        | Ok job =>
            _ <-- (match before with
                   | Ok b => if bool_decide (b.(j_AAPJobID) = None)
                             then AppendRenewalOutboxEvent "renewal.launched" job.(j_PredecessorCertID)
                                    (JObj [("aap_job_id"%string, JNum aapJobID); ("idempotency_key"%string, JStr key)])
                             else mret (Ok tt)
                   | Err _ => mret (Ok tt)
                   end) ;;
            writeJSON 200 None (BJson (JObj
              [("id"%string, JStr job.(j_ID)); ("status"%string, JStr (job_status_text job.(j_Status)));
               ("user_status"%string, JStr (UserStatus job.(j_Status)));
               ("aap_job_id"%string, match job.(j_AAPJobID) with Some n => JNum n | None => JNull end)]))
        end
  end.

(** [handleRevokeCertificate]; the body is consent, mount and reason. *)
Definition handleRevokeCertificate (param : string) (body : option (bool * string * string)) : M Reply :=
  with_uuid param "invalid certificate id" (fun id =>
  if negb cfg.(api_revoker) then writeError 503 "AAP not configured"
  else match body with
  | None => writeError 400 "invalid request body"
  | Some (consent, mount, reason) =>
      if negb consent then writeError 400 "consent required to launch a revoke"
      else
        let reason := TrimSpace reason in
        if negb (ValidReason reason) then writeError 400 "invalid reason"
        else
          let mount := TrimSpace mount in
          let mount := if String.eqb mount "" then cfg.(api_AAPDefaultMount) else mount in
          match Validate (Build_KitInput "x.example.com" mount "web" "") with
          | Err _ => writeError 400 "invalid mount"
          | Ok _ =>
              r <-- GetCertificate id ;;
              match r with
              | Err e => writeLookupError e ErrCertificateNotFound "certificate not found" "failed to load certificate"
              | Ok c =>
                  l <-- net_call {| nc_service := SvcAAPRevoke; nc_subject := id;
                                    nc_body := revokeExtraVars id c.(c_SerialNumber) c.(c_FingerprintSHA256) mount reason |}
                          aap_Revoke ;;
                  match l with
                  | Err _ => writeError 502 "failed to launch AAP revoke"
                  | Ok ref =>
                      writeJSON 202
                        (Some (Build_AuditEntry "revoke_launch" "certificate" id (Some (AMap
                           [("mount", AStr mount); ("job_id", AOther (JNum ref.1)); ("reason", AStr reason)]%string))))
                        (BJson (JObj [("status"%string, JStr "launched"); ("job"%string, ref_json ref); ("mount"%string, JStr mount);
                                      ("reason"%string, JStr reason); ("serial"%string, JStr c.(c_SerialNumber));
                                      ("verify"%string, JStr "POST /api/v1/certificates/{id}/revocation-check after AAP success")]))
                  end
              end
          end
  end).

(** What [handleRenewExpiring] reports of one certificate. *)
Inductive BatchItem :=
| Enqueued (cert : uuid) (cn : string) (job : uuid) (idempotent : bool)
| Refused (cert : uuid) (cn : string) (e : LaunchError)
| NotEnqueued (cert : uuid) (cn : string).

(** One certificate of the batch; [None] is skipped. *)
Definition renew_one (c : Certificate) : M (option BatchItem) :=
  match c.(c_RenewalConfig) with
  | None => mret None
  | Some rc =>
      let cn := or_blank_cn c in
      match validateRenewalLaunch cn rc with
      | Err e => mret (Some (Refused c.(c_ID) cn e))
      | Ok _ =>
          r <-- InsertLifecycleJobPending c.(c_ID) c.(c_FingerprintSHA256) (Some (expected_of cn c (Some rc.(rc_TargetHosts)))) ;;
          match r with
          | Ok job => mret (Some (Enqueued c.(c_ID) cn job.(j_ID) false))
          | Err ErrLifecycleIdempotencyConflict =>
              g <-- GetLifecycleJobByIdempotency (RenewIdempotencyKey c.(c_ID) c.(c_FingerprintSHA256)) ;;
              mret (Some (match g with
                          | Ok existing => Enqueued c.(c_ID) cn existing.(j_ID) true
                          | Err _ => NotEnqueued c.(c_ID) cn
                          end))
          | Err _ => mret (Some (NotEnqueued c.(c_ID) cn))
          end
      end
  end.
Fixpoint renew_batch (certs : list Certificate) : M (list BatchItem) :=
  match certs with
  | [] => mret []
  | c :: certs' =>
      o <-- renew_one c ;;
      items <-- renew_batch certs' ;;
      mret (match o with Some i => i :: items | None => items end)
  end.

Definition is_enqueued (i : BatchItem) : bool := match i with Enqueued _ _ _ _ => true | _ => false end.
Definition item_json (i : BatchItem) : json :=
  let base c cn rest := JObj ([("certificate_id"%string, JStr c); ("common_name"%string, JStr cn)] ++ rest) in
  match i with
  | Enqueued c cn j idem => base c cn ([("lifecycle_job_id"%string, JStr j)] ++ (if idem then [idempotent_flag] else []))
  | Refused c cn e => base c cn [("error"%string, JStr (launch_error_text e))]
  | NotEnqueued c cn => base c cn [("error"%string, JStr "failed to enqueue lifecycle job")]
  end.

(** [handleRenewExpiring]; the body is consent and the number of days. *)
Definition handleRenewExpiring (body : option (bool * Z)) : M Reply :=
  if negb cfg.(api_renewer) then writeError 503 "AAP not configured"
  else match body with
  | None => writeError 400 "invalid request body"
  | Some (consent, days) =>
      if negb consent then writeError 400 "consent required to launch renewals"
      else
        let within := if days <=? 0 then cfg.(api_ExpiringSoonDays) else days in
        r <-- ListRenewable within ;;
        match r with
        | Err _ => writeServerError "failed to list renewable certificates"
        | Ok certs =>
            items <-- renew_batch certs ;;
            let enqueued := filter (fun i => is_enqueued i = true) items in
            let failed := filter (fun i => is_enqueued i = false) items in
            let num {A} (l : list A) := JNum (Z.of_nat (length l)) in
            writeJSON 202
              (Some (Build_AuditEntry "renew" "" "" (Some (AMap
                 [("within_days", AOther (JNum within)); ("eligible", AOther (num certs));
                  ("enqueued", AOther (num enqueued)); ("failed", AOther (num failed))]%string))))
              (BJson (JObj [("within_days"%string, JNum within); ("eligible"%string, num certs);
                            ("enqueued"%string, JArr (map item_json enqueued)); ("launched"%string, JArr (map item_json enqueued));
                            ("failed"%string, JArr (map item_json failed))]))
        end
  end.

(** A [revocation.Result] in a reply. *)
Definition rev_result_json (r : RevResult) : json := JObj (
  [("status"%string, JStr (rev_status_text r.(rr_Status))); ("source"%string, JStr r.(rr_Source));
   ("verified"%string, JBool r.(rr_Verified))] ++
  match r.(rr_RevokedAt) with Some t => [("revoked_at"%string, JTime t)] | None => [] end ++
  omit_empty "crl_url" r.(rr_CRLURL)).

(** [handleRevocationCheck] *)
Definition handleRevocationCheck (param : string) : M Reply :=
  with_uuid param "invalid certificate id" (fun id =>
  r <-- GetCertificate id ;;
  match r with
  | Err e => writeLookupError e ErrCertificateNotFound "certificate not found" "failed to load certificate"
  | Ok c =>
      i <-- GetIssuerPEMForCert c.(c_IssuerDN) ;;
      match i with
      | Err _ => writeServerError "failed to look up issuer"
      | Ok issuerPEM =>
          v <-- Check_ (Build_CheckInput c.(c_SerialNumber) c.(c_PEM) issuerPEM c.(c_OCSPServers) c.(c_CRLDistributionPoints)) ;;
          match v with
          | Err _ => writeError 502 "revocation check failed"
          | Ok result =>
              m <-- (if bool_decide (result.(rr_Status) = RevRevoked) && result.(rr_Verified)
                     then MarkRevoked id result.(rr_Source) else mret (Ok tt)) ;;
              match m with
              | Err _ => writeServerError "failed to record revocation"
              | Ok _ =>
                  writeJSON 200
                    (Some (Build_AuditEntry "revoke" "certificate" id (Some (AMap
                       [("status", AStr (rev_status_text result.(rr_Status))); ("source", AStr result.(rr_Source));
                        ("verified", AOther (JBool result.(rr_Verified)))]%string))))
                    (BJson (rev_result_json result))
              end
          end
      end
  end).

(** [validateRenewalConfig] *)
Definition validateRenewalConfig (b : LaunchBody) : result LaunchError RenewalConfig :=
  let rc := launch_config cfg b in
  if String.eqb rc.(rc_Role) "" || negb (ValidService rc.(rc_Role)) then Err (LaunchInvalid "or missing renewal role")
  else if String.eqb rc.(rc_Mount) "" || negb (ValidService rc.(rc_Mount)) then Err (LaunchInvalid "renewal mount")
  else if negb (ValidService rc.(rc_Service)) then Err (LaunchInvalid "renewal service")
  else if negb (ValidService rc.(rc_TargetHosts)) then Err (LaunchInvalid "renewal target_hosts")
  else if negb (ValidTTL rc.(rc_TTL)) then Err (LaunchInvalid "renewal ttl")
  else if negb (ValidAltNames rc.(rc_AltNames)) then Err (LaunchInvalid "renewal alt_names")
  else Ok rc.

Definition catalog_audit (id : uuid) : AuditEntry :=
  Build_AuditEntry "catalog_import" "certificate" id (Some (AMap [("managed_status", AStr "imported")]%string)).

(** [handleCatalogImport]; the body is consent and the optional renewal
    coordinates (of [LaunchBody] they have the six strings). *)
Definition handleCatalogImport (param : string) (body : option (bool * option LaunchBody)) : M Reply :=
  with_uuid param "invalid certificate id" (fun id =>
  match body with
  | None => writeError 400 "invalid request body"
  | Some (consent, renewal) =>
      if negb consent then writeError 400 "consent is required to catalog a certificate"
      else
        r <-- SetManagedStatus id imported ;;
        match r with
        | Err ErrCertificateNotFound => writeError 404 "certificate not found"
        | Err ErrManagedByVault => writeError 409 "certificate is managed in vault; catalog import does not apply"
        | Err _ => writeServerError "failed to catalog certificate"
        | Ok c =>
            match renewal with
            | None => writeJSON 200 (Some (catalog_audit id)) (BCert c)
            | Some b =>
                match validateRenewalConfig b with
                | Err e => writeError 400 (launch_error_text e)
                | Ok rc =>
                    u <-- SetRenewalConfig id rc ;;
                    match u with
                    | Err _ => writeServerError "failed to store renewal config"
                    | Ok updated => writeJSON 200 (Some (catalog_audit id)) (BCert updated)
                    end
                end
            end
        end
  end).

(** [validMount] *)
Definition validMount (m : string) : bool :=
  if String.eqb m "" || HasPrefix m "/" || Contains m ".." then false else string_forallb name_char m.
Definition issuerBundle (i : Issuer) : string := Join (i.(iss_PEM) :: i.(iss_CAChain)) nl.
Definition firstIssuerRef (imported_issuers : list string) : string := default ""%string (head imported_issuers).

(** [handleImportIssuer]; the body is consent and mount. *)
Definition handleImportIssuer (param : string) (body : option (bool * string)) : M Reply :=
  with_uuid param "invalid issuer id" (fun id =>
  match body with
  | None => writeError 400 "invalid request body"
  | Some (consent, mount) =>
      if negb consent then writeError 400 "consent is required to import a CA into Vault"
      else
        let mount := TrimSpace mount in
        if String.eqb mount "" then writeError 400 "mount is required"
        else if negb (validMount mount)
        then writeError 400 "invalid mount: use a simple path segment (letters, digits, -, _, /)"
        else if negb cfg.(api_importer) then
          writeError 503 (if negb (String.eqb cfg.(api_VaultAddr) "") then "import identity not configured" else "vault is not configured")
        else
          r <-- GetIssuer id ;;
          match r with
          | Err e => writeLookupError e ErrIssuerNotFound "issuer not found" "failed to load issuer"
          | Ok i =>
              if negb i.(iss_IsCA) then writeError 409 "issuer is not a CA; only CA material can be imported into Vault PKI"
              else
                v <-- net_call {| nc_service := SvcVault; nc_subject := id;
                                  nc_body := JObj [("mount"%string, JStr mount); ("pem_bundle"%string, JStr (issuerBundle i))] |}
                        vault_Import ;;
                match v with
                | Err _ => writeError 502 "vault import failed"
                | Ok refs =>
                    u <-- SetIssuerVaultRef id (firstIssuerRef refs) mount ;;
                    match u with
                    | Err _ => writeServerError "failed to record issuer import"
                    | Ok updated =>
                        writeJSON 200 (Some (Build_AuditEntry "import_ca" "issuer" id (Some (AMap [("mount", AStr mount)]%string))))
                          (BIssuer updated)
                    end
                end
          end
  end).
End LaunchApi.
