(* ===== verification/LaunchSpec.v ===== *)
(** * What the handlers that change certificates may do

    Properties of the handlers of LaunchApi.v as one interface: without
    consent they refuse, where they ask for it, and nothing unsafe is sent. *)

From Stdlib Require Import Ascii.
From S2P Require Import Prelude GoLib Records Db Queue Outbox CertStore JobStore Worker Issuers ScanQueue Renewal Ip Sends Revocation LaunchApi.

Open Scope clm_scope.

(** ** The requests *)

Inductive ApiRequest :=
| ReqCreateScan (body : option (bool * list string * list string * list Z * Z))
| ReqRenew (id : string) (body : option LaunchBody)
| ReqMigrate (id : string) (body : option LaunchBody)
| ReqMigrateEligible (body : option (bool * Z))
| ReqClaimJob (body : option (string * Z))
| ReqRevoke (id : string) (body : option (bool * string * string))
| ReqRenewExpiring (body : option (bool * Z))
| ReqRevocationCheck (id : string)
| ReqCatalogImport (id : string) (body : option (bool * option LaunchBody))
| ReqImportIssuer (id : string) (body : option (bool * string)).

Definition handle `{UuidGen, StoreConfig, UuidParse, Controller, Services, RevocationLib} (cfg : ApiConfig)
    (q : ApiRequest) : M Reply :=
  match q with
  | ReqCreateScan b => handleCreateScan cfg b
  | ReqRenew id b => handleRenewCertificate cfg id b
  | ReqMigrate id b => handleMigrateCertificate cfg id b
  | ReqMigrateEligible b => handleMigrateEligible cfg b
  | ReqClaimJob b => handleClaimLifecycleJob b
  | ReqRevoke id b => handleRevokeCertificate cfg id b
  | ReqRenewExpiring b => handleRenewExpiring cfg b
  | ReqRevocationCheck id => handleRevocationCheck id
  | ReqCatalogImport id b => handleCatalogImport cfg id b
  | ReqImportIssuer id b => handleImportIssuer cfg id b
  end.

(** Whether the body decodes and consents; [None] where consent is not asked for. *)
Definition launch_consent (q : ApiRequest) : option bool :=
  match q with
  | ReqCreateScan b => Some (match b with Some (consent, _, _, _, _) => consent | None => false end)
  | ReqRenew _ b | ReqMigrate _ b => Some (match b with Some body => body.(lb_Consent) | None => false end)
  | ReqMigrateEligible b | ReqRenewExpiring b => Some (match b with Some (consent, _) => consent | None => false end)
  | ReqRevoke _ b => Some (match b with Some (consent, _, _) => consent | None => false end)
  | ReqCatalogImport _ b => Some (match b with Some (consent, _) => consent | None => false end)
  | ReqImportIssuer _ b => Some (match b with Some (consent, _) => consent | None => false end)
  | ReqClaimJob _ | ReqRevocationCheck _ => None
  end.

(** ** Texts that a template engine leaves alone *)

(** Letters, digits, [. - _ / *], comma and white space. *)
Definition safe_char (c : ascii) : bool := plain_char c || Ascii.eqb c "," || is_space c.
Definition template_safe (s : string) : Prop := string_forallb safe_char s = true.

(** The string values of a JSON document. *)
Fixpoint json_strings (j : json) : list string :=
  match j with
  | JStr s => [s]
  | JArr l => concat (map json_strings l)
  | JObj l => concat (map (fun kv => json_strings kv.2) l)
  | _ => []
  end.

Lemma trim_left_chars f s :
  string_forallb f (TrimLeft s) = true -> string_forallb (fun c => f c || is_space c) s = true.
Proof.
  induction s as [|c s IH]; [done|]. cbn [TrimLeft]. destruct (is_space c) eqn:E.
  - intros H. simpl. by rewrite E, orb_true_r, IH.
  - apply string_forallb_impl. by intros d ->.
Qed.
Lemma trim_right_chars f s :
  string_forallb f (TrimRight s) = true -> string_forallb (fun c => f c || is_space c) s = true.
Proof.
  induction s as [|c s IH]; [done|]. cbn [TrimRight]. destruct (TrimRight s) as [|d t].
  - destruct (is_space c) eqn:E; simpl; rewrite ?E, ?orb_true_r, IH by done; [done|].
    by intros [-> _]%andb_true_iff.
  - intros [Hc Ht]%andb_true_iff. simpl. by rewrite Hc, IH.
Qed.
Lemma trim_chars f s :
  string_forallb f (TrimSpace s) = true -> string_forallb (fun c => f c || is_space c) s = true.
Proof.
  intros H%trim_right_chars%trim_left_chars. revert H. apply string_forallb_impl. intros c.
  destruct (f c), (is_space c); done.
Qed.

Lemma fields_chars f sep s cur :
  forallb (string_forallb f) (fields_func sep s cur) = true ->
  string_forallb f cur = true /\ string_forallb (fun c => f c || sep c) s = true.
Proof.
  assert (forall l, forallb (string_forallb f) (if String.eqb cur "" then l else cur :: l) = true ->
    string_forallb f cur = true /\ forallb (string_forallb f) l = true) as Hflush.
  { intros l. destruct (String.eqb_spec cur "") as [->|]; simpl; [done|]. apply andb_true_iff. }
  revert cur Hflush. induction s as [|c s IH]; intros cur Hflush; cbn [fields_func].
  - intros H. by destruct (Hflush [] H).
  - destruct (sep c) eqn:E.
    + intros H. apply Hflush in H as [Hc H]. apply IH in H as [_ H]; [|by intros l; simpl].
      split; [done|]. simpl. by rewrite E, orb_true_r, H.
    + intros H. apply IH in H as [Hc Hs].
      * rewrite string_forallb_app in Hc. apply andb_true_iff in Hc as [Hc Hd]. simpl in Hd.
        rewrite andb_true_r in Hd. split; [done|]. simpl. by rewrite Hd, Hs.
      * intros l. destruct (String.eqb_spec (cur ++ String c "") "") as [E2|]; [by destruct cur|].
        simpl. apply andb_true_iff.
Qed.

Lemma plain_safe s : string_forallb plain_char s = true -> template_safe s.
Proof. apply string_forallb_impl. intros c. unfold safe_char. by intros ->. Qed.

Lemma safe_trim s : template_safe (TrimSpace s) -> template_safe s.
Proof.
  intros H%trim_chars. revert H. apply string_forallb_impl. intros c. unfold safe_char.
  by destruct (plain_char c), (Ascii.eqb c ","), (is_space c).
Qed.

Lemma name_safe s : validName s = true -> template_safe s.
Proof. intros H. by apply plain_safe, validName_plain. Qed.

Lemma service_safe s : ValidService s = true -> template_safe s.
Proof. unfold ValidService. intros [->%String.eqb_eq|H]%orb_true_iff; [done|by apply name_safe]. Qed.

Lemma common_name_safe cn : validCommonName cn = true -> template_safe cn.
Proof. intros H. by apply safe_trim, plain_safe, validCommonName_plain. Qed.

Lemma ttl_plain seen s : ttl_match seen s = true -> string_forallb plain_char s = true.
Proof.
  revert seen. induction s as [|c s IH]; intros seen; cbn [ttl_match]; [done|].
  assert (is_alnum c = true -> plain_char c = true) as Hc by (unfold plain_char; intros ->; by rewrite !orb_true_r).
  destruct (is_digit c) eqn:Ed.
  - intros Ht. simpl. rewrite (IH _ Ht), Hc; [done|]. unfold is_alnum. by rewrite Ed, orb_true_r.
  - intros [[_ ->%String.eqb_eq]%andb_true_iff He]%andb_true_iff. simpl. rewrite Hc; [done|].
    apply existsb_exists in He as (d & Hd & ->%Ascii.eqb_eq). simpl in Hd.
    destruct Hd as [<-|[<-|[<-|[<-|[]]]]]; reflexivity.
Qed.

Lemma ttl_safe s : ValidTTL s = true -> template_safe s.
Proof.
  unfold ValidTTL. intros H. apply safe_trim. destruct (String.eqb_spec (TrimSpace s) "") as [->|_]; [done|].
  by eapply plain_safe, ttl_plain.
Qed.

Lemma alt_names_safe s : ValidAltNames s = true -> template_safe s.
Proof.
  unfold ValidAltNames. intros H. apply safe_trim. destruct (String.eqb_spec (TrimSpace s) "") as [->|_]; [done|].
  destruct (_ =? 0)%nat; [done|].
  assert (forallb (string_forallb safe_char) (FieldsFunc (TrimSpace s) san_separator) = true) as Hf.
  { rewrite forallb_forall in *. intros f Hin. apply safe_trim, common_name_safe, H, Hin. }
  apply fields_chars in Hf as [_ Hf]. revert Hf. apply string_forallb_impl. intros c. unfold safe_char, san_separator.
  destruct (Ascii.eqb_spec c " ") as [->|]; [done|]. by destruct (plain_char c), (Ascii.eqb c ","), (is_space c).
Qed.

Lemma reason_safe s : ValidReason s = true -> template_safe s.
Proof.
  unfold ValidReason. intros H. apply safe_trim. destruct (_ || _); [done|]. destruct (_ || _ || _); [done|].
  revert H. apply string_forallb_impl. intros c. unfold reason_char, safe_char, plain_char.
  destruct (Ascii.eqb_spec c " ") as [->|]; [done|].
  by destruct (Ascii.eqb c "-"), (Ascii.eqb c "_"), (Ascii.eqb c "."), (is_alnum c), (Ascii.eqb c "/"), (Ascii.eqb c "*").
Qed.

(** ** What may be sent *)

Lemma omit_empty_strings k v : template_safe v -> Forall template_safe (concat (map (fun kv => json_strings kv.2) (omit_empty k v))).
Proof. intros Hv. unfold omit_empty. destruct (String.eqb v ""); simpl; auto. Qed.

Lemma renewExtraVars_safe cn rc :
  validateRenewalLaunch cn rc = Ok tt -> Forall template_safe (json_strings (renewExtraVars cn rc)).
Proof.
  unfold validateRenewalLaunch, Validate, validate. simpl.
  destruct (validName (rc_Mount rc)) eqn:Em; [|done]. destruct (validName (rc_Role rc)) eqn:Er; [|done].
  destruct (validCommonName cn) eqn:Ec; [|done]. destruct (ValidService (rc_Service rc)) eqn:Es; [|done].
  destruct (ValidService (rc_TargetHosts rc)) eqn:Eh; [|done]. destruct (ValidTTL (rc_TTL rc)) eqn:Et; [|done].
  destruct (ValidAltNames (rc_AltNames rc)) eqn:Ea; [|done]. intros _. unfold renewExtraVars.
  repeat (rewrite map_app || rewrite concat_app || rewrite map_cons || rewrite concat_cons).
  rewrite !Forall_app. cbn [json_strings snd]. split_and!; [..|by apply Forall_nil].
  - by apply omit_empty_strings, alt_names_safe.
  - by apply Forall_singleton, common_name_safe.
  - by apply omit_empty_strings, service_safe.
  - by apply omit_empty_strings, service_safe.
  - by apply omit_empty_strings, ttl_safe.
  - by apply Forall_singleton, name_safe.
  - by apply Forall_singleton, name_safe.
Qed.

(** A call that a handler may make. *)
Definition api_call_ok (c : netcall) : Prop :=
  match c.(nc_service) with
  | SvcAAPLaunch => Forall template_safe (json_strings c.(nc_body))
  | SvcAAPRevoke => exists id serial fingerprint mount reason,
      c.(nc_body) = revokeExtraVars id serial fingerprint mount reason /\ template_safe mount /\ template_safe reason
  | SvcVault => exists mount bundle,
      c.(nc_body) = JObj [("mount"%string, JStr mount); ("pem_bundle"%string, JStr bundle)] /\
      string_forallb name_char mount = true /\ HasPrefix mount "/" = false
  | SvcRevocation => exists ip method der, isPublicIP ip = true /\ c.(nc_body) = request_body ip method der
  | SvcEDA | SvcITSM | SvcAAPWait | SvcAAP | SvcAzure => False
  end.

Lemma validMount_ok m : validMount m = true -> string_forallb name_char m = true /\ HasPrefix m "/" = false.
Proof.
  unfold validMount. destruct (String.eqb m ""), (HasPrefix m "/"); try done. by destruct (Contains m "..").
Qed.

#[local] Hint Unfold GetCertificate GetCertificateCounted GetCertificateObservations GetLifecycleJobByIdempotency
  GetLifecycleJob PersistRenewLaunch PersistMigrateLaunch InsertLifecycleJobPending InsertLifecycleJob
  InsertLifecycleApproval AppendLifecycleJobEvent AppendRenewalOutboxEvent appendEventStandalone
  InsertMigrateJobPending ClaimByIdempotency SetLifecycleAAPRef CreateScan CreateScanWithSource ListRenewable
  ListCertificatesCounted GetIssuerPEMForCert MarkRevoked SetManagedStatus SetRenewalConfig GetIssuer SetIssuerVaultRef
  writeError writeJSON writeServerError writeLookupError with_uuid : store_ops.

Section Sends.
Context `{UuidGen, StoreConfig, UuidParse, Controller, Services, RevocationLib} (cfg : ApiConfig).

Lemma sends_launchRenewal id cn rc :
  validateRenewalLaunch cn rc = Ok tt -> moves (sends api_call_ok) (launchRenewal id cn rc).
Proof. intros Hv. apply sends_net_call. by apply renewExtraVars_safe. Qed.

Lemma validate_unit cn rc u : validateRenewalLaunch cn rc = Ok u -> validateRenewalLaunch cn rc = Ok tt.
Proof. by destruct u. Qed.
#[local] Hint Resolve sends_launchRenewal validate_unit : sends.

Lemma sends_renew id b : moves (sends api_call_ok) (handleRenewCertificate cfg id b).
Proof. unfold handleRenewCertificate. sends_tac. Qed.

Lemma sends_migrate_launch id c b : moves (sends api_call_ok) (migrate_launch cfg id c b).
Proof. unfold migrate_launch. sends_tac. Qed.
#[local] Hint Resolve sends_migrate_launch : sends.

Lemma sends_migrate id b : moves (sends api_call_ok) (handleMigrateCertificate cfg id b).
Proof. unfold handleMigrateCertificate. sends_tac. Qed.

Lemma sends_enqueue certs limit n next : moves (sends api_call_ok) (enqueue_eligible cfg certs limit n next).
Proof.
  revert n. induction certs as [|[c o] certs IH]; intros n; cbn [enqueue_eligible]; [sends_tac|].
  destruct (limit <=? n); [sends_tac|]. unfold open_migrate. sends_tac.
Qed.

Lemma sends_renew_batch certs : moves (sends api_call_ok) (renew_batch certs).
Proof.
  induction certs as [|c certs IH]; cbn [renew_batch]; [sends_tac|]. unfold renew_one. sends_tac.
Qed.
#[local] Hint Resolve sends_enqueue sends_renew_batch : sends.

Lemma sends_revoke id b : moves (sends api_call_ok) (handleRevokeCertificate cfg id b).
Proof.
  unfold handleRevokeCertificate. sends_tac. simpl. eexists _, _, _, _, _. split; [reflexivity|].
  split; [|apply reason_safe; by destruct (ValidReason _)].
  unfold Validate, validate in *. simpl in *. apply name_safe. by destruct (validName _).
Qed.

Lemma sends_Check_ok i : moves (sends api_call_ok) (Check_ i).
Proof.
  eapply sends_impl; [|apply sends_Check]. intros c (Hs & _ & _ & H'). unfold api_call_ok. by rewrite Hs.
Qed.

Lemma sends_import id b : moves (sends api_call_ok) (handleImportIssuer cfg id b).
Proof.
  unfold handleImportIssuer. sends_tac. simpl. eexists _, _. split; [reflexivity|].
  apply validMount_ok. by destruct (validMount _).
Qed.
#[local] Hint Resolve sends_renew sends_migrate sends_revoke sends_Check_ok sends_import : sends.

Lemma sends_handle q : moves (sends api_call_ok) (handle cfg q).
Proof.
  destruct q; unfold handle; [unfold handleCreateScan|..|unfold handleCatalogImport|]; try solve [sends_tac].
  all: unfold handleMigrateEligible, handleClaimLifecycleJob, handleRenewExpiring, handleRevocationCheck; sends_tac.
Qed.

(** A request of this file that was asked for consent and whose body does not
    decode or does not give it is answered with an error status; nothing else
    happens. *)
Lemma launch_refused q w :
  launch_consent q = Some false ->
  exists reply, handle cfg q w = (reply, w) /\ 400 <= reply.(rp_status) /\ reply.(rp_audit) = None.
Proof.
  assert (forall status msg, 400 <= status ->
    exists reply, writeError status msg w = (reply, w) /\ 400 <= reply.(rp_status) /\ reply.(rp_audit) = None) as He.
  { intros status msg Hs. by eexists. }
  destruct q as [b|id b|id b|b|b|id b|b|id|id b|id b]; simpl; unfold handleCreateScan, handleRenewCertificate,
    handleMigrateCertificate, handleMigrateEligible, handleRevokeCertificate, handleRenewExpiring, handleCatalogImport,
    handleImportIssuer, with_uuid; try done.
  all: repeat (case_match; subst; simpl); intros ?; subst; simpl in *; simplify_eq; try (apply He; lia).
  all: match goal with A : negb ?x = false, B : ?x = false |- _ => by rewrite B in A end.
Qed.

(** C10. Nothing that a handler sends can carry a template or change a path:
    for every request and every state of the database, certificates with
    hostile names included, the extra variables of a renewal or migration
    launch consist of letters, digits, [. - _ / *], commas and white space
    alone, so do the mount and reason of a revocation launch, a CA import
    names a mount without a leading slash made of name bytes, and revocation
    checks only connect to public addresses; nothing else is sent. *)
Theorem handlers_send_safe q w reply w' :
  handle cfg q w = (reply, w') ->
  exists l, w'.(w_sent) = w.(w_sent) ++ l /\ Forall api_call_ok l.
Proof. apply sends_handle. Qed.
End Sends.

(** ** An accepted launch is on record *)

(** The job a reply names. *)
Definition reply_job (reply : Reply) : option string :=
  match reply.(rp_body) with
  | BJson (JObj l) =>
      match head (filter (fun kv => kv.1 = "lifecycle_job_id"%string) l) with Some (_, JStr id) => Some id | _ => None end
  | _ => None
  end.

Definition job_on_record (key : string) (reply : Reply) (db : DB) : Prop :=
  exists k j, db.(lifecycle_jobs) !! k = Some j /\ j.(j_IdempotencyKey) = key /\ reply_job reply = Some j.(j_ID).

Section OnRecord.
Context `{UuidGen, StoreConfig, UuidParse, Controller, Services, RevocationLib} (cfg : ApiConfig).

Lemma get_by_key_ok key w j w' :
  GetLifecycleJobByIdempotency key w = (Ok j, w') ->
  exists k, w'.(w_db).(lifecycle_jobs) !! k = Some j /\ j.(j_IdempotencyKey) = key.
Proof.
  intros (e & w1 & He & [(-> & err & [=] & _)|(a & db' & Ht & -> & [[= ->]|[=]])])%store_call_spec.
  txn_inv. match goal with E : job_by_key _ _ = Some _ |- _ => apply row_by_some in E as [Hk [k Hj]] end. eauto.
Qed.

Lemma persist_renew_ok id rc fp n wf ex w j w' :
  PersistRenewLaunch id rc fp n wf ex w = (Ok j, w') ->
  w'.(w_db).(lifecycle_jobs) !! j.(j_ID) = Some j /\ j.(j_IdempotencyKey) = RenewIdempotencyKey id fp.
Proof.
  intros (e & w1 & He & [(-> & err & [=] & _)|(a & db' & Ht & -> & [[= ->]|[=]])])%store_call_spec.
  apply persist_renew_tx_ok in Ht as (_ & _ & _ & Hj & (_ & _ & _ & Hk & _) & _). simpl. rewrite Hj, lookup_insert_eq. done.
Qed.

Lemma persist_migrate_ok id rc fp n wf ex tm nv w j w' :
  PersistMigrateLaunch id rc fp n wf ex tm nv w = (Ok j, w') ->
  w'.(w_db).(lifecycle_jobs) !! j.(j_ID) = Some j /\ j.(j_IdempotencyKey) = MigrateIdempotencyKey id fp.
Proof.
  intros (e & w1 & He & [(-> & err & [=] & _)|(a & db' & Ht & -> & [[= ->]|[=]])])%store_call_spec.
  unfold persist_migrate_tx in Ht. apply tbind_ok in Ht as (d1 & [] & _ & Ht). apply tbind_ok in Ht as (d2 & j1 & Hj & Ht).
  apply tmap_err_ok, insert_job_row_ok in Hj as (_ & _ & -> & Hj).
  apply tbind_ok in Ht as (d3 & [] & E3%appendEventTx_jobs & Ht). apply tbind_ok in Ht as (d4 & [] & E4%insert_job_event_same & Ht).
  apply tbind_ok in Ht as (d5 & [] & E5%appendEventTx_jobs & Ht). apply tbind_ok in Ht as (d6 & [] & E6%insert_approval_same & Ht).
  injection Ht as <- <-. simpl in *. rewrite E6, E5, E4, E3, lookup_insert_eq. split; [done|by rewrite Hj].
Qed.

Lemma renew_reply_job ref job cn rc flags status audit :
  reply_job (Build_Reply status (renew_reply ref job cn rc flags) audit) = Some job.
Proof. reflexivity. Qed.
Lemma summary_job j rest status audit :
  reply_job (Build_Reply status (BJson (JObj (job_summary j ++ rest))) audit) = Some j.(j_ID).
Proof. reflexivity. Qed.

(** Taking a handler apart, step by step. *)
Ltac step_handler :=
  repeat match goal with
  | E : writeError _ _ _ = (?r, _) |- _ => injection E as <- <-; simpl in *; try lia
  | E : writeJSON _ _ _ _ = (?r, _) |- _ => injection E as <- <-
  | E : mret _ _ = (_, _) |- _ => injection E as <- <-
  | E : mbind ?m _ ?w = (_, _) |- _ => unfold mbind in E at 1; destruct (m w) as [? ?] eqn:?
  | E : (let '(_, _) := ?x in _) = (_, _) |- _ => destruct x eqn:?
  | E : (match ?x with _ => _ end) _ = (_, _) |- _ => destruct x eqn:?
  | E : (if ?x then _ else _) _ = (_, _) |- _ => destruct x eqn:?
  end.

Lemma migrate_launch_recorded id c b w reply w' :
  migrate_launch cfg id c b w = (reply, w') -> reply.(rp_status) = 202 ->
  job_on_record (MigrateIdempotencyKey id c.(c_FingerprintSHA256)) reply w'.(w_db).
Proof.
  intros E Hs. unfold migrate_launch in E. step_handler.
  all: try match goal with Hp : PersistMigrateLaunch _ _ _ _ _ _ _ _ _ = (Ok _, _) |- _ => apply persist_migrate_ok in Hp as [? ?] end.
  all: try match goal with Hg : GetLifecycleJobByIdempotency _ _ = (Ok _, _) |- _ => apply get_by_key_ok in Hg as (? & ? & ?) end.
  all: eexists _, _; split_and!; [eassumption|eassumption|apply summary_job].
Qed.

(** C19. A launch that is accepted is on record: in any environment, when a
    renewal or migration request is answered 202, the database holds a job
    with the idempotency key of the certificate and of its fingerprint, and
    the reply names that job. *)
Theorem accepted_is_persisted q w reply w' :
  handle cfg q w = (reply, w') -> reply.(rp_status) = 202 ->
  match q with
  | ReqRenew p _ => exists id fp, uuid_parse p = Some id /\ job_on_record (RenewIdempotencyKey id fp) reply w'.(w_db)
  | ReqMigrate p _ => exists id fp, uuid_parse p = Some id /\ job_on_record (MigrateIdempotencyKey id fp) reply w'.(w_db)
  | _ => True
  end.
Proof.
  intros E Hs. destruct q as [b|p b|p b|b|b|p b|b|p|p b|p b]; try done; simpl in E.
  - unfold handleRenewCertificate, with_uuid, writeLookupError, writeServerError in E. step_handler.
    all: eexists _, _; split; [reflexivity|].
    + match goal with Hp : PersistRenewLaunch _ _ _ _ _ _ _ = (Ok _, _) |- _ => apply persist_renew_ok in Hp as [? ?] end.
      eexists _, _. split_and!; [eassumption|eassumption|apply renew_reply_job].
    + match goal with Hg : GetLifecycleJobByIdempotency _ _ = (Ok _, _) |- _ => apply get_by_key_ok in Hg as (? & ? & ?) end.
      eexists _, _. split_and!; [eassumption|eassumption|apply renew_reply_job].
  - unfold handleMigrateCertificate, with_uuid, writeLookupError, writeServerError in E. step_handler.
    all: try (exfalso; match goal with Hm : migrate_status ?m = 202 |- _ => by destruct m end).
    all: eexists _, _; split; [reflexivity|].
    all: try (eapply migrate_launch_recorded; eassumption).
    all: match goal with Hg : GetLifecycleJobByIdempotency _ _ = (Ok _, _) |- _ => apply get_by_key_ok in Hg as (? & ? & ?) end;
      eexists _, _; split_and!; [eassumption|eassumption|apply summary_job].
Qed.
End OnRecord.

(** ** Witnesses, and what repeats do *)

Section Demo.
#[local] Instance demo_uuid : UuidGen := fun n => pretty n.
#[local] Instance demo_store : StoreConfig := 30.
#[local] Instance demo_parse : UuidParse := fun s => if String.eqb s "" then None else Some s.
#[local] Instance demo_controller : Controller :=
  {| aap_Renew := fun n => Ok (100 + Z.of_nat n, false); aap_WaitForJob := fun _ => Ok StatusSuccessful |}.
#[local] Instance demo_services : Services :=
  {| aap_Revoke := fun n => Ok (200 + Z.of_nat n, false); vault_Import := fun _ => Ok [] |}.
#[local] Existing Instance Revocation.demo_lib.
Definition demo_api : ApiConfig := Build_ApiConfig true true true "https://vault" "pki" "" 0 30 50 32.
Definition demo_body (consent : bool) : LaunchBody := Build_LaunchBody consent "" "web" "nginx" "" "24h" "" "".
Definition demo_seen : World :=
  calm_world ((demo_db demo_cert) <| observations := [Build_Observation "c1" "s1" "10.0.0.1" 443 None None None None 0] |>) Hour.

Definition demo_first (q : ApiRequest) : Reply * World := handle demo_api q demo_seen.
Definition demo_renew_req : ApiRequest := ReqRenew "c1" (Some (demo_body true)).
Definition demo_migrate_req : ApiRequest := ReqMigrate "c1" (Some (demo_body true)).

Lemma handlers_send_safe_witness :
  exists c, (demo_first demo_renew_req).2.(w_sent) = [c] /\ api_call_ok c /\ c.(nc_service) = SvcAAPLaunch.
Proof.
  destruct (handlers_send_safe demo_api demo_renew_req demo_seen _ _ (surjective_pairing (demo_first demo_renew_req)))
    as (l & Hl & Hall). vm_compute in Hl. subst l. apply Forall_cons in Hall as [H _].
  eexists. split; [vm_compute; reflexivity|]. split; [exact H|reflexivity].
Defined.

Lemma accepted_is_persisted_witness :
  exists id fp, uuid_parse "c1" = Some id /\
    job_on_record (MigrateIdempotencyKey id fp) (demo_first demo_migrate_req).1 (demo_first demo_migrate_req).2.(w_db).
Proof.
  apply (accepted_is_persisted demo_api demo_migrate_req demo_seen _ _ (surjective_pairing (demo_first demo_migrate_req))).
  vm_compute. reflexivity.
Defined.

(** A second migration request launches nothing; a second renewal request
    launches another AAP job before it finds that the first one is tracked. *)
Definition demo_again (q : ApiRequest) : Reply * World := handle demo_api q (demo_first q).2.
Example second_requests :
  let sent q := length (demo_again q).2.(w_sent) in
  sent demo_migrate_req = 1%nat /\ sent demo_renew_req = 2%nat /\
  (demo_again demo_renew_req).1.(rp_status) = 202 /\
  reply_job (demo_again demo_renew_req).1 = reply_job (demo_first demo_renew_req).1.
Proof. vm_compute. split_and!; reflexivity. Qed.

(** A catalogue import with a bad renewal configuration is answered 400, and
    the certificate is catalogued all the same. *)
Example refused_but_catalogued :
  let '(reply, w) := demo_first (ReqCatalogImport "c1" (Some (true, Some (Build_LaunchBody true "" "web" "" "" "soon" "" "")))) in
  reply.(rp_status) = 400 /\ c_ManagedStatus <$> w.(w_db).(certificates) !! "c1"%string = Some imported.
Proof. vm_compute. split; reflexivity. Qed.

(** A CA import that Vault answers with no new issuer erases the reference
    the first import recorded. *)
Example reimport_erases_reference :
  let '(reply, w) := handle demo_api (ReqImportIssuer "i1" (Some (true, "pki"%string))) demo_issuer_world in
  reply.(rp_status) = 200 /\ (i ← w.(w_db).(issuers) !! "i1"%string; iss_VaultIssuerRef i) = Some ""%string.
Proof. vm_compute. split; reflexivity. Qed.
End Demo.
