(* ===== verification/Scanner.v ===== *)
(** * Target expansion (internal/scanner/scanner.go)

    What a scan will contact: the addresses of its CIDRs and of its hostnames,
    under the policy for private ranges.  The TLS probe is in Probe.v. *)

From Stdlib Require Import Ascii.
From S2P Require Import Prelude GoLib Records Db ScanQueue Ip.

(** The network as the expansion sees it: the text of [netip]'s parse error,
    and what the resolver answers to the n-th hostname. *)
Class Resolver := {
  prefix_error_text : string -> string;
  LookupIP : nat -> string -> result string (list Addr)
}.

Definition isPrivateAddr (addr : Addr) : bool :=
  IsPrivate addr || IsLoopback addr || IsLinkLocalUnicast addr || IsLinkLocalMulticast addr.
Definition isPrivatePrefix (p : Prefix) : bool := isPrivateAddr p.(pf_Addr).

(** [for addr := first; p.Contains(addr); addr = addr.Next()] *)
Fixpoint walk (fuel : nat) (p : Prefix) (addr : option Addr) : list Addr :=
  match fuel, addr with
  | S fuel, Some a => if Prefix_Contains p a then a :: walk fuel p (Next a) else []
  | _, _ => []
  end.
Definition prefix_addrs (p : Prefix) : list Addr :=
  walk (Z.to_nat (2 ^ host_bits p + 1)) p (Some (Masked p)).

Definition targets_at (host : string) (ports : list Z) (addr : Addr) : list Target :=
  map (fun port => Build_Target (Addr_String addr) port host) ports.

Section Scanner.
Context `{Resolver} (ports : list Z) (allowPrivate : bool).

Definition ExpandTarget (cidr : string) : result string (list Target) :=
  match ParsePrefix cidr with
  | None => Err ("invalid cidr " ++ Quote cidr ++ ": " ++ prefix_error_text cidr)%string
  | Some prefix =>
      if negb allowPrivate && isPrivatePrefix prefix
      then Err ("private range " ++ Quote cidr ++ " blocked; set ALLOW_PRIVATE_RANGES=true")%string
      else if Is4 prefix.(pf_Addr) && (prefix.(pf_Bits) <? 16)
      then Err ("cidr " ++ Quote cidr ++ " too large; maximum /16 for IPv4")%string
      else Ok (flat_map (targets_at "" ports) (prefix_addrs prefix))
  end.
Fixpoint ExpandTargets (cidrs : list string) : result string (list Target) :=
  match cidrs with
  | [] => Ok []
  | cidr :: cidrs' => (let? ts := ExpandTarget cidr in let? ts' := ExpandTargets cidrs' in Ok (ts ++ ts'))%go
  end.

(** [targetsFromResolvedIPs]: the targets, the warnings, and [added]. *)
Fixpoint resolved_targets (host : string) (ips : list Addr) : list Target * list string * bool :=
  match ips with
  | [] => ([], [], false)
  | ip :: ips' =>
      let '(ts, ws, added) := resolved_targets host ips' in
      match To4 ip with
      | None => (ts, ws, added)
      | Some a =>
          if negb allowPrivate && isPrivateAddr (Addr4 a)
          then (ts, ("skipped " ++ Quote host ++ " → " ++ Addr_String (Addr4 a) ++
                     ": private range blocked; set ALLOW_PRIVATE_RANGES=true")%string :: ws, added)
          else (targets_at host ports (Addr4 a) ++ ts, ws, true)
      end
  end.
Definition no_ipv4 (host : string) : string := ("skipped " ++ Quote host ++ ": no IPv4 addresses")%string.
Definition targetsFromResolvedIPs (host : string) (ips : list Addr) : list Target * list string :=
  let '(ts, ws, added) := resolved_targets host ips in
  (ts, if negb added && (length ws =? 0)%nat then ws ++ [no_ipv4 host] else ws).

(** The loop of [ExpandHostnamesPartial], from the n-th hostname on. *)
Fixpoint expand_hostnames (n : nat) (hostnames : list string) : list Target * list string :=
  match hostnames with
  | [] => ([], [])
  | host :: hostnames' =>
      let '(ts', ws') := expand_hostnames (S n) hostnames' in
      let host := TrimSpace host in
      if String.eqb host "" then (ts', ws')
      else match LookupIP n host with
           | Err e => (ts', ("skipped " ++ Quote host ++ ": " ++ e)%string :: ws')
           | Ok [] => (ts', ("skipped " ++ Quote host ++ ": no addresses")%string :: ws')
           | Ok ips =>
               let '(ts, ws) := targetsFromResolvedIPs host ips in
               (ts ++ ts', ws ++ (if (length ts =? 0)%nat && (length ws =? 0)%nat then [no_ipv4 host] else []) ++ ws')
           end
  end.
(** The targets or an error, and the warnings. *)
Definition ExpandHostnamesPartial (hostnames : list string) : result string (list Target) * list string :=
  let '(ts, ws) := expand_hostnames 0 hostnames in
  (if (length ts =? 0)%nat then
     if (0 <? length ws)%nat then Err ("no resolvable hostnames (" ++ Join ws "; " ++ ")")%string
     else Err "no targets from hostnames"%string
   else Ok ts, ws).
Definition ExpandHostnames (hostnames : list string) : result string (list Target) :=
  (ExpandHostnamesPartial hostnames).1.

Definition ExpandScanTargets (cidrs hostnames : list string) : result string (list Target) * list string :=
  match (if (0 <? length cidrs)%nat then ExpandTargets cidrs else Ok []) with
  | Err e => (Err e, [])
  | Ok fromCIDR =>
      let '(r, warnings) := if (0 <? length hostnames)%nat then ExpandHostnamesPartial hostnames else (Ok [], []) in
      match r with
      | Err e => if (length fromCIDR =? 0)%nat then (Err e, warnings) else (Ok fromCIDR, warnings)
      | Ok fromHost =>
          let targets := fromCIDR ++ fromHost in
          (if (length targets =? 0)%nat then Err "no scan targets: provide cidrs and/or hostnames"%string else Ok targets,
           warnings)
      end
  end.
End Scanner.

(** ** The addresses of a prefix *)

Lemma with_bits_bits ip a : addr_bits (with_bits ip a) = a.
Proof. by destruct ip. Qed.
Lemma with_bits_len ip a : BitLen (with_bits ip a) = BitLen ip.
Proof. by destruct ip. Qed.
Lemma with_bits_with ip a b : with_bits (with_bits ip a) b = with_bits ip b.
Proof. by destruct ip. Qed.

Section Walk.
Context (p : Prefix) (Hp : prefix_ok p).
#[local] Definition base : Z := addr_bits (Masked p).
#[local] Definition size : Z := 2 ^ host_bits p.

Lemma host_bits_nonneg : 0 <= host_bits p.
Proof. destruct Hp as [_ ?]. unfold host_bits. lia. Qed.
Lemma size_pos : 0 < size.
Proof. unfold size. pose proof host_bits_nonneg. apply Z.pow_pos_nonneg; lia. Qed.

Lemma base_eq : base = addr_bits p.(pf_Addr) / size * size.
Proof.
  unfold base, Masked, size. pose proof host_bits_nonneg.
  by rewrite with_bits_bits, Z.shiftl_mul_pow2, Z.shiftr_div_pow2.
Qed.

(** A prefix contains the addresses of its family that have its network. *)
Lemma contains_iff ip :
  Prefix_Contains p ip = true <-> BitLen ip = BitLen p.(pf_Addr) /\ base <= addr_bits ip < base + size.
Proof.
  unfold Prefix_Contains. rewrite andb_true_iff, Z.eqb_eq, Z.eqb_eq, Z.shiftr_lxor. pose proof host_bits_nonneg.
  pose proof size_pos as Hs. rewrite base_eq, Z.lxor_eq_0_iff, !Z.shiftr_div_pow2 by done. fold size.
  split; intros [Hl H1]; (split; [done|]).
  - rewrite <- H1. pose proof (Z.div_mod (addr_bits ip) size). pose proof (Z.mod_pos_bound (addr_bits ip) size). nia.
  - symmetry. apply Z.div_unique with (r := addr_bits ip - addr_bits p.(pf_Addr) / size * size); lia.
Qed.

Lemma base_bound : 0 <= base /\ base + size <= 2 ^ BitLen p.(pf_Addr).
Proof.
  destruct Hp as [Ha Hb]. pose proof size_pos as Hs. rewrite base_eq. split.
  - apply Z.mul_nonneg_nonneg; [apply Z.div_pos|]; lia.
  - assert (2 ^ BitLen (pf_Addr p) = 2 ^ pf_Bits p * size) as Hm.
    { unfold size, host_bits. rewrite <- Z.pow_add_r by lia. f_equal. lia. }
    assert (addr_bits (pf_Addr p) / size < 2 ^ pf_Bits p) by (apply Z.div_lt_upper_bound; lia).
    rewrite Hm. nia.
Qed.

Lemma walk_seq (n : nat) (k : Z) :
  0 <= k <= size -> size - k < Z.of_nat n ->
  walk n p (if base + k =? 2 ^ BitLen p.(pf_Addr) then None else Some (with_bits p.(pf_Addr) (base + k))) =
  map (fun i => with_bits p.(pf_Addr) (base + i)) (seqZ k (size - k)).
Proof.
  revert k. induction n as [|n IH]; intros k Hk Hn; [lia|]. pose proof base_bound as [Hb1 Hb2].
  destruct (Z.eqb_spec (base + k) (2 ^ BitLen p.(pf_Addr))) as [He|He].
  - by replace (size - k) with 0 by lia.
  - cbn [walk]. destruct (Prefix_Contains p (with_bits (pf_Addr p) (base + k))) eqn:Hc.
    + apply contains_iff in Hc as [_ Hc]. rewrite with_bits_bits in Hc.
      rewrite seqZ_cons by lia. simpl map. f_equal.
      replace (Z.pred (size - k)) with (size - Z.succ k) by lia. rewrite <- (IH (Z.succ k)) by lia.
      f_equal. unfold Next. rewrite with_bits_bits, with_bits_len, with_bits_with.
      by replace (base + Z.succ k) with (base + k + 1) by lia.
    + destruct (Z.eqb_spec k size) as [->|Hne]; [by rewrite Z.sub_diag|]. exfalso.
      apply not_true_iff_false in Hc. apply Hc, contains_iff. rewrite with_bits_bits, with_bits_len. split; [done|lia].
Qed.

Lemma prefix_addrs_seq :
  prefix_addrs p = map (fun i => with_bits p.(pf_Addr) (base + i)) (seqZ 0 size).
Proof.
  unfold prefix_addrs. fold size. pose proof size_pos. pose proof base_bound.
  replace (Some (Masked p)) with
    (if base + 0 =? 2 ^ BitLen p.(pf_Addr) then None else Some (with_bits p.(pf_Addr) (base + 0))).
  - rewrite walk_seq by lia. by rewrite Z.sub_0_r.
  - destruct (Z.eqb_spec (base + 0) (2 ^ BitLen p.(pf_Addr))); [lia|]. rewrite Z.add_0_r. f_equal.
    unfold base. unfold Masked at 1. rewrite !with_bits_bits. reflexivity.
Qed.

Lemma elem_of_prefix_addrs ip : ip ∈ prefix_addrs p <-> Prefix_Contains p ip = true.
Proof.
  rewrite prefix_addrs_seq, contains_iff, list_elem_of_fmap. pose proof size_pos. split.
  - intros (i & -> & Hi%elem_of_seqZ). rewrite with_bits_bits, with_bits_len. split; [done|lia].
  - intros [Hl Hb]. exists (addr_bits ip - base). split; [|apply elem_of_seqZ; lia].
    destruct ip, (pf_Addr p); try done; simpl in *; f_equal; lia.
Qed.

Lemma length_prefix_addrs : Z.of_nat (length (prefix_addrs p)) = size.
Proof. rewrite prefix_addrs_seq, length_map, length_seqZ. pose proof size_pos. lia. Qed.
Lemma NoDup_prefix_addrs : NoDup (prefix_addrs p).
Proof.
  rewrite prefix_addrs_seq. apply NoDup_fmap_2_strong; [|apply NoDup_seqZ].
  intros i j _ _ H. apply (f_equal addr_bits) in H. rewrite !with_bits_bits in H. lia.
Qed.
End Walk.

(** ** What is contacted *)

(** Addresses of the inside: private, loopback and link-local unicast. *)
Definition internal_addr (ip : Addr) : bool := IsPrivate ip || IsLoopback ip || IsLinkLocalUnicast ip.

Lemma internal_isPrivate ip : isPrivateAddr ip = false -> internal_addr ip = false.
Proof. unfold isPrivateAddr, internal_addr. by intros [-> _]%orb_false_iff. Qed.

(** From /16 on, the addresses of an IPv4 prefix are inside exactly if the
    written one is. *)
Lemma internal_prefix p ip :
  prefix_ok p -> Is4 p.(pf_Addr) = true -> 16 <= p.(pf_Bits) -> Prefix_Contains p ip = true ->
  internal_addr ip = internal_addr p.(pf_Addr).
Proof.
  intros [_ Hb] H4 H16 Hc. destruct (pf_Addr p) as [b|b] eqn:Ep; [|done].
  unfold Prefix_Contains in Hc. rewrite Ep in Hc. apply andb_true_iff in Hc as [Hl Hc].
  destruct ip as [a|a]; [|done]. simpl in Hc, Hb. apply Z.eqb_eq in Hc.
  assert (Z.shiftr a 16 = Z.shiftr b 16) as H.
  { apply Z.lxor_eq. rewrite <- Z.shiftr_lxor. unfold host_bits in Hc. rewrite Ep in Hc. simpl in Hc.
    replace 16 with ((32 - pf_Bits p) + (pf_Bits p - 16)) by lia.
    by rewrite <- Z.shiftr_shiftr, Hc, Z.shiftr_0_l by lia. }
  assert (Z.shiftr a 24 = Z.shiftr b 24) as H'.
  { change 24 with (16 + 8). by rewrite <- !Z.shiftr_shiftr, H by lia. }
  assert (byte_of (Addr4 a) 0 = byte_of (Addr4 b) 0 /\ byte_of (Addr4 a) 1 = byte_of (Addr4 b) 1) as [H0 H1].
  { unfold byte_of. cbn [BitLen addr_bits]. change (32 - 8 - 8 * 0) with 24. change (32 - 8 - 8 * 1) with 16.
    by rewrite H, H'. }
  unfold internal_addr, IsPrivate, IsLoopback, IsLinkLocalUnicast. cbn [Unmap Is4]. by rewrite H0, H1.
Qed.

Section Expansion.
Context `{Resolver} (ports : list Z) (allowPrivate : bool).

Lemma elem_of_targets_at host ip t :
  t ∈ targets_at host ports ip <-> exists port, port ∈ ports /\ t = Build_Target (Addr_String ip) port host.
Proof. unfold targets_at. rewrite list_elem_of_fmap. naive_solver. Qed.

(** What a prefix that is accepted satisfies. *)
Definition prefix_allowed (p : Prefix) : Prop :=
  Is4 p.(pf_Addr) = true ->
  Z.of_nat (length (prefix_addrs p)) <= 65536 /\
  (allowPrivate = false -> forall ip, Prefix_Contains p ip = true -> internal_addr ip = false).

Lemma ExpandTarget_ok cidr ts :
  ExpandTarget ports allowPrivate cidr = Ok ts ->
  exists p, ParsePrefix cidr = Some p /\ prefix_allowed p /\
    forall t, t ∈ ts <-> exists ip port, Prefix_Contains p ip = true /\ port ∈ ports /\
                                        t = Build_Target (Addr_String ip) port "".
Proof.
  unfold ExpandTarget. destruct (ParsePrefix cidr) as [p|] eqn:Hp; [|done]. apply ParsePrefix_ok in Hp.
  destruct (negb allowPrivate && isPrivatePrefix p) eqn:Hpriv; [done|].
  destruct (Is4 (pf_Addr p) && _) eqn:Hlarge; [done|]. intros [= <-]. exists p. split; [done|]. split.
  - intros H4. rewrite H4 in Hlarge. apply Z.ltb_ge in Hlarge. split.
    + rewrite length_prefix_addrs by done. change 65536 with (2 ^ 16). apply Z.pow_le_mono_r; [lia|].
      unfold host_bits. destruct (pf_Addr p); [simpl; lia|done].
    + intros Ha ip Hc. rewrite (internal_prefix p ip) by done. rewrite Ha in Hpriv.
      by apply internal_isPrivate.
  - intros t. rewrite list_elem_of_In, in_flat_map. split.
    + intros (ip & Hip%list_elem_of_In & Ht%list_elem_of_In).
      apply elem_of_prefix_addrs in Hip; [|done]. apply elem_of_targets_at in Ht. naive_solver.
    + intros (ip & port & Hip & Hport & ->). exists ip. rewrite <- !list_elem_of_In.
      rewrite elem_of_prefix_addrs, elem_of_targets_at by done. eauto.
Qed.

Lemma ExpandTargets_ok cidrs ts :
  ExpandTargets ports allowPrivate cidrs = Ok ts ->
  exists prefixes, Forall2 (fun c p => ParsePrefix c = Some p) cidrs prefixes /\ Forall prefix_allowed prefixes /\
    forall t, t ∈ ts <-> exists p ip port, p ∈ prefixes /\ Prefix_Contains p ip = true /\ port ∈ ports /\
                                          t = Build_Target (Addr_String ip) port "".
Proof.
  revert ts. induction cidrs as [|c cidrs IH]; intros ts; simpl.
  - intros [= <-]. exists []. split_and!; [constructor..|]. intros t. rewrite elem_of_nil.
    split; [done|]. by intros (p & ip & port & ?%elem_of_nil & _).
  - intros (ts1 & (p & Hp & Ha & Hin)%ExpandTarget_ok & (ts2 & (ps & Hps & Has & Hins)%IH & [= <-])%result_bind_ok)%result_bind_ok.
    exists (p :: ps). split_and!; [by constructor..|]. intros t. rewrite elem_of_app, Hin, Hins.
    setoid_rewrite elem_of_cons. naive_solver.
Qed.

(** A target that a hostname contributes. *)
Definition host_target (n : nat) (host : string) (t : Target) : Prop :=
  exists ips ip a port, TrimSpace host <> ""%string /\ LookupIP n (TrimSpace host) = Ok ips /\
    ip ∈ ips /\ To4 ip = Some a /\ (allowPrivate = false -> isPrivateAddr (Addr4 a) = false) /\
    port ∈ ports /\ t = Build_Target (Addr_String (Addr4 a)) port (TrimSpace host).

Lemma resolved_targets_in host ips t :
  t ∈ (resolved_targets ports allowPrivate host ips).1.1 <->
  exists ip a port, ip ∈ ips /\ To4 ip = Some a /\ (allowPrivate = false -> isPrivateAddr (Addr4 a) = false) /\
    port ∈ ports /\ t = Build_Target (Addr_String (Addr4 a)) port host.
Proof.
  induction ips as [|ip ips IH]; simpl.
  - rewrite elem_of_nil. split; [done|]. by intros (? & ? & ? & ?%elem_of_nil & _).
  - setoid_rewrite elem_of_cons. destruct (resolved_targets _ _ host ips) as [[ts ws] added]. simpl in IH.
    destruct (To4 ip) as [a|] eqn:E; [|simpl; rewrite IH; naive_solver].
    destruct (negb allowPrivate && isPrivateAddr (Addr4 a)) eqn:Hp; simpl.
    + rewrite IH. apply andb_true_iff in Hp as [Hn Hp]. apply negb_true_iff in Hn.
      split; [naive_solver|]. intros (ip' & a' & port & [->|?] & E' & Ha & ?); [|naive_solver].
      replace a' with a in Ha by congruence. rewrite Ha in Hp; done.
    + rewrite elem_of_app, IH, elem_of_targets_at.
      assert (allowPrivate = false -> isPrivateAddr (Addr4 a) = false) by (intros Hn; by rewrite Hn in Hp).
      split; [naive_solver|]. intros (ip' & a' & port & [->|?] & E' & ?); [|naive_solver].
      replace a' with a in * by congruence. naive_solver.
Qed.

Lemma expand_hostnames_in k hostnames t :
  t ∈ (expand_hostnames ports allowPrivate k hostnames).1 <->
  exists n host, hostnames !! n = Some host /\ host_target (k + n) host t.
Proof.
  revert k. induction hostnames as [|host hs IH]; intros k; cbn [expand_hostnames].
  - simpl. rewrite elem_of_nil. split; [done|]. by intros (? & ? & ? & _).
  - assert (forall P : Prop, (P <-> host_target k host t) ->
      (P \/ (exists n h, hs !! n = Some h /\ host_target (S k + n) h t)) <->
      exists n h, (host :: hs) !! n = Some h /\ host_target (k + n) h t) as Hcons.
    { intros P HP. rewrite HP. split.
      - intros [Ht|(n & h & Hn & Ht)]; [exists 0%nat, host; by rewrite Nat.add_0_r|].
        exists (S n), h. by rewrite Nat.add_succ_r.
      - intros ([|n] & h & Hn & Ht); [injection Hn as <-; rewrite Nat.add_0_r in Ht; by left|].
        right. exists n, h. by rewrite Nat.add_succ_r in Ht. }
    specialize (IH (S k)). destruct (expand_hostnames _ _ (S k) hs) as [ts' ws'] eqn:E. simpl in IH.
    assert (forall P : Prop, ~ P -> (P <-> host_target k host t) -> t ∈ ts' <->
      exists n h, (host :: hs) !! n = Some h /\ host_target (k + n) h t) as Hskip.
    { intros P HnP HP. rewrite <- (Hcons P HP), IH. naive_solver. }
    destruct (String.eqb_spec (TrimSpace host) "") as [He|He].
    { apply (Hskip False); [by intros []|]. split; [done|]. by intros (? & ? & ? & ? & [] & _). }
    destruct (LookupIP k (TrimSpace host)) as [ips|e] eqn:El.
    2: { apply (Hskip False); [by intros []|]. split; [done|]. intros (? & ? & ? & ? & _ & E2 & _). congruence. }
    assert (t ∈ (resolved_targets ports allowPrivate (TrimSpace host) ips).1.1 <-> host_target k host t) as Hr.
    { rewrite resolved_targets_in. unfold host_target. rewrite El. naive_solver. }
    destruct ips as [|ip ips].
    { apply (Hskip False); [by intros []|]. rewrite <- Hr. simpl. by rewrite elem_of_nil. }
    unfold targetsFromResolvedIPs.
    destruct (resolved_targets _ _ _ (ip :: ips)) as [[ts ws] added]. simpl in *.
    by rewrite elem_of_app, IH, <- (Hcons _ Hr).
Qed.

(** C25. The targets of a scan are exactly the addresses of its CIDRs and the
    IPv4 addresses of its hostnames, with every port; a CIDR of IPv4 is at
    most a /16, 65536 addresses; and unless private ranges are allowed, no
    address of an IPv4 CIDR and no address of a hostname is private, loopback
    or link-local, whatever the CIDR's written address and the resolver's
    answer are. *)
Theorem ExpandScanTargets_spec cidrs hostnames ts warnings :
  ExpandScanTargets ports allowPrivate cidrs hostnames = (Ok ts, warnings) ->
  exists prefixes, Forall2 (fun c p => ParsePrefix c = Some p) cidrs prefixes /\
    (forall t, t ∈ ts <->
       (exists p ip port, p ∈ prefixes /\ Prefix_Contains p ip = true /\ port ∈ ports /\
                         t = Build_Target (Addr_String ip) port "") \/
       (exists n host, hostnames !! n = Some host /\ host_target n host t)) /\
    Forall (fun p => Is4 p.(pf_Addr) = true ->
      Z.of_nat (length (prefix_addrs p)) <= 65536 /\
      (allowPrivate = false -> forall ip, Prefix_Contains p ip = true ->
         IsPrivate ip = false /\ IsLoopback ip = false /\ IsLinkLocalUnicast ip = false)) prefixes.
Proof.
  unfold ExpandScanTargets.
  assert ((if (0 <? length cidrs)%nat then ExpandTargets ports allowPrivate cidrs else Ok []) =
          ExpandTargets ports allowPrivate cidrs) as -> by by destruct cidrs.
  destruct (ExpandTargets ports allowPrivate cidrs) as [ts1|e] eqn:E1; [|done].
  apply ExpandTargets_ok in E1 as (ps & Hps & Has & Hin). intros Hts. exists ps. split; [done|]. split.
  - intros t. rewrite <- Hin, <- (expand_hostnames_in 0). destruct hostnames as [|h hs].
    { simpl in *. rewrite app_nil_r in Hts. rewrite elem_of_nil. destruct (length ts1 =? 0)%nat; [done|].
      injection Hts as <- <-. naive_solver. }
    simpl in Hts. unfold ExpandHostnamesPartial in Hts.
    destruct (expand_hostnames ports allowPrivate 0 (h :: hs)) as [ts2 ws2]. simpl.
    destruct (Nat.eqb_spec (length ts2) 0) as [Hn|_].
    + apply nil_length_inv in Hn as ->. rewrite elem_of_nil.
      destruct (0 <? length ws2)%nat, (length ts1 =? 0)%nat; try done; injection Hts as <- <-; naive_solver.
    + destruct (length (ts1 ++ ts2) =? 0)%nat; [done|]. injection Hts as <- <-. by rewrite elem_of_app.
  - eapply Forall_impl; [exact Has|]. intros p Ha H4. destruct (Ha H4) as [Hl Hi]. split; [done|].
    intros Hn ip Hc. specialize (Hi Hn ip Hc). unfold internal_addr in Hi.
    apply orb_false_iff in Hi as [[??]%orb_false_iff ?]. done.
Qed.
End Expansion.

(** ** A witness, and what the policy does not cover *)

Section Demo.
#[local] Instance demo_resolver : Resolver := {|
  prefix_error_text := fun _ => "bad prefix"%string;
  LookupIP := fun _ h => if String.eqb h "app.corp" then Ok [Addr4 0x0a000005; Addr6 0xffff08080808; Addr6 1]
                         else Err "no such host"%string |}.

Example demo_expansion :
  ExpandScanTargets [443] false ["8.8.4.3/31"]%string [" app.corp "; "gone.corp"]%string =
  (Ok [Build_Target "8.8.4.2" 443 ""; Build_Target "8.8.4.3" 443 ""; Build_Target "8.8.8.8" 443 "app.corp"],
   ["skipped " ++ Quote "app.corp" ++ " → 10.0.0.5: private range blocked; set ALLOW_PRIVATE_RANGES=true";
    "skipped " ++ Quote "gone.corp" ++ ": no such host"])%string.
Proof. vm_compute. reflexivity. Qed.

Lemma ExpandScanTargets_spec_witness :
  exists prefixes, Forall2 (fun c p => ParsePrefix c = Some p) ["8.8.4.3/31"%string] prefixes /\
    Forall (fun p => Is4 p.(pf_Addr) = true -> forall ip, Prefix_Contains p ip = true -> IsPrivate ip = false) prefixes.
Proof.
  destruct (ExpandScanTargets_spec [443] false ["8.8.4.3/31"%string] [" app.corp "; "gone.corp"]%string _ _ demo_expansion)
    as (ps & Hps & _ & Hall). exists ps. split; [exact Hps|].
  eapply Forall_impl; [exact Hall|]. intros p Hp H4 ip Hc. by apply (Hp H4).
Defined.

(** Only the written address of a CIDR is looked at: an IPv6 prefix may hold
    the loopback address, and 0.0.0.0/16 is not private. *)
Example ipv6_prefix_holds_loopback :
  ExpandScanTargets [443] false ["::/127"]%string [] = (Ok [Build_Target "::" 443 ""; Build_Target "::1" 443 ""], []) /\
  isPrivatePrefix (Build_Prefix (Addr4 0) 16) = false.
Proof. vm_compute. split; reflexivity. Qed.
End Demo.
