(* ===== verification/Json.v ===== *)
(** * JSON documents of the services the program calls

    [encoding/json]: the decoder is a parameter, from a text to a document; how
    a document fills Go's types is modelled here.  Field names are compared as
    they are written (Go also accepts other cases of a letter), and numbers
    are integers. *)

From Stdlib Require Import Ascii.
From S2P Require Import Prelude GoLib Records Db.

Class JsonLib := {
  json_Unmarshal : string -> option json;
  json_error : string -> string
}.

(** [json.Unmarshal] into Go types: a missing field or null leaves the zero
    value, another type is an error; of equal keys the last one counts. *)
Definition json_field (k : string) (l : list (string * json)) : option json :=
  snd <$> last (filter (fun kv => kv.1 = k) l).
Definition decode_string (j : option json) : option string :=
  match j with None | Some JNull => Some ""%string | Some (JStr s) => Some s | _ => None end.
Definition decode_int (j : option json) : option Z :=
  match j with None | Some JNull => Some 0 | Some (JNum n) => Some n | _ => None end.
Definition decode_bool (j : option json) : option bool :=
  match j with None | Some JNull => Some false | Some (JBool b) => Some b | _ => None end.
(** A struct or a map; [None] of the option inside is nil. *)
Definition decode_object (j : option json) : option (option (list (string * json))) :=
  match j with None | Some JNull => Some None | Some (JObj l) => Some (Some l) | _ => None end.
Fixpoint decode_strings (l : list json) : option (list string) :=
  match l with
  | [] => Some []
  | j :: l' => s ← decode_string (Some j); l'' ← decode_strings l'; Some (s :: l'')
  end.
Definition decode_string_list (j : option json) : option (list string) :=
  match j with None | Some JNull => Some [] | Some (JArr l) => decode_strings l | _ => None end.
(** The keys of a document that is an object. *)
Definition document (j : json) : option (list (string * json)) := default [] <$> decode_object (Some j).


(** A pointer field: null and a missing field are nil. *)
Definition decode_ptr {A} (f : option json -> option A) (j : option json) : option (option A) :=
  match j with None | Some JNull => Some None | _ => Some <$> f j end.
(** A field of a struct that already holds a value: null and a missing field
    leave it. *)
Definition decode_over {A} (f : option json -> option A) (old : A) (j : option json) : option A :=
  match j with None | Some JNull => Some old | _ => f j end.

Definition decoded `{JsonLib} {A} (f : json -> option A) (body : string) : result string A :=
  match json_Unmarshal body ≫= f with Some a => Ok a | None => Err ("decode response: " ++ json_error body)%string end.

(** A decoded object as the map Go ranges over: each key once, its last value. *)
Definition as_map (l : list (string * json)) : list (string * json) :=
  omap (fun k => pair k <$> json_field k l) (remove_dups (map fst l)).

(** [strings.TrimRight(s, "/")] *)
Fixpoint trim_slashes (s : string) : string :=
  match s with
  | EmptyString => EmptyString
  | String c s' => match trim_slashes s' with
                   | EmptyString => if Ascii.eqb c "/" then EmptyString else String c EmptyString
                   | t => String c t
                   end
  end.
