(* ===== verification/Columns.v ===== *)
(** * The JSON columns (internal/store/store.go, internal/store/diagnostics.go)

    Alternative names, risk reasons, renewal settings and failure samples are
    kept as JSON documents.  What is written comes back, whatever the order
    in which Postgres returns the members of an object. *)

From S2P Require Import Prelude GoLib Records Db CertStore Worker Json.

Open Scope clm_scope.

(** ** Documents written *)

(** [omitempty] on a flag. *)
Definition omit_false (k : string) (b : bool) : list (string * json) := if b then [(k, JBool true)] else [].
(** A slice: nil is null. *)
Definition slice_json {A} (f : A -> json) (l : option (list A)) : json :=
  match l with Some l => JArr (map f l) | None => JNull end.

Definition sample_json (s : TargetFailureSample) : json := JObj (
  [("ip"%string, JStr s.(fs_IP)); ("port"%string, JNum s.(fs_Port))] ++
  omit_empty "hostname" s.(fs_Hostname) ++ omit_empty "sni" s.(fs_SNI) ++
  [("reason"%string, JStr s.(fs_Reason)); ("kind"%string, JStr s.(fs_Kind))]).
Definition failureSamplesJSON (samples : option (list TargetFailureSample)) : json :=
  slice_json sample_json (Some (default [] samples)).

Definition reason_json (r : RiskReason) : json := JObj (
  [("rule_id"%string, JStr r.(rr_RuleID)); ("pack"%string, JStr r.(rr_Pack)); ("severity"%string, JStr r.(rr_Severity));
   ("title"%string, JStr r.(rr_Title)); ("score"%string, JNum r.(rr_Score))] ++ omit_false "waived" r.(rr_Waived)).
(** In [UpdateCertificateRisk]. *)
Definition reasons_json (reasons : option (list RiskReason)) : json := slice_json reason_json (Some (default [] reasons)).

(** In [SetRenewalConfig]. *)
Definition renewal_json (rc : RenewalConfig) : json := JObj (
  [("role"%string, JStr rc.(rc_Role)); ("mount"%string, JStr rc.(rc_Mount))] ++
  omit_empty "service" rc.(rc_Service) ++ omit_empty "target_hosts" rc.(rc_TargetHosts) ++
  omit_empty "ttl" rc.(rc_TTL) ++ omit_empty "alt_names" rc.(rc_AltNames)).

Definition pqcTagOrUnknown (tag : string) : string :=
  if bool_decide (tag ∈ ["classic"; "hybrid"; "pqc"; "unknown"]%string) then tag else "unknown".

(** ** Documents read *)

Section Read.
Context `{JsonLib}.

Fixpoint decode_all {A} (f : json -> option A) (l : list json) : option (list A) :=
  match l with [] => Some [] | j :: l' => x ← f j; xs ← decode_all f l'; Some (x :: xs) end.
(** A slice; [None] inside is nil. *)
Definition decode_slice {A} (f : json -> option A) (j : json) : option (option (list A)) :=
  match j with JNull => Some None | JArr l => Some <$> decode_all f l | _ => None end.

Definition decode_sample (j : json) : option TargetFailureSample :=
  l ← document j;
  ip ← decode_string (json_field "ip" l); port ← decode_int (json_field "port" l);
  hostname ← decode_string (json_field "hostname" l); sni ← decode_string (json_field "sni" l);
  reason ← decode_string (json_field "reason" l); kind ← decode_string (json_field "kind" l);
  Some (Build_TargetFailureSample ip port hostname sni reason kind).

(** What the driver hands to [Scan]: nothing, bytes, text, or another type. *)
Inductive Source := SrcNil | SrcBytes (text : string) | SrcString (text : string) | SrcOther (type_name : string).

(** [failureSamplesScanner.Scan] *)
Definition Scan_ (src : Source) : result string (option (list TargetFailureSample)) :=
  match src with
  | SrcNil => Ok (Some [])
  | SrcBytes data | SrcString data =>
      if String.eqb data "" then Ok (Some [])
      else match json_Unmarshal data ≫= decode_slice decode_sample with
           | Some l => Ok l
           | None => Err (json_error data)
           end
  | SrcOther ty => Err ("unsupported failure_samples type " ++ ty)%string
  end.

(** An error that is not looked at leaves what could be filled: a member of
    another type is skipped, and a text that is no document changes nothing. *)
Definition fill_string (j : option json) : string := default ""%string (decode_string j).
Definition fill_slice {A} (f : json -> A) (text : string) : option (list A) :=
  match json_Unmarshal text with Some (JArr l) => Some (map f l) | _ => None end.
Definition fill_reason (j : json) : RiskReason :=
  let l := default [] (document j) in
  Build_RiskReason (fill_string (json_field "rule_id" l)) (fill_string (json_field "pack" l))
    (fill_string (json_field "severity" l)) (fill_string (json_field "title" l))
    (default 0 (decode_int (json_field "score" l))) (default false (decode_bool (json_field "waived" l))).

Definition decode_renewal (j : json) : option RenewalConfig :=
  l ← document j;
  role ← decode_string (json_field "role" l); mount ← decode_string (json_field "mount" l);
  service ← decode_string (json_field "service" l); hosts ← decode_string (json_field "target_hosts" l);
  ttl ← decode_string (json_field "ttl" l); alt ← decode_string (json_field "alt_names" l);
  Some (Build_RenewalConfig role mount service hosts ttl alt).

(** The columns of a certificate that are decoded; NULL is the empty text. *)
Record CertColumns := Build_CertColumns { cc_sans : string; cc_reasons : string; cc_pqc : string; cc_renewal : string }.
Record CertDecoded := Build_CertDecoded {
  cd_SubjectAltNames : option (list string);
  cd_RiskReasons : list RiskReason;
  cd_PQCTag : string;
  cd_RenewalConfig : option RenewalConfig
}.
(** [scanCertificate] *)
Definition scanCertificate (c : CertColumns) : CertDecoded := {|
  cd_SubjectAltNames := fill_slice (fun j => fill_string (Some j)) c.(cc_sans);
  cd_RiskReasons := if String.eqb c.(cc_reasons) "" then [] else default [] (fill_slice fill_reason c.(cc_reasons));
  cd_PQCTag := if String.eqb c.(cc_pqc) "" then "unknown" else c.(cc_pqc);
  cd_RenewalConfig := if String.eqb c.(cc_renewal) "" then None else json_Unmarshal c.(cc_renewal) ≫= decode_renewal
|}.
End Read.

(** ** What is written comes back *)

(** What [jsonb] makes of a document whose objects hold scalars: the members
    of an object in any order. *)
Inductive jsonb : json -> json -> Prop :=
| jsonb_scalar j : jsonb j j
| jsonb_object l l' : NoDup (map fst l) -> Permutation l l' -> jsonb (JObj l) (JObj l')
| jsonb_array l l' : Forall2 jsonb l l' -> jsonb (JArr l) (JArr l').

Lemma json_field_perm k l l' : NoDup (map fst l) -> Permutation l l' -> json_field k l = json_field k l'.
Proof.
  intros Hnd Hp. unfold json_field. assert (Permutation (filter (fun kv : string * json => kv.1 = k) l) (filter (fun kv => kv.1 = k) l')) as Hf
    by (by rewrite Hp).
  assert (length (filter (fun kv : string * json => kv.1 = k) l) <= 1)%nat as Hone.
  { clear -Hnd. induction l as [|[k' v] l IH]; [simpl; lia|]. apply NoDup_cons in Hnd as [Hn Hnd]. rewrite filter_cons.
    case_decide as E; [|by apply IH]. simpl in E. subst k'. simpl.
    enough (filter (fun kv : string * json => kv.1 = k) l = []) as -> by (simpl; lia).
    destruct (filter _ l) as [|[k' v'] r] eqn:Ef; [done|]. destruct Hn.
    assert ((k', v') ∈ filter (fun kv : string * json => kv.1 = k) l) as [<- Hin]%list_elem_of_filter by (rewrite Ef; constructor).
    apply list_elem_of_fmap. by exists (k', v'). }
  destruct (filter (fun kv : string * json => kv.1 = k) l) as [|x [|y r]]; simpl in Hone; [|..|lia].
  - by apply Permutation_nil_l in Hf as ->.
  - by apply Permutation_singleton_l in Hf as ->.
Qed.

(** A decoder that looks at the members by name. *)
Definition by_name {A} (f : json -> A) : Prop := forall l l', NoDup (map fst l) -> Permutation l l' -> f (JObj l) = f (JObj l').
Ltac by_name_tac :=
  intros l l' Hnd Hp; repeat (cbv beta delta [decode_sample decode_renewal fill_reason document decode_object]; simpl);
  rewrite ?(json_field_perm _ l l' Hnd Hp); reflexivity.
Lemma by_name_sample : by_name decode_sample.
Proof. by_name_tac. Qed.
Lemma by_name_reason : by_name fill_reason.
Proof. by_name_tac. Qed.
Lemma by_name_renewal : by_name decode_renewal.
Proof. by_name_tac. Qed.
Lemma by_name_jsonb {A} (f : json -> A) l j : by_name f -> jsonb (JObj l) j -> f j = f (JObj l).
Proof. intros Hf Hj. inversion Hj; subst; [done|]. symmetry. by apply Hf. Qed.

(** An array of objects, read back member by member. *)
Lemma decode_all_back {A} (enc : A -> json) (dec : json -> option A) l js :
  (forall x j, jsonb (enc x) j -> dec j = Some x) -> Forall2 jsonb (map enc l) js -> decode_all dec js = Some l.
Proof.
  intros Hd. revert js. induction l as [|x l IH]; intros js Hf; inversion Hf; subst; [done|].
  simpl. erewrite Hd by done. simpl. by erewrite IH.
Qed.
Lemma fill_all_back {A} (enc : A -> json) (dec : json -> A) l js :
  (forall x j, jsonb (enc x) j -> dec j = x) -> Forall2 jsonb (map enc l) js -> map dec js = l.
Proof.
  intros Hd. revert js. induction l as [|x l IH]; intros js Hf; inversion Hf; subst; [done|].
  simpl. erewrite Hd by done. by erewrite IH.
Qed.
Lemma jsonb_array_inv l j : jsonb (JArr l) j -> exists js, j = JArr js /\ Forall2 jsonb l js.
Proof.
  intros Hj. inversion Hj; subst; [|by eexists]. eexists. split; [done|].
  clear. induction l; constructor; [constructor|done].
Qed.

Lemma sample_back s j : jsonb (sample_json s) j -> decode_sample j = Some s.
Proof.
  intros Hj. rewrite (by_name_jsonb _ _ _ by_name_sample Hj). destruct s as [ip port host sni reason kind]. unfold sample_json, omit_empty.
  simpl. destruct (String.eqb_spec host ""), (String.eqb_spec sni ""); subst; reflexivity.
Qed.
Lemma reason_back r j : jsonb (reason_json r) j -> fill_reason j = r.
Proof.
  intros Hj. rewrite (by_name_jsonb _ _ _ by_name_reason Hj). destruct r as [id pack sev title score [|]]; reflexivity.
Qed.
Lemma renewal_back rc j : jsonb (renewal_json rc) j -> decode_renewal j = Some rc.
Proof.
  intros Hj. rewrite (by_name_jsonb _ _ _ by_name_renewal Hj). destruct rc as [role mount service hosts ttl alt]. unfold renewal_json, omit_empty.
  simpl. destruct (String.eqb_spec service ""), (String.eqb_spec hosts ""), (String.eqb_spec ttl ""), (String.eqb_spec alt "");
    subst; reflexivity.
Qed.

(** [text] is what the driver returns for a column that holds [doc]. *)
Definition reads_as `{JsonLib} (text : string) (doc : json) : Prop :=
  text <> ""%string /\ exists j, json_Unmarshal text = Some j /\ jsonb doc j.

(** C32. The JSON columns lose nothing.  Whatever the order in which the
    database returns the members of objects: the failure samples, the
    alternative names, the risk reasons and the renewal settings that were
    written are what is read back, as bytes or as text; nil lists of samples
    and reasons come back empty and nil names as nil; a column that is NULL
    reads as the default; and any other value in place of the samples is an
    error. *)
Theorem columns_roundtrip `{JsonLib} samples sans reasons rc tag t1 t2 t3 t4 ty :
  reads_as t1 (failureSamplesJSON samples) -> reads_as t2 (slice_json JStr sans) ->
  reads_as t3 (reasons_json reasons) -> reads_as t4 (renewal_json rc) ->
  Scan_ (SrcBytes t1) = Ok (Some (default [] samples)) /\ Scan_ (SrcString t1) = Ok (Some (default [] samples)) /\
  scanCertificate (Build_CertColumns t2 t3 (pqcTagOrUnknown tag) t4) =
    Build_CertDecoded sans (default [] reasons) (pqcTagOrUnknown tag) (Some rc) /\
  Scan_ SrcNil = Ok (Some []) /\ is_ok (Scan_ (SrcOther ty)) = false /\
  scanCertificate (Build_CertColumns t2 "" "" "") = Build_CertDecoded sans [] "unknown" None.
Proof.
  intros [N1 (j1 & E1 & (js1 & -> & B1)%jsonb_array_inv)] [N2 (j2 & E2 & B2)] [N3 (j3 & E3 & (js3 & -> & B3)%jsonb_array_inv)] [N4 (j4 & E4 & B4)].
  assert (fill_slice (fun j => fill_string (Some j)) t2 = sans) as Hsans.
  { unfold fill_slice. rewrite E2. destruct sans as [l|]; [|by inversion B2].
    apply jsonb_array_inv in B2 as (js & -> & B2). f_equal. eapply fill_all_back; [|exact B2]. intros x j Hj. by inversion Hj. }
  assert (json_Unmarshal t1 ≫= decode_slice decode_sample = Some (Some (default [] samples))) as Hsamples.
  { rewrite E1. simpl. by rewrite (decode_all_back _ _ _ _ sample_back B1). }
  assert (fill_slice fill_reason t3 = Some (default [] reasons)) as Hreasons.
  { unfold fill_slice. rewrite E3. f_equal. exact (fill_all_back _ _ _ _ reason_back B3). }
  assert (pqcTagOrUnknown tag <> ""%string) as Htag.
  { unfold pqcTagOrUnknown. case_bool_decide as Ht; [|done]. intros ->. rewrite !elem_of_cons, elem_of_nil in Ht. naive_solver. }
  unfold Scan_, scanCertificate. simpl. rewrite (proj2 (String.eqb_neq _ _) N1), (proj2 (String.eqb_neq _ _) N3),
    (proj2 (String.eqb_neq _ _) N4), (proj2 (String.eqb_neq _ _) Htag), Hsamples, Hsans, Hreasons, E4. simpl.
  by rewrite (renewal_back rc j4 B4).
Qed.

Section Demo.
Definition demo_sample : TargetFailureSample := Build_TargetFailureSample "10.0.0.2" 443 "" "10.0.0.2" "connection refused" "probe".
Definition demo_reason : RiskReason := Build_RiskReason "ops.expired" "ops" "critical" "Certificate expired" 40 true.
Definition demo_renewal : RenewalConfig := Build_RenewalConfig "web" "pki" "" "web-1" "" "".
(** The members by the length of their names, as [jsonb] keeps them. *)
Definition demo_stored : list (string * json) := [
  ("samples", JArr [JObj [("ip", JStr "10.0.0.2"); ("sni", JStr "10.0.0.2"); ("kind", JStr "probe"); ("port", JNum 443);
                          ("reason", JStr "connection refused")]]);
  ("names", JArr [JStr "app.corp"; JStr "www.corp"]);
  ("reasons", JArr [reason_json demo_reason]);
  ("renewal", JObj [("role", JStr "web"); ("mount", JStr "pki"); ("target_hosts", JStr "web-1")])]%string.
#[local] Instance demo_json : JsonLib := {
  json_Unmarshal text := json_field text demo_stored;
  json_error text := "invalid character"%string
}.

Lemma columns_roundtrip_witness :
  Scan_ (SrcBytes "samples") = Ok (Some [demo_sample]) /\
  scanCertificate (Build_CertColumns "names" "reasons" (pqcTagOrUnknown "lattice") "renewal") =
    Build_CertDecoded (Some ["app.corp"; "www.corp"]%string) [demo_reason] "unknown" (Some demo_renewal).
Proof.
  destruct (columns_roundtrip (Some [demo_sample]) (Some ["app.corp"; "www.corp"]%string) (Some [demo_reason]) demo_renewal "lattice"
    "samples" "names" "reasons" "renewal" "int64") as (E1 & _ & E2 & _); [..|split; [exact E1|exact E2]].
  - split; [discriminate|]. eexists. split; [reflexivity|]. apply jsonb_array, Forall2_cons; split; [|by apply Forall2_nil].
    apply jsonb_object; [by apply (bool_decide_unpack _)|]. simpl.
    apply Permutation_cons; [done|]. etransitivity; [apply (Permutation_app_comm [_] [_; _; _])|]. simpl.
    apply Permutation_cons; [done|]. apply (Permutation_app_comm [_] [_; _]).
  - split; [discriminate|]. eexists. split; [reflexivity|]. constructor.
  - split; [discriminate|]. eexists. split; [reflexivity|]. constructor.
  - split; [discriminate|]. eexists. split; [reflexivity|]. constructor.
Defined.
End Demo.
