(* ===== verification/Vault.v ===== *)
(** * The Vault client and the reconciliation (internal/vault)

    client.go, auth.go and pki.go: the HTTP client with its AppRole token
    cache, and what it reads and writes of a PKI mount.  reconcile.go: the
    matching of Vault's certificates against the inventory. *)

From Stdlib Require Import Ascii.
From S2P Require Import Prelude GoLib Records Db Queue CertStore Json Sha256 Sends.

Open Scope clm_scope.

(** ** The client *)

(** [Config] *)
Record ClientConfig := Build_ClientConfig {
  vc_Address : string; vc_Namespace : string; vc_Token : string; vc_AuthMethod : string; vc_RoleID : string; vc_SecretID : string
}.
Definition NewClient (cfg : ClientConfig) : ClientConfig :=
  let a := cfg.(vc_Address) in
  if negb (String.eqb a "") && negb (HasPrefix a "http://") && negb (HasPrefix a "https://")
  then Build_ClientConfig ("https://" ++ a) cfg.(vc_Namespace) cfg.(vc_Token) cfg.(vc_AuthMethod) cfg.(vc_RoleID) cfg.(vc_SecretID)
  else cfg.

(** The mutable part of [Client]. *)
Record ClientState := Build_ClientState { cs_clientToken : string; cs_expiry : time; cs_renewable : bool }.
Definition new_state : ClientState := Build_ClientState "" zero_time false.

(** [http.Response], what is read of it: the status, the [Location] header
    ([""] when there is none) and the body, or the error of reading it. *)
Record VaultResponse := Build_VaultResponse { rsp_StatusCode : Z; rsp_Location : string; rsp_Body : result string string }.

(** The libraries and the peer: the n-th response, or the error of the
    transport; Go's JSON decoder; [net/url]'s errors, and its [URL.Parse],
    which resolves a reference against a URL; PEM and X.509 decoding (the
    bytes of the certificate); and the order in which Go ranges over a map the
    n-th time. *)
Class VaultLib := {
  vault_reply : nat -> result string VaultResponse;
  vault_json :: JsonLib;
  url_error : string -> option string;
  url_resolve : string -> string -> result string string;
  pem_Block : string -> option string;
  x509_Raw : string -> result string string;
  range_map : nat -> list (string * json) -> list (string * json)
}.

(** Code that uses a client. *)
Definition V (A : Type) : Type := ClientState -> M (A * ClientState).
Definition vret {A} (a : A) : V A := fun s => mret (a, s).
Definition vbind {A B} (m : V A) (f : A -> V B) : V B := fun s => mbind (m s) (fun r => f r.1 r.2).
Definition vlift {A} (m : M A) : V A := fun s => mbind m (fun a => mret (a, s)).
Definition vget : V ClientState := fun s => mret (s, s).
Definition vput (s : ClientState) : V unit := fun _ => mret (tt, s).
Notation "x <-v m ;; k" := (vbind m (fun x => k)) (at level 100, m at next level, right associativity) : clm_scope.
(** [if err := m; err != nil { return err }] *)
Definition vtry {A B} (m : V (result string A)) (f : A -> V (result string B)) : V (result string B) :=
  vbind m (fun r => match r with Ok a => f a | Err e => vret (Err e) end).
Notation "x <-v? m ;; k" := (vtry m (fun x => k)) (at level 100, m at next level, right associativity) : clm_scope.

(** [vaultAuthReply] *)
Record VaultAuth := Build_VaultAuth { va_ClientToken : string; va_LeaseDuration : Z; va_Renewable : bool }.
Definition decode_auth (j : json) : option (option VaultAuth) :=
  doc ← document j;
  auth ← decode_object (json_field "auth" doc);
  match auth with
  | None => Some None
  | Some a =>
      token ← decode_string (json_field "client_token" a);
      lease ← decode_int (json_field "lease_duration" a);
      renewable ← decode_bool (json_field "renewable" a);
      Some (Some (Build_VaultAuth token lease renewable))
  end.

Definition normalizeMount (mount : string) : string := if negb (HasSuffix mount "/") then (mount ++ "/")%string else mount.

Definition renewSkew : duration := 30 * Second.

Section Client.
Context `{VaultLib} (cfg : ClientConfig).

Definition Configured : bool := negb (String.eqb cfg.(vc_Address) "").
Definition usesAppRole : bool := EqualFold (TrimSpace cfg.(vc_AuthMethod)) "approle".
Definition apiURL (path : string) : string := (trim_slashes cfg.(vc_Address) ++ path)%string.

(** A request on the wire: headers, query and payload. *)
Definition vault_request (method url query token : string) (payload : list (string * json)) : netcall :=
  {| nc_service := SvcVault; nc_subject := url;
     nc_body := JObj [("method"%string, JStr method); ("namespace"%string, JStr cfg.(vc_Namespace));
                      ("payload"%string, JObj payload); ("query"%string, JStr query); ("token"%string, JStr token)] |}.

(** *** [http.Client.Do]

    [NewClient] gives its [http.Client] no policy for redirects: the client
    follows up to ten.  What the header copier of [net/http] (Go 1.22) holds
    back on another host are the authorization and cookie headers; the token
    and the namespace, headers of Vault's own, go along, and so does the body
    on 307 and 308. *)

(** [redirectBehavior]: the method of the next request, and whether it
    carries the body of the first. *)
Definition redirectBehavior (method : string) (status : Z) : option (string * bool) :=
  if (status =? 301) || (status =? 302) || (status =? 303)
  then Some (if String.eqb method "GET" || String.eqb method "HEAD" then method else "GET"%string, false)
  else if (status =? 307) || (status =? 308) then Some (method, true) else None.

(** [url.Error], with its operation. *)
Definition url_Error (method url err : string) : string :=
  (match method with String c m => String c (ToLower m) | EmptyString => "Get" end ++ " " ++ Quote url ++ ": " ++ err)%string.

(** The loop of [Do] over the redirects that are left; [op] and [payload] are
    the method and the body of the first request. *)
Fixpoint http_follow (left : nat) (op : string) (payload : list (string * json)) (token method url query : string)
    (body : list (string * json)) : M (result string VaultResponse) :=
  r <-- net_call (vault_request method url query token body) vault_reply ;;
  match r with
  | Err e => mret (Err e)
  | Ok rsp =>
      match redirectBehavior method rsp.(rsp_StatusCode) with
      | None => mret (Ok rsp)
      | Some (method', includeBody) =>
          if String.eqb rsp.(rsp_Location) "" then mret (Ok rsp)
          else
            let here := if String.eqb query "" then url else (url ++ "?" ++ query)%string in
            match url_resolve here rsp.(rsp_Location) with
            | Err e => mret (Err (url_Error op here ("failed to parse Location header " ++ Quote rsp.(rsp_Location) ++ ": " ++ e)))
            | Ok url' =>
                match left with
                | O => mret (Err (url_Error op rsp.(rsp_Location) "stopped after 10 redirects"))
                | S left' => http_follow left' op payload token method' url' "" (if includeBody then payload else [])
                end
            end
      end
  end.
(** Ten requests at most. *)
Definition http_Do (method url query token : string) (payload : list (string * json)) : M (result string VaultResponse) :=
  http_follow 9 method payload token method url query payload.

(** [http.NewRequest], [Do] and [io.ReadAll]; [read_failed] is what an error of
    the last is wrapped in. *)
Definition doVault (create what read_failed : string) (method url query token : string) (payload : list (string * json)) :
    M (result string (Z * string)) :=
  match url_error url with
  | Some e => mret (Err ("create " ++ create ++ ": " ++ e)%string)
  | None =>
      r <-- http_Do method url query token payload ;;
      mret (match r with
            | Ok (Build_VaultResponse status _ (Ok body)) => Ok (status, body)
            | Ok (Build_VaultResponse _ _ (Err e)) => Err (read_failed ++ "read response: " ++ e)%string
            | Err e => Err (what ++ ": " ++ e)%string
            end)
  end.

Definition currentToken (s : ClientState) : string :=
  if negb (String.eqb s.(cs_clientToken) "") then s.(cs_clientToken) else cfg.(vc_Token).

Definition applyAuth (body : string) (tokenRequired : bool) : V (result string unit) :=
  match json_Unmarshal body with
  | None => vret (Err ("decode vault auth: " ++ json_error body)%string)
  | Some j =>
      match decode_auth j with
      | None => vret (Err ("decode vault auth: " ++ json_error body)%string)
      | Some None => vret (Err "vault auth response missing auth"%string)
      | Some (Some a) =>
          if String.eqb a.(va_ClientToken) "" && tokenRequired then vret (Err "vault auth response missing client_token"%string)
          else
            s <-v vget ;;
            let token := if String.eqb a.(va_ClientToken) "" then s.(cs_clientToken) else a.(va_ClientToken) in
            expiry <-v (if 0 <? a.(va_LeaseDuration)
                        then now <-v vlift time_now ;; vret (now + a.(va_LeaseDuration) * Second) else vret zero_time) ;;
            _ <-v vput (Build_ClientState token expiry a.(va_Renewable)) ;;
            vret (Ok tt)
      end
  end.

(** A reply that must be 200. *)
Definition want_ok (what : string) (r : Z * string) : result string string :=
  if r.1 =? 200 then Ok r.2 else Err (what ++ ": status " ++ Itoa r.1 ++ ": " ++ TrimSpace r.2)%string.
Definition vres {A} (r : result string A) : V (result string A) := vret r.

Definition loginLocked : V (result string unit) :=
  r <-v? vlift (doVault "approle login" "approle login" "approle login: " "POST" (apiURL "/v1/auth/approle/login") "" ""
            [("role_id"%string, JStr cfg.(vc_RoleID)); ("secret_id"%string, JStr cfg.(vc_SecretID))]) ;;
  body <-v? vres (want_ok "approle login" r) ;;
  applyAuth body true.

Definition renewLocked : V (result string unit) :=
  s <-v vget ;;
  r <-v? vlift (doVault "token renew" "token renew" "token renew: " "POST" (apiURL "/v1/auth/token/renew-self") "" s.(cs_clientToken) []) ;;
  body <-v? vres (want_ok "token renew" r) ;;
  applyAuth body false.

Definition not_configured : string := "vault client is not configured".
Definition approle_config : result string unit :=
  if negb Configured then Err not_configured
  else if String.eqb cfg.(vc_RoleID) "" || String.eqb cfg.(vc_SecretID) "" then Err "approle auth requires role_id and secret_id"%string
  else Ok tt.

Definition Login : V (result string unit) :=
  if negb usesAppRole then vret (Ok tt)
  else _ <-v? vres approle_config ;; loginLocked.

Definition EnsureToken : V (result string unit) :=
  if negb usesAppRole then vret (Ok tt)
  else
    _ <-v? vres approle_config ;;
    s <-v vget ;;
    if String.eqb s.(cs_clientToken) "" then loginLocked
    else if IsZero s.(cs_expiry) then vret (Ok tt)
    else
      now <-v vlift time_now ;;
      if renewSkew <? s.(cs_expiry) - now then vret (Ok tt)
      else if s.(cs_renewable) then
        r <-v renewLocked ;;
        match r with Ok _ => vret (Ok tt) | Err _ => loginLocked end
      else loginLocked.

(** A request with the current token, and its reply. *)
Definition authed (what method url query : string) (payload : list (string * json)) : V (result string (Z * string)) :=
  if negb Configured then vret (Err not_configured)
  else
    _ <-v? EnsureToken ;;
    s <-v vget ;;
    vlift (doVault "request" what "" method url query (currentToken s) payload).

(** The keys that end in a slash. *)
Definition ListMounts : V (result string (list (string * json))) :=
  r <-v? authed "request sys/mounts" "GET" (apiURL "/v1/sys/mounts") "" [] ;;
  body <-v? vres (want_ok "sys/mounts" r) ;;
  raw <-v? vres (decoded document body) ;;
  vret (Ok (filter (fun kv => HasSuffix kv.1 "/" = true) raw)).

Definition is_pki (v : json) : bool :=
  match v with
  | JObj m => match json_field "type" m with Some (JStr t) => String.eqb t "pki" | _ => false end
  | _ => false
  end.

Definition ListPKIMounts : V (result string (list string)) :=
  mounts <-v? ListMounts ;;
  n <-v (fun s w => ((length w.(w_sent), s), w)) ;;
  vret (Ok (map fst (filter (fun kv => is_pki kv.2 = true) (range_map n (as_map mounts))))).

Definition ListCertSerials (mount : string) : V (result string (list string)) :=
  let mount := normalizeMount mount in
  r <-v? authed ("request " ++ mount ++ "certs") "GET" (apiURL ("/v1/" ++ mount ++ "certs")) "list=true" [] ;;
  if r.1 =? 404 then vret (Ok [])
  else
    body <-v? vres (want_ok (mount ++ "certs") r) ;;
    vres (decoded (fun j => doc ← document j; data ← decode_object (json_field "data" doc);
                            decode_string_list (json_field "keys" (default [] data))) body).

Definition ReadCert (mount serial : string) : V (result string (string * list (string * json))) :=
  let mount := normalizeMount mount in
  let path := (mount ++ "cert/" ++ serial)%string in
  r <-v? authed ("request " ++ path) "GET" (apiURL ("/v1/" ++ path)) "" [] ;;
  body <-v? vres (want_ok path r) ;;
  data <-v? vres (decoded (fun j => doc ← document j; d ← decode_object (json_field "data" doc); Some (default [] d)) body) ;;
  vret (match json_field "certificate" data with
        | Some (JStr pem) => if String.eqb pem "" then Err "response missing certificate field"%string else Ok (pem, data)
        | _ => Err "response missing certificate field"%string
        end).

(** [ImportIssuerBundle]: the imported issuers of [IssuerImportResult]. *)
Definition ImportIssuerBundle (mount pemBundle : string) : V (result string (list string)) :=
  let path := (normalizeMount mount ++ "issuers/import/bundle")%string in
  r <-v? authed ("request " ++ path) "POST" (apiURL ("/v1/" ++ path)) "" [("pem_bundle"%string, JStr pemBundle)] ;;
  body <-v? vres (if (r.1 =? 200) || (r.1 =? 201) then Ok r.2 else want_ok path r) ;;
  vres (decoded (fun j => doc ← document j; data ← decode_object (json_field "data" doc);
                          decode_string_list (json_field "imported_issuers" (default [] data))) body).

Definition FingerprintSHA256FromPEM (pemStr : string) : result string string :=
  match pem_Block pemStr with
  | None => Err "invalid PEM"%string
  | Some block =>
      match x509_Raw block with
      | Err e => Err ("parse certificate: " ++ e)%string
      | Ok raw => Ok (hex_EncodeToString (Sum256 (bytes_of raw)))
      end
  end.
End Client.

(** ** The reconciliation *)

(** [Summary] *)
Record Summary := Build_Summary {
  sm_MountsScanned : Z; sm_VaultCertsRead : Z; sm_Matched : Z; sm_Revoked : Z; sm_UnmatchedCLM : Z;
  sm_Status : string; sm_Errors : list string
}.
#[export] Instance Summary_eta : Eta Summary := fun x =>
  Build_Summary x.(sm_MountsScanned) x.(sm_VaultCertsRead) x.(sm_Matched) x.(sm_Revoked) x.(sm_UnmatchedCLM)
    x.(sm_Status) x.(sm_Errors).

(** [PKIReader]: what the reconciler asks of Vault, on some state [S]. *)
Class PKIReader (S : Type) := {
  pki_ListPKIMounts : S -> M (result string (list string) * S);
  pki_ListCertSerials : string -> S -> M (result string (list string) * S);
  pki_ReadCert : string -> string -> S -> M (result string (string * list (string * json)) * S)
}.
#[export] Instance client_reader `{VaultLib} (cfg : ClientConfig) : PKIReader ClientState := {
  pki_ListPKIMounts := ListPKIMounts cfg;
  pki_ListCertSerials := ListCertSerials cfg;
  pki_ReadCert := ReadCert cfg
}.

Definition reconcileStatus (vaultCertsRead : Z) (errs : list string) : string :=
  match errs with
  | [] => "ok"
  | _ => if vaultCertsRead =? 0 then "failed" else "partial"
  end.

Definition issuerRefFromMeta (meta : list (string * json)) : option string :=
  let ref key := match json_field key meta with
                 | Some (JStr v) => if String.eqb v "" then None else Some v
                 | _ => None
                 end in
  match ref "issuer_id"%string with Some v => Some v | None => ref "issuer_name"%string end.

(** [strconv.ParseInt(s, 10, 64)]; [None] is an error. *)
Fixpoint digits10 (s : string) (acc : Z) : option Z :=
  match s with
  | EmptyString => Some acc
  | String c s' => if is_digit c then digits10 s' (10 * acc + (Z.of_nat (nat_of_ascii c) - 48)) else None
  end.
Definition ParseInt (s : string) : option Z :=
  let digits t := if String.eqb t "" then None else digits10 t 0 in
  n ← match s with
      | String "-" t => Z.opp <$> digits t
      | String "+" t => digits t
      | _ => digits s
      end%char;
  if (n <? min_int64) || (max_int64 <? n) then None else Some n.

Definition revocationFromMeta (meta : list (string * json)) : bool :=
  match json_field "revocation_time" meta with
  | Some (JNum n) => 0 <? n
  | Some (JStr t) => match ParseInt (TrimSpace t) with Some n => 0 <? n | None => false end
  | _ => false
  end.

Section Reconcile.
Context {S : Type} `{VaultLib, !PKIReader S}.

Definition add_error (e : string) (sm : Summary) : Summary := sm <| sm_Errors ::= (fun l => l ++ [e]) |>.

(** One serial of a mount. *)
Definition reconcile_cert (mount serial : string) (sm : Summary) (s : S) : M (Summary * S) :=
  let failed what e := add_error (mount ++ " cert " ++ serial ++ ": " ++ what ++ ": " ++ e)%string in
  x <-- pki_ReadCert mount serial s ;;
  let '(r, s) := x in
  match r with
  | Err e => mret (failed "read" e sm, s)%string
  | Ok (pemStr, meta) =>
      let sm := sm <| sm_VaultCertsRead ::= Z.succ |> in
      match FingerprintSHA256FromPEM pemStr with
      | Err e => mret (failed "fingerprint" e sm, s)%string
      | Ok fp =>
          let revoked := revocationFromMeta meta in
          u <-- UpdateManagedStatusByFingerprint fp {|
                  u_ManagedStatus := managed_in_vault; u_VaultPKIMount := normalizeMount mount;
                  u_VaultIssuerRef := issuerRefFromMeta meta; u_Revoked := revoked |} ;;
          mret (match u with
                | Err e => failed "update store"%string (error_text e) sm
                | Ok true => (if revoked then (fun sm => sm <| sm_Revoked ::= Z.succ |>) else id) (sm <| sm_Matched ::= Z.succ |>)
                | Ok false => sm
                end, s)
      end
  end.

Fixpoint reconcile_serials (mount : string) (serials : list string) (sm : Summary) (s : S) : M (Summary * S) :=
  match serials with
  | [] => mret (sm, s)
  | serial :: serials' => x <-- reconcile_cert mount serial sm s ;; reconcile_serials mount serials' x.1 x.2
  end.

Definition reconcile_mount (mount : string) (sm : Summary) (s : S) : M (Summary * S) :=
  x <-- pki_ListCertSerials mount s ;;
  match x.1 with
  | Err e => mret (add_error (mount ++ ": list certs: " ++ e)%string sm, x.2)
  | Ok serials => reconcile_serials mount serials sm x.2
  end.

Fixpoint reconcile_mounts (mounts : list string) (sm : Summary) (s : S) : M (Summary * S) :=
  match mounts with
  | [] => mret (sm, s)
  | mount :: mounts' => x <-- reconcile_mount mount sm s ;; reconcile_mounts mounts' x.1 x.2
  end.

Definition empty_summary : Summary := Build_Summary 0 0 0 0 0 "" [].

(** [Reconcile]: the summary, with an error when it has no outcome. *)
Definition Reconcile (s : S) : M (Summary * option string * S) :=
  x <-- pki_ListPKIMounts s ;;
  match x.1 with
  | Err e => mret (empty_summary, Some ("list PKI mounts: " ++ e)%string, x.2)
  | Ok mounts =>
      y <-- reconcile_mounts mounts (empty_summary <| sm_MountsScanned := Z.of_nat (length mounts) |>) x.2 ;;
      c <-- CountByManagedStatus None ;;
      mret (match c with
            | Err e => (y.1, Some ("count managed status: " ++ error_text e)%string, y.2)
            | Ok (managed, discovered) =>
                let sm := y.1 <| sm_UnmatchedCLM := Z.max 0 (discovered - managed) |> in
                (sm <| sm_Status := reconcileStatus sm.(sm_VaultCertsRead) sm.(sm_Errors) |>, None, y.2)
            end)
  end.
End Reconcile.
