(* ===== verification/VaultSpec.v ===== *)
(** * What the Vault client sends and what a reconciliation changes

    The client reads only; the reconciler is verified against the laws of
    [PKIReader], which the client satisfies. *)

From S2P Require Import Prelude GoLib Records Db Queue CertStore Sends Json Vault.

Open Scope clm_scope.

(** ** Reading Vault *)

Definition vmoves {A} (R : World -> World -> Prop) (m : V A) : Prop := forall s, moves R (m s).

Section VMoves.
Context (R : World -> World -> Prop) `{!WorldRel R}.

Lemma vmoves_ret {A} (a : A) : vmoves R (vret a).
Proof. intros s. by apply moves_ret. Qed.
Lemma vmoves_bind {A B} (m : V A) (f : A -> V B) : vmoves R m -> (forall a, vmoves R (f a)) -> vmoves R (vbind m f).
Proof. intros Hm Hf s. apply moves_bind; [exact _|apply Hm|]. intros [a s']. apply Hf. Qed.
Lemma vmoves_try {A B} (m : V (result string A)) (f : A -> V (result string B)) :
  vmoves R m -> (forall a, vmoves R (f a)) -> vmoves R (vtry m f).
Proof. intros Hm Hf. apply vmoves_bind; [done|]. intros [a|e]; [apply Hf|apply vmoves_ret]. Qed.
Lemma vmoves_lift {A} (m : M A) : moves R m -> vmoves R (vlift m).
Proof. intros Hm s. apply moves_bind; [exact _|done|]. intros a. by apply moves_ret. Qed.
Lemma vmoves_get : vmoves R vget.
Proof. intros s. by apply moves_ret. Qed.
Lemma vmoves_put s : vmoves R (vput s).
Proof. intros s'. by apply moves_ret. Qed.
End VMoves.

Ltac vmoves_tac :=
  repeat match goal with
  | |- vmoves _ (vret _) => apply vmoves_ret; exact _
  | |- vmoves _ (vres _) => apply vmoves_ret; exact _
  | |- vmoves _ vget => apply vmoves_get; exact _
  | |- vmoves _ (vput _) => apply vmoves_put; exact _
  | |- vmoves _ (vlift _) => apply vmoves_lift; [exact _|]
  | |- vmoves _ (vtry _ _) => apply vmoves_try; [exact _| |intros ?]
  | |- vmoves _ (vbind _ _) => apply vmoves_bind; [exact _| |intros ?]
  | |- vmoves _ (match ?x with _ => _ end) => destruct x
  | |- vmoves _ _ => solve [eauto with vault]
  | |- moves _ _ => solve [eauto with vault]
  end.
Create HintDb vault discriminated.

Section ClientMoves.
Context `{VaultLib} (cfg : ClientConfig) (R : World -> World -> Prop) `{!WorldRel R}.

(** [c] is the request [c0] at another place: the answer to some request was
    a redirect whose location, resolved, is the URL of [c].  Token and
    namespace are those of [c0], the method is too, or it is GET, and so is
    the body, or there is none. *)
Definition redirected (c0 c : netcall) : Prop :=
  exists method url query token payload method' url' payload' n rsp from,
    c0 = vault_request cfg method url query token payload /\ c = vault_request cfg method' url' "" token payload' /\
    (method' = method \/ method' = "GET"%string) /\ (payload' = payload \/ payload' = []) /\
    vault_reply n = Ok rsp /\ rsp.(rsp_StatusCode) ∈ [301; 302; 303; 307; 308] /\ rsp.(rsp_Location) <> ""%string /\
    url_resolve from rsp.(rsp_Location) = Ok url'.

(** The requests a client may make, and how they, where they are redirected
    to, and the clock move the world. *)
Context (ok : netcall -> Prop)
  (net_ok : forall c0 c, ok c0 -> c = c0 \/ redirected c0 c -> moves R (net_call c vault_reply)) (now_ok : moves R time_now).

Definition login_request (c : netcall) : Prop :=
  c = vault_request cfg "POST" (apiURL cfg "/v1/auth/approle/login") "" ""
        [("role_id"%string, JStr cfg.(vc_RoleID)); ("secret_id"%string, JStr cfg.(vc_SecretID))] \/
  exists token, c = vault_request cfg "POST" (apiURL cfg "/v1/auth/token/renew-self") "" token [].
Definition get_request (c : netcall) : Prop :=
  exists path query token, c = vault_request cfg "GET" (apiURL cfg ("/v1/" ++ path)) query token [].

Context (login_ok : forall c, login_request c -> ok c).

Lemma redirectBehavior_some method status method' b :
  redirectBehavior method status = Some (method', b) ->
  status ∈ [301; 302; 303; 307; 308] /\ (method' = method \/ method' = "GET"%string).
Proof.
  unfold redirectBehavior. repeat case_match; intros [= <- <-]; b2p; (split; [|auto]);
    repeat match goal with H : _ \/ _ |- _ => destruct H end; subst; set_solver.
Qed.

Lemma net_call_reply {T} c (reply : nat -> T) w r w' : net_call c reply w = (r, w') -> exists n, r = reply n.
Proof. unfold net_call. destruct (next_env w) as [e w1]. intros [= <- _]. eauto. Qed.

Lemma moves_http_follow method url query token payload left method1 url1 query1 body :
  let c0 := vault_request cfg method url query token payload in
  ok c0 -> vault_request cfg method1 url1 query1 token body = c0 \/ redirected c0 (vault_request cfg method1 url1 query1 token body) ->
  method1 = method \/ method1 = "GET"%string ->
  moves R (http_follow cfg left method payload token method1 url1 query1 body).
Proof.
  intros c0 Hok. revert method1 url1 query1 body. induction left as [|left IH]; intros method1 url1 query1 body Hc Hm w a w';
    cbn [http_follow]; unfold mbind at 1; destruct (net_call _ _ w) as [r w1] eqn:E; intros Ha.
  all: eapply wr_trans; [exact (net_ok c0 _ Hok Hc _ _ _ E)|]; apply net_call_reply in E as [n ->].
  all: destruct (vault_reply n) as [rsp|e] eqn:Er; [|injection Ha as <- <-; apply wr_refl].
  all: destruct (redirectBehavior _ _) as [[method2 b]|] eqn:Eb; [|injection Ha as <- <-; apply wr_refl].
  all: destruct (String.eqb_spec rsp.(rsp_Location) ""); [injection Ha as <- <-; apply wr_refl|].
  all: destruct (url_resolve _ _) as [url2|e] eqn:Eu; [|injection Ha as <- <-; apply wr_refl].
  - injection Ha as <- <-. apply wr_refl.
  - apply redirectBehavior_some in Eb as [Hst Hm2]. assert (method2 = method \/ method2 = "GET"%string) by naive_solver.
    refine (IH _ _ _ _ _ _ _ _ _ Ha); [|done]. right. eexists _, _, _, _, _, _, _, _, n, rsp, _.
    split_and!; try reflexivity; try done. by destruct b; auto.
Qed.

Lemma moves_doVault create what read_failed method url query token payload :
  ok (vault_request cfg method url query token payload) ->
  moves R (doVault cfg create what read_failed method url query token payload).
Proof.
  intros Hc. unfold doVault. destruct (url_error _); [by apply moves_ret|].
  apply moves_bind; [exact _|by apply (moves_http_follow method url query); auto|]. intros [[st loc [b|e]]|e]; by apply moves_ret.
Qed.

Lemma moves_applyAuth body required : vmoves R (applyAuth body required).
Proof. unfold applyAuth. vmoves_tac. Qed.

Lemma moves_login : vmoves R (loginLocked cfg).
Proof.
  unfold loginLocked. vmoves_tac; [|apply moves_applyAuth].
  apply moves_doVault, login_ok. by left.
Qed.
Lemma moves_renew : vmoves R (renewLocked cfg).
Proof.
  unfold renewLocked. vmoves_tac; [|apply moves_applyAuth].
  apply moves_doVault, login_ok. right. by eexists.
Qed.
#[local] Hint Resolve moves_login moves_renew : vault.

Lemma moves_EnsureToken : vmoves R (EnsureToken cfg).
Proof. unfold EnsureToken. vmoves_tac. Qed.
#[local] Hint Resolve moves_EnsureToken : vault.

Lemma moves_authed what method url query payload :
  (forall token, ok (vault_request cfg method url query token payload)) ->
  vmoves R (authed cfg what method url query payload).
Proof. intros Hok. unfold authed. vmoves_tac. by apply moves_doVault. Qed.

Context (get_ok : forall c, get_request c -> ok c).

Lemma moves_get what path query : vmoves R (authed cfg what "GET" (apiURL cfg ("/v1/" ++ path)) query []).
Proof. apply moves_authed. intros token. apply get_ok. by eexists _, _, _. Qed.
#[local] Hint Resolve moves_get : vault.

Lemma moves_ListMounts : vmoves R (ListMounts cfg).
Proof. unfold ListMounts. vmoves_tac. exact (moves_get _ "sys/mounts" ""). Qed.
#[local] Hint Resolve moves_ListMounts : vault.
Lemma moves_ListPKIMounts : vmoves R (ListPKIMounts cfg).
Proof.
  unfold ListPKIMounts. vmoves_tac.
  - intros s w x w' [= <- <-]. apply wr_refl.
Qed.
Lemma moves_ListCertSerials mount : vmoves R (ListCertSerials cfg mount).
Proof. unfold ListCertSerials. vmoves_tac. Qed.
Lemma moves_ReadCert mount serial : vmoves R (ReadCert cfg mount serial).
Proof. unfold ReadCert. vmoves_tac. Qed.
End ClientMoves.

(** ** The reconciler against any reader *)

Section ReconcileMoves.
Context {S : Type} `{VaultLib, !PKIReader S} (R : World -> World -> Prop) `{!WorldRel R}.
Context (mounts_ok : forall s, moves R (pki_ListPKIMounts s)) (serials_ok : forall m s, moves R (pki_ListCertSerials m s))
  (update_ok : forall fp u, (exists m n s w r meta s' w' , pki_ReadCert m n s w = (Ok (r, meta), s', w') /\ FingerprintSHA256FromPEM r = Ok fp) ->
     u.(u_ManagedStatus) = managed_in_vault -> moves R (UpdateManagedStatusByFingerprint fp u))
  (read_ok : forall m n s, moves R (pki_ReadCert m n s)) (count_ok : moves R (CountByManagedStatus None)).

Lemma moves_reconcile_cert mount serial sm s : moves R (reconcile_cert mount serial sm s).
Proof.
  intros w a w'. unfold reconcile_cert, mbind at 1.
  destruct (pki_ReadCert mount serial s w) as [[r s'] w1] eqn:E. intros Hk.
  eapply wr_trans; [by eapply read_ok|]. destruct r as [[pem meta]|e]; [|by injection Hk as <- <-; apply wr_refl].
  destruct (FingerprintSHA256FromPEM pem) as [fp|e] eqn:Ef; [|by injection Hk as <- <-; apply wr_refl].
  revert Hk. apply moves_bind; [exact _|apply update_ok; [|done]; by eauto 12|]. intros u. by apply moves_ret.
Qed.

Lemma moves_reconcile_serials mount serials sm s : moves R (reconcile_serials mount serials sm s).
Proof.
  revert sm s. induction serials as [|n ns IH]; intros sm s; cbn [reconcile_serials]; [by apply moves_ret|].
  apply moves_bind; [exact _|apply moves_reconcile_cert|]. intros x. apply IH.
Qed.

Lemma moves_reconcile_mounts mounts sm s : moves R (reconcile_mounts mounts sm s).
Proof.
  revert sm s. induction mounts as [|m ms IH]; intros sm s; cbn [reconcile_mounts]; [by apply moves_ret|].
  apply moves_bind; [exact _| |intros x; apply IH].
  unfold reconcile_mount. apply moves_bind; [exact _|done|]. intros [[ns|e] s2]; [apply moves_reconcile_serials|by apply moves_ret].
Qed.

Lemma moves_Reconcile s : moves R (Reconcile s).
Proof.
  unfold Reconcile. apply moves_bind; [exact _|done|]. intros [[mounts|e] s1]; [|by apply moves_ret].
  apply moves_bind; [exact _|apply moves_reconcile_mounts|].
  intros y. apply moves_bind; [exact _|done|]. intros c. by apply moves_ret.
Qed.
End ReconcileMoves.

(** ** Vault is only read *)

Section Client.
Context `{VaultLib} (cfg : ClientConfig).

(** Reading: GET requests, and the requests that obtain a token. *)
Definition read_request (c : netcall) : Prop := login_request cfg c \/ get_request cfg c.

(** C27. A reconciliation only reads Vault: in any environment and whatever
    the peers answer, the client's own requests are GET requests below [/v1/]
    without a body, the AppRole login, which alone carries the role and secret
    ids, and the renewal of its own token without one; and what it sends
    besides is one of these again at the place a peer redirected it to, with
    the same token and namespace, as it was or as a GET, and with its body or
    none.  Where nobody answers with a redirect, there is nothing besides. *)
Theorem Reconcile_reads_only s w r w' :
  Reconcile (S := ClientState) (PKIReader0 := client_reader cfg) s w = (r, w') ->
  exists l, w'.(w_sent) = w.(w_sent) ++ l /\
    Forall (fun c => exists c0, (c = c0 \/ redirected cfg c0 c) /\
                    (get_request cfg c0 \/
                     (exists token, c0 = vault_request cfg "POST" (apiURL cfg "/v1/auth/token/renew-self") "" token []) \/
                     c0 = vault_request cfg "POST" (apiURL cfg "/v1/auth/approle/login") "" ""
                            [("role_id"%string, JStr cfg.(vc_RoleID)); ("secret_id"%string, JStr cfg.(vc_SecretID))])) l.
Proof.
  intros Hr. assert (sends (fun c => exists c0, (c = c0 \/ redirected cfg c0 c) /\ read_request c0) w w') as (l & E & Hl).
  { revert Hr. apply moves_Reconcile; [exact _| | | | |].
    1, 2, 4: intros; first [apply (moves_ListPKIMounts cfg _ read_request)|apply (moves_ListCertSerials cfg _ read_request)
                         |apply (moves_ReadCert cfg _ read_request)];
      try apply sends_time_now; try (intros; by left); try (intros; by right); try (intros c0 c ? ?; apply sends_net_call; by exists c0).
    all: intros; apply sends_store_call. }
  exists l. split; [done|]. eapply Forall_impl; [exact Hl|]. intros c (c0 & Hc & [[?|?]|?]); exists c0; auto.
Qed.
End Client.

(** ** Only Vault's own certificates change *)

(** The columns a reconciliation does not write. *)
Definition other_columns (c : Certificate) : Certificate :=
  c <| c_ManagedStatus := unmanaged |> <| c_VaultPKIMount := None |> <| c_VaultIssuerRef := None |>
    <| c_Status := StatusValid |> <| c_RevocationStatus := None |> <| c_RevocationCheckedAt := None |> <| c_UpdatedAt := 0 |>.

(** A row is as it was, or it is of a certificate in Vault and marked so. *)
Definition row_reconciled (in_vault : string -> Prop) (c c' : Certificate) : Prop :=
  c' = c \/ in_vault c.(c_FingerprintSHA256) /\ other_columns c' = other_columns c /\
            c'.(c_ManagedStatus) = managed_in_vault /\ (c.(c_Status) = StatusRevoked -> c'.(c_Status) = StatusRevoked).

Definition reconciled (in_vault : string -> Prop) (db db' : DB) : Prop :=
  db'.(events) = db.(events) /\ db'.(lifecycle_jobs) = db.(lifecycle_jobs) /\ db'.(issuers) = db.(issuers) /\
  forall k, option_Forall2 (row_reconciled in_vault) (db.(certificates) !! k) (db'.(certificates) !! k).

Lemma row_reconciled_trans F a b c : row_reconciled F a b -> row_reconciled F b c -> row_reconciled F a c.
Proof.
  intros [->|(Hf & Ho & Hm & Hs)] [->|(Hf' & Ho' & Hm' & Hs')]; unfold row_reconciled; auto.
  right. split_and!; auto. congruence.
Qed.

#[export] Instance reconciled_preorder F : PreOrder (reconciled F).
Proof.
  split.
  - intros db. split_and!; try done. intros k. destruct (certificates db !! k); constructor. by left.
  - intros d1 d2 d3 (E1 & E2 & E3 & H1) (E4 & E5 & E6 & H2). split_and!; [congruence..|].
    intros k. specialize (H1 k). specialize (H2 k). destruct H1 as [a b Hab|]; inversion H2; constructor.
    by eapply row_reconciled_trans.
Qed.

Section OnlyMatches.
Context {S : Type} `{VaultLib, !PKIReader S}.

(** A certificate that the reader found in some mount. *)
Definition vault_holds (fp : string) : Prop :=
  exists m n s w pem meta s' w', pki_ReadCert m n s w = (Ok (pem, meta), s', w') /\ FingerprintSHA256FromPEM pem = Ok fp.

(** A reader writes nothing to the database. *)
Class ReaderLaws : Prop := {
  law_mounts : forall s, moves (evolves (reconciled vault_holds)) (pki_ListPKIMounts s);
  law_serials : forall m s, moves (evolves (reconciled vault_holds)) (pki_ListCertSerials m s);
  law_read : forall m n s, moves (evolves (reconciled vault_holds)) (pki_ReadCert m n s)
}.

Lemma update_managed_reconciled fp u c db db' b :
  vault_holds fp -> u.(u_ManagedStatus) = managed_in_vault ->
  update_managed_tx fp u c db = Ok (db', b) -> reconciled vault_holds db db'.
Proof.
  intros Hfp Hu [= <- <-]. split_and!; try done. intros k. simpl. rewrite lookup_update_where.
  destruct (certificates db !! k) as [x|]; constructor.
  destruct (String.eqb_spec (c_FingerprintSHA256 x) fp) as [<-|]; [|by left]. right.
  split_and!; try done. simpl. intros ->. by destruct (u_Revoked u).
Qed.

(** C26. A reconciliation changes nothing but the rows of certificates that
    Vault holds: whatever Vault and the store answer, and next to replicas
    that do the same, every certificate keeps its row and its identity, one
    whose fingerprint Vault did not return is untouched, one that changes is
    marked as managed and keeps all but the seven columns of the match, and a
    revoked certificate stays revoked; jobs, events and issuers stay. *)
Theorem Reconcile_only_matches `{!ReaderLaws} s w r w' :
  Reconcile s w = (r, w') -> others_ok (reconciled vault_holds) w ->
  reconciled vault_holds w.(w_db) w'.(w_db).
Proof.
  intros Hr Ho. assert (evolves (reconciled vault_holds) w w') as (_ & _ & He); [|by apply He].
  revert Hr. apply moves_Reconcile; [exact _|apply law_mounts|apply law_serials| |apply law_read|].
  - intros fp u Hfp Hu. apply moves_store_call; [exact _|]. intros c db db' b. by apply update_managed_reconciled.
  - apply moves_store_call; [exact _|]. intros c db db' b [= <- <-]. reflexivity.
Qed.
End OnlyMatches.

(** The production client is such a reader. *)
#[export] Instance client_reader_laws `{VaultLib} cfg : ReaderLaws (PKIReader0 := client_reader cfg).
Proof.
  split; intros; [apply (moves_ListPKIMounts cfg _ (fun _ => True))|apply (moves_ListCertSerials cfg _ (fun _ => True))
                 |apply (moves_ReadCert cfg _ (fun _ => True))];
    try done; intros; first [by apply moves_net_call; exact _|by apply moves_time_now; exact _|done].
Qed.

(** ** The summary *)

Definition summary_ok (sm : Summary) : Prop :=
  0 <= sm.(sm_Revoked) <= sm.(sm_Matched) /\ sm.(sm_Matched) <= sm.(sm_VaultCertsRead) /\ 0 <= sm.(sm_UnmatchedCLM).

Section SummaryFacts.
Context {S : Type} `{VaultLib, !PKIReader S}.

Lemma reconcile_cert_summary m n sm s w sm' s' w' :
  summary_ok sm -> reconcile_cert m n sm s w = (sm', s', w') -> summary_ok sm'.
Proof.
  intros Hok. unfold reconcile_cert, mbind. destruct (pki_ReadCert m n s w) as [[r s1] w1].
  destruct r as [[pem meta]|e]; [|by intros [= <- <- <-]].
  unfold summary_ok in *. destruct (FingerprintSHA256FromPEM pem) as [fp|e]; [|intros [= <- <- <-]; simpl; lia].
  destruct (UpdateManagedStatusByFingerprint _ _ w1) as [[[]|e] w2]; intros [= <- <- <-]; simpl; try lia.
  destruct (revocationFromMeta meta); simpl; lia.
Qed.

Lemma reconcile_serials_summary m ns sm s w sm' s' w' :
  summary_ok sm -> reconcile_serials m ns sm s w = (sm', s', w') -> summary_ok sm'.
Proof.
  revert sm s w. induction ns as [|n ns IH]; intros sm s w Hok; cbn [reconcile_serials]; [by intros [= <- <- <-]|].
  unfold mbind. destruct (reconcile_cert m n sm s w) as [[sm1 s1] w1] eqn:E. apply IH. by eapply reconcile_cert_summary.
Qed.

Lemma reconcile_mounts_summary ms sm s w sm' s' w' :
  summary_ok sm -> reconcile_mounts ms sm s w = (sm', s', w') -> summary_ok sm'.
Proof.
  revert sm s w. induction ms as [|m ms IH]; intros sm s w Hok; cbn [reconcile_mounts]; [by intros [= <- <- <-]|].
  unfold mbind at 1. destruct (reconcile_mount m sm s w) as [[sm1 s1] w1] eqn:E. apply IH. revert E.
  unfold reconcile_mount, mbind. destruct (pki_ListCertSerials m s w) as [[[ns|e] s2] w2]; simpl.
  - by apply reconcile_serials_summary.
  - by intros [= <- <- <-].
Qed.

(** The summary never reports more than was read, and calls a run clean
    exactly when nothing failed. *)
Lemma Reconcile_summary s w sm err s' w' :
  Reconcile s w = (sm, err, s', w') ->
  summary_ok sm /\
  (err = None -> (sm.(sm_Status) = "ok"%string <-> sm.(sm_Errors) = []) /\
                 (sm.(sm_Status) = "failed"%string <-> sm.(sm_Errors) <> [] /\ sm.(sm_VaultCertsRead) = 0)).
Proof.
  unfold Reconcile, mbind. destruct (pki_ListPKIMounts s w) as [[[ms|e] s1] w1]; [|by intros [= <- <- <- <-]].
  cbn [fst snd]. destruct (reconcile_mounts ms _ s1 w1) as [[sm2 s2] w2] eqn:E.
  apply reconcile_mounts_summary in E; [|unfold summary_ok; simpl; lia].
  destruct (CountByManagedStatus None w2) as [[[managed discovered]|e] w3]; intros [= <- <- <- <-].
  - split; [unfold summary_ok in *; simpl; lia|]. intros _. simpl. unfold reconcileStatus.
    destruct (sm_Errors sm2); [split; split; naive_solver|].
    destruct (Z.eqb_spec (sm_VaultCertsRead sm2) 0); split; split; naive_solver.
  - by split.
Qed.
End SummaryFacts.

(** ** Witnesses *)

Section Demo.
#[local] Instance demo_vault : VaultLib := {|
  vault_reply := fun n => Ok match n with
    | 0%nat => Build_VaultResponse 307 "https://active:8200/v1/sys/mounts" (Ok "")
    | 1%nat => Build_VaultResponse 200 "" (Ok "mounts")
    | 2%nat => Build_VaultResponse 200 "" (Ok "serials")
    | _ => Build_VaultResponse 200 "" (Ok "cert")
    end;
  url_resolve := fun _ loc => Ok loc;
  vault_json := {| json_error := id; json_Unmarshal := fun s =>
    if String.eqb s "mounts" then Some (JObj [("pki/", JObj [("type", JStr "pki")]); ("sys/", JObj [("type", JStr "system")])])
    else if String.eqb s "serials" then Some (JObj [("data", JObj [("keys", JArr [JStr "39:4b"])])])
    else Some (JObj [("data", JObj [("certificate", JStr "pem"); ("revocation_time", JNum 5)])]) |};
  url_error := fun _ => None; pem_Block := Some; x509_Raw := Ok; range_map := fun _ l => l |}%string.
Definition demo_client : ClientConfig := NewClient (Build_ClientConfig "vault:8200" "" "s.tok" "" "" "").
Definition demo_managed : Certificate :=
  demo_cert <| c_FingerprintSHA256 := match FingerprintSHA256FromPEM "pem" with Ok fp => fp | Err _ => ""%string end |>.
Definition demo_vault_world : World := calm_world (demo_db demo_managed) Hour.
Definition demo_reconcile := Reconcile (PKIReader0 := client_reader demo_client) new_state demo_vault_world.

Example demo_summary :
  let '(sm, err, _, w) := demo_reconcile in
  sm = Build_Summary 1 1 1 1 0 "ok" [] /\ err = None /\
  (c_ManagedStatus <$> w.(w_db).(certificates) !! "c1"%string) = Some managed_in_vault.
Proof. vm_compute. done. Qed.

(** A standby node answers the first request with a redirect; the listing of
    the mounts goes to the active one. *)
Lemma Reconcile_reads_only_witness :
  exists l, demo_reconcile.2.(w_sent) = l /\
    map nc_subject l = ["https://vault:8200/v1/sys/mounts"; "https://active:8200/v1/sys/mounts";
                        "https://vault:8200/v1/pki/certs"; "https://vault:8200/v1/pki/cert/39:4b"]%string /\
    Forall (fun c => exists c0, (c = c0 \/ redirected demo_client c0 c) /\ read_request demo_client c0) l.
Proof.
  destruct (Reconcile_reads_only demo_client new_state demo_vault_world _ _ (surjective_pairing demo_reconcile))
    as (l & Hl & Hall).
  exists l. split; [exact Hl|]. split.
  - transitivity (map nc_subject demo_reconcile.2.(w_sent)); [by rewrite Hl|vm_compute; reflexivity].
  - eapply Forall_impl; [exact Hall|]. intros c (c0 & Hc & [H|[H|H]]); exists c0; (split; [exact Hc|]);
      [by right|left; by right|left; by left].
Defined.

(** The redirect is followed to any host, and a login repeats its body there:
    the role and secret ids go wherever the answer says. *)
Definition demo_approle : ClientConfig := NewClient (Build_ClientConfig "vault:8200" "" "" "approle" "role" "secret").
Example login_follows :
  w_sent (Login demo_approle new_state demo_vault_world).2 =
  [vault_request demo_approle "POST" "https://vault:8200/v1/auth/approle/login" "" "" [("role_id", JStr "role"); ("secret_id", JStr "secret")];
   vault_request demo_approle "POST" "https://active:8200/v1/sys/mounts" "" "" [("role_id", JStr "role"); ("secret_id", JStr "secret")]]%string.
Proof. vm_compute. done. Qed.

(** After ten requests the client gives up. *)
Definition demo_loop : VaultLib := {|
  vault_reply := fun _ => Ok (Build_VaultResponse 302 "/again" (Ok ""));
  vault_json := {| json_error := id; json_Unmarshal := fun _ => None |}; url_resolve := fun _ loc => Ok loc;
  url_error := fun _ => None; pem_Block := Some; x509_Raw := Ok; range_map := fun _ l => l |}%string.
Example redirects_end :
  let '((r, _), w) := @ListMounts demo_loop demo_client new_state demo_vault_world in
  r = Err ("request sys/mounts: Get " ++ Quote "/again" ++ ": stopped after 10 redirects")%string /\ length w.(w_sent) = 10%nat.
Proof. vm_compute. done. Qed.

Lemma Reconcile_only_matches_witness :
  option_Forall2 (row_reconciled (vault_holds (PKIReader0 := client_reader demo_client))) (Some demo_managed)
    (demo_reconcile.2.(w_db).(certificates) !! "c1"%string).
Proof.
  destruct (Reconcile_only_matches (PKIReader0 := client_reader demo_client) new_state demo_vault_world _ _
              (surjective_pairing demo_reconcile) ltac:(constructor)) as (_ & _ & _ & H).
  exact (H "c1"%string).
Defined.
End Demo.
