(* ===== verification/Aap.v ===== *)
(** * The Controller client (internal/aap/client.go)

    Templates are found by their exact name, launched with extra variables and
    polled until they are done.  [launchAAPTemplate] of internal/api/server.go
    is what the renew and revoke endpoints launch with. *)

From Stdlib Require Import Ascii.
From S2P Require Import Prelude GoLib Records Db Sends Json Worker.

Open Scope clm_scope.

(** [Config] *)
Record AapConfig := Build_AapConfig { ap_BaseURL : string; ap_Token : string; ap_SkipTLSVerify : bool }.

(** What [net/url] makes of a text. *)
Record ParsedURL := Build_ParsedURL { u_Host : string; u_Path : string; u_RawQuery : string }.

(** The libraries and the server: the n-th reply (an error of the transport, or
    status and body), the JSON decoder, [url.Parse], and the error of
    [http.NewRequest] for a URL it refuses. *)
Class AapLib := {
  aap_reply : nat -> result string (Z * string);
  aap_json :: JsonLib;
  url_Parse : string -> result string ParsedURL;
  request_error : string -> option string
}.

Definition maxBody : N := 4194304.
Definition maxListTemplates : nat := 200.

(** [Status] *)
Definition IsTerminal (s : AAPStatus) : bool :=
  match s with StatusSuccessful | StatusFailed | StatusError | StatusCanceled => true | _ => false end.
Definition IsSuccess (s : AAPStatus) : bool := match s with StatusSuccessful => true | _ => false end.
Definition normalizeStatus (raw : string) : AAPStatus :=
  if String.eqb raw "new" || String.eqb raw "pending" || String.eqb raw "waiting" then StatusPending
  else if String.eqb raw "running" then StatusRunning
  else if String.eqb raw "successful" then StatusSuccessful
  else if String.eqb raw "failed" then StatusFailed
  else if String.eqb raw "error" then StatusError
  else if String.eqb raw "canceled" then StatusCanceled
  else StatusUnknown.

(** [Template], [LaunchResult] *)
Record Template := Build_Template { tp_ID : Z; tp_Name : string }.
Record LaunchResult := Build_LaunchResult { lr_JobID : Z; lr_Workflow : bool }.

(** [time.NewTimer(d)] that fires. *)
Definition pause (d : duration) : M unit := fun w => (tt, w <| w_clock ::= Z.add (Z.max 0 d) |>).

(** [if err := m; err != nil { return err }] *)
Definition etry {A B} (m : M (result string A)) (f : A -> M (result string B)) : M (result string B) :=
  mbind m (fun r => match r with Ok a => f a | Err e => mret (Err e) end).
Notation "x <-e m ;; k" := (etry m (fun x => k)) (at level 100, m at next level, right associativity) : clm_scope.

Section Aap.
Context `{AapLib}.

Definition NewClient (cfg : AapConfig) : result string AapConfig :=
  if String.eqb cfg.(ap_BaseURL) "" then Ok cfg
  else
    let base := if negb (HasPrefix cfg.(ap_BaseURL) "http://") && negb (HasPrefix cfg.(ap_BaseURL) "https://")
                then ("https://" ++ cfg.(ap_BaseURL))%string else cfg.(ap_BaseURL) in
    match url_Parse base with
    | Ok u => if String.eqb u.(u_Host) "" then Err ("invalid aap base url " ++ Quote base)%string
              else Ok (Build_AapConfig base cfg.(ap_Token) cfg.(ap_SkipTLSVerify))
    | Err _ => Err ("invalid aap base url " ++ Quote base)%string
    end.

Context (cfg : AapConfig).

Definition Configured : bool := negb (String.eqb cfg.(ap_BaseURL) "").
Definition not_configured : string := "aap client is not configured".
Definition url (path : string) : string := (trim_slashes cfg.(ap_BaseURL) ++ path)%string.

(** A request on the wire. *)
Definition aap_request (method path : string) (payload : json) : netcall :=
  {| nc_service := SvcAAP; nc_subject := url path;
     nc_body := JObj [("method"%string, JStr method); ("token"%string, JStr cfg.(ap_Token)); ("payload"%string, payload)] |}.

(** The path of the request's URL, for messages. *)
Definition url_path (u : string) : string := match url_Parse u with Ok p => p.(u_Path) | Err _ => "" end.

Definition status_ok (status : Z) : bool := (200 <=? status) && (status <? 300).

(** A request sent, and its reply with the body cut off at [maxBody]. *)
Definition send (c : netcall) (what : string) : M (result string (Z * string)) :=
  match request_error c.(nc_subject) with
  | Some e => mret (Err ("create request: " ++ e)%string)
  | None =>
      r <-- net_call c aap_reply ;;
      mret (match r with
            | Ok (status, body) => Ok (status, limit_bytes maxBody body)
            | Err e => Err (what ++ ": " ++ e)%string
            end)
  end.

(** [do]: [out] says how the reply fills the result, which is [zero] before;
    there is none when the caller wants no reply. *)
Definition do_ {A} (zero : A) (out : option (json -> option A)) (c : netcall) : M (result string A) :=
  let path := url_path c.(nc_subject) in
  r <-e send c ("aap request " ++ path) ;;
  mret (if negb (status_ok r.1) then Err ("aap " ++ path ++ ": status " ++ Itoa r.1 ++ ": " ++ TrimSpace r.2)%string
        else match out with
             | None => Ok zero
             | Some f => if String.eqb r.2 "" then Ok zero else decoded f r.2
             end).

Definition get {A} (zero : A) (out : option (json -> option A)) (path : string) : M (result string A) :=
  do_ zero out (aap_request "GET" path JNull).
Definition post {A} (zero : A) (out : option (json -> option A)) (path : string) (payload : json) : M (result string A) :=
  do_ zero out (aap_request "POST" path payload).

Definition Me : M (result string unit) :=
  if negb Configured then mret (Err not_configured) else get tt None "/api/v2/me/".

(** The results of a page of templates. *)
Fixpoint decode_templates (l : list json) : option (list Template) :=
  match l with
  | [] => Some []
  | j :: l' =>
      doc ← document j; id ← decode_int (json_field "id" doc); name ← decode_string (json_field "name" doc);
      rest ← decode_templates l'; Some (Build_Template id name :: rest)
  end.
Definition decode_results (doc : list (string * json)) : option (list Template) :=
  match json_field "results" doc with
  | None | Some JNull => Some []
  | Some (JArr l) => decode_templates l
  | _ => None
  end.
Definition decode_page (j : json) : option (option string * list Template) :=
  doc ← document j; next ← decode_ptr decode_string (json_field "next" doc); results ← decode_results doc;
  Some (next, results).

Definition relativeAPIPath (next : string) : result string string :=
  match url_Parse next with
  | Err e => Err ("parse next page url: " ++ e)%string
  | Ok u =>
      if String.eqb u.(u_Path) "" then Err "empty next page path"%string
      else if negb (String.eqb u.(u_RawQuery) "") then Ok (u.(u_Path) ++ "?" ++ u.(u_RawQuery))%string
      else Ok u.(u_Path)
  end.

(** The loop of [listTemplates]: [None] when [fuel] pages were not enough. *)
Fixpoint list_pages (fuel : nat) (path : string) (out : list Template) : M (option (result string (list Template))) :=
  if String.eqb path "" || (maxListTemplates <=? length out)%nat then mret (Some (Ok out))
  else match fuel with
  | O => mret None
  | S fuel' =>
      r <-- get (None, []) (Some decode_page) path ;;
      match r with
      | Err e => mret (Some (Err e))
      | Ok (next, results) =>
          let out := take maxListTemplates (out ++ results) in
          if (maxListTemplates <=? length out)%nat then mret (Some (Ok out))
          else match next with
          | None | Some EmptyString => mret (Some (Ok out))
          | Some n => match relativeAPIPath n with
                      | Err e => mret (Some (Err e))
                      | Ok path' => list_pages fuel' path' out
                      end
          end
      end
  end.
Definition listTemplates (fuel : nat) (kind : string) : M (option (result string (list Template))) :=
  if negb Configured then mret (Some (Err not_configured))
  else list_pages fuel ("/api/v2/" ++ kind ++ "/") [].
Definition ListJobTemplates (fuel : nat) := listTemplates fuel "job_templates".
Definition ListWorkflowJobTemplates (fuel : nat) := listTemplates fuel "workflow_job_templates".

Definition find_path (kind name : string) : string := ("/api/v2/" ++ kind ++ "/?name=" ++ QueryEscape name)%string.
Definition named (name : string) (ts : list Template) : list Z :=
  map tp_ID (filter (fun t => t.(tp_Name) = name) ts).

Definition findTemplate (kind name : string) : M (result string Z) :=
  if negb Configured then mret (Err not_configured)
  else
    results <-e get [] (Some (fun j => doc ← document j; _ ← decode_int (json_field "count" doc); decode_results doc))
                  (find_path kind name) ;;
    mret (match named name results with
          | [] => Err ("no " ++ kind ++ " named " ++ Quote name)%string
          | [id] => Ok id
          | ids => Err ("ambiguous " ++ kind ++ " name " ++ Quote name ++ " matched " ++
                        Itoa (Z.of_nat (length ids)) ++ " templates")%string
          end).
Definition FindJobTemplate (name : string) := findTemplate "job_templates" name.
Definition FindWorkflowJobTemplate (name : string) := findTemplate "workflow_job_templates" name.

Definition launch_path (kind : string) (id : Z) : string := ("/api/v2/" ++ kind ++ "/" ++ Itoa id ++ "/launch/")%string.
Definition launch_payload (extraVars : list (string * json)) : json :=
  JObj (if (0 <? length extraVars)%nat then [("extra_vars"%string, JObj extraVars)] else []).

Definition launch (kind : string) (id : Z) (extraVars : list (string * json)) (workflow : bool) : M (result string LaunchResult) :=
  if negb Configured then mret (Err not_configured)
  else
    out <-e post (0, 0, 0)
              (Some (fun j => doc ← document j; job ← decode_int (json_field "job" doc);
                              wf ← decode_int (json_field "workflow_job" doc); id ← decode_int (json_field "id" doc);
                              Some (job, wf, id)))
              (launch_path kind id) (launch_payload extraVars) ;;
    let '(job, wf, oid) := out in
    let jobID := if workflow then wf else job in
    let jobID := if jobID =? 0 then oid else jobID in
    mret (if jobID =? 0 then Err ("launch " ++ kind ++ " " ++ Itoa id ++ ": no job id in response")%string
          else Ok (Build_LaunchResult jobID workflow)).
Definition LaunchJobTemplate (id : Z) (extraVars : list (string * json)) := launch "job_templates" id extraVars false.
Definition LaunchWorkflowJobTemplate (id : Z) (extraVars : list (string * json)) :=
  launch "workflow_job_templates" id extraVars true.

Definition JobStatus (res : LaunchResult) : M (result string AAPStatus) :=
  if negb Configured then mret (Err not_configured)
  else
    let kind := (if res.(lr_Workflow) then "workflow_jobs" else "jobs")%string in
    st <-e get ""%string (Some (fun j => doc ← document j; decode_string (json_field "status" doc)))
             ("/api/v2/" ++ kind ++ "/" ++ Itoa res.(lr_JobID) ++ "/") ;;
    mret (Ok (normalizeStatus st)).

Definition maxPollFailures : nat := 5.

(** The loop of [WaitForJob] under a context with a deadline, if any: after a
    poll it waits for [interval] or, when that comes first, for the deadline.
    [None] when [fuel] polls were not enough. *)
Fixpoint wait_loop (fuel : nat) (deadline : option time) (interval : duration) (res : LaunchResult)
    (failures : nat) (last : AAPStatus) : M (option (AAPStatus * result string unit)) :=
  match fuel with
  | O => mret None
  | S fuel' =>
      let next failures last :=
        now <-- time_now ;;
        match deadline with
        | Some d => if d <=? now + interval then mret (Some (last, Err "context deadline exceeded"%string))
                    else _ <-- pause interval ;; wait_loop fuel' deadline interval res failures last
        | None => _ <-- pause interval ;; wait_loop fuel' deadline interval res failures last
        end in
      r <-- JobStatus res ;;
      match r with
      | Err e =>
          if (maxPollFailures <=? S failures)%nat
          then mret (Some (last, Err ("aap job " ++ Itoa res.(lr_JobID) ++ ": " ++ Itoa (Z.of_nat (S failures)) ++
                                      " consecutive poll failures: " ++ e)%string))
          else next (S failures) last
      | Ok st => if IsTerminal st then mret (Some (st, Ok tt)) else next O st
      end
  end.
Definition WaitForJob (fuel : nat) (deadline : option time) (res : LaunchResult) (interval : duration) :=
  wait_loop fuel deadline (if interval <=? 0 then 2 * Second else interval) res 0 StatusUnknown.

Definition JobStdout (jobID : Z) : M (result string string) :=
  if negb Configured then mret (Err not_configured)
  else if jobID <=? 0 then mret (Err ("aap job stdout: invalid job id " ++ Itoa jobID)%string)
  else
    r <-e send (aap_request "GET" ("/api/v2/jobs/" ++ Itoa jobID ++ "/stdout/?format=json") JNull) "aap request stdout" ;;
    mret (if negb (status_ok r.1)
          then Err ("aap stdout job " ++ Itoa jobID ++ ": status " ++ Itoa r.1 ++ ": " ++ TrimSpace r.2)%string
          else match decoded (fun j => doc ← document j; decode_string (json_field "content" doc)) r.2 with
               | Ok content => if String.eqb content "" then Ok r.2 else Ok content
               | Err _ => Ok r.2
               end).

(** [launchAAPTemplate] *)
Definition launchAAPTemplate (templateName : string) (workflow : bool) (extraVars : list (string * json)) :
    M (result string (Z * bool)) :=
  id <-e (if workflow then FindWorkflowJobTemplate templateName else FindJobTemplate templateName) ;;
  res <-e (if workflow then LaunchWorkflowJobTemplate id extraVars else LaunchJobTemplate id extraVars) ;;
  mret (Ok (res.(lr_JobID), res.(lr_Workflow))).
End Aap.

(** ** What a request tells *)

Section Facts.
Context `{AapLib} (cfg : AapConfig).

(** A reply that the client accepts as [a]. *)
Definition answered {A} (zero : A) (out : option (json -> option A)) (reply : result string (Z * string)) (a : A) : Prop :=
  exists status body, reply = Ok (status, body) /\ status_ok status = true /\
  match out with
  | None => a = zero
  | Some f => if String.eqb (limit_bytes maxBody body) "" then a = zero else decoded f (limit_bytes maxBody body) = Ok a
  end.

Lemma send_spec c what w r w' :
  send c what w = (r, w') ->
  (w' = w /\ exists e, r = Err e) \/
  (w'.(w_sent) = w.(w_sent) ++ [c] /\
   match r with
   | Ok (status, body) => exists b, aap_reply (length w.(w_sent)) = Ok (status, b) /\ body = limit_bytes maxBody b
   | Err _ => exists e, aap_reply (length w.(w_sent)) = Err e
   end).
Proof.
  unfold send. destruct (request_error _) as [e|]; [intros [= <- <-]; left; eauto|].
  unfold mbind, net_call. destruct (next_env w) as [e w1] eqn:He. apply next_env_spec in He as (_ & _ & Hs & _).
  intros [= <- <-]. right. simpl. rewrite Hs. split; [done|]. destruct (aap_reply _) as [[status b]|x]; eauto.
Qed.

Lemma do_spec {A} (zero : A) out c w r w' :
  do_ zero out c w = (r, w') ->
  (w'.(w_sent) = w.(w_sent) \/ w'.(w_sent) = w.(w_sent) ++ [c]) /\
  forall a, r = Ok a -> w'.(w_sent) = w.(w_sent) ++ [c] /\ answered zero out (aap_reply (length w.(w_sent))) a.
Proof.
  unfold do_, etry, mbind. destruct (send _ _ w) as [[[status body]|e] w1] eqn:E.
  - intros [= <- <-]. apply send_spec in E as [[_ [? [=]]]|(Hs & b & Hb & ->)]. split; [by right|].
    intros a. simpl. destruct (status_ok status) eqn:Eok; [|done]. cbn [negb]. intros Ha. split; [done|].
    exists status, b. split; [done|]. split; [done|]. destruct out as [f|]; [|by injection Ha as ->].
    destruct (String.eqb _ _); [by injection Ha as ->|done].
  - intros [= <- <-]. apply send_spec in E as [[-> _]|(Hs & _)]; split; try done; [by left|by right].
Qed.

(** The templates a page shows. *)
Definition page_results (j : json) : option (list Template) :=
  doc ← document j; _ ← decode_int (json_field "count" doc); decode_results doc.

Definition find_request (kind name : string) : netcall := aap_request cfg "GET" (find_path kind name) JNull.
Definition launch_request (kind : string) (id : Z) (vars : list (string * json)) : netcall :=
  aap_request cfg "POST" (launch_path kind id) (launch_payload vars).
Definition template_kind (workflow : bool) : string := if workflow then "workflow_job_templates" else "job_templates".

Lemma findTemplate_spec kind name w r w' :
  findTemplate cfg kind name w = (r, w') ->
  (w'.(w_sent) = w.(w_sent) \/ w'.(w_sent) = w.(w_sent) ++ [find_request kind name]) /\
  forall id, r = Ok id -> w'.(w_sent) = w.(w_sent) ++ [find_request kind name] /\
    exists results, answered [] (Some page_results) (aap_reply (length w.(w_sent))) results /\ named name results = [id].
Proof.
  unfold findTemplate. destruct (Configured cfg); [|intros [= <- <-]; split; [by left|done]].
  unfold etry, mbind. cbn [negb]. destruct (get _ _ _ _ _) as [[results|e] w1] eqn:E; apply do_spec in E as (Hs & Ho);
    intros [= <- <-]; (split; [done|]); [|done].
  destruct (Ho results eq_refl) as [Hs' Ha]. intros id Hid. split; [done|]. exists results. split; [done|].
  by destruct (named name results) as [|i [|]]; simplify_eq.
Qed.

Lemma launch_spec kind id vars workflow w r w' :
  launch cfg kind id vars workflow w = (r, w') ->
  (w'.(w_sent) = w.(w_sent) \/ w'.(w_sent) = w.(w_sent) ++ [launch_request kind id vars]) /\
  forall res, r = Ok res -> w'.(w_sent) = w.(w_sent) ++ [launch_request kind id vars] /\
    res.(lr_JobID) <> 0 /\ res.(lr_Workflow) = workflow.
Proof.
  unfold launch. destruct (Configured cfg); [|intros [= <- <-]; split; [by left|done]].
  unfold etry, mbind. cbn [negb]. destruct (post _ _ _ _ _ _) as [[out|e] w1] eqn:E; apply do_spec in E as (Hs & Ho).
  2: { intros [= <- <-]. by split. }
  destruct (Ho out eq_refl) as [Hs' _]. destruct out as [[job wf] oid]. intros [= <- <-]. split; [done|].
  intros res Hres. split; [done|].
  destruct (Z.eqb_spec (if (if workflow then wf else job) =? 0 then oid else if workflow then wf else job) 0);
    [done|by injection Hres as <-].
Qed.

(** The template with that name, and no other, as the Controller lists it. *)
Definition the_template (name : string) (reply : result string (Z * string)) (id : Z) : Prop :=
  exists results, answered [] (Some page_results) reply results /\ named name results = [id].

(** C23. A launch goes to the template with exactly the configured name: in any
    environment the client asks for that name once and, only if the reply
    lists exactly one template with it, sends one launch, to that template
    and with the extra variables it was given; it reports a job only after
    that launch, never the id 0, and of the kind that was asked for. *)
Theorem launchAAPTemplate_spec name workflow vars w r w' :
  launchAAPTemplate cfg name workflow vars w = (r, w') ->
  let kind := template_kind workflow in
  exists l, w'.(w_sent) = w.(w_sent) ++ l /\
    (l = [] \/ l = [find_request kind name] \/
     exists id, the_template name (aap_reply (length w.(w_sent))) id /\
                l = [find_request kind name; launch_request kind id vars]) /\
    forall jobID wf, r = Ok (jobID, wf) -> length l = 2%nat /\ jobID <> 0 /\ wf = workflow.
Proof.
  intros E kind. unfold launchAAPTemplate, etry, mbind in E.
  assert (forall B (f : string -> B) , (if workflow then f "workflow_job_templates" else f "job_templates")%string = f kind) as Hk
    by (by destruct workflow).
  unfold FindWorkflowJobTemplate, FindJobTemplate, LaunchWorkflowJobTemplate, LaunchJobTemplate in E.
  rewrite (Hk _ (fun k => findTemplate cfg k name)) in E.
  destruct (findTemplate cfg kind name w) as [[id|e] w1] eqn:Ef; apply findTemplate_spec in Ef as (Hs & Ho).
  2: { injection E as <- <-. destruct Hs as [Hs|Hs]; rewrite Hs; [exists []; rewrite app_nil_r|eexists [_]; split; [done|]]; naive_solver. }
  destruct (Ho id eq_refl) as (Hs1 & results & Ha & Hn).
  assert ((if workflow then launch cfg "workflow_job_templates" id vars true else launch cfg "job_templates" id vars false)
          = launch cfg kind id vars workflow) as El by (by destruct workflow).
  rewrite El in E. destruct (launch cfg kind id vars workflow w1) as [[res|e] w2] eqn:Elc; apply launch_spec in Elc as (Hs2 & Ho2).
  - destruct (Ho2 res eq_refl) as (Hs3 & Hj & Hw). injection E as <- <-. exists [find_request kind name; launch_request kind id vars].
    rewrite Hs3, Hs1, <- app_assoc. split; [done|]. split; [right; right; exists id; split; [by exists results|done]|].
    by intros ? ? [= <- <-].
  - injection E as <- <-. destruct Hs2 as [Hs2|Hs2]; rewrite Hs2, Hs1.
    + exists [find_request kind name]. split; [done|]. split; [by right; left|done].
    + exists [find_request kind name; launch_request kind id vars]. rewrite <- app_assoc. split; [done|].
      split; [right; right; exists id; split; [by exists results|done]|done].
Qed.

(** ** Waiting ends *)

Definition poll_request (res : LaunchResult) : netcall :=
  aap_request cfg "GET" ("/api/v2/" ++ (if res.(lr_Workflow) then "workflow_jobs" else "jobs") ++ "/" ++ Itoa res.(lr_JobID) ++ "/") JNull.

(** A poll that the Controller answered with status [st]. *)
Definition polled (st : AAPStatus) (reply : result string (Z * string)) : Prop :=
  exists raw, answered ""%string (Some (fun j => doc ← document j; decode_string (json_field "status" doc))) reply raw /\
    normalizeStatus raw = st.

Lemma do_clock {A} (zero : A) out c w r w' : do_ zero out c w = (r, w') -> w.(w_clock) <= w'.(w_clock).
Proof.
  unfold do_, etry, send, mbind. destruct (request_error _); [by intros [= <- <-]|].
  unfold net_call. destruct (next_env w) as [e w1] eqn:He. apply next_env_spec in He as (Hc & _).
  destruct (aap_reply _) as [[status b]|x]; intros [= <- <-]; exact Hc.
Qed.

Lemma JobStatus_spec res w r w' :
  JobStatus cfg res w = (r, w') ->
  w.(w_clock) <= w'.(w_clock) /\ sends (fun c => c = poll_request res) w w' /\
  forall st, r = Ok st -> polled st (aap_reply (length w.(w_sent))) /\ (length w.(w_sent) < length w'.(w_sent))%nat.
Proof.
  unfold JobStatus. destruct (Configured cfg); [|intros [= <- <-]; split; [done|]; split; [by apply wr_refl|done]].
  unfold etry, mbind. cbn [negb]. destruct (get _ _ _ _ _) as [[raw|e] w1] eqn:E;
    pose proof E as Hc; apply do_clock in Hc; apply do_spec in E as (Hs & Ho); intros [= <- <-]; split; try done.
  - destruct (Ho raw eq_refl) as (Hs' & Ha). split; [exists [poll_request res]; auto|].
    intros st [= <-]. split; [by exists raw|]. rewrite Hs', length_app. simpl. lia.
  - split; [|done]. destruct Hs as [Hs|Hs]; [by apply sends_same|]. exists [poll_request res]. auto.
Qed.

Lemma wait_loop_ends deadline interval res fuel failures last w :
  0 < interval -> (0 < fuel)%nat -> deadline - w.(w_clock) < interval * Z.of_nat fuel ->
  exists st r w', wait_loop cfg fuel (Some deadline) interval res failures last w = (Some (st, r), w') /\
    sends (fun c => c = poll_request res) w w' /\
    (r = Ok tt -> IsTerminal st = true /\ exists n, (n < length w'.(w_sent))%nat /\ polled st (aap_reply n)).
Proof.
  intros Hi. revert failures last w. induction fuel as [|fuel IH]; intros failures last w Hf Hd; [lia|].
  cbn [wait_loop]. unfold mbind at 1. destruct (JobStatus cfg res w) as [r w1] eqn:E.
  apply JobStatus_spec in E as (Hc & Hs & Ho).
  assert (forall failures last, exists st r w', mbind time_now (fun now =>
      if deadline <=? now + interval then mret (Some (last, Err "context deadline exceeded"%string))
      else mbind (pause interval) (fun _ => wait_loop cfg fuel (Some deadline) interval res failures last)) w1 = (Some (st, r), w') /\
    sends (fun c => c = poll_request res) w w' /\
    (r = Ok tt -> IsTerminal st = true /\ exists n, (n < length w'.(w_sent))%nat /\ polled st (aap_reply n))) as Hn.
  { intros failures' last'. unfold mbind at 1. destruct (time_now w1) as [now w2] eqn:Et.
    assert (sends (fun c => c = poll_request res) w w2) as Hs2 by (etransitivity; [exact Hs|by eapply sends_time_now]).
    unfold time_now in Et. destruct (next_env w1) as [e w3] eqn:He. injection Et as <- ->.
    apply next_env_spec in He as (Hc2 & _). destruct (Z.leb_spec deadline (w2.(w_clock) + interval)) as [Hl|Hl]; [by eexists _, _, _|].
    unfold mbind, pause. set (w4 := w2 <| w_clock ::= Z.add (Z.max 0 interval) |>).
    assert (w4.(w_clock) = interval + w2.(w_clock)) as Hc4 by (unfold w4; simpl; lia).
    destruct fuel as [|fuel]; [lia|].
    destruct (IH failures' last' w4 ltac:(lia) ltac:(lia)) as (st & r' & w' & -> & Hs4 & Hr). exists st, r', w'.
    split; [done|]. split; [|done]. etransitivity; [exact Hs2|]. etransitivity; [|exact Hs4]. by apply sends_same. }
  destruct r as [st|e].
  - destruct (IsTerminal st) eqn:Et; [|apply Hn]. eexists _, _, _. split; [done|]. split; [done|]. intros _.
    split; [done|]. destruct (Ho st eq_refl) as [Hp Hl]. eauto.
  - destruct (maxPollFailures <=? S failures)%nat; [by eexists _, _, _|apply Hn].
Qed.

(** C30. Waiting for a job under a deadline ends, whatever the Controller
    answers: as many polls as intervals fit before the deadline, and one, are
    enough. It only polls that job, and reports success only with a terminal
    status that the Controller answered to one of the polls. *)
Theorem WaitForJob_ends deadline res interval fuel w :
  let step := if interval <=? 0 then 2 * Second else interval in
  (0 < fuel)%nat -> deadline - w.(w_clock) < step * Z.of_nat fuel ->
  exists st r w', WaitForJob cfg fuel (Some deadline) res interval w = (Some (st, r), w') /\
    sends (fun c => c = poll_request res) w w' /\
    (r = Ok tt -> IsTerminal st = true /\ exists n, (n < length w'.(w_sent))%nat /\ polled st (aap_reply n)).
Proof.
  intros step Hf Hd. apply wait_loop_ends; [|done|done]. destruct (Z.leb_spec interval 0); [reflexivity|lia].
Qed.

(** Without a deadline five failures in a row end it. *)
Lemma wait_loop_gives_up interval res fuel failures last w :
  Configured cfg = false -> (failures < maxPollFailures)%nat -> (maxPollFailures - failures <= fuel)%nat ->
  exists e w', wait_loop cfg fuel None interval res failures last w = (Some (last, Err e), w').
Proof.
  intros Hc. revert failures w. induction fuel as [|fuel IH]; intros failures w Hf Hl; [lia|].
  cbn [wait_loop]. unfold mbind at 1, JobStatus. rewrite Hc. cbn [negb mret].
  destruct (Nat.leb_spec maxPollFailures (S failures)); [by eexists _, _|].
  unfold mbind. destruct (time_now w) as [now w1]. apply IH; lia.
Qed.

(** ** Listing templates *)

Lemma list_pages_spec fuel path out w r w' :
  (length out <= maxListTemplates)%nat -> list_pages cfg fuel path out w = (r, w') ->
  sends (fun c => exists p, c = aap_request cfg "GET" p JNull) w w' /\
  forall ts, r = Some (Ok ts) -> (length ts <= maxListTemplates)%nat.
Proof.
  revert path out w. induction fuel as [|fuel IH]; intros path out w Hl; cbn [list_pages].
  - destruct (_ || _); intros [= <- <-]; (split; [by apply wr_refl|by intros ? [= <-]]).
  - destruct (_ || _); [intros [= <- <-]; split; [by apply wr_refl|by intros ? [= <-]]|].
    unfold mbind at 1. destruct (get _ _ _ _ _) as [r1 w1] eqn:E. apply do_spec in E as (Hs & _).
    assert (sends (fun c => exists p, c = aap_request cfg "GET" p JNull) w w1) as Hs1.
    { destruct Hs as [Hs|Hs]; [by apply sends_same|]. exists [aap_request cfg "GET" path JNull]. split; [exact Hs|]. constructor; [by exists path|constructor]. }
    destruct r1 as [[next results]|e]; [|by intros [= <- <-]].
    assert (length (take maxListTemplates (out ++ results)) <= maxListTemplates)%nat as Ht by (rewrite length_take; lia).
    destruct (maxListTemplates <=? _)%nat; [intros [= <- <-]; split; [done|by intros ? [= <-]]|].
    destruct next as [[|a n]|]; [intros [= <- <-]; split; [done|by intros ? [= <-]]| |intros [= <- <-]; split; [done|by intros ? [= <-]]].
    destruct (relativeAPIPath _) as [path'|e]; [|by intros [= <- <-]]. intros (Hs2 & Hr)%IH; [|done].
    split; [by etransitivity|done].
Qed.
End Facts.

(** ** Witnesses *)

Section Demo.
#[local] Instance demo_controller_lib : AapLib := {|
  aap_reply := fun n => match n with O => Ok (200, "page") | 1%nat => Ok (201, "launched") | 2%nat => Ok (200, "running") | _ => Ok (200, "done") end%string;
  aap_json := {| json_error := id; json_Unmarshal := fun s =>
    if String.eqb s "page" then Some (JObj [("count", JNum 2); ("results", JArr [
      JObj [("id", JNum 7); ("name", JStr "CLM - Issue")]; JObj [("id", JNum 8); ("name", JStr "CLM - Issue (old)")]])])
    else if String.eqb s "launched" then Some (JObj [("job", JNum 42)])
    else if String.eqb s "running" then Some (JObj [("status", JStr "running")])
    else Some (JObj [("status", JStr "successful")]) |};
  url_Parse := fun u => Ok (Build_ParsedURL "aap" u "");
  request_error := fun _ => None |}%string.
Definition demo_aap : AapConfig := Build_AapConfig "https://aap/" "t" false.
Definition demo_aap_world : World := calm_world (Build_DB ∅ [] ∅ ∅ [] [] ∅ ∅ ∅ ∅ ∅ 0) 0.
Definition demo_aap_launch := launchAAPTemplate demo_aap "CLM - Issue" false [] demo_aap_world.

Example demo_aap_launched :
  demo_aap_launch.1 = Ok (42, false) /\
  map nc_subject demo_aap_launch.2.(w_sent) =
    ["https://aap/api/v2/job_templates/?name=CLM+-+Issue"; "https://aap/api/v2/job_templates/7/launch/"]%string.
Proof. vm_compute. split; reflexivity. Qed.

Lemma launchAAPTemplate_spec_witness :
  exists l, demo_aap_launch.2.(w_sent) = demo_aap_world.(w_sent) ++ l /\ length l = 2%nat.
Proof.
  assert (demo_aap_launch.1 = Ok (42, false)) as Hr by (vm_compute; reflexivity).
  destruct demo_aap_launch as [r w'] eqn:E. simpl in Hr. simpl.
  destruct (launchAAPTemplate_spec demo_aap "CLM - Issue" false [] demo_aap_world r w' E) as (l & Hs & _ & Ho).
  exists l. split; [exact Hs|]. by apply (Ho 42 false).
Defined.

Lemma WaitForJob_ends_witness :
  exists st r w', WaitForJob demo_aap 4 (Some (7 * Second)) (Build_LaunchResult 42 false) 0 demo_aap_launch.2 = (Some (st, r), w') /\
    st = StatusSuccessful /\ r = Ok tt.
Proof.
  destruct (WaitForJob_ends demo_aap (7 * Second) (Build_LaunchResult 42 false) 0 4 demo_aap_launch.2) as (st & r & w' & E & _);
    [lia|vm_compute; reflexivity|].
  exists st, r, w'. split; [exact E|].
  assert ((WaitForJob demo_aap 4 (Some (7 * Second)) (Build_LaunchResult 42 false) 0 demo_aap_launch.2).1
          = Some (StatusSuccessful, Ok tt)) as Hv by (vm_compute; reflexivity).
  rewrite E in Hv. by injection Hv as -> ->.
Defined.

(** A Controller whose pages are empty but name a next page is asked for ever:
    no number of pages is enough. *)
#[local] Instance endless : AapLib := {|
  aap_reply := fun _ => Ok (200, "page")%string;
  aap_json := {| json_error := id; json_Unmarshal := fun _ => Some (JObj [("next", JStr "/next")])%string |};
  url_Parse := fun u => Ok (Build_ParsedURL "aap" u "");
  request_error := fun _ => None |}.
Lemma empty_pages_never_end fuel : (listTemplates (H := endless) demo_aap fuel "job_templates" demo_aap_world).1 = None.
Proof.
  unfold listTemplates. cbn [negb Configured]. set (path := ("/api/v2/" ++ "job_templates" ++ "/")%string).
  assert (forall p w, p <> ""%string -> w.(w_env) = [] -> (list_pages (H := endless) demo_aap fuel p [] w).1 = None) as Hp; [|by apply Hp].
  induction fuel as [|fuel IH]; intros p w Hne He; cbn [list_pages].
  - by destruct p.
  - replace (String.eqb p "") with false by (by destruct p). cbn [orb length Nat.leb].
    unfold mbind at 1, get, do_, etry, send. cbn [request_error endless]. unfold mbind, net_call, next_env.
    cbn. rewrite He. cbn. by apply IH.
Qed.
End Demo.
