(* ===== verification/Connections.v ===== *)
(** * Stored connections (internal/store/connections.go, internal/settings/resolve.go)

    The settings an operator stores for Vault, AAP and the EDA webhook, with
    their secrets sealed, and how they overlay the environment's. *)

From Stdlib Require Import Ascii.
From S2P Require Import Prelude GoLib Records Db Queue Dispatcher Json Sha256 Vault Aap.

Open Scope clm_scope.

(** ** Sealing *)

(** [crypto/aes] in GCM mode with its errors, [crypto/rand] (the nonce drawn
    at an instant), and [encoding/json] on [map[string]string]. *)
Class SecretsLib := {
  gcm_Seal : list Z -> string -> string -> string;
  gcm_Open : list Z -> string -> string -> result string string;
  rand_nonce : time -> result string string;
  secrets_Marshal : gmap string string -> string;
  secrets_Unmarshal : string -> result string (gmap string string)
}.
Definition NonceSize : nat := 12.

(** What these libraries promise. *)
Class SecretsLaws `{SecretsLib} : Prop := {
  open_seal key nonce p : gcm_Open key nonce (gcm_Seal key nonce p) = Ok p;
  nonce_length t nonce : rand_nonce t = Ok nonce -> String.length nonce = NonceSize;
  unmarshal_marshal m : secrets_Unmarshal (secrets_Marshal m) = Ok m
}.

(** [map[string]string] *)
Abbreviation secret_map := (gmap string string).

Section Store.
Context `{SecretsLib}.

Definition parseConnectionsKey (raw : string) : res (list Z) :=
  if String.eqb raw "" then Err ErrConnectionsKeyMissing
  else if (String.length raw =? 64)%nat then
    match hex_DecodeString raw with
    | Some key => if (length key =? 32)%nat then Ok key else Err ErrConnectionsKeyMissing
    | None => Err ErrConnectionsKeyMissing
    end
  else if (String.length raw =? 32)%nat then Ok (bytes_of raw)
  else Err ErrConnectionsKeyMissing.

(** [gcm.Seal(nonce, nonce, plaintext, nil)] prepends the nonce. *)
Definition sealSecrets (key : list Z) (secrets : secret_map) (now : time) : res string :=
  match rand_nonce now with
  | Err e => Err (ErrMsg e)
  | Ok nonce => Ok (nonce ++ gcm_Seal key nonce (secrets_Marshal secrets))%string
  end.

Definition openSecrets (key : list Z) (ciphertext : string) : res secret_map :=
  if (String.length ciphertext <? NonceSize)%nat then Err (ErrMsg "connections secrets ciphertext is truncated")
  else
    match gcm_Open key (string_take NonceSize ciphertext) (string_drop NonceSize ciphertext) with
    | Err e => Err (ErrMsg e)
    | Ok plaintext => match secrets_Unmarshal plaintext with Ok m => Ok m | Err e => Err (ErrMsg e) end
    end.

Definition heldSecrets (keep : list string) : gset string := list_to_set keep.

Definition hasNewSecrets (incoming : secret_map) (keep : list string) : bool :=
  existsb (fun kv => negb (bool_decide (kv.1 ∈ heldSecrets keep))) (map_to_list incoming).

Definition merge_secret (held : gset string) (k v : string) (out : secret_map) : secret_map :=
  if decide (k ∈ held) then out else if String.eqb v "" then delete k out else <[k := v]> out.
Definition mergeSecrets (previous incoming : secret_map) (keep : list string) : secret_map :=
  map_fold (merge_secret (heldSecrets keep)) previous incoming.

Definition known_target (target : string) : bool :=
  String.eqb target "vault" || String.eqb target "aap" || String.eqb target "eda".

Definition prepareConnectionUpsert (keyMaterial : string) (existing : option Connection) (target : string)
    (metadata : option json) (secrets : secret_map) (keep : list string) (actor : string) (now : time) : res Connection :=
  if negb (known_target target) then Err (ErrMsg ("invalid connection target " ++ Quote target)%string)
  else
    let enc := match existing with Some c => c.(cn_SecretsEnc) | None => "" end%string in
    let set := match existing with Some c => c.(cn_SecretsSet) | None => false end in
    let row := Build_Connection target (default (JObj []) metadata) enc set "db" now actor in
    if negb (hasNewSecrets secrets keep) then Ok row
    else
      match parseConnectionsKey keyMaterial with
      | Err e => Err e
      | Ok key =>
          match (if String.eqb enc "" then Ok ∅ else openSecrets key enc) with
          | Err e => Err e
          | Ok previous =>
              let merged := mergeSecrets previous secrets keep in
              if decide (merged = ∅) then Ok (row <| cn_SecretsEnc := ""%string |> <| cn_SecretsSet := false |>)
              else
                match sealSecrets key merged now with
                | Err e => Err e
                | Ok ct => Ok (row <| cn_SecretsEnc := ct |> <| cn_SecretsSet := true |>)
                end
          end
      end.

(** [getConnection] *)
Definition getConnection (target : string) : M (res (option Connection)) :=
  store_call (tget (fun _ db => db.(connections) !! target)).

(** [INSERT ... ON CONFLICT (target) DO UPDATE] *)
Definition upsert_connection_tx (row : Connection) : txn unit :=
  tmod (fun c db => db <| connections ::= insert row.(cn_Target) (row <| cn_UpdatedAt := c.(NOW) |>) |>).

Definition UpsertConnection (connectionsKey target : string) (metadata : option json) (secrets : secret_map)
    (keepSecrets : list string) (actor : string) : M (res unit) :=
  existing <-? getConnection target ;;
  now <-- time_now ;;
  match prepareConnectionUpsert connectionsKey existing target metadata secrets keepSecrets actor now with
  | Err e => mret (Err e)
  | Ok row => store_call (upsert_connection_tx row)
  end.

Definition by_target (a b : Connection) : bool := string_lt a.(cn_Target) b.(cn_Target).
Definition GetConnections : M (res (list Connection)) :=
  store_call (tget (fun _ db => stable_sort by_target (map snd (map_to_list db.(connections))))).

Definition DecryptSecrets (connectionsKey : string) (row : Connection) : res secret_map :=
  if String.eqb row.(cn_SecretsEnc) "" then Ok ∅
  else match parseConnectionsKey connectionsKey with
       | Err e => Err e
       | Ok key => openSecrets key row.(cn_SecretsEnc)
       end.
End Store.

(** ** Resolution *)

(** The settings of the environment ([config.Config]). *)
Record EnvConfig := Build_EnvConfig {
  env_Vault : ClientConfig;
  env_AAP : AapConfig;
  env_AAPRenewTemplate : string;
  env_AAPRenewWorkflow : bool;
  env_AAPDefaultMount : string;
  env_EDA : Dispatcher.Config
}.

(** [VaultPublic], [AAPPublic], [EDAPublic], [PublicView] *)
Record VaultPublic := Build_VaultPublic {
  vp_Configured : bool; vp_Source : string; vp_Deployment : string; vp_Addr : string; vp_Namespace : string;
  vp_AuthMethod : string; vp_TokenSet : bool; vp_RoleIDSet : bool; vp_SecretIDSet : bool
}.
Record AAPPublic := Build_AAPPublic {
  app_Configured : bool; app_Source : string; app_URL : string; app_RenewTemplate : string; app_RenewWorkflow : bool;
  app_SkipTLSVerify : bool; app_DefaultMount : string; app_TokenSet : bool
}.
Record EDAPublic := Build_EDAPublic { ep_Configured : bool; ep_Source : string; ep_WebhookURL : string; ep_TokenSet : bool }.
Record PublicView := Build_PublicView { pv_Vault : VaultPublic; pv_AAP : AAPPublic; pv_EDA : EDAPublic }.

(** [Resolved] *)
Record Resolved := Build_Resolved {
  rs_Vault : ClientConfig; rs_AAP : AapConfig; rs_EDA : Dispatcher.Config; rs_View : PublicView
}.

(** [vaultMeta], [aapMeta], [edaMeta] *)
Record VaultMeta := Build_VaultMeta { vm_Deployment : string; vm_Addr : string; vm_Namespace : option string; vm_AuthMethod : string }.
Definition decode_vaultMeta (j : json) : option VaultMeta :=
  doc ← document j;
  deployment ← decode_string (json_field "deployment" doc); addr ← decode_string (json_field "addr" doc);
  namespace ← decode_ptr decode_string (json_field "namespace" doc); auth ← decode_string (json_field "auth_method" doc);
  Some (Build_VaultMeta deployment addr namespace auth).
Record AapMeta := Build_AapMeta {
  am_URL : string; am_RenewTemplate : string; am_RenewWorkflow : option bool; am_SkipTLSVerify : option bool; am_DefaultMount : string
}.
Definition decode_aapMeta (j : json) : option AapMeta :=
  doc ← document j;
  u ← decode_string (json_field "url" doc); template ← decode_string (json_field "renew_template" doc);
  workflow ← decode_ptr decode_bool (json_field "renew_workflow" doc); skip ← decode_ptr decode_bool (json_field "skip_tls_verify" doc);
  mount ← decode_string (json_field "default_mount" doc);
  Some (Build_AapMeta u template workflow skip mount).
Definition decode_edaMeta (j : json) : option string :=
  doc ← document j; decode_string (json_field "webhook_url" doc).

Definition metadata_error : string := "json: cannot unmarshal connection metadata".
(** The new value, if there is one. *)
Definition overlay (new old : string) : string := if String.eqb new "" then old else new.
(** [secrets[key]] *)
Definition secret (secrets : secret_map) (key : string) : string := default ""%string (secrets !! key).
Definition stored (target : string) (row : option Connection) : option Connection :=
  match row with Some c => if String.eqb c.(cn_Target) target && String.eqb c.(cn_Source) "db" then row else None | None => None end.
Definition set (s : string) : bool := negb (String.eqb s "").

(** What [resolveVault] builds, with the source and the deployment. *)
Definition vault_overlay (cfg : EnvConfig) (row : option Connection) (secrets : secret_map) :
    result string (ClientConfig * string * string) :=
  let e := cfg.(env_Vault) in
  let out := Build_ClientConfig e.(vc_Address) e.(vc_Namespace) e.(vc_Token) (overlay e.(vc_AuthMethod) "token") e.(vc_RoleID) e.(vc_SecretID) in
  match stored "vault" row with
  | None => Ok (out, "env", "self_managed")%string
  | Some c =>
      match decode_vaultMeta c.(cn_Metadata) with
      | None => Err metadata_error
      | Some m =>
          Ok (Build_ClientConfig (overlay m.(vm_Addr) out.(vc_Address)) (default out.(vc_Namespace) m.(vm_Namespace))
                (overlay (secret secrets "token") out.(vc_Token)) (overlay m.(vm_AuthMethod) out.(vc_AuthMethod))
                (overlay (secret secrets "role_id") out.(vc_RoleID)) (overlay (secret secrets "secret_id") out.(vc_SecretID)),
              "db", overlay m.(vm_Deployment) "self_managed")%string
      end
  end.
Definition resolveVault (cfg : EnvConfig) (row : option Connection) (secrets : secret_map) : result string (ClientConfig * VaultPublic) :=
  match vault_overlay cfg row secrets with
  | Err e => Err e
  | Ok (out, source, deployment) =>
      Ok (out, Build_VaultPublic (set out.(vc_Address)) source deployment out.(vc_Address) out.(vc_Namespace) out.(vc_AuthMethod)
                 (set out.(vc_Token)) (set out.(vc_RoleID)) (set out.(vc_SecretID)))
  end.

Definition resolveAAP (cfg : EnvConfig) (row : option Connection) (secrets : secret_map) : result string (AapConfig * AAPPublic) :=
  let public out source template workflow mount :=
    Ok (out, Build_AAPPublic (set out.(ap_BaseURL)) source out.(ap_BaseURL) template workflow out.(ap_SkipTLSVerify) mount (set out.(ap_Token))) in
  let out := cfg.(env_AAP) in
  match stored "aap" row with
  | None => public out "env"%string cfg.(env_AAPRenewTemplate) cfg.(env_AAPRenewWorkflow) cfg.(env_AAPDefaultMount)
  | Some c =>
      match decode_aapMeta c.(cn_Metadata) with
      | None => Err metadata_error
      | Some m =>
          public (Build_AapConfig (overlay m.(am_URL) out.(ap_BaseURL)) (overlay (secret secrets "token") out.(ap_Token))
                    (default out.(ap_SkipTLSVerify) m.(am_SkipTLSVerify)))
            "db"%string (overlay m.(am_RenewTemplate) cfg.(env_AAPRenewTemplate)) (default cfg.(env_AAPRenewWorkflow) m.(am_RenewWorkflow))
            (overlay m.(am_DefaultMount) cfg.(env_AAPDefaultMount))
      end
  end.

Definition resolveEDA (cfg : EnvConfig) (row : option Connection) (secrets : secret_map) : result string (Dispatcher.Config * EDAPublic) :=
  let public out source := Ok (out, Build_EDAPublic (set out.(WebhookURL)) source out.(WebhookURL) (set out.(Token))) in
  let out := cfg.(env_EDA) in
  match stored "eda" row with
  | None => public out "env"%string
  | Some c =>
      match decode_edaMeta c.(cn_Metadata) with
      | None => Err metadata_error
      | Some u => public (out <| WebhookURL := overlay u out.(WebhookURL) |> <| Token := overlay (secret secrets "token") out.(Token) |>)
                         "db"%string
      end
  end.

(** [byTarget]: of two rows of a target the later one counts. *)
Definition byTarget (rows : list Connection) : gmap string Connection :=
  foldl (fun m c => <[c.(cn_Target) := c]> m) ∅ rows.

Definition Resolve (cfg : EnvConfig) (rows : list Connection) (secretsByTarget : gmap string secret_map) : result string Resolved :=
  let rows := byTarget rows in
  let secrets t := default ∅ (secretsByTarget !! t) in
  match resolveVault cfg (rows !! "vault"%string) (secrets "vault"%string) with
  | Err e => Err e
  | Ok (vc, vview) =>
      match resolveAAP cfg (rows !! "aap"%string) (secrets "aap"%string) with
      | Err e => Err e
      | Ok (ac, aview) =>
          match resolveEDA cfg (rows !! "eda"%string) (secrets "eda"%string) with
          | Err e => Err e
          | Ok (ec, eview) => Ok (Build_Resolved vc ac ec (Build_PublicView vview aview eview))
          end
      end
  end.

(** ** What an upsert stores *)

Lemma mergeSecrets_lookup prev inc keep k :
  mergeSecrets prev inc keep !! k =
  if decide (k ∈ keep) then prev !! k
  else match inc !! k with None => prev !! k | Some v => if String.eqb v "" then None else Some v end.
Proof.
  unfold mergeSecrets. set (held := heldSecrets keep).
  assert (forall i, i ∈ held <-> i ∈ keep) as Hh by (intros i; unfold held, heldSecrets; apply elem_of_list_to_set).
  induction inc as [|i v inc Hi Hf IH] using map_first_key_ind.
  - rewrite map_fold_empty, lookup_empty. by destruct (decide _).
  - rewrite map_fold_insert_first_key by done. unfold merge_secret at 1.
    destruct (decide (i ∈ held)) as [Hin|Hin].
    + rewrite IH. destruct (decide (k ∈ keep)) as [|Hk]; [done|].
      rewrite lookup_insert_ne; [done|]. intros ->. by apply Hk, Hh.
    + destruct (decide (i = k)) as [->|Hne].
      * rewrite lookup_insert_eq. rewrite decide_False by (by rewrite <- Hh).
        destruct (String.eqb v ""); [apply lookup_delete_eq|apply lookup_insert_eq].
      * rewrite lookup_insert_ne by done. rewrite <- IH.
        by destruct (String.eqb v ""); rewrite ?lookup_delete_ne, ?lookup_insert_ne.
Qed.

Lemma hasNewSecrets_false prev inc keep : hasNewSecrets inc keep = false -> mergeSecrets prev inc keep = prev.
Proof.
  intros Hn. apply map_eq. intros k. rewrite mergeSecrets_lookup. destruct (decide (k ∈ keep)) as [|Hk]; [done|].
  destruct (inc !! k) as [v|] eqn:E; [|done]. exfalso. revert Hn. unfold hasNewSecrets. apply not_false_iff_true.
  apply existsb_exists. exists (k, v). split; [by apply list_elem_of_In, elem_of_map_to_list|].
  apply negb_true_iff, bool_decide_eq_false. unfold heldSecrets. by rewrite elem_of_list_to_set.
Qed.

Section StoreFacts.
Context `{SecretsLib, !SecretsLaws}.

(** The secrets a row holds; there are none without a row. *)
Definition secrets_of (connectionsKey : string) (row : option Connection) : res secret_map :=
  match row with Some c => DecryptSecrets connectionsKey c | None => Ok ∅ end.

Lemma open_sealed key m now ct :
  sealSecrets key m now = Ok ct -> String.eqb ct "" = false /\ openSecrets key ct = Ok m.
Proof.
  unfold sealSecrets. destruct (rand_nonce now) as [nonce|e] eqn:En; [|done]. intros [= <-].
  apply nonce_length in En. assert (forall t, string_take NonceSize (nonce ++ t) = nonce /\ string_drop NonceSize (nonce ++ t) = t) as Ht.
  { rewrite <- En. clear En. induction nonce as [|c n IH]; intros t; [by destruct t|].
    rewrite string_app_cons. simpl. by destruct (IH t) as [-> ->]. }
  split; [by destruct nonce|]. unfold openSecrets. rewrite string_length_app, En.
  destruct (Nat.ltb_spec (NonceSize + String.length (gcm_Seal key nonce (secrets_Marshal m))) NonceSize) as [|]; [lia|].
  destruct (Ht (gcm_Seal key nonce (secrets_Marshal m))) as [-> ->]. by rewrite open_seal, unmarshal_marshal.
Qed.

Definition stored_row (key target : string) (metadata : option json) (secrets : secret_map) (keep : list string) (actor : string)
    (old : option Connection) (row : Connection) : Prop :=
  row.(cn_Target) = target /\ row.(cn_Metadata) = default (JObj []) metadata /\ row.(cn_Source) = "db"%string /\
  row.(cn_UpdatedBy) = actor /\
  forall m, secrets_of key old = Ok m -> DecryptSecrets key row = Ok (mergeSecrets m secrets keep).

Lemma prepare_ok key old target metadata secrets keep actor now row :
  prepareConnectionUpsert key old target metadata secrets keep actor now = Ok row ->
  stored_row key target metadata secrets keep actor old row.
Proof.
  unfold prepareConnectionUpsert. destruct (known_target target); [|done]. cbn [negb].
  set (enc := match old with Some c => cn_SecretsEnc c | None => "" end%string).
  assert (forall row, row.(cn_SecretsEnc) = enc -> DecryptSecrets key row = secrets_of key old) as Hd.
  { intros r E. unfold DecryptSecrets. rewrite E. unfold enc. by destruct old. }
  destruct (hasNewSecrets secrets keep) eqn:Hn; cbn [negb].
  2: { intros [= <-]. split_and!; try done. intros m Hm. rewrite Hd by done. by rewrite hasNewSecrets_false. }
  destruct (parseConnectionsKey key) as [k|e] eqn:Ek; [|done].
  assert ((if String.eqb enc "" then Ok ∅ else openSecrets k enc) = secrets_of key old) as ->.
  { unfold enc. destruct old as [c|]; [|done]. simpl. unfold DecryptSecrets. by rewrite Ek. }
  destruct (secrets_of key old) as [prev|e] eqn:Eo; [|done].
  destruct (decide (mergeSecrets prev secrets keep = ∅)) as [Em|Em].
  - intros [= <-]. split_and!; try done. intros m. rewrite Eo. intros [= <-].
    unfold DecryptSecrets. simpl. by rewrite Em.
  - destruct (sealSecrets k _ now) as [ct|e] eqn:Es; [|done]. intros [= <-]. split_and!; try done. intros m. rewrite Eo. intros [= <-].
    apply open_sealed in Es as [Ect Eop]. unfold DecryptSecrets. simpl. by rewrite Ect, Ek.
Qed.

(** An empty value of a key that is not held clears the secret. *)
Lemma empty_value_clears previous keep k :
  k ∉ keep -> mergeSecrets previous {[k := ""%string]} keep = delete k previous.
Proof.
  intros Hk. unfold mergeSecrets. rewrite map_fold_singleton. unfold merge_secret, heldSecrets.
  by rewrite decide_False by (by rewrite elem_of_list_to_set).
Qed.

End StoreFacts.
