(* ===== verification/Settings.v ===== *)
(** * The settings endpoints (internal/api/handlers_settings.go)

    Reading, replacing and patching the stored connections, testing them, and
    the options an operator chooses from.  Secrets are write-only. *)

From Stdlib Require Import Ascii.
From S2P Require Import Prelude GoLib Records Db Dispatcher Access Json Vault Aap Connections.

Open Scope clm_scope.

(** ** Requests *)

(** [secretField]: omitted, null, or a value. *)
Record SecretField := Build_SecretField { sf_present : bool; sf_null : bool; sf_value : string }.
(** [UnmarshalJSON], which is called for a field that is there, null included. *)
Definition decode_secret (j : option json) : option SecretField :=
  match j with
  | None => Some (Build_SecretField false false "")
  | Some JNull => Some (Build_SecretField true true "")
  | Some (JStr s) => Some (Build_SecretField true false s)
  | _ => None
  end.

(** [vaultWrite], [aapWrite], [edaWrite], [connectionsWrite] *)
Record VaultWrite := Build_VaultWrite {
  vw_Deployment : option string; vw_Addr : option string; vw_Namespace : option string; vw_AuthMethod : option string;
  vw_Token : SecretField; vw_RoleID : SecretField; vw_SecretID : SecretField
}.
Record AapWrite := Build_AapWrite {
  aw_URL : option string; aw_RenewTemplate : option string; aw_RenewWorkflow : option bool; aw_SkipTLSVerify : option bool;
  aw_DefaultMount : option string; aw_Token : SecretField
}.
Record EdaWrite := Build_EdaWrite { ew_WebhookURL : option string; ew_Token : SecretField }.
Record ConnectionsWrite := Build_ConnectionsWrite {
  cw_Vault : option VaultWrite; cw_AAP : option AapWrite; cw_EDA : option EdaWrite
}.

Definition decode_vaultWrite (j : option json) : option VaultWrite :=
  doc ← default [] <$> decode_object j;
  deployment ← decode_ptr decode_string (json_field "deployment" doc); addr ← decode_ptr decode_string (json_field "addr" doc);
  namespace ← decode_ptr decode_string (json_field "namespace" doc); auth ← decode_ptr decode_string (json_field "auth_method" doc);
  token ← decode_secret (json_field "token" doc); role ← decode_secret (json_field "role_id" doc);
  secret_id ← decode_secret (json_field "secret_id" doc);
  Some (Build_VaultWrite deployment addr namespace auth token role secret_id).
Definition decode_aapWrite (j : option json) : option AapWrite :=
  doc ← default [] <$> decode_object j;
  u ← decode_ptr decode_string (json_field "url" doc); template ← decode_ptr decode_string (json_field "renew_template" doc);
  workflow ← decode_ptr decode_bool (json_field "renew_workflow" doc); skip ← decode_ptr decode_bool (json_field "skip_tls_verify" doc);
  mount ← decode_ptr decode_string (json_field "default_mount" doc); token ← decode_secret (json_field "token" doc);
  Some (Build_AapWrite u template workflow skip mount token).
Definition decode_edaWrite (j : option json) : option EdaWrite :=
  doc ← default [] <$> decode_object j;
  u ← decode_ptr decode_string (json_field "webhook_url" doc); token ← decode_secret (json_field "token" doc);
  Some (Build_EdaWrite u token).

(** [decodeConnectionsWrite] of a body ([None]: no JSON document). *)
Definition decodeConnectionsWrite (body : option json) : option ConnectionsWrite :=
  j ← body; doc ← document j;
  v ← decode_ptr decode_vaultWrite (json_field "vault" doc); a ← decode_ptr decode_aapWrite (json_field "aap" doc);
  e ← decode_ptr decode_edaWrite (json_field "eda" doc);
  Some (Build_ConnectionsWrite v a e).

Definition validDeployment (d : string) : bool := String.eqb d "" || String.eqb d "self_managed" || String.eqb d "hcp_dedicated".
Definition validAuthMethod (m : string) : bool := String.eqb m "" || String.eqb m "token" || String.eqb m "approle".
Definition validateConnectionsWrite (req : ConnectionsWrite) : result string unit :=
  match req.(cw_Vault) with
  | None => Ok tt
  | Some v =>
      if match v.(vw_Deployment) with Some d => negb (validDeployment d) | None => false end then Err "invalid deployment"%string
      else if match v.(vw_AuthMethod) with Some m => negb (validAuthMethod m) | None => false end then Err "invalid auth_method"%string
      else Ok tt
  end.

(** [collectSecrets]: the secrets to store or to clear, and the keys to keep. *)
Definition keeps (f : SecretField) : bool := negb f.(sf_present) || String.eqb f.(sf_value) "" && negb f.(sf_null).
Definition collectSecrets (fields : list (string * SecretField)) : secret_map * list string :=
  (list_to_map (map (fun kf => (kf.1, if kf.2.(sf_null) then "" else kf.2.(sf_value))%string)
                    (filter (fun kf => keeps kf.2 = false) fields)),
   map fst (filter (fun kf => keeps kf.2 = true) fields)).

(** [applyVaultMeta], [applyAAPMeta], [applyEDAMeta]: the stored metadata under
    the patch; [None] when the stored document has another shape. *)
Definition applyVaultMeta (existing : option json) (patch : VaultWrite) (replace : bool) : option json :=
  doc ← (if replace then Some [] else match existing with Some j => document j | None => Some [] end);
  deployment ← decode_over decode_string "self_managed" (json_field "deployment" doc);
  addr ← decode_over decode_string "" (json_field "addr" doc);
  namespace ← decode_over decode_string "" (json_field "namespace" doc);
  auth ← decode_over decode_string "token" (json_field "auth_method" doc);
  let deployment := default deployment patch.(vw_Deployment) in
  let auth := default auth patch.(vw_AuthMethod) in
  Some (JObj [("deployment", JStr (if String.eqb deployment "" then "self_managed" else deployment));
              ("addr", JStr (default addr patch.(vw_Addr))); ("namespace", JStr (default namespace patch.(vw_Namespace)));
              ("auth_method", JStr (if String.eqb auth "" then "token" else auth))])%string.
Definition applyAAPMeta (existing : option json) (patch : AapWrite) (replace : bool) : option json :=
  doc ← (if replace then Some [] else match existing with Some j => document j | None => Some [] end);
  u ← decode_string (json_field "url" doc); template ← decode_string (json_field "renew_template" doc);
  workflow ← decode_bool (json_field "renew_workflow" doc); skip ← decode_bool (json_field "skip_tls_verify" doc);
  mount ← decode_string (json_field "default_mount" doc);
  Some (JObj [("url", JStr (default u patch.(aw_URL))); ("renew_template", JStr (default template patch.(aw_RenewTemplate)));
              ("renew_workflow", JBool (default workflow patch.(aw_RenewWorkflow)));
              ("skip_tls_verify", JBool (default skip patch.(aw_SkipTLSVerify)));
              ("default_mount", JStr (default mount patch.(aw_DefaultMount)))])%string.
Definition applyEDAMeta (existing : option json) (patch : EdaWrite) (replace : bool) : option json :=
  doc ← (if replace then Some [] else match existing with Some j => document j | None => Some [] end);
  u ← decode_string (json_field "webhook_url" doc);
  Some (JObj [("webhook_url", JStr (default u patch.(ew_WebhookURL)))])%string.

(** ** Replies *)

Inductive SettingsBody :=
| SError (msg : string)
| SView (v : PublicView)
| STest (ok : bool) (target detail : string)
| SMounts (items : list string)
| STemplates (kind : string) (items : list Template).
Record SettingsReply := Build_SettingsReply { sr_status : Z; sr_body : SettingsBody }.
Definition sreply (status : Z) (b : SettingsBody) : M SettingsReply := mret (Build_SettingsReply status b).
Definition serror (status : Z) (msg : string) : M SettingsReply := sreply status (SError msg).

(** The text after and with the first occurrence of [sub]. *)
Fixpoint from_index (s sub : string) : option string :=
  if HasPrefix s sub then Some s
  else match s with EmptyString => None | String _ s' => from_index s' sub end.

Definition vaultProbeDetail (msg : string) : string :=
  if Contains msg "approle login" then "approle login failed"
  else match from_index msg "status " with
       | Some s => "sys/mounts " ++ TrimSpace s
       | None => "vault probe failed"
       end.

Definition redactSecrets (detail : string) (r : Resolved) : string :=
  foldl (fun d s => if String.eqb s "" then d else ReplaceAll d s "[redacted]") detail
    [r.(rs_Vault).(vc_Token); r.(rs_Vault).(vc_RoleID); r.(rs_Vault).(vc_SecretID); r.(rs_AAP).(ap_Token); r.(rs_EDA).(Token)].

Section Handlers.
Context `{SecretsLib, VaultLib, AapLib, HttpPeer}.
Context (server : Server) (cfg : EnvConfig) (connectionsKey : string).

(** [requireSettingsAccess] *)
Definition requireSettingsAccess (r : Request) (method : string) (k : string -> M SettingsReply) : M SettingsReply :=
  let actor := requestActor server r in
  if String.eqb actor "" then serror 401 "unauthorized"
  else if negb (roleAllows actor method r.(rq_Path)) then serror 403 "forbidden"
  else k actor.
Definition requireSettingsRead (r : Request) := requireSettingsAccess r "GET".
Definition requireSettingsWrite (r : Request) := requireSettingsAccess r r.(rq_Method).

(** [DecryptSecrets] of every row, or the first error. *)
Fixpoint decrypt_all (rows : list Connection) (acc : gmap string secret_map) : res (gmap string secret_map) :=
  match rows with
  | [] => Ok acc
  | row :: rows' => match DecryptSecrets connectionsKey row with
                    | Err e => Err e
                    | Ok sec => decrypt_all rows' (<[row.(cn_Target) := sec]> acc)
                    end
  end.
Definition resolve_rows (rows : list Connection) : res Resolved :=
  match decrypt_all rows ∅ with
  | Err e => Err e
  | Ok secrets => match Resolve cfg rows secrets with Ok r => Ok r | Err e => Err (ErrMsg e) end
  end.
Definition resolveConnections : M (res Resolved) :=
  rows <-? GetConnections ;; mret (resolve_rows rows).

Definition writeConnectionsView : M SettingsReply :=
  r <-- resolveConnections ;;
  match r with
  | Err _ => serror 500 "failed to load connections"
  | Ok r => sreply 200 (SView r.(rs_View))
  end.

Definition handleGetConnections (r : Request) : M SettingsReply := requireSettingsRead r (fun _ => writeConnectionsView).

(** A target's part of a request: its name, the metadata under the patch, its
    secret fields. *)
Record TargetWrite := Build_TargetWrite {
  tw_target : string; tw_meta : option json -> bool -> option json; tw_secrets : list (string * SecretField)
}.
Definition vault_write (t : VaultWrite) : TargetWrite := Build_TargetWrite "vault" (fun prev => applyVaultMeta prev t)
  [("token", t.(vw_Token)); ("role_id", t.(vw_RoleID)); ("secret_id", t.(vw_SecretID))]%string.
Definition aap_write (t : AapWrite) : TargetWrite :=
  Build_TargetWrite "aap" (fun prev => applyAAPMeta prev t) [("token", t.(aw_Token))]%string.
Definition eda_write (t : EdaWrite) : TargetWrite :=
  Build_TargetWrite "eda" (fun prev => applyEDAMeta prev t) [("token", t.(ew_Token))]%string.

(** [upsertTarget]; [k] is what follows when it returns true. *)
Definition upsertTarget (t : TargetWrite) (existing : option Connection) (replace : bool) (actor : string)
    (k : M SettingsReply) : M SettingsReply :=
  match t.(tw_meta) (cn_Metadata <$> existing) replace with
  | None => serror 400 "invalid connection metadata"
  | Some meta =>
      let '(secrets, keep) := collectSecrets t.(tw_secrets) in
      r <-- UpsertConnection connectionsKey t.(tw_target) (Some meta) secrets keep actor ;;
      match r with
      | Ok _ => k
      | Err ErrConnectionsKeyMissing => serror 503 "connections encryption key missing; cannot persist secrets"
      | Err _ => serror 500 "failed to save connection"
      end
  end.

Definition handlePutConnections (r : Request) (body : option json) : M SettingsReply :=
  requireSettingsWrite r (fun actor =>
  match decodeConnectionsWrite body with
  | None => serror 400 "invalid request body"
  | Some req =>
      match req.(cw_Vault), req.(cw_AAP), req.(cw_EDA) with
      | Some v, Some a, Some e =>
          match validateConnectionsWrite req with
          | Err msg => serror 400 msg
          | Ok _ =>
              upsertTarget (vault_write v) None true actor
                (upsertTarget (aap_write a) None true actor
                   (upsertTarget (eda_write e) None true actor writeConnectionsView))
          end
      | _, _, _ => serror 400 "vault, aap, and eda are required"
      end
  end).

(** [connectionByTarget] *)
Definition connectionByTarget : M (res (gmap string Connection)) :=
  rows <-? GetConnections ;; mret (Ok (byTarget rows)).

Definition patch_target {A} (t : option A) (write : A -> TargetWrite) (existing : gmap string Connection) (actor : string)
    (k : M SettingsReply) : M SettingsReply :=
  match t with
  | None => k
  | Some t => upsertTarget (write t) (existing !! (write t).(tw_target)) false actor k
  end.

Definition handlePatchConnections (r : Request) (body : option json) : M SettingsReply :=
  requireSettingsWrite r (fun actor =>
  match decodeConnectionsWrite body with
  | None => serror 400 "invalid request body"
  | Some req =>
      match req with
      | Build_ConnectionsWrite None None None => serror 400 "at least one of vault, aap, or eda is required"
      | _ =>
          match validateConnectionsWrite req with
          | Err msg => serror 400 msg
          | Ok _ =>
              existing <-- connectionByTarget ;;
              match existing with
              | Err _ => serror 500 "failed to load connections"
              | Ok existing =>
                  patch_target req.(cw_Vault) vault_write existing actor
                    (patch_target req.(cw_AAP) aap_write existing actor
                       (patch_target req.(cw_EDA) eda_write existing actor writeConnectionsView))
              end
          end
      end
  end).

(** ** Probes *)

(** [testVault], with a fresh client. *)
Definition testVault (r : Resolved) : M (bool * string) :=
  x <-- ListMounts (Vault.NewClient r.(rs_Vault)) new_state ;;
  mret (match x.1 with
        | Err e => (false, vaultProbeDetail e)
        | Ok _ => let ns := r.(rs_View).(pv_Vault).(vp_Namespace) in
                  (true, "sys/mounts 200" ++ (if String.eqb ns "" then "" else "; namespace=" ++ ns))%string
        end).

Definition testAAP (r : Resolved) : M (bool * string) :=
  match Aap.NewClient r.(rs_AAP) with
  | Err _ => mret (false, "invalid aap url"%string)
  | Ok client =>
      me <-- Me client ;;
      match me with
      | Err _ => mret (false, "me failed"%string)
      | Ok _ =>
          let name := r.(rs_View).(pv_AAP).(app_RenewTemplate) in
          if String.eqb name "" then mret (true, "me 200"%string)
          else
            id <-- (if r.(rs_View).(pv_AAP).(app_RenewWorkflow) then FindWorkflowJobTemplate client name else FindJobTemplate client name) ;;
            mret (match id with
                  | Err _ => (false, "template not found")
                  | Ok id => (true, "me 200; template " ++ Quote name ++ " id=" ++ Itoa id)
                  end)%string
      end
  end.

(** [testEDA]; [id] is the identifier of the test event. *)
Definition testEDA (r : Resolved) (id : uuid) : M (bool * string) :=
  x <-- Ping r.(rs_EDA).(WebhookURL) r.(rs_EDA).(Token) id ;;
  mret (match x with Err _ => (false, "webhook probe failed") | Ok _ => (true, "webhook 2xx") end)%string.

Definition test_reply (target : string) (r : Resolved) (m : M (bool * string)) : M SettingsReply :=
  x <-- m ;; sreply 200 (STest x.1 target (redactSecrets x.2 r)).

Definition handleTestConnections (r : Request) (body : option string) (eventID : uuid) : M SettingsReply :=
  requireSettingsWrite r (fun _ =>
  match body with
  | None => serror 400 "invalid request body"
  | Some t =>
      let target := ToLower (TrimSpace t) in
      if negb (known_target target) then serror 400 "invalid target"
      else
        x <-- resolveConnections ;;
        match x with
        | Err _ => serror 500 "failed to resolve connections"
        | Ok res =>
            let v := res.(rs_View) in
            if String.eqb target "vault" then
              if negb v.(pv_Vault).(vp_Configured) then serror 503 "vault is not configured" else test_reply target res (testVault res)
            else if String.eqb target "aap" then
              if negb v.(pv_AAP).(app_Configured) then serror 503 "aap is not configured" else test_reply target res (testAAP res)
            else
              if negb v.(pv_EDA).(ep_Configured) then serror 503 "eda is not configured" else test_reply target res (testEDA res eventID)
        end
  end).

Definition handleOptionsVaultPKIMounts (r : Request) : M SettingsReply :=
  requireSettingsRead r (fun _ =>
  x <-- resolveConnections ;;
  match x with
  | Err _ => serror 500 "failed to resolve connections"
  | Ok res =>
      if negb res.(rs_View).(pv_Vault).(vp_Configured) then sreply 200 (SMounts [])
      else
        m <-- ListPKIMounts (Vault.NewClient res.(rs_Vault)) new_state ;;
        match m.1 with
        | Err e => serror 502 (redactSecrets (vaultProbeDetail e) res)
        | Ok mounts => sreply 200 (SMounts mounts)
        end
  end).

(** [handleOptionsAAPTemplates], reading at most [fuel] pages; [None] when
    there are more. *)
Definition handleOptionsAAPTemplates (fuel : nat) (r : Request) (kind : string) : M (option SettingsReply) := fun w =>
  let kind := ToLower (TrimSpace kind) in
  let ended : M SettingsReply -> M (option SettingsReply) := fun m => x <-- m ;; mret (Some x) in
  let actor := requestActor server r in
  (if String.eqb actor "" then ended (serror 401 "unauthorized")
   else if negb (roleAllows actor "GET" r.(rq_Path)) then ended (serror 403 "forbidden")
   else if negb (String.eqb kind "job" || String.eqb kind "workflow") then ended (serror 400 "kind must be job or workflow")
   else
     x <-- resolveConnections ;;
     match x with
     | Err _ => ended (serror 500 "failed to resolve connections")
     | Ok res =>
         if negb res.(rs_View).(pv_AAP).(app_Configured) then ended (sreply 200 (STemplates kind []))
         else match Aap.NewClient res.(rs_AAP) with
              | Err _ => ended (serror 502 (redactSecrets "invalid aap url" res))
              | Ok client =>
                  ts <-- (if String.eqb kind "workflow" then ListWorkflowJobTemplates client fuel else ListJobTemplates client fuel) ;;
                  match ts with
                  | None => mret None
                  | Some (Err _) => ended (serror 502 (redactSecrets "aap template list failed" res))
                  | Some (Ok items) => ended (sreply 200 (STemplates kind items))
                  end
              end
     end) w.
End Handlers.
