(* ===== verification/SettingsSpec.v ===== *)
(** * Secrets never leave the settings endpoints

    Two services that differ only in the values of their secrets - of the
    environment, of the stored rows, of the request - give the same replies. *)

From Stdlib Require Import Ascii.
From S2P Require Import Prelude GoLib Records Db Queue Dispatcher Access Sha256 Json Vault Aap Connections Settings.

Open Scope clm_scope.

(** ** Runs side by side *)

(** The computations take related worlds to related worlds, with related
    results. *)
Definition couples {A} (W : World -> World -> Prop) (R : A -> A -> Prop) (m m' : M A) : Prop :=
  forall w w', W w w' -> R (m w).1 (m' w').1 /\ W (m w).2 (m' w').2.

Section Couples.
Context (W : World -> World -> Prop).

Lemma couples_ret {A} (R : A -> A -> Prop) a a' : R a a' -> couples W R (mret a) (mret a').
Proof. intros Ha w w' Hw. by split. Qed.

Lemma couples_bind {A B} (R : A -> A -> Prop) (S : B -> B -> Prop) m m' f f' :
  couples W R m m' -> (forall a a', R a a' -> couples W S (f a) (f' a')) -> couples W S (mbind m f) (mbind m' f').
Proof.
  intros Hm Hf w w' Hw. unfold mbind. destruct (Hm w w' Hw) as [HR HW].
  destruct (m w) as [a w1], (m' w') as [a' w1']. by apply (Hf a a' HR).
Qed.

Lemma couples_impl {A} (R R' : A -> A -> Prop) m m' :
  (forall a a', R a a' -> R' a a') -> couples W R m m' -> couples W R' m m'.
Proof. intros HR Hm w w' Hw. destruct (Hm w w' Hw). auto. Qed.
End Couples.

(** Errors must agree, values be related. *)
Inductive res_rel {E A} (R : A -> A -> Prop) : result E A -> result E A -> Prop :=
| RelOk a a' : R a a' -> res_rel R (Ok a) (Ok a')
| RelErr e : res_rel R (Err e) (Err e).

(** Databases related by [D], the rest alike; what the others commit keeps
    the relation. *)
Section Worlds.
Context (D : DB -> DB -> Prop).

Definition twin (w w' : World) : Prop :=
  D w.(w_db) w'.(w_db) /\ w.(w_clock) = w'.(w_clock) /\ w.(w_env) = w'.(w_env) /\
  Forall (fun e => forall db db', D db db' -> D (e.(es_others) db) (e.(es_others) db')) w.(w_env).

Lemma twin_next_env w w' :
  twin w w' -> (next_env w).1 = (next_env w').1 /\ twin (next_env w).2 (next_env w').2.
Proof.
  intros (Hd & Hc & He & Hf). unfold next_env. destruct (w_env w) as [|e es] eqn:E; rewrite <- He; simpl.
  - split; [done|]. unfold twin. rewrite E. by split_and!.
  - apply Forall_cons in Hf as [Hfe Hf]. split; [done|]. unfold twin. simpl. rewrite Hc. by split_and!; auto.
Qed.

Lemma couples_time_now : couples twin eq time_now time_now.
Proof.
  intros w w' Hw. unfold time_now. destruct (twin_next_env w w' Hw) as [He Ht].
  destruct (next_env w) as [e w1], (next_env w') as [e' w1']. simpl in *. split; [by apply Ht|done].
Qed.

Lemma couples_store_call {A} (R : A -> A -> Prop) (t t' : txn A) :
  (forall c db db', D db db' ->
     match t c db, t' c db' with
     | Ok (d1, a), Ok (d1', a') => D d1 d1' /\ R a a'
     | Err e, Err e' => e = e'
     | _, _ => False
     end) ->
  couples twin (res_rel R) (store_call t) (store_call t').
Proof.
  intros Ht w w' Hw. unfold store_call. destruct (twin_next_env w w' Hw) as [He (Hd & Hc & Hen & Hf)].
  destruct (next_env w) as [e w1], (next_env w') as [e' w1']. simpl in *. subst e'.
  specialize (Ht {| NOW := w1.(w_clock); locked := e.(es_locked) |} _ _ Hd). rewrite <- Hc.
  destruct (es_fault e); [| by split; [constructor|]|]; destruct (t _ _) as [[d1 a]|x], (t' _ _) as [[d1' a']|x']; try done;
    simpl; try (destruct Ht as [HD HR]); subst; (split; [by constructor|]); by split_and!.
Qed.
End Worlds.

(** ** What two services may differ in *)

(** The same keys, and the same of them with a value that is not empty. *)
Definition same_shape (m m' : secret_map) : Prop := forall k, (set <$> m !! k) = (set <$> m' !! k).

Section Twins.
Context `{SecretsLib, !SecretsLaws} (key : string).

Definition row_twin (c c' : Connection) : Prop :=
  c.(cn_Target) = c'.(cn_Target) /\ c.(cn_Metadata) = c'.(cn_Metadata) /\ c.(cn_SecretsSet) = c'.(cn_SecretsSet) /\
  c.(cn_Source) = c'.(cn_Source) /\ c.(cn_UpdatedAt) = c'.(cn_UpdatedAt) /\ c.(cn_UpdatedBy) = c'.(cn_UpdatedBy) /\
  res_rel same_shape (DecryptSecrets key c) (DecryptSecrets key c').

Definition db_twin (db db' : DB) : Prop :=
  forall t, option_Forall2 row_twin (db.(connections) !! t) (db'.(connections) !! t).

Record env_twin (cfg cfg' : EnvConfig) : Prop := {
  et_vault : let v := cfg.(env_Vault) in let v' := cfg'.(env_Vault) in
    v.(vc_Address) = v'.(vc_Address) /\ v.(vc_Namespace) = v'.(vc_Namespace) /\ v.(vc_AuthMethod) = v'.(vc_AuthMethod) /\
    set v.(vc_Token) = set v'.(vc_Token) /\ set v.(vc_RoleID) = set v'.(vc_RoleID) /\ set v.(vc_SecretID) = set v'.(vc_SecretID);
  et_aap : let a := cfg.(env_AAP) in let a' := cfg'.(env_AAP) in
    a.(ap_BaseURL) = a'.(ap_BaseURL) /\ a.(ap_SkipTLSVerify) = a'.(ap_SkipTLSVerify) /\ set a.(ap_Token) = set a'.(ap_Token);
  et_eda : cfg.(env_EDA).(WebhookURL) = cfg'.(env_EDA).(WebhookURL) /\ set cfg.(env_EDA).(Token) = set cfg'.(env_EDA).(Token);
  et_template : cfg.(env_AAPRenewTemplate) = cfg'.(env_AAPRenewTemplate);
  et_workflow : cfg.(env_AAPRenewWorkflow) = cfg'.(env_AAPRenewWorkflow);
  et_mount : cfg.(env_AAPDefaultMount) = cfg'.(env_AAPDefaultMount)
}.

(** *** Secret maps *)

Lemma shape_merge prev prev' inc inc' keep :
  same_shape prev prev' -> same_shape inc inc' -> same_shape (mergeSecrets prev inc keep) (mergeSecrets prev' inc' keep).
Proof.
  intros Hp Hi k. rewrite !mergeSecrets_lookup. destruct (decide (k ∈ keep)); [apply Hp|].
  specialize (Hi k). unfold set in Hi. destruct (inc !! k) as [v|] eqn:E, (inc' !! k) as [v'|] eqn:E'; [|done|done|apply Hp].
  simpl in Hi. injection Hi as Hi. destruct (String.eqb_spec v ""), (String.eqb_spec v' ""); subst; try done; simpl.
  unfold set. by destruct (String.eqb_spec v ""), (String.eqb_spec v' "").
Qed.

Lemma shape_dom m m' k : same_shape m m' -> is_Some (m !! k) <-> is_Some (m' !! k).
Proof. intros Hs. specialize (Hs k). by destruct (m !! k), (m' !! k). Qed.

Lemma shape_empty m m' : same_shape m m' -> m = ∅ <-> m' = ∅.
Proof.
  intros Hs. assert (forall m m', same_shape m m' -> m = ∅ -> m' = ∅) as Hone.
  { clear. intros m m' Hs ->. apply map_eq. intros k. specialize (Hs k). rewrite lookup_empty in *. by destruct (m' !! k). }
  split; apply Hone; [done|]. intros k. by rewrite (Hs k).
Qed.

Lemma shape_hasNew m m' keep : same_shape m m' -> hasNewSecrets m keep = hasNewSecrets m' keep.
Proof.
  assert (forall m m', same_shape m m' -> hasNewSecrets m keep = true -> hasNewSecrets m' keep = true) as Hone.
  { clear. intros m m' Hs (kv & Hin & Hk)%existsb_exists. apply existsb_exists. destruct kv as [k v].
    apply list_elem_of_In, elem_of_map_to_list in Hin.
    destruct (proj1 (shape_dom m m' k Hs)) as [v' Hv']; [by exists v|]. exists (k, v').
    split; [by apply list_elem_of_In, elem_of_map_to_list|done]. }
  intros Hs. apply eq_bool_prop_intro. rewrite !Is_true_true. split; apply Hone; [done|].
  intros k. by rewrite (Hs k).
Qed.

Lemma shape_secret m m' k : same_shape m m' -> set (secret m k) = set (secret m' k).
Proof. intros Hs. specialize (Hs k). unfold secret. destruct (m !! k), (m' !! k); simpl in *; congruence. Qed.

Lemma set_overlay s s' t t' : set s = set s' -> set t = set t' -> set (overlay s t) = set (overlay s' t').
Proof. unfold set, overlay. destruct (String.eqb s "") eqn:E, (String.eqb s' "") eqn:E'; try done; by rewrite E, E'. Qed.

(** *** Upserts *)

Lemma prepare_twin old old' target metadata secrets secrets' keep actor now :
  option_Forall2 row_twin old old' -> same_shape secrets secrets' ->
  res_rel row_twin (prepareConnectionUpsert key old target metadata secrets keep actor now)
                   (prepareConnectionUpsert key old' target metadata secrets' keep actor now).
Proof.
  intros Ho Hs. unfold prepareConnectionUpsert. destruct (known_target target); [|constructor]. cbn [negb].
  rewrite <- (shape_hasNew _ _ keep Hs).
  assert (res_rel same_shape (secrets_of key old) (secrets_of key old')) as Hd.
  { destruct Ho as [c c' Hc|]; [by apply Hc|]. by constructor. }
  assert (match old with Some c => cn_SecretsSet c | None => false end = match old' with Some c => cn_SecretsSet c | None => false end) as Eset
    by (destruct Ho as [c c' Hc|]; [by apply Hc|done]).
  assert (forall (o : option Connection), DecryptSecrets key (Build_Connection target (default (JObj []) metadata)
      (match o with Some c => cn_SecretsEnc c | None => "" end) (match old' with Some c => cn_SecretsSet c | None => false end) "db" now actor)
      = secrets_of key o) as Hsec by (by intros [c|]).
  destruct (hasNewSecrets secrets keep) eqn:Hn; cbn [negb].
  2: { constructor. rewrite Eset. split_and!; try done. by rewrite !Hsec. }
  destruct (parseConnectionsKey key) as [k|e] eqn:Ek; [|constructor].
  assert (forall o : option Connection, (if String.eqb (match o with Some c => cn_SecretsEnc c | None => "" end) "" then Ok ∅
      else openSecrets k (match o with Some c => cn_SecretsEnc c | None => "" end)) = secrets_of key o) as Hopen.
  { intros [c|]; [|done]. unfold secrets_of, DecryptSecrets. by rewrite Ek. }
  rewrite !Hopen. destruct Hd as [prev prev' Hp|e]; [|constructor].
  pose proof (shape_merge _ _ _ _ keep Hp Hs) as Hm. pose proof (shape_empty _ _ Hm) as He.
  destruct (decide (mergeSecrets prev secrets keep = ∅)) as [Em|Em];
    destruct (decide (mergeSecrets prev' secrets' keep = ∅)) as [Em'|Em']; try tauto.
  - constructor. split_and!; try done. by constructor.
  - unfold sealSecrets at 1 2. destruct (rand_nonce now) as [nonce|e] eqn:En; [|constructor].
    constructor. split_and!; try done. unfold DecryptSecrets. simpl.
    destruct (open_sealed k (mergeSecrets prev secrets keep) now (nonce ++ gcm_Seal k nonce (secrets_Marshal (mergeSecrets prev secrets keep))))
      as [-> Eo]; [unfold sealSecrets; by rewrite En|].
    destruct (open_sealed k (mergeSecrets prev' secrets' keep) now (nonce ++ gcm_Seal k nonce (secrets_Marshal (mergeSecrets prev' secrets' keep))))
      as [-> Eo']; [unfold sealSecrets; by rewrite En|].
    rewrite Ek, Eo, Eo'. by constructor.
Qed.

Lemma couples_getConnection target :
  couples (twin db_twin) (res_rel (option_Forall2 row_twin)) (getConnection target) (getConnection target).
Proof. apply couples_store_call. intros c db db' Hd. split; [done|apply Hd]. Qed.

Lemma couples_try {A B} W (R : A -> A -> Prop) (S : B -> B -> Prop) (m m' : M (res A)) f f' :
  couples W (res_rel R) m m' -> (forall a a', R a a' -> couples W (res_rel S) (f a) (f' a')) ->
  couples W (res_rel S) (mtry m f) (mtry m' f').
Proof.
  intros Hm Hf. eapply couples_bind; [exact Hm|]. intros r r' [a a' Ha|e]; [by apply Hf|].
  apply couples_ret. constructor.
Qed.

Lemma couples_UpsertConnection target metadata secrets secrets' keep actor :
  same_shape secrets secrets' ->
  couples (twin db_twin) eq (UpsertConnection key target metadata secrets keep actor)
    (UpsertConnection key target metadata secrets' keep actor).
Proof.
  intros Hs. apply couples_impl with (R := res_rel (@eq unit)); [by intros ? ? [? ? ->|]|].
  eapply couples_try; [apply couples_getConnection|]. intros old old' Ho.
  eapply couples_bind; [apply couples_time_now|]. intros now ? <-.
  destruct (prepare_twin old old' target metadata secrets secrets' keep actor now Ho Hs) as [row row' Hr|e];
    [|apply couples_ret; constructor].
  apply couples_store_call. intros c db db' Hd. split; [|done]. unfold db_twin in *. simpl. intros t.
  destruct Hr as (Et & Hm & Hset & Hsrc & Hat & Hby & Hdec). rewrite Et.
  destruct (decide (cn_Target row' = t)) as [<-|Hne]; [|by rewrite !lookup_insert_ne].
  rewrite !lookup_insert_eq. constructor. split_and!; done.
Qed.

(** *** Resolution *)

Lemma stable_sort_Forall2 {A} (R : A -> A -> Prop) (less : A -> A -> bool) l l' :
  (forall a a' b b', R a a' -> R b b' -> less a b = less a' b') ->
  Forall2 R l l' -> Forall2 R (stable_sort less l) (stable_sort less l').
Proof.
  intros Hl. induction 1 as [|a a' l l' Ha _ IH]; simpl; [constructor|].
  revert IH. generalize (stable_sort less l) (stable_sort less l'). intros s s'.
  induction 1 as [|b b' s s' Hb Hs IHs]; simpl; [by repeat constructor|].
  rewrite <- (Hl b b' a a' Hb Ha). destruct (less b a); by repeat constructor.
Qed.

Lemma map_to_list_Forall2 {A} (R : A -> A -> Prop) (m m' : gmap string A) :
  (forall k, option_Forall2 R (m !! k) (m' !! k)) -> Forall2 R (map snd (map_to_list m)) (map snd (map_to_list m')).
Proof.
  intros Hr. set (z := map_zip m m').
  assert (m = fst <$> z) as Em.
  { apply map_eq. intros k. unfold z. rewrite lookup_fmap, map_lookup_zip_with. by destruct (Hr k). }
  assert (m' = snd <$> z) as Em'.
  { apply map_eq. intros k. unfold z. rewrite lookup_fmap, map_lookup_zip_with. by destruct (Hr k). }
  assert (forall p, p ∈ map_to_list z -> R p.2.1 p.2.2) as Hz.
  { intros [k [a a']]. rewrite elem_of_map_to_list. unfold z. rewrite map_lookup_zip_with. simpl.
    by destruct (Hr k) as [? ? HR|]; intros [= <- <-]. }
  rewrite Em, Em', !map_to_list_fmap. revert Hz. generalize (map_to_list z). clear.
  induction l as [|[k [a a']] l IH]; intros Hz; simpl; [constructor|].
  constructor; [apply (Hz (k, (a, a'))); constructor|]. apply IH. intros p Hp. apply Hz. by constructor.
Qed.

Lemma couples_GetConnections :
  couples (twin db_twin) (res_rel (Forall2 row_twin)) GetConnections GetConnections.
Proof.
  apply couples_store_call. intros c db db' Hd. split; [done|]. apply stable_sort_Forall2.
  - intros a a' b b' [Ea _] [Eb _]. unfold by_target. by rewrite Ea, Eb.
  - by apply map_to_list_Forall2.
Qed.

Lemma byTarget_twin rows rows' t :
  Forall2 row_twin rows rows' -> option_Forall2 row_twin (byTarget rows !! t) (byTarget rows' !! t).
Proof.
  intros Hr. unfold byTarget.
  enough (forall m m' : gmap string Connection, option_Forall2 row_twin (m !! t) (m' !! t) ->
    option_Forall2 row_twin (foldl (fun m c => <[c.(cn_Target) := c]> m) m rows !! t)
                            (foldl (fun m c => <[c.(cn_Target) := c]> m) m' rows' !! t)) as Hf
    by (apply Hf; rewrite lookup_empty; constructor).
  induction Hr as [|c c' rows rows' Hc _ IH]; intros m m' Hm; simpl; [done|]. apply IH.
  destruct Hc as (Et & Hc). rewrite Et. destruct (decide (cn_Target c' = t)) as [<-|Hne]; [|by rewrite !lookup_insert_ne].
  rewrite !lookup_insert_eq. by constructor.
Qed.

Definition secrets_twin (s s' : gmap string secret_map) : Prop := forall t, option_Forall2 same_shape (s !! t) (s' !! t).

Lemma decrypt_all_twin rows rows' acc acc' :
  Forall2 row_twin rows rows' -> secrets_twin acc acc' ->
  res_rel secrets_twin (decrypt_all key rows acc) (decrypt_all key rows' acc').
Proof.
  intros Hr. revert acc acc'. induction Hr as [|c c' rows rows' Hc _ IH]; intros acc acc' Ha; simpl; [by constructor|].
  destruct Hc as (Et & _ & _ & _ & _ & _ & Hd). destruct Hd as [m m' Hm|e]; [|constructor].
  apply IH. intros t. rewrite Et. destruct (decide (cn_Target c' = t)) as [<-|Hne]; [|by rewrite !lookup_insert_ne].
  rewrite !lookup_insert_eq. by constructor.
Qed.

Lemma stored_twin target row row' :
  option_Forall2 row_twin row row' -> option_Forall2 row_twin (stored target row) (stored target row').
Proof.
  intros [c c' Hc|]; [|constructor]. unfold stored. pose proof Hc as (Et & _ & _ & Es & _). rewrite <- Et, <- Es.
  destruct (_ && _); by constructor.
Qed.

Section Resolution.
Context (cfg cfg' : EnvConfig) (Hcfg : env_twin cfg cfg').

Lemma resolveVault_view row row' m m' :
  option_Forall2 row_twin row row' -> same_shape m m' ->
  res_rel (fun x x' => x.2 = x'.2) (resolveVault cfg row m) (resolveVault cfg' row' m').
Proof.
  intros Hrow Hm. destruct Hcfg as [(Ea & En & Eu & Et & Er & Es) _ _ _ _ _]. unfold resolveVault, vault_overlay.
  destruct (stored_twin "vault" _ _ Hrow) as [c c' (_ & Emeta & _)|].
  - rewrite <- Emeta. destruct (decode_vaultMeta _) as [v|]; [|constructor]. constructor. simpl.
    rewrite Ea, En, Eu. f_equal; apply set_overlay; by try apply shape_secret.
  - constructor. simpl. by rewrite Ea, En, Eu, Et, Er, Es.
Qed.

Lemma resolveAAP_view row row' m m' :
  option_Forall2 row_twin row row' -> same_shape m m' ->
  res_rel (fun x x' => x.2 = x'.2) (resolveAAP cfg row m) (resolveAAP cfg' row' m').
Proof.
  intros Hrow Hm. destruct Hcfg as [_ (Eu & Ek & Et) _ Etp Ew Em]. unfold resolveAAP.
  destruct (stored_twin "aap" _ _ Hrow) as [c c' (_ & Emeta & _)|].
  - rewrite <- Emeta. destruct (decode_aapMeta _) as [v|]; [|constructor]. constructor. simpl.
    rewrite Eu, Ek, Etp, Ew, Em. f_equal; apply set_overlay; by try apply shape_secret.
  - constructor. simpl. by rewrite Eu, Ek, Et, Etp, Ew, Em.
Qed.

Lemma resolveEDA_view row row' m m' :
  option_Forall2 row_twin row row' -> same_shape m m' ->
  res_rel (fun x x' => x.2 = x'.2) (resolveEDA cfg row m) (resolveEDA cfg' row' m').
Proof.
  intros Hrow Hm. destruct Hcfg as [_ _ (Eu & Et) _ _ _]. unfold resolveEDA.
  destruct (stored_twin "eda" _ _ Hrow) as [c c' (_ & Emeta & _)|].
  - rewrite <- Emeta. destruct (decode_edaMeta _) as [v|]; [|constructor]. constructor. simpl.
    rewrite Eu. f_equal; apply set_overlay; by try apply shape_secret.
  - constructor. simpl. by rewrite Eu, Et.
Qed.

Lemma resolve_rows_view rows rows' :
  Forall2 row_twin rows rows' ->
  res_rel (fun r r' => r.(rs_View) = r'.(rs_View)) (resolve_rows cfg key rows) (resolve_rows cfg' key rows').
Proof.
  intros Hr. unfold resolve_rows.
  destruct (decrypt_all_twin rows rows' ∅ ∅ Hr) as [s s' Hs|e]; [intros t; rewrite lookup_empty; constructor| |constructor].
  unfold Resolve.
  assert (forall t, same_shape (default ∅ (s !! t)) (default ∅ (s' !! t))) as Hd.
  { intros t. by destruct (Hs t). }
  destruct (resolveVault_view _ _ _ _ (byTarget_twin _ _ "vault" Hr) (Hd "vault"%string)) as [[v vv] [v' vv'] Ev|e]; [|constructor].
  destruct (resolveAAP_view _ _ _ _ (byTarget_twin _ _ "aap" Hr) (Hd "aap"%string)) as [[a av] [a' av'] Ea|e]; [|constructor].
  destruct (resolveEDA_view _ _ _ _ (byTarget_twin _ _ "eda" Hr) (Hd "eda"%string)) as [[e ev] [e' ev'] Ee|e]; [|constructor].
  constructor. simpl in *. congruence.
Qed.

Lemma couples_writeConnectionsView :
  couples (twin db_twin) eq (writeConnectionsView cfg key) (writeConnectionsView cfg' key).
Proof.
  unfold writeConnectionsView. eapply couples_bind with (R := res_rel (fun r r' => r.(rs_View) = r'.(rs_View))).
  - eapply couples_try; [apply couples_GetConnections|]. intros rows rows' Hr. by apply couples_ret, resolve_rows_view.
  - intros r r' [a a' Ha|e]; apply couples_ret; [by rewrite Ha|done].
Qed.
End Resolution.
(** *** Requests *)

Definition field_twin (f f' : SecretField) : Prop :=
  f.(sf_present) = f'.(sf_present) /\ f.(sf_null) = f'.(sf_null) /\ set f.(sf_value) = set f'.(sf_value).
Definition vault_write_twin (t t' : VaultWrite) : Prop :=
  t.(vw_Deployment) = t'.(vw_Deployment) /\ t.(vw_Addr) = t'.(vw_Addr) /\ t.(vw_Namespace) = t'.(vw_Namespace) /\
  t.(vw_AuthMethod) = t'.(vw_AuthMethod) /\ field_twin t.(vw_Token) t'.(vw_Token) /\ field_twin t.(vw_RoleID) t'.(vw_RoleID) /\
  field_twin t.(vw_SecretID) t'.(vw_SecretID).
Definition aap_write_twin (t t' : AapWrite) : Prop :=
  t.(aw_URL) = t'.(aw_URL) /\ t.(aw_RenewTemplate) = t'.(aw_RenewTemplate) /\ t.(aw_RenewWorkflow) = t'.(aw_RenewWorkflow) /\
  t.(aw_SkipTLSVerify) = t'.(aw_SkipTLSVerify) /\ t.(aw_DefaultMount) = t'.(aw_DefaultMount) /\ field_twin t.(aw_Token) t'.(aw_Token).
Definition eda_write_twin (t t' : EdaWrite) : Prop :=
  t.(ew_WebhookURL) = t'.(ew_WebhookURL) /\ field_twin t.(ew_Token) t'.(ew_Token).
Definition write_twin (q q' : ConnectionsWrite) : Prop :=
  option_Forall2 vault_write_twin q.(cw_Vault) q'.(cw_Vault) /\ option_Forall2 aap_write_twin q.(cw_AAP) q'.(cw_AAP) /\
  option_Forall2 eda_write_twin q.(cw_EDA) q'.(cw_EDA).

Definition target_twin (t t' : TargetWrite) : Prop :=
  t.(tw_target) = t'.(tw_target) /\ (forall prev replace, t.(tw_meta) prev replace = t'.(tw_meta) prev replace) /\
  Forall2 (fun kf kf' => kf.1 = kf'.1 /\ field_twin kf.2 kf'.2) t.(tw_secrets) t'.(tw_secrets).

Lemma vault_target_twin t t' : vault_write_twin t t' -> target_twin (vault_write t) (vault_write t').
Proof.
  destruct t, t'. unfold vault_write_twin. simpl. intros (-> & -> & -> & -> & Ht & Hr & Hs).
  split_and!; [done|done|]. do 3 (constructor; [by split|]). constructor.
Qed.
Lemma aap_target_twin t t' : aap_write_twin t t' -> target_twin (aap_write t) (aap_write t').
Proof.
  destruct t, t'. unfold aap_write_twin. simpl. intros (-> & -> & -> & -> & -> & Ht).
  split_and!; [done|done|]. constructor; [by split|constructor].
Qed.
Lemma eda_target_twin t t' : eda_write_twin t t' -> target_twin (eda_write t) (eda_write t').
Proof. destruct t, t'. unfold eda_write_twin. simpl. intros (-> & Ht). split_and!; [done|done|].
  constructor; [by split|constructor].
Qed.

Lemma collectSecrets_twin fs fs' :
  Forall2 (fun kf kf' => kf.1 = kf'.1 /\ field_twin kf.2 kf'.2) fs fs' ->
  same_shape (collectSecrets fs).1 (collectSecrets fs').1 /\ (collectSecrets fs).2 = (collectSecrets fs').2.
Proof.
  unfold collectSecrets. simpl. induction 1 as [|[k f] [k' f'] fs fs' [Ek Hf] _ [IH1 IH2]]; [by split|]. simpl in Ek. subst k'.
  destruct Hf as (Ep & En & Ev). simpl in *. rewrite !filter_cons. simpl.
  assert (keeps f = keeps f') as Ekeep.
  { unfold keeps, set in *. rewrite Ep, En. by destruct (String.eqb (sf_value f) ""), (String.eqb (sf_value f') ""). }
  rewrite Ekeep. destruct (keeps f') eqn:E; simpl; (split; [|by rewrite ?IH2]); [done|].
  intros i. destruct (decide (k = i)) as [<-|Hne]; [|by rewrite !lookup_insert_ne].
  rewrite !lookup_insert_eq. simpl. f_equal. rewrite En. by destruct (sf_null f').
Qed.

Section HandlerTwins.
Context `{VaultLib, AapLib, HttpPeer} (server : Server).
Context (cfg cfg' : EnvConfig) (Hcfg : env_twin cfg cfg').
Abbreviation same := (couples (twin db_twin) eq).

Lemma couples_upsertTarget t t' old old' replace actor k k' :
  target_twin t t' -> option_Forall2 row_twin old old' -> same k k' ->
  same (upsertTarget key t old replace actor k) (upsertTarget key t' old' replace actor k').
Proof.
  intros (Et & Hmeta & Hsec) Ho Hk. unfold upsertTarget. rewrite <- Hmeta, <- Et.
  assert (cn_Metadata <$> old = cn_Metadata <$> old') as <-.
  { destruct Ho as [c c' (_ & Em & _)|]; [|done]. simpl. by rewrite Em. }
  destruct (tw_meta t _ replace) as [meta|]; [|by apply couples_ret].
  apply collectSecrets_twin in Hsec. destruct (collectSecrets (tw_secrets t)) as [m keep], (collectSecrets (tw_secrets t')) as [m' keep'].
  simpl in Hsec. destruct Hsec as [Hm <-]. eapply couples_bind; [by apply couples_UpsertConnection|].
  intros r ? <-. destruct r as [|e]; [done|]. destruct e; by apply couples_ret.
Qed.

Lemma couples_patch_target {A} (T : A -> A -> Prop) t t' (write : A -> TargetWrite) old old' actor k k' :
  (forall a a', T a a' -> target_twin (write a) (write a')) -> option_Forall2 T t t' ->
  (forall i, option_Forall2 row_twin (old !! i) (old' !! i)) -> same k k' ->
  same (patch_target key t write old actor k) (patch_target key t' write old' actor k').
Proof.
  intros Hw Ht Ho Hk. destruct Ht as [a a' Ha|]; [|done]. pose proof (Hw a a' Ha) as Hwa. simpl.
  apply couples_upsertTarget; [exact Hwa| |exact Hk]. destruct Hwa as [-> _]. apply Ho.
Qed.

(** A request to the settings, with the document of its body. *)
Inductive SettingsRequest := SettingsGet | SettingsPut (body : option json) | SettingsPatch (body : option json).
Definition settings_handle (c : EnvConfig) (r : Request) (q : SettingsRequest) : M SettingsReply :=
  match q with
  | SettingsGet => handleGetConnections server c key r
  | SettingsPut body => handlePutConnections server c key r body
  | SettingsPatch body => handlePatchConnections server c key r body
  end.
Definition body_twin (b b' : option json) : Prop :=
  option_Forall2 write_twin (decodeConnectionsWrite b) (decodeConnectionsWrite b').
Definition request_twin (q q' : SettingsRequest) : Prop :=
  match q, q' with
  | SettingsGet, SettingsGet => True
  | SettingsPut b, SettingsPut b' | SettingsPatch b, SettingsPatch b' => body_twin b b'
  | _, _ => False
  end.

Lemma validate_twin q q' : write_twin q q' -> validateConnectionsWrite q = validateConnectionsWrite q'.
Proof.
  intros (Hv & _). unfold validateConnectionsWrite. destruct Hv as [v v' (Ed & _ & _ & Ea & _)|]; [|done]. by rewrite Ed, Ea.
Qed.

Lemma couples_access r method k k' :
  (forall actor, same (k actor) (k' actor)) ->
  same (requireSettingsAccess server r method k) (requireSettingsAccess server r method k').
Proof.
  intros Hk. unfold requireSettingsAccess. destruct (String.eqb _ _); [by apply couples_ret|].
  destruct (roleAllows _ _ _); [apply Hk|by apply couples_ret].
Qed.

Lemma couples_settings r q q' : request_twin q q' -> same (settings_handle cfg r q) (settings_handle cfg' r q').
Proof.
  intros Hq. destruct q as [|b|b], q' as [|b'|b']; try done; simpl in *; apply couples_access; intros actor.
  - by apply couples_writeConnectionsView.
  - destruct Hq as [w w' Hw|]; [|by apply couples_ret]. rewrite <- (validate_twin w w' Hw). destruct Hw as (Hv & Ha & He).
    destruct Hv as [v v' Hv|]; [|by apply couples_ret]. destruct Ha as [a a' Ha|]; [|by apply couples_ret].
    destruct He as [e e' He|]; [|by apply couples_ret]. destruct (validateConnectionsWrite w); [|by apply couples_ret].
    apply couples_upsertTarget; [by apply vault_target_twin|constructor|].
    apply couples_upsertTarget; [by apply aap_target_twin|constructor|].
    apply couples_upsertTarget; [by apply eda_target_twin|constructor|]. by apply couples_writeConnectionsView.
  - destruct Hq as [w w' Hw|]; [|by apply couples_ret]. pose proof (validate_twin w w' Hw) as Ev.
    assert (same (match validateConnectionsWrite w with
      | Err msg => serror 400 msg
      | Ok _ => existing <-- connectionByTarget ;;
          match existing with
          | Err _ => serror 500 "failed to load connections"
          | Ok existing =>
              patch_target key w.(cw_Vault) vault_write existing actor
                (patch_target key w.(cw_AAP) aap_write existing actor
                   (patch_target key w.(cw_EDA) eda_write existing actor (writeConnectionsView cfg key)))
          end
      end) (match validateConnectionsWrite w' with
      | Err msg => serror 400 msg
      | Ok _ => existing <-- connectionByTarget ;;
          match existing with
          | Err _ => serror 500 "failed to load connections"
          | Ok existing =>
              patch_target key w'.(cw_Vault) vault_write existing actor
                (patch_target key w'.(cw_AAP) aap_write existing actor
                   (patch_target key w'.(cw_EDA) eda_write existing actor (writeConnectionsView cfg' key)))
          end
      end)) as Hpatch.
    { rewrite <- Ev. destruct (validateConnectionsWrite w); [|by apply couples_ret].
      eapply couples_bind with (R := res_rel (fun m m' => forall i, option_Forall2 row_twin (m !! i) (m' !! i))).
      - eapply couples_try; [apply couples_GetConnections|]. intros rows rows' Hr. apply couples_ret. constructor.
        intros i. by apply byTarget_twin.
      - intros r1 r2 [m m' Hm|e]; [|by apply couples_ret]. destruct Hw as (Hv & Ha & He).
        eapply couples_patch_target; [apply vault_target_twin|done|done|].
        eapply couples_patch_target; [apply aap_target_twin|done|done|].
        eapply couples_patch_target; [apply eda_target_twin|done|done|]. by apply couples_writeConnectionsView. }
    destruct Hw as (Hv & Ha & He). destruct w as [wv wa we], w' as [wv' wa' we']. simpl in *.
    destruct Hv, Ha, He; try exact Hpatch. by apply couples_ret.
Qed.

(** C21. The settings endpoints never tell a secret: take two services whose
    environments, stored connections and requests differ at most in the values
    of their secrets - which of them are set is the same - and in which the
    others' commits keep it so; reading, replacing and patching the settings
    gives the same reply in both, whatever fails on the way. *)
Theorem settings_replies_hide_secrets r q q' w w' :
  request_twin q q' -> twin db_twin w w' ->
  (settings_handle cfg r q w).1 = (settings_handle cfg' r q' w').1.
Proof. intros Hq Hw. by apply (couples_settings r q q' Hq w w'). Qed.
End HandlerTwins.
End Twins.

(** ** Witnesses *)

Section Demo.
(** A cipher that hides nothing, which the laws allow. *)
Fixpoint bits_text (p : positive) : string :=
  match p with xI p => String "1" (bits_text p) | xO p => String "0" (bits_text p) | xH => "" end.
Fixpoint text_bits (s : string) : positive :=
  match s with EmptyString => xH | String c s => if Ascii.eqb c "1" then xI (text_bits s) else xO (text_bits s) end.
Lemma text_bits_text p : text_bits (bits_text p) = p.
Proof. induction p as [p IH|p IH|]; simpl; by rewrite ?IH. Qed.

#[local] Instance demo_secrets : SecretsLib := {|
  gcm_Seal := fun _ _ p => p;
  gcm_Open := fun _ _ c => Ok c;
  rand_nonce := fun _ => Ok "000000000000"%string;
  secrets_Marshal := fun m => bits_text (encode (map_to_list m));
  secrets_Unmarshal := fun s => match decode (text_bits s) with Some l => Ok (list_to_map l) | None => Err "json"%string end |}.
#[local] Instance demo_secrets_laws : SecretsLaws.
Proof.
  split; [done|by intros t n [= <-]|]. intros m. simpl. by rewrite text_bits_text, decode_encode, list_to_map_to_list.
Qed.

Definition demo_key : string := "0123456789abcdef0123456789abcdef".
Definition demo_env (token : string) : EnvConfig :=
  Build_EnvConfig (Build_ClientConfig "https://vault" "admin" token "approle" "role" "sid") (Build_AapConfig "https://aap" token false)
    "CLM" true "pki" (Build_Config "" "" 0 0 0 "" 0 "" "").
Definition demo_settings_world : World := calm_world (Build_DB ∅ [] ∅ ∅ [] [] ∅ ∅ ∅ ∅ ∅ 0) 0.
Definition demo_admin : Server := Build_Server (Build_AuthConfig false "" "" ∅ "" "" "" "" "") "" false.
Definition demo_patch_req : Request := Build_Request "PATCH" "/api/v1/settings/connections" "" "" "" (Some rolePlatformAdmin).
Definition demo_patch (token : string) : SettingsRequest :=
  SettingsPatch (Some (JObj [("aap", JObj [("token", JStr token)])]))%string.

Lemma settings_replies_hide_secrets_witness :
  (settings_handle demo_key demo_admin (demo_env "one") demo_patch_req (demo_patch "secret") demo_settings_world).1.(sr_status) = 200 /\
  (settings_handle demo_key demo_admin (demo_env "one") demo_patch_req (demo_patch "secret") demo_settings_world).1 =
  (settings_handle demo_key demo_admin (demo_env "other") demo_patch_req (demo_patch "hidden") demo_settings_world).1.
Proof.
  split; [vm_compute; reflexivity|].
  apply settings_replies_hide_secrets; [constructor; simpl; auto 6| |].
  - constructor. split_and!; repeat constructor.
  - split_and!; [intros t; simpl; rewrite lookup_empty; constructor|done|done|constructor].
Defined.

Definition demo_save (token : string) := UpsertConnection demo_key "aap" None {["token"%string := token]} [] "admin".

(** A patch of the address alone stores the defaults of the other columns, and
    these then hide the environment's: a service that logs in to Vault with an
    AppRole in a namespace loses both. *)
Example patch_hides_environment :
  let '(reply, w) := settings_handle demo_key demo_admin (demo_env "t") demo_patch_req
    (SettingsPatch (Some (JObj [("vault", JObj [("addr", JStr "https://vault2")])])))%string demo_settings_world in
  match reply.(sr_body) with
  | SView v => v.(pv_Vault).(vp_AuthMethod) = "token"%string /\ v.(pv_Vault).(vp_Namespace) = ""%string /\
               (demo_env "t").(env_Vault).(vc_AuthMethod) = "approle"%string /\ (demo_env "t").(env_Vault).(vc_Namespace) = "admin"%string
  | _ => False
  end.
Proof. vm_compute. split_and!; reflexivity. Qed.

(** A replacement that is refused has replaced the first target already. *)
Example put_half_applied :
  let '(reply, w) := settings_handle "" demo_admin (demo_env "t") (demo_patch_req <| rq_Method := "PUT"%string |>)
    (SettingsPut (Some (JObj [("vault", JObj [("addr", JStr "https://vault2")]); ("aap", JObj [("token", JStr "x")]); ("eda", JObj [])])))%string
    demo_settings_world in
  reply.(sr_status) = 503 /\ map fst (map_to_list w.(w_db).(connections)) = ["vault"%string].
Proof. vm_compute. split; reflexivity. Qed.
End Demo.
