(* ===== verification/ScanWorker.v ===== *)
(** * The scan worker (internal/api/scan_worker.go)

    The poller that claims scans from the queue, within its slots, and runs
    each in a goroutine of its own; what follows a completed scan. *)

From S2P Require Import Prelude GoLib Records Db Queue CertStore ScanQueue ScanRunner Ip Scanner Posture Vault.

Open Scope clm_scope.

(** The settings of the worker, and [time.Duration] defaults. *)
Record ScanWorkerConfig := Build_ScanWorkerConfig {
  sw_ScanWorkerID : string; sw_ScanWorkerSlots : Z; sw_ScanClaimInterval : duration; sw_ScanLeaseTTL : duration;
  sw_AllowPrivateRanges : bool; sw_ReconcileOnScanComplete : bool
}.

(** [ScanWorker]: its fixed fields; [generated] is the host name with eight
    bytes of a fresh UUID. *)
Record ScanWorker := Build_ScanWorker { sw_owner : string; sw_slots : Z; sw_every : duration; sw_lease : duration }.
Definition NewScanWorker (cfg : ScanWorkerConfig) (generated : string) : ScanWorker :=
  let or_default d x := if x <=? 0 then d else x in
  {| sw_owner := if String.eqb cfg.(sw_ScanWorkerID) "" then generated else cfg.(sw_ScanWorkerID);
     sw_slots := or_default 2 cfg.(sw_ScanWorkerSlots);
     sw_every := or_default (2 * Second) cfg.(sw_ScanClaimInterval);
     sw_lease := or_default (30 * Second) cfg.(sw_ScanLeaseTTL) |}.

(** The heartbeat's period: half the lease, at least a second. *)
Definition heartbeat_interval (w : ScanWorker) : duration := Z.max Second (w.(sw_lease) / 2).

(** The scans that run, which are the tokens in the semaphore, and whether the
    context has been cancelled. *)
Record Running := Build_Running { rn_scans : list Scan; rn_cancelled : bool }.

Section ScanWorker.
Context `{UuidGen, StoreConfig} (wk : ScanWorker).

(** The loop of [tick] over the claimed scans.  Once the context is cancelled
    the select may take either branch: [stop] tells at which scan, if any, it
    takes [ctx.Done()]. *)
Fixpoint start_scans (scans : list Scan) (stop : option nat) (r : Running) : M Running :=
  match scans with
  | [] => mret r
  | scan :: scans' =>
      match stop with
      | Some O =>
          if r.(rn_cancelled) then _ <-- ReleaseScanClaim scan.(s_ID) wk.(sw_owner) ;; mret r
          else start_scans scans' None (Build_Running (r.(rn_scans) ++ [scan]) r.(rn_cancelled))
      | _ => start_scans scans' (pred <$> stop) (Build_Running (r.(rn_scans) ++ [scan]) r.(rn_cancelled))
      end
  end.

Definition tick (stop : option nat) (r : Running) : M Running :=
  let available := wk.(sw_slots) - Z.of_nat (length r.(rn_scans)) in
  if available <=? 0 then mret r
  else
    c <-- ClaimNextScans wk.(sw_owner) wk.(sw_lease) available ;;
    match c with
    | Err _ => mret r
    | Ok scans => start_scans scans stop r
    end.

Definition heartbeat (scan : Scan) : M (res unit) := HeartbeatScanClaim scan.(s_ID) wk.(sw_owner).
End ScanWorker.

(** ** One scan *)

Section Execute.
Context {S : Type} `{UuidGen, StoreConfig, OpsPolicy, Prober, Resolver, VaultLib, !PKIReader S}
  (cfg : ScanWorkerConfig) (wk : ScanWorker).

(** [maybeRecomputePostureAfterScan], [maybeReconcileAfterScan]; the
    reconciler is set when Vault is configured, and its failures are logged. *)
Definition maybeRecomputePostureAfterScan (scanID : uuid) : M unit := quietly (RecomputeScan scanID) tt.
Definition maybeReconcileAfterScan (reconciler : option S) : M (option S) :=
  match reconciler with
  | Some s => if cfg.(sw_ReconcileOnScanComplete) then x <-- Reconcile s ;; mret (Some x.2) else mret reconciler
  | None => mret None
  end.

(** The targets of a scan, or the error its row is failed with. *)
Definition expansion_of (scan : Scan) : res (list Target * list string) :=
  match ExpandScanTargets scan.(s_Ports) cfg.(sw_AllowPrivateRanges) scan.(s_CIDRs) scan.(s_Hostnames) with
  | (Ok ts, warnings) => Ok (ts, warnings)
  | (Err e, _) => Err (ErrMsg e)
  end.

(** [execute]: the run under one schedule [cs] of its goroutines ([None] when
    that is no schedule); [cancelled] tells whether the context was cancelled
    meanwhile. *)
Definition execute (scan : Scan) (cs : list choice) (cancelled : bool) (reconciler : option S) (w : World) :
    option (option S * World) :=
  match Run (Build_Job scan.(s_ID) scan.(s_Concurrency)) (expansion_of scan) cs w with
  | None => None
  | Some (err, w1) =>
      Some (
        if cancelled then (_ <-- ReleaseScanClaim scan.(s_ID) wk.(sw_owner) ;; mret reconciler) w1
        else match err with
             | Ok _ => (_ <-- maybeRecomputePostureAfterScan scan.(s_ID) ;; maybeReconcileAfterScan reconciler) w1
             | Err _ => (reconciler, w1)
             end)
  end.
End Execute.

(** ** The slots are enough *)

Section Slots.
Context `{UuidGen, StoreConfig} (wk : ScanWorker).

(** Everything that happens to the set of running scans: a tick, a scan that
    ends, a shutdown. *)
Inductive worker_step : Running * World -> Running * World -> Prop :=
| StepTick stop r w r' w' : tick wk stop r w = (r', w') -> worker_step (r, w) (r', w')
| StepEnd r w l scan l' w' : r.(rn_scans) = l ++ scan :: l' -> worker_step (r, w) (Build_Running (l ++ l') r.(rn_cancelled), w')
| StepCancel r w w' : worker_step (r, w) (Build_Running r.(rn_scans) true, w').

Lemma mcollect_length {A B} (l : list A) (m : A -> M (res B)) w ys w' :
  mcollect l m w = (Ok ys, w') -> length ys = length l.
Proof.
  revert w ys w'. induction l as [|x l IH]; intros w ys w'; simpl; [by intros [= <- _]|].
  intros (y & w1 & _ & (ys' & w2 & Hl & E)%mtry_ok)%mtry_ok. injection E as <- _. simpl. f_equal. by eapply IH.
Qed.

Lemma claim_at_most owner lease limit w cs w' :
  0 < limit -> ClaimNextScans owner lease limit w = (Ok cs, w') -> Z.of_nat (length cs) <= limit.
Proof.
  intros Hl. unfold ClaimNextScans. destruct (String.eqb owner ""); [done|]. unfold mbind at 1.
  destruct (time_now w) as [now w1]. replace (limit <=? 0) with false by (symmetry; apply Z.leb_gt; lia).
  intros (ids & w2 & Hids & Hc)%mtry_ok. apply mcollect_length in Hc as ->.
  apply store_call_spec in Hids as (e & w3 & _ & [(_ & err & [=] & _)|(a & db' & Ht & _ & [[= ->]|[=]])]).
  unfold claim_scans_tx, claim in Ht. injection Ht as _ <-.
  match goal with |- Z.of_nat (length (select_skip_locked ?p ?l ?lk ?n ?t)) <= _ => pose proof (select_length p l lk n t) end.
  lia.
Qed.

Lemma start_scans_spec scans stop r w r' w' :
  start_scans wk scans stop r w = (r', w') ->
  rn_cancelled r' = rn_cancelled r /\
  exists n, rn_scans r' = rn_scans r ++ take n scans /\
    (n = length scans \/ (n < length scans)%nat /\ rn_cancelled r = true).
Proof.
  revert stop r w. induction scans as [|scan scans IH]; intros stop r w; cbn [start_scans].
  - intros [= <- <-]. split; [done|]. exists 0%nat. rewrite app_nil_r. auto.
  - assert (forall stop' w, start_scans wk scans stop' (Build_Running (rn_scans r ++ [scan]) (rn_cancelled r)) w = (r', w') ->
      rn_cancelled r' = rn_cancelled r /\ exists n, rn_scans r' = rn_scans r ++ take n (scan :: scans) /\
        (n = length (scan :: scans) \/ (n < length (scan :: scans))%nat /\ rn_cancelled r = true)) as Hgo.
    { intros stop' w1 (Hc & n & Hn & Hl)%IH. split; [done|]. exists (S n). simpl in *. rewrite Hn, <- app_assoc.
      split; [done|]. destruct Hl as [->|[? ?]]; [by left|right; split; [lia|done]]. }
    destruct stop as [[|k]|]; try apply Hgo. destruct (rn_cancelled r) eqn:Ec; [|apply Hgo].
    unfold mbind. destruct (ReleaseScanClaim _ _ w) as [x w1]. intros [= <- <-]. split; [done|].
    exists 0%nat. rewrite app_nil_r. simpl. split; [done|]. right. split; [lia|done].
Qed.

Lemma tick_spec stop r w r' w' :
  tick wk stop r w = (r', w') -> rn_cancelled r' = rn_cancelled r /\
  exists started, rn_scans r' = rn_scans r ++ started /\
    (started = [] \/ Z.of_nat (length (rn_scans r')) <= wk.(sw_slots)) .
Proof.
  unfold tick. destruct (Z.leb_spec (sw_slots wk - Z.of_nat (length (rn_scans r))) 0).
  { intros [= <- <-]. split; [done|]. exists []. rewrite app_nil_r. auto. }
  unfold mbind. destruct (ClaimNextScans _ _ _ w) as [[scans|e] w1] eqn:E.
  - apply claim_at_most in E; [|lia]. intros (Hc & n & Hn & _)%start_scans_spec. split; [done|].
    exists (take n scans). split; [done|]. right. rewrite Hn, length_app, length_take. lia.
  - intros [= <- <-]. split; [done|]. exists []. rewrite app_nil_r. auto.
Qed.

(** The poller never runs more scans than its slots, and never blocks:
    however its ticks interleave with the ends of scans, with a shutdown and
    with what other replicas and faults do to the queue, at most [slots] scans
    run, the number it claims is at most the number of free slots, and unless
    it is shutting down it starts every scan it claimed. *)
Theorem worker_slots w0 s :
  0 < wk.(sw_slots) -> rtc worker_step (Build_Running [] false, w0) s ->
  Z.of_nat (length s.1.(rn_scans)) <= wk.(sw_slots) /\
  forall stop scans w w1 w' r',
    let available := wk.(sw_slots) - Z.of_nat (length s.1.(rn_scans)) in
    0 < available -> ClaimNextScans wk.(sw_owner) wk.(sw_lease) available w = (Ok scans, w1) ->
    tick wk stop s.1 w = (r', w') ->
    Z.of_nat (length scans) <= available /\
    (s.1.(rn_cancelled) = false -> r'.(rn_scans) = s.1.(rn_scans) ++ scans).
Proof.
  intros Hs Hr. split.
  - assert (Z.of_nat (length (rn_scans (Build_Running [] false, w0).1)) <= sw_slots wk) as Hb by (simpl; lia).
    revert Hb. induction Hr as [s|s1 s2 s3 Hstep _ IH]; [done|]. intros H1. apply IH. clear IH.
    destruct Hstep as [stop r w r' w' Ht|r w l scan l' w' E|r w w']; simpl in *; [|rewrite E in H1|done].
    + apply tick_spec in Ht as (_ & started & -> & [->|?]); [by rewrite app_nil_r|done].
    + rewrite length_app in *. simpl in H1. lia.
  - intros stop scans w w1 w' r' available Ha Hc Ht. split; [by eapply claim_at_most|]. intros Hn.
    unfold tick in Ht. fold available in Ht. replace (available <=? 0) with false in Ht by (symmetry; apply Z.leb_gt; lia).
    unfold mbind in Ht. rewrite Hc in Ht. apply start_scans_spec in Ht as (_ & n & -> & [->|[_ ?]]); [|congruence].
    by rewrite firstn_all.
Qed.
End Slots.

Section Demo.
#[local] Instance demo_uuid : UuidGen := fun n => pretty n.
#[local] Instance demo_store : StoreConfig := 30.
Definition demo_worker : ScanWorker := NewScanWorker (Build_ScanWorkerConfig "a" 0 0 0 false false) "".
Definition demo_queue : World := (mfor [OpCreate "" [] ["app.corp"] [443] 50 0; OpCreate "" [] ["web.corp"] [443] 50 0]%string run_scan_op demo_empty).2.
Definition demo_ticked : Running * World := tick demo_worker None (Build_Running [] false) demo_queue.

Lemma worker_slots_witness : Z.of_nat (length demo_ticked.1.(rn_scans)) <= 2 /\ length demo_ticked.1.(rn_scans) = 2%nat.
Proof.
  split; [|vm_compute; reflexivity].
  assert (rtc (worker_step demo_worker) (Build_Running [] false, demo_queue) demo_ticked) as Hr.
  { unfold demo_ticked. destruct (tick demo_worker None (Build_Running [] false) demo_queue) as [r w] eqn:E.
    apply rtc_once, (StepTick demo_worker None), E. }
  apply (worker_slots demo_worker demo_queue demo_ticked); [reflexivity|exact Hr].
Defined.

(** When the poller is shut down between a claim and its loop, it gives back
    the scan at hand; the ones behind it stay claimed until their lease runs
    out. *)
Example shutdown_keeps_claims :
  let '(r, w) := tick demo_worker (Some 0%nat) (Build_Running [] true) demo_queue in
  r.(rn_scans) = [] /\
  omap (fun kv : string * Scan => s_ClaimedBy kv.2) (map_to_list w.(w_db).(scans)) = ["a"%string].
Proof. vm_compute. split; reflexivity. Qed.
End Demo.
