(* ===== verification/Inventory.v ===== *)
(** * The Ansible inventory (internal/inventory/inventory.go)

    The renewable certificates as hosts and groups. *)

From Stdlib Require Import Ascii.
From S2P Require Import Prelude GoLib Records Db CertStore Worker.

(** The document: the hostvars, the hosts of [clm_renewable], and the service
    groups with their hosts, each list in the order of insertion. *)
Record InventoryDoc := Build_InventoryDoc {
  inv_hostvars : list (string * json);
  inv_renewable : list string;
  inv_groups : list (string * list string)
}.

Definition group_char (c : ascii) : bool := is_alnum c || Ascii.eqb c "_".
Definition slugifyGroup (s : string) : string := string_map (fun c => if group_char c then c else "_"%char) s.

Definition host_vars (cn : string) (c : Certificate) (cfg : RenewalConfig) : json := JObj (
  [("ansible_connection"%string, JStr "local")] ++ omit_empty "cert_alt_names_override" cfg.(rc_AltNames) ++
  [("cert_common_name_override"%string, JStr cn)] ++ omit_empty "cert_service_type" cfg.(rc_Service) ++
  [("clm_certificate_id"%string, JStr c.(c_ID)); ("clm_days_until_expiry"%string, JNum c.(c_DaysUntilExpiry))] ++
  omit_empty "clm_target_hosts" cfg.(rc_TargetHosts) ++ omit_empty "vault_cert_ttl" cfg.(rc_TTL) ++
  [("vault_pki_mount"%string, JStr cfg.(rc_Mount)); ("vault_pki_role"%string, JStr cfg.(rc_Role))]).

(** [svcGroups[g] = append(svcGroups[g], cn)] *)
Fixpoint append_group (g cn : string) (groups : list (string * list string)) : list (string * list string) :=
  match groups with
  | [] => [(g, [cn])]
  | (g', hosts) :: groups' => if String.eqb g' g then (g', hosts ++ [cn]) :: groups' else (g', hosts) :: append_group g cn groups'
  end.
Definition service_group (service : string) : string := ("svc_" ++ slugifyGroup service)%string.

(** The host a certificate is, if it is one. *)
Definition renewable_host (c : Certificate) : option (string * RenewalConfig) :=
  match c.(c_RenewalConfig), c.(c_SubjectCN) with
  | Some cfg, Some cn => if String.eqb cn "" then None else Some (cn, cfg)
  | _, _ => None
  end.

Definition add_host (doc : InventoryDoc) (c : Certificate) : InventoryDoc :=
  match renewable_host c with
  | None => doc
  | Some (cn, cfg) =>
      if bool_decide (cn ∈ doc.(inv_renewable)) then doc
      else
        {| inv_hostvars := doc.(inv_hostvars) ++ [(cn, host_vars cn c cfg)];
           inv_renewable := doc.(inv_renewable) ++ [cn];
           inv_groups := if String.eqb cfg.(rc_Service) "" then doc.(inv_groups)
                         else append_group (service_group cfg.(rc_Service)) cn doc.(inv_groups) |}
  end.
Definition Build (certs : list Certificate) : InventoryDoc := foldl add_host (Build_InventoryDoc [] [] []) certs.

(** The JSON of [--list]; [order] is the order Go ranges over the groups. *)
Definition hosts_json (hosts : list string) : json := JObj [("hosts"%string, JArr (map JStr hosts))].
Definition inventory_json (doc : InventoryDoc) (order : list (string * list string)) : json := JObj (
  [("_meta"%string, JObj [("hostvars"%string, JObj doc.(inv_hostvars))]); ("clm_renewable"%string, hosts_json doc.(inv_renewable))] ++
  map (fun g => (g.1, hosts_json g.2)) order ++
  [("all"%string, JObj [("children"%string, JArr (map JStr ("clm_renewable"%string :: map fst order)))])]).

(** ** What the inventory holds *)

(** The first certificate that is a host of this name. *)
Definition first_host (certs : list Certificate) (cn : string) (c : Certificate) (cfg : RenewalConfig) : Prop :=
  exists l l', certs = l ++ c :: l' /\ renewable_host c = Some (cn, cfg) /\
    Forall (fun d => forall cfg', renewable_host d <> Some (cn, cfg')) l.

Lemma append_group_in g cn groups g' h :
  (exists hosts, (g', hosts) ∈ append_group g cn groups /\ h ∈ hosts) <->
  (exists hosts, (g', hosts) ∈ groups /\ h ∈ hosts) \/ g' = g /\ h = cn.
Proof.
  induction groups as [|[g0 hs] groups IH]; simpl.
  - setoid_rewrite list_elem_of_singleton. split.
    + intros (hosts & [= -> ->] & ->%list_elem_of_singleton). by right.
    + intros [(? & ?%elem_of_nil & _)|[-> ->]]; [done|]. exists [cn]. by rewrite list_elem_of_singleton.
  - destruct (String.eqb_spec g0 g) as [->|Hne]; setoid_rewrite elem_of_cons.
    + split.
      * intros (hosts & [ [= -> ->]|Hin] & Hh); [|left; eauto]. apply elem_of_app in Hh as [?| ->%list_elem_of_singleton]; eauto.
      * intros [(hosts & [ [= -> ->]|Hin] & Hh)|[-> ->]]; [| eauto |]; exists (hs ++ [cn]); rewrite elem_of_app;
          (split; [by left|]); [by left|right; by apply list_elem_of_singleton].
    + transitivity ((g' = g0 /\ h ∈ hs) \/ exists hosts, (g', hosts) ∈ append_group g cn groups /\ h ∈ hosts).
      { split; [intros (hosts & [ [= -> ->]|?] & ?); eauto|]. intros [[-> ?]|(hosts & ? & ?)]; eauto. }
      rewrite IH. split; [|intros [(hosts & [ [= -> ->]|?] & ?)|?]; eauto].
      intros [[-> ?]|[(hosts & ? & ?)|?]]; eauto.
Qed.

(** What has been put in the document for the certificates seen so far. *)
Definition doc_for (certs : list Certificate) (doc : InventoryDoc) : Prop :=
  NoDup doc.(inv_renewable) /\ map fst doc.(inv_hostvars) = doc.(inv_renewable) /\
  (forall cn, cn ∈ doc.(inv_renewable) <-> exists c cfg, first_host certs cn c cfg) /\
  (forall cn vars, (cn, vars) ∈ doc.(inv_hostvars) <-> exists c cfg, first_host certs cn c cfg /\ vars = host_vars cn c cfg) /\
  (forall g cn, (exists hosts, (g, hosts) ∈ doc.(inv_groups) /\ cn ∈ hosts) <->
     exists c cfg, first_host certs cn c cfg /\ cfg.(rc_Service) <> ""%string /\ g = service_group cfg.(rc_Service)).

Lemma first_host_snoc certs c cn d cfg :
  first_host (certs ++ [c]) cn d cfg <->
  first_host certs cn d cfg \/ renewable_host c = Some (cn, cfg) /\ d = c /\ ~ (exists d' cfg', first_host certs cn d' cfg').
Proof.
  unfold first_host. split.
  - intros (l & l' & E & Hd & Hl). destruct l' as [|x l' _] using rev_ind.
    + apply app_inj_tail in E as [-> ->]. right. split_and!; [done..|].
      intros (d' & cfg' & l1 & l2 & -> & Hd' & _). apply Forall_app in Hl as [_ [H _]%Forall_cons]. by eapply H.
    + rewrite app_comm_cons, app_assoc in E. apply app_inj_tail in E as [-> _]. left. eauto 6.
  - intros [(l & l' & -> & Hd & Hl)|(Hc & -> & Hn)].
    + exists l, (l' ++ [c]). by rewrite <- app_assoc.
    + exists certs, []. split_and!; [done..|]. apply Forall_forall. intros d Hin cfg' Hd. apply Hn.
      clear Hn Hc. induction certs as [|x certs IH]; [by apply elem_of_nil in Hin|].
      destruct (renewable_host x) as [[cn' cfg'']|] eqn:Ex.
      * destruct (String.eqb_spec cn' cn) as [->|Hne]; [exists x, cfg'', [], certs; by split_and!|].
        apply elem_of_cons in Hin as [->|Hin]; [congruence|].
        destruct (IH Hin) as (d' & c' & l1 & l2 & -> & ? & ?). exists d', c', (x :: l1), l2. split_and!; [done..|].
        constructor; [congruence|done].
      * apply elem_of_cons in Hin as [->|Hin]; [congruence|].
        destruct (IH Hin) as (d' & c' & l1 & l2 & -> & ? & ?). exists d', c', (x :: l1), l2. split_and!; [done..|].
        constructor; [congruence|done].
Qed.

Lemma add_host_doc certs doc c : doc_for certs doc -> doc_for (certs ++ [c]) (add_host doc c).
Proof.
  intros (Hnd & Hk & Hh & Hv & Hg). unfold add_host.
  assert ((forall cn cfg, renewable_host c = Some (cn, cfg) -> exists d' cfg', first_host certs cn d' cfg') ->
    doc_for (certs ++ [c]) doc) as Hsame.
  { intros Hold. assert (forall cn d cfg, first_host (certs ++ [c]) cn d cfg <-> first_host certs cn d cfg) as E.
    { intros cn d cfg. rewrite first_host_snoc. split; [|auto]. intros [?|(Hc & _ & Hn)]; [done|]. destruct Hn. eauto. }
    split_and!; [done..| | |]; intros; setoid_rewrite E; auto. }
  destruct (renewable_host c) as [[cn cfg]|] eqn:Ec; [|by apply Hsame].
  case_bool_decide as Hin; [apply Hsame; intros ?? [= <- <-]; by apply Hh|].
  assert (~ exists d' cfg', first_host certs cn d' cfg') as Hnew by (by rewrite <- Hh).
  assert (forall cn' d cfg', first_host (certs ++ [c]) cn' d cfg' <->
    first_host certs cn' d cfg' \/ cn' = cn /\ d = c /\ cfg' = cfg) as E.
  { intros cn' d cfg'. rewrite first_host_snoc, Ec. naive_solver. }
  unfold doc_for. simpl. split_and!.
  - apply NoDup_app. split_and!; [done| |apply NoDup_singleton]. by intros x Hx ->%list_elem_of_singleton.
  - by rewrite map_app, Hk.
  - intros cn'. setoid_rewrite E. rewrite elem_of_app, Hh, list_elem_of_singleton. naive_solver.
  - intros cn' vars. setoid_rewrite E. rewrite elem_of_app, Hv, list_elem_of_singleton. naive_solver.
  - intros g cn'. setoid_rewrite E. destruct (String.eqb_spec (rc_Service cfg) "") as [Es|Es].
    + rewrite Hg. naive_solver.
    + rewrite append_group_in, Hg. naive_solver.
Qed.

(** The inventory lists each renewable certificate exactly once: a name
    is a host exactly if some certificate with that non-empty common name has
    a renewal configuration, names do not repeat, the variables of a host are
    those of the first such certificate, and a host is in a service group
    exactly if that certificate's configuration names the service. *)
Theorem Build_spec certs : doc_for certs (Build certs).
Proof.
  unfold Build. induction certs as [|c certs IH] using rev_ind.
  - assert (forall cn c cfg, ~ first_host [] cn c cfg) as Hn by (by intros cn c cfg ([|] & ? & ? & _)).
    unfold doc_for. simpl. split_and!; [constructor|done|..]; setoid_rewrite elem_of_nil; naive_solver.
  - rewrite foldl_snoc. by apply add_host_doc.
Qed.
