(* ===== verification/CertParse.v ===== *)
(** * Certificate parsing (internal/cert)

    What the inventory keeps of an X.509 certificate.  The decoded certificate
    is what Go's [crypto/x509] hands over; verification and PEM encoding are
    the library's. *)

From Stdlib Require Import Ascii.
From S2P Require Import Prelude GoLib Records Db CertStore Sha256 Ip Revocation.

(** [x509.Certificate], the fields that are read. *)
Inductive PublicKey := RSAKey (bits : Z) | ECDSAKey (bits : Z) | Ed25519Key | OtherKey.
Record X509Certificate := Build_X509Certificate {
  x_Raw : string; x_SerialNumber : Z; x_CommonName : string; x_Subject : string; x_Issuer : string;
  x_AuthorityKeyId : string; x_NotBefore : time; x_NotAfter : time; x_PublicKey : PublicKey; x_SignatureAlgorithm : string;
  x_IsCA : bool; x_KeyUsage : Z; x_ExtKeyUsage : list Z; x_DNSNames : list string; x_IPAddresses : list Addr;
  x_EmailAddresses : list string; x_CRLDistributionPoints : list string; x_OCSPServer : list string
}.

(** Encoding of a CERTIFICATE block; [Verify] with the system pool or with no
    pool, and intermediates; the order Go ranges over the map of key usages. *)
Class X509Lib := {
  EncodeCertificate : string -> string;
  Verify : bool -> X509Certificate -> list X509Certificate -> bool;
  usage_order : list (Z * string)
}.

(** [big.Int.Text(16)]: a digit at a time, from the right. *)
Fixpoint hex_text (fuel : nat) (n : Z) (acc : string) : string :=
  match fuel with
  | O => acc
  | S fuel =>
      let acc := String (nibble (n mod 16)) acc in
      if n / 16 =? 0 then acc else hex_text fuel (n / 16) acc
  end.
Definition Text16 (n : Z) : string :=
  let digits m := hex_text (S (Z.to_nat (Z.log2 m))) m "" in
  if n <? 0 then String "-" (digits (- n)) else digits n.

(** [net.IP.String] *)
Definition IP_String (ip : Addr) : string := Addr_String (Unmap ip).

Definition publicKeyMeta (c : X509Certificate) : string * Z :=
  match c.(x_PublicKey) with
  | RSAKey bits => ("RSA"%string, bits)
  | ECDSAKey bits => ("ECDSA"%string, bits)
  | Ed25519Key => ("Ed25519"%string, 256)
  | OtherKey => ("unknown"%string, 0)
  end.

Definition collectSANs (c : X509Certificate) : list string :=
  c.(x_DNSNames) ++ map IP_String c.(x_IPAddresses) ++ c.(x_EmailAddresses).

Definition usageMap : list (Z * string) :=
  [(1, "digital_signature"); (2, "content_commitment"); (4, "key_encipherment"); (8, "data_encipherment");
   (16, "key_agreement"); (32, "cert_sign"); (64, "crl_sign"); (128, "encipher_only"); (256, "decipher_only")]%string.
Definition ekuMap : list (Z * string) :=
  [(0, "any"); (1, "server_auth"); (2, "client_auth"); (3, "code_signing"); (4, "email_protection");
   (5, "ipsec_end_system"); (6, "ipsec_tunnel"); (7, "ipsec_user"); (8, "time_stamping"); (9, "ocsp_signing");
   (10, "microsoft_server_gated_crypto"); (11, "netscape_server_gated_crypto");
   (12, "microsoft_commercial_code_signing"); (13, "microsoft_kernel_code_signing")]%string.
Definition extKeyUsageStrings (c : X509Certificate) : list string :=
  map (fun u => match find (fun kv => kv.1 =? u) ekuMap with
                | Some (_, name) => name
                | None => ("unknown(" ++ Itoa u ++ ")")%string
                end) c.(x_ExtKeyUsage).

(** ** Hostnames *)

Definition matchHostname (host pattern : string) : bool :=
  if String.eqb pattern host then true
  else if HasPrefix pattern "*."
  then let suffix := string_drop 1 pattern in
       HasSuffix host suffix && (CountByte pattern "." <=? CountByte host ".")%nat
  else false.

Definition hostnameMatchesSAN (c : X509Certificate) (hostname sni : string) : bool :=
  let check := TrimSpace sni in
  let check := if String.eqb check "" then TrimSpace hostname else check in
  if String.eqb check "" then true
  else match ParseAddr check with
       | Some _ =>
           if existsb (fun ip => String.eqb (IP_String ip) check) c.(x_IPAddresses) then true
           else (length c.(x_IPAddresses) =? 0)%nat
       | None =>
           let check := ToLower check in
           if existsb (fun d => matchHostname check (ToLower d)) c.(x_DNSNames) then true
           else if EqualFold c.(x_CommonName) check then true
           else (length c.(x_DNSNames) =? 0)%nat && String.eqb c.(x_CommonName) ""
       end.

(** ** Post-quantum tags (pqc.go) *)

Definition contains_any (markers : list string) (s : string) : bool := existsb (Contains s) markers.
Definition looksPQC : string -> bool := contains_any
  ["ml-dsa"; "mldsa"; "dilithium"; "slh-dsa"; "slhdsa"; "sphincs"; "ml-kem"; "mlkem"; "kyber"; "falcon"; "bike"; "hqc"]%string.
Definition looksHybrid (s : string) : bool :=
  if negb (contains_any ["hybrid"; "composite"; "+"]%string s) then false
  else contains_any ["rsa"; "ecdsa"; "ed25519"; "p256"; "p384"; "x25519"]%string s && looksPQC s.
Definition ClassifyPQCTag (keyType signatureAlgorithm : string) : PQCTag :=
  let kt := ToLower (TrimSpace keyType) in
  let sig := ToLower (TrimSpace signatureAlgorithm) in
  let combined := (kt ++ " " ++ sig)%string in
  if looksHybrid combined then PQCTagHybrid
  else if looksPQC combined then PQCTagPQC
  else if existsb (String.eqb kt) ["rsa"; "ecdsa"; "ed25519"]%string then PQCTagClassic
  else if existsb (String.eqb kt) ["unknown"; ""]%string then PQCTagUnknown
  else if looksPQC kt then PQCTagPQC else PQCTagUnknown.

Section CertParse.
Context `{X509Lib}.

Definition keyUsageStrings (c : X509Certificate) : list string :=
  map snd (filter (fun kv => Z.land c.(x_KeyUsage) kv.1 <> 0) usage_order).

(** The chain starts with the leaf ([chain[1:]] of an empty chain panics; no
    caller passes one). *)
Definition analyzeChain (leaf : X509Certificate) (chain : list X509Certificate) : ChainStatus :=
  if String.eqb leaf.(x_Subject) leaf.(x_Issuer) then ChainSelfSigned
  else
    let intermediates := tail chain in
    if Verify true leaf intermediates then ChainComplete
    else if (length chain <=? 1)%nat then ChainIncomplete
    else if Verify false leaf intermediates then ChainUntrustedRoot
    else ChainIncomplete.

Definition ParseCertificate (raw : X509Certificate) (chain : list X509Certificate) (hostname sni : string) : ParsedCertificate :=
  let '(keyType, keyBits) := publicKeyMeta raw in {|
    p_SerialNumber := Text16 raw.(x_SerialNumber);
    p_FingerprintSHA256 := hex_EncodeToString (Sum256 (bytes_of raw.(x_Raw)));
    p_SubjectCN := raw.(x_CommonName);
    p_SubjectAltNames := collectSANs raw;
    p_IssuerDN := raw.(x_Issuer);
    p_AuthorityKeyID := hex_EncodeToString (bytes_of raw.(x_AuthorityKeyId));
    p_NotBefore := raw.(x_NotBefore);
    p_NotAfter := raw.(x_NotAfter);
    p_KeyType := keyType;
    p_KeyBits := keyBits;
    p_SignatureAlgorithm := raw.(x_SignatureAlgorithm);
    p_IsCA := raw.(x_IsCA);
    p_KeyUsage := keyUsageStrings raw;
    p_ExtKeyUsage := extKeyUsageStrings raw;
    p_PEM := EncodeCertificate raw.(x_Raw);
    p_CRLDistributionPoints := raw.(x_CRLDistributionPoints);
    p_OCSPServers := raw.(x_OCSPServer);
    p_ChainStatus := analyzeChain raw chain;
    p_HostnameMatchesSAN := hostnameMatchesSAN raw hostname sni;
    p_PQCTag := ClassifyPQCTag keyType raw.(x_SignatureAlgorithm) |}.
End CertParse.

(** ** Serial numbers read back *)

Lemma hex_digit_nibble d : 0 <= d < 16 -> hex_digit (nibble d) = Some d.
Proof.
  intros Hd. assert (d ∈ seqZ 0 16) as Hin by (apply elem_of_seqZ; lia).
  revert Hin. vm_compute seqZ. rewrite !elem_of_cons, elem_of_nil.
  intros Hc. repeat destruct Hc as [->|Hc]; try reflexivity. done.
Qed.

Lemma hex_digits_app s t acc :
  hex_digits (s ++ t) acc = match hex_digits s acc with Some a => hex_digits t a | None => None end.
Proof. revert acc. induction s as [|c s IH]; intros acc; [done|]. rewrite string_app_cons. simpl. destruct (hex_digit c); [apply IH|done]. Qed.

Lemma hex_text_digits fuel n acc a :
  0 <= n < 16 ^ Z.of_nat fuel -> (0 < fuel)%nat ->
  exists k, 0 <= k /\ hex_digits (hex_text fuel n acc) a = hex_digits acc (a * 16 ^ k + n).
Proof.
  revert n acc a. induction fuel as [|fuel IH]; intros n acc a Hn Hf; [lia|]. cbn [hex_text].
  pose proof (Z.mod_pos_bound n 16 ltac:(lia)) as Hm. pose proof (Z.div_mod n 16 ltac:(lia)) as Hd.
  destruct (Z.eqb_spec (n / 16) 0) as [E|E].
  - exists 1. split; [lia|]. cbn [hex_digits]. rewrite hex_digit_nibble by done. f_equal. lia.
  - rewrite Nat2Z.inj_succ, Z.pow_succ_r in Hn by lia.
    assert (0 <= n / 16 < 16 ^ Z.of_nat fuel) as Hq by (split; [apply Z.div_pos; lia|apply Z.div_lt_upper_bound; lia]).
    destruct fuel as [|fuel]; [simpl in Hq; lia|].
    destruct (IH (n / 16) (String (nibble (n mod 16)) acc) a Hq ltac:(lia)) as (k & Hk & ->).
    exists (k + 1). split; [lia|]. cbn [hex_digits]. rewrite hex_digit_nibble by done. f_equal.
    rewrite Z.pow_add_r by lia. lia.
Qed.

Lemma hex_text_head fuel n acc : 0 <= n -> exists c s, hex_text (S fuel) n acc = String c s /\ hex_digit c <> None.
Proof.
  revert n acc. induction fuel as [|fuel IH]; intros n acc Hn.
  - exists (nibble (n mod 16)), acc. cbn [hex_text]. rewrite hex_digit_nibble by (apply Z.mod_pos_bound; lia).
    by destruct (n / 16 =? 0).
  - cbn [hex_text]. destruct (n / 16 =? 0).
    + exists (nibble (n mod 16)), acc. by rewrite hex_digit_nibble by (apply Z.mod_pos_bound; lia).
    + apply (IH (n / 16)). apply Z.div_pos; lia.
Qed.

Lemma SetString16_digits c s : hex_digit c <> None -> SetString16 (String c s) = hex_digits (String c s) 0.
Proof.
  destruct c as [b0 b1 b2 b3 b4 b5 b6 b7].
  destruct b0, b1, b2, b3, b4, b5, b6, b7; intros Hc; try reflexivity; by destruct Hc.
Qed.

Lemma Text16_digits n : 0 <= n ->
  let s := hex_text (S (Z.to_nat (Z.log2 n))) n "" in
  SetString16 s = Some n /\ SetString16 (String "-" s) = Some (- n).
Proof.
  intros Hn s. destruct (hex_text_head (Z.to_nat (Z.log2 n)) n "" Hn) as (c & t & E & Hc).
  assert (hex_digits s 0 = Some n) as Hd.
  { assert (n < 16 ^ Z.of_nat (S (Z.to_nat (Z.log2 n)))) as Hlt.
    { rewrite Nat2Z.inj_succ, Z2Nat.id by apply Z.log2_nonneg.
      destruct (Z.eq_dec n 0) as [->|]; [reflexivity|]. destruct (Z.log2_spec n) as [_ Hlt]; [lia|].
      pose proof (Z.pow_le_mono_l 2 16 (Z.succ (Z.log2 n)) ltac:(lia)). lia. }
    destruct (hex_text_digits (S (Z.to_nat (Z.log2 n))) n "" 0 ltac:(lia) ltac:(lia)) as (k & _ & Hk).
    unfold s. by rewrite Hk. }
  split; unfold s in *; rewrite E in *; [by rewrite SetString16_digits|].
  unfold SetString16. cbn [String.eqb]. by rewrite Hd.
Qed.

(** The serial number that the inventory keeps of a certificate is read
    back by the revocation check as the same number, whatever its sign and
    size, so the two compare the certificate's own serial. *)
Theorem serial_roundtrip `{X509Lib} raw chain hostname sni :
  SetString16 (ParseCertificate raw chain hostname sni).(p_SerialNumber) = Some raw.(x_SerialNumber).
Proof.
  unfold ParseCertificate. destruct (publicKeyMeta raw) as [kt kb]. cbn [p_SerialNumber]. unfold Text16.
  destruct (Z.ltb_spec (x_SerialNumber raw) 0) as [Hn|Hn].
  - destruct (Text16_digits (- x_SerialNumber raw) ltac:(lia)) as [_ ->]. f_equal. lia.
  - by apply Text16_digits.
Qed.

(** ** What a name matches *)

Lemma CountByte_app s t c : CountByte (s ++ t) c = (CountByte s c + CountByte t c)%nat.
Proof. induction s as [|a s IH]; [done|]. rewrite string_app_cons. simpl. rewrite IH. lia. Qed.

(** A name matches itself, and a wildcard matches every name that ends in its
    suffix: the comparison of the dots never refuses one, so that a wildcard
    also matches names several labels deeper. *)
Lemma matchHostname_spec host pattern :
  matchHostname host pattern = true <->
  host = pattern \/ exists suffix pre, pattern = ("*." ++ suffix)%string /\ host = (pre ++ "." ++ suffix)%string.
Proof.
  unfold matchHostname. destruct (String.eqb_spec pattern host) as [->|Hne]; [split; [by left|done]|].
  split.
  - destruct (HasPrefix pattern "*.") eqn:Hp; [|done]. apply HasPrefix_spec in Hp as [suffix ->].
    change (string_drop 1 ("*." ++ suffix)) with (("." ++ suffix)%string).
    intros [[pre ->]%HasSuffix_spec _]%andb_true_iff. right. by exists suffix, pre.
  - intros [->|(suffix & pre & -> & ->)]; [done|].
    replace (HasPrefix ("*." ++ suffix) "*.") with true by (symmetry; apply HasPrefix_spec; by exists suffix).
    change (string_drop 1 ("*." ++ suffix)) with (("." ++ suffix)%string).
    apply andb_true_iff. split; [apply HasSuffix_spec; by exists pre|].
    apply Nat.leb_le. rewrite !CountByte_app. simpl. lia.
Qed.

Example wildcard_matches_deep_names :
  matchHostname "a.b.example.com" "*.example.com" = true /\ matchHostname ".example.com" "*.example.com" = true.
Proof. vm_compute. split; reflexivity. Qed.

(** With no pool of roots [Verify] uses the system's, which has just failed:
    an untrusted root is never reported. *)
Lemma untrusted_root_unreachable `{X509Lib} leaf chain :
  (forall c l, Verify false c l = Verify true c l) -> analyzeChain leaf chain <> ChainUntrustedRoot.
Proof.
  intros Hv. unfold analyzeChain. destruct (String.eqb _ _); [done|]. destruct (Verify true _ _) eqn:E; [done|].
  destruct (length chain <=? 1)%nat; [done|]. by rewrite Hv, E.
Qed.
