(* ===== verification/Probe.v ===== *)
(** * The TLS probe (internal/scanner/scanner.go)

    The [prober] that the program gives the scan runner: a handshake with the
    target, its certificates parsed, its stapled OCSP response checked.  The
    handshake and the reverse lookup are parameters. *)

From Stdlib Require Import Ascii.
From S2P Require Import Prelude GoLib Records Db Queue Outbox Lifecycle CertStore Issuers ScanQueue ScanRunner Sha256 Ip Revocation CertParse.

Open Scope clm_scope.

(** [tls.ConnectionState], the fields that are read. *)
Record ConnectionState := Build_ConnectionState {
  PeerCertificates : list X509Certificate; st_OCSPResponse : string; tls_Version : Z; tls_CipherSuite : Z
}.

(** The n-th handshake, with an address and a server name, which does not
    verify the chain; the n-th reverse lookup; the names of cipher suites. *)
Class TLSLib := {
  tls_Dial : nat -> string -> string -> result string ConnectionState;
  LookupAddr : nat -> string -> option (list string);
  CipherSuiteName : Z -> string
}.

(** [net.JoinHostPort] *)
Definition JoinHostPort (host port : string) : string :=
  if Contains host ":" || Contains host "%" then ("[" ++ host ++ "]:" ++ port)%string else (host ++ ":" ++ port)%string.

Definition tlsVersionName (v : Z) : string :=
  if v =? 0x301 then "TLS1.0"
  else if v =? 0x302 then "TLS1.1"
  else if v =? 0x303 then "TLS1.2"
  else if v =? 0x304 then "TLS1.3"
  else ("unknown(" ++ Itoa v ++ ")")%string.

Section Probe.
Context `{RevocationLib, X509Lib, TLSLib}.

Definition probe_address (t : Target) : string := JoinHostPort t.(t_IP) (Itoa t.(t_Port)).
Definition probe_sni (t : Target) : string := if String.eqb t.(t_Hostname) "" then t.(t_IP) else t.(t_Hostname).

Definition probe_hostname (n : nat) (t : Target) : string :=
  if String.eqb t.(t_Hostname) "" then
    match LookupAddr n t.(t_IP) with Some (name :: _) => TrimSuffix name "." | _ => t.(t_IP) end
  else t.(t_Hostname).

(** What a failed probe carries besides its error, which the runner never
    reads (the two enumerations have no empty value here). *)
Definition zero_parsed : ParsedCertificate := {|
  p_SerialNumber := ""; p_FingerprintSHA256 := ""; p_SubjectCN := ""; p_SubjectAltNames := []; p_IssuerDN := "";
  p_AuthorityKeyID := ""; p_NotBefore := zero_time; p_NotAfter := zero_time; p_KeyType := ""; p_KeyBits := 0;
  p_SignatureAlgorithm := ""; p_IsCA := false; p_KeyUsage := []; p_ExtKeyUsage := []; p_PEM := "";
  p_CRLDistributionPoints := []; p_OCSPServers := []; p_ChainStatus := ChainIncomplete; p_HostnameMatchesSAN := false;
  p_PQCTag := PQCTagUnknown |}.
Definition probe_failed (e : string) : ProbeResult :=
  Build_ProbeResult zero_parsed [] (Build_WireObservation "" 0 "" "" "" "" zero_time) false false "" (Some e).

(** The revocation result of the staple ([""] is none) of the leaf and its chain. *)
Definition staple_result (staple leafPEM : string) (chain : list ParsedCertificate) : RevResult :=
  if String.eqb staple "" then Build_RevResult RevUnknown "" false None ""
  else ParseStapledOCSP staple leafPEM (match chain with issuer :: _ => issuer.(p_PEM) | [] => "" end).

#[export] Instance tls_prober : Prober := fun n t now =>
  let sni := probe_sni t in
  match tls_Dial n (probe_address t) sni with
  | Err e => probe_failed e
  | Ok st =>
      match st.(PeerCertificates) with
      | [] => probe_failed "no peer certificates"
      | leaf :: rest =>
          let hostname := probe_hostname n t in
          let parse := fun c => ParseCertificate c st.(PeerCertificates) hostname sni in
          let rev := staple_result st.(st_OCSPResponse) (parse leaf).(p_PEM) (map parse rest) in
          {| pr_Certificate := parse leaf; pr_Chain := map parse rest;
             pr_Observation := Build_WireObservation t.(t_IP) t.(t_Port) hostname sni (tlsVersionName st.(tls_Version))
                                 (CipherSuiteName st.(tls_CipherSuite)) now;
             pr_Verified := rev.(rr_Verified); pr_Revoked := bool_decide (rev.(rr_Status) = RevRevoked);
             pr_Source := rev.(rr_Source); pr_Error := None |}
      end
  end.
End Probe.

(** ** What a staple is believed for *)

Section Staples.
Context `{RevocationLib, X509Lib, TLSLib}.

(** The endpoint [t] was asked, and stapled to its leaf [r]'s certificate an
    OCSP response, verified for that leaf and the issuer it presented next,
    which signed the leaf, that says revoked. *)
Definition stapled_revoked (t : Target) (r : ProbeResult) : Prop :=
  exists n st leaf issuer rest x_leaf x_issuer resp,
    tls_Dial n (probe_address t) (probe_sni t) = Ok st /\ st.(PeerCertificates) = leaf :: issuer :: rest /\
    r.(pr_Certificate).(p_FingerprintSHA256) = hex_EncodeToString (Sum256 (bytes_of leaf.(x_Raw))) /\
    parseCert (EncodeCertificate leaf.(x_Raw)) = Some x_leaf /\ parseCert (EncodeCertificate issuer.(x_Raw)) = Some x_issuer /\
    cert_CheckSignatureFrom x_leaf x_issuer = true /\
    ParseResponseForCert st.(st_OCSPResponse) x_leaf x_issuer = Some resp /\ resp.(or_Status) = RevRevoked /\
    r.(pr_Source) = "ocsp_stapled"%string.

Lemma parse_PEM c chain hostname sni : (ParseCertificate c chain hostname sni).(p_PEM) = EncodeCertificate c.(x_Raw).
Proof. unfold ParseCertificate. by destruct (publicKeyMeta c). Qed.
Lemma parse_fingerprint c chain hostname sni :
  (ParseCertificate c chain hostname sni).(p_FingerprintSHA256) = hex_EncodeToString (Sum256 (bytes_of c.(x_Raw))).
Proof. unfold ParseCertificate. by destruct (publicKeyMeta c). Qed.
Lemma ParseStapledOCSP_source stapled leafPEM issuerPEM : (ParseStapledOCSP stapled leafPEM issuerPEM).(rr_Source) = "ocsp_stapled"%string.
Proof. unfold ParseStapledOCSP, ocsp_result. by repeat case_match. Qed.

Lemma Probe_staple n t now :
  (Probe n t now).(pr_Verified) = true -> (Probe n t now).(pr_Revoked) = true -> stapled_revoked t (Probe n t now).
Proof.
  unfold Probe, tls_prober. destruct (tls_Dial _ _ _) as [st|e] eqn:Ed; [|done].
  destruct (PeerCertificates st) as [|leaf rest] eqn:Ep; [done|]. cbn [pr_Verified pr_Revoked pr_Source pr_Certificate].
  unfold staple_result. destruct (String.eqb _ "") eqn:Es; [done|]. intros Hv Hr%bool_decide_eq_true.
  destruct (ParseStapledOCSP_fail_closed _ _ _ Hv) as (x_leaf & x_issuer & resp & Hl & Hi & Hsig & Hresp & Hst).
  rewrite parse_PEM in Hl. destruct rest as [|issuer rest].
  - unfold ParseStapledOCSP in Hv. simpl in Hv. by rewrite Es, orb_true_r in Hv.
  - simpl in Hi. rewrite parse_PEM in Hi. exists n, st, leaf, issuer, rest, x_leaf, x_issuer, resp.
    split_and!; try done; [apply parse_fingerprint|congruence|apply ParseStapledOCSP_source].
Qed.
End Staples.

(** ** A scan revokes on proof only *)

(** Certificates keep their rows and their fingerprints. *)
Definition keeps_rows (db db' : DB) : Prop :=
  certs_ok db.(certificates) -> certs_ok db'.(certificates) /\
  forall k c, db.(certificates) !! k = Some c ->
    exists c', db'.(certificates) !! k = Some c' /\ c'.(c_FingerprintSHA256) = c.(c_FingerprintSHA256).
(** No certificate has been marked as revoked. *)
Definition marks_nothing (db db' : DB) : Prop :=
  certs_ok db.(certificates) -> certs_ok db'.(certificates) /\
  forall k c', db'.(certificates) !! k = Some c' -> revocation_marked c'.(c_RevocationStatus) = true ->
    exists c, db.(certificates) !! k = Some c /\ revocation_marked c.(c_RevocationStatus) = true.

#[export] Instance keeps_rows_preorder : PreOrder keeps_rows.
Proof.
  split; [by intros db Hok; split; [|eauto]|]. intros d1 d2 d3 H12 H23 Hok.
  destruct (H12 Hok) as [Hok2 R12], (H23 Hok2) as [Hok3 R23]. split; [done|]. intros k c Hc.
  destruct (R12 k c Hc) as (c2 & Hc2 & E2), (R23 k c2 Hc2) as (c3 & Hc3 & E3). exists c3. split; [done|congruence].
Qed.
#[export] Instance marks_nothing_preorder : PreOrder marks_nothing.
Proof.
  split; [by intros db Hok; split; [|eauto]|]. intros d1 d2 d3 H12 H23 Hok.
  destruct (H12 Hok) as [Hok2 R12], (H23 Hok2) as [Hok3 R23]. split; [done|]. intros k c Hc Hm.
  destruct (R23 k c Hc Hm) as (c2 & Hc2 & Hm2). by apply (R12 k c2).
Qed.

Section Rows.
Context `{UuidGen, StoreConfig}.

Lemma same_certs_rows db db' : db'.(certificates) = db.(certificates) -> keeps_rows db db' /\ marks_nothing db db'.
Proof. intros E. by split; intros Hok; rewrite E; (split; [done|]); eauto. Qed.

(** An upsert stores the certificate in the row whose id it returns. *)
Lemma upsert_certificate_rows parsed obs st days sc c db db' id :
  upsert_certificate_tx parsed obs st days sc c db = Ok (db', id) ->
  keeps_rows db db' /\ marks_nothing db db' /\
  (certs_ok db.(certificates) ->
   exists x, db'.(certificates) !! id = Some x /\ x.(c_FingerprintSHA256) = parsed.(p_FingerprintSHA256)).
Proof.
  unfold upsert_certificate_tx. intros Hu. txn_inv. destruct (cert_by_fp _ _) as [c0|] eqn:Efp; txn_inv.
  - apply row_by_some in Efp as [Hfp [k Hk]]. split_and!.
    + intros Hok. pose proof (table_keyed Hok _ _ Hk) as <-. split; [by eapply table_ok_insert|]. simpl.
      intros k' c' Hk'. rewrite lookup_insert. case_decide as E; [subst k'|by eauto]. eexists. split; [done|]. simpl. congruence.
    + intros Hok. pose proof (table_keyed Hok _ _ Hk) as <-. split; [by eapply table_ok_insert|]. simpl.
      intros k' c'. rewrite lookup_insert. case_decide as E; [subst k'|by eauto]. intros [= <-]. simpl. eauto.
    + intros Hok. simpl. rewrite lookup_insert_eq. by eexists.
  - b2p. split_and!.
    + intros Hok. split; [by apply table_ok_new|]. simpl. intros k' c' Hk'. rewrite lookup_insert. case_decide; [congruence|eauto].
    + intros Hok. split; [by apply table_ok_new|]. simpl. intros k' c'. rewrite lookup_insert. case_decide as E; [by intros [= <-]|eauto].
    + intros _. simpl. rewrite lookup_insert_eq. by eexists.
Qed.

(** A law of the two that the other operations of a scan follow. *)
Section Law.
Context (P : DB -> DB -> Prop) `{!PreOrder P}
  (P_same : forall db db', db'.(certificates) = db.(certificates) -> P db db')
  (P_upsert : forall parsed obs st days sc c db db' id, upsert_certificate_tx parsed obs st days sc c db = Ok (db', id) -> P db db').

Lemma rows_append_event ty cert payload : moves (evolves P) (appendEventStandalone ty cert payload).
Proof. apply moves_store_call; [exact _|]. intros c db db' [] (id & _ & ->)%appendEventTx_ok. by apply P_same. Qed.
Lemma rows_emit id parsed status days sc isNew prev : moves (evolves P) (emitDiscoveryCatalogueEvents id parsed status days sc isNew prev).
Proof. pose proof rows_append_event. unfold emitDiscoveryCatalogueEvents. moves_tac. all: apply rows_append_event. Qed.
Lemma rows_observation o : moves (evolves P) (store_call (upsert_observation_tx o)).
Proof. apply moves_store_call; [exact _|]. intros c db db' [] Ht. unfold upsert_observation_tx in Ht. txn_inv. by apply P_same. Qed.
Lemma rows_UpsertCertificate scanID parsed obs : moves (evolves P) (UpsertCertificate scanID parsed obs).
Proof.
  unfold UpsertCertificate. apply moves_bind; [exact _|apply moves_time_now; exact _|intros now]. destruct (Compute _ _ _ _) as [st days].
  apply moves_try; [exact _| |intros prev]. { apply moves_store_call; [exact _|]. intros c db db' a [= <- _]. by apply P_same. }
  apply moves_try; [exact _| |intros id]. { apply moves_store_call; [exact _|]. intros ctx db db' a. apply P_upsert. }
  apply moves_try; [exact _|apply rows_observation|intros ?]. apply moves_try; [exact _|apply rows_emit|intros ?]. apply moves_ret. exact _.
Qed.
Lemma rows_UpsertIssuer parsed pems : moves (evolves P) (UpsertIssuer parsed pems).
Proof.
  unfold UpsertIssuer. moves_tac; apply moves_store_call; [exact _|]; intros ctx db db' ret Ht;
    unfold upsert_issuer_tx in Ht; txn_inv; repeat case_match; txn_inv; by apply P_same.
Qed.
Lemma rows_progress id n m : moves (evolves P) (UpdateScanProgress id n m).
Proof.
  apply moves_store_call; [exact _|]. intros c db db' a (db1 & b & Hu & [= <- _])%tbind_ok.
  apply update_scan_ok in Hu as [->|(s & _ & _ & ->)]; [reflexivity|by apply P_same].
Qed.
End Law.

Lemma UpsertCertificate_row scanID parsed obs w id w' :
  UpsertCertificate scanID parsed obs w = (Ok id, w') -> others_ok keeps_rows w -> certs_ok w.(w_db).(certificates) ->
  exists x, w'.(w_db).(certificates) !! id = Some x /\ x.(c_FingerprintSHA256) = parsed.(p_FingerprintSHA256).
Proof.
  assert (forall db db', db'.(certificates) = db.(certificates) -> keeps_rows db db') as Psame by apply same_certs_rows.
  unfold UpsertCertificate. intros Hu Ho Hok. unfold mbind at 1 in Hu. destruct (time_now w) as [now w1] eqn:E1.
  destruct (Compute _ _ _ _) as [st days].
  apply mtry_ok in Hu as (prev & w2 & E2 & Hu). apply mtry_ok in Hu as (k & w3 & E3 & Hu).
  apply mtry_ok in Hu as (u4 & w4 & E4 & Hu). apply mtry_ok in Hu as (u5 & w5 & E5 & Hu). injection Hu as <- <-.
  assert (evolves keeps_rows w w2) as (_ & _ & H02).
  { eapply wr_trans; [exact (moves_time_now keeps_rows _ _ _ E1)|]. refine (moves_store_call keeps_rows _ _ _ _ _ E2).  intros c db db' x [= <- _]. by apply Psame. }
  assert (evolves keeps_rows w3 w5) as (_ & _ & H35).
  { eapply wr_trans; [exact (rows_observation keeps_rows Psame _ _ _ _ E4)|exact (rows_emit keeps_rows Psame _ _ _ _ _ _ _ _ _ _ E5)]. }
  destruct (H02 Ho) as [Ho2 K2], (K2 Hok) as [Hok2 _].
  apply store_call_spec in E3 as (e & w2' & (_ & _ & H2')%(evolves_next_env keeps_rows) & Hcase).
  destruct (H2' Ho2) as [Ho2' K2'], (K2' Hok2) as [Hok2' _].
  destruct Hcase as [(_ & er & [=] & _)|(k' & db3 & Ht & -> & Hr)].
  assert (k' = k) as -> by (destruct Hr as [[=]|[=]]; congruence).
  apply upsert_certificate_rows in Ht as (K3 & _ & Hrow). destruct (K3 Hok2') as [Hok3 _], (Hrow Hok2') as (x & Hx & Ex).
  destruct (H35 Ho2') as [_ K5]. destruct (K5 Hok3) as [_ R5]. destruct (R5 k x Hx) as (y & Hy & Ey). exists y. split; [done|congruence].
Qed.
End Rows.

(** *** The goroutines of a scan *)

(** The next step marks a certificate as revoked. *)
Definition about_to_mark (p : pc) : bool :=
  match p with PcRevoke r _ _ _ => r.(pr_Verified) && r.(pr_Revoked) | _ => false end.

Section ScanRevokes.
Context `{UuidGen, StoreConfig, RevocationLib, X509Lib, TLSLib} (job : Job) (targets : Z) (ts : list Target).

Section StepLaw.
Context (P : DB -> DB -> Prop) `{!PreOrder P}
  (P_same : forall db db', db'.(certificates) = db.(certificates) -> P db db')
  (P_upsert : forall parsed obs st days sc c db db' id, upsert_certificate_tx parsed obs st days sc c db = Ok (db', id) -> P db db').

Lemma step_pc_rows i t p st :
  (about_to_mark p = true -> forall id source, moves (evolves P) (MarkRevoked id source)) ->
  moves (evolves P) (step_pc job targets i t p st).
Proof.
  intros Hm. assert (forall A (m : M (res A)) B (b : B), moves (evolves P) m -> moves (evolves P) (quietly m b)) as Hq.
  { intros. unfold quietly. by moves_tac. }
  unfold step_pc. destruct p as [| | | |r cur| | |r cur certs id|todo ? ? ?| |cur certs|]; try destruct todo.
  8: { simpl in Hm. destruct (_ && _); [by apply Hq, Hm|by moves_tac]. }
  all: lazymatch goal with |- moves _ (quietly _ _) => apply Hq | _ => moves_tac end.
  - by apply rows_UpsertCertificate.
  - by apply rows_UpsertIssuer.
  - by apply rows_progress.
Qed.
Lemma pool_step_rows c s w s' w' :
  (forall i t p, c = Advance i -> s.(pl_run) !! i = Some (t, p) -> about_to_mark p = true ->
   forall id source, moves (evolves P) (MarkRevoked id source)) ->
  pool_step job targets c s w = Some (s', w') -> evolves P w w'.
Proof.
  intros Hm. unfold pool_step. destruct c as [|i]; [by repeat case_match; intros; simplify_eq; apply wr_refl|].
  destruct (pl_run s !! i) as [[t p]|] eqn:Ei; [|done]. destruct (is_done p); [done|].
  destruct (step_pc _ _ _ _ _ _ w) as [[p' st'] w2] eqn:Ep. intros [= <- <-]. refine (step_pc_rows _ _ _ _ _ _ _ _ Ep). by eapply Hm.
Qed.
End StepLaw.

Lemma rows_MarkRevoked id source : moves (evolves keeps_rows) (MarkRevoked id source).
Proof.
  apply moves_store_call; [exact _|]. intros c db db' a Ht. unfold mark_revoked_tx in Ht.
  apply tbind_ok in Ht as (db1 & n & Hu & Ht). apply tbind_ok in Ht as (db2 & [] & Hr & Ht). apply trequire_ok in Hr as (-> & -> & _).
  destruct a. apply appendEventTx_ok in Ht as (k & _ & ->). apply update_cert_ok in Hu as [(_ & x & Hx & ->)|(? & _)]; [|done].
  intros Hok. pose proof (table_keyed Hok _ _ Hx) as <-. split; [by eapply table_ok_insert|]. simpl.
  intros k' c' Hk'. rewrite lookup_insert. case_decide as E; [subst k'|by eauto]. eexists. split; [done|]. simpl. congruence.
Qed.
Lemma run_pool_rows cs s w s' w' : run_pool job targets cs s w = Some (s', w') -> evolves keeps_rows w w'.
Proof.
  revert s w. induction cs as [|c cs IH]; intros s w; simpl; [intros [= <- <-]; apply wr_refl|].
  destruct (pool_step _ _ _ _ _) as [[s1 w1]|] eqn:E; [|done]. intros Hr.
  eapply wr_trans; [|by eapply IH]. refine (pool_step_rows keeps_rows _ _ _ _ _ _ _ _ E).
  - apply same_certs_rows.
  - intros *. apply upsert_certificate_rows.
  - intros *. intros _ _ _. apply rows_MarkRevoked.
Qed.

(** In the run [cs], goroutine [i], which probes [t], has stored the
    certificate of [r], in the row [id]: the answer of that upsert. *)
Definition upserted (cs : list choice) (w0 : World) (i : nat) (t : Target) (r : ProbeResult) (id : uuid) : Prop :=
  exists cs1 cs2 s1 w1 w2 n, cs = cs1 ++ Advance i :: cs2 /\ run_pool job targets cs1 (start_pool ts) w0 = Some (s1, w1) /\
    s1.(pl_run) !! i = Some (t, PcUpsert r n) /\
    UpsertCertificate job.(job_ScanID) r.(pr_Certificate) r.(pr_Observation) w1 = (Ok id, w2).

Definition probed (t : Target) (r : ProbeResult) : Prop := t ∈ ts /\ exists n now, r = Probe n t now.

(** What a goroutine holds between its steps. *)
Definition holds (cs : list choice) (w0 : World) (i : nat) (tp : Target * pc) : Prop :=
  tp.1 ∈ ts /\
  match tp.2 with
  | PcCount r | PcProbeOk r _ | PcUpsert r _ => probed tp.1 r
  | PcFound r _ id | PcRevoke r _ _ id => probed tp.1 r /\ upserted cs w0 i tp.1 r id
  | _ => True
  end.

Lemma upserted_more cs c w0 i t r id : upserted cs w0 i t r id -> upserted (cs ++ [c]) w0 i t r id.
Proof.
  intros (cs1 & cs2 & s1 & w1 & w2 & n & -> & Hrest). exists cs1, (cs2 ++ [c]), s1, w1, w2, n. split; [|done].
  by rewrite <- app_assoc.
Qed.
Lemma holds_more cs c w0 i tp : holds cs w0 i tp -> holds (cs ++ [c]) w0 i tp.
Proof. unfold holds. intros [Ht Hp]. split; [done|]. destruct tp.2; try done; destruct Hp; split; auto using upserted_more. Qed.

Lemma step_pc_holds cs w0 i t p st s w p' st' w' :
  run_pool job targets cs (start_pool ts) w0 = Some (s, w) -> s.(pl_run) !! i = Some (t, p) ->
  step_pc job targets i t p st w = ((p', st'), w') -> holds cs w0 i (t, p) -> holds (cs ++ [Advance i]) w0 i (t, p').
Proof.
  intros Hr Hi Hs [Ht Hp]. split; [done|]. revert Hs Hp. unfold step_pc, quietly, mbind, mret, then_progress. cbn [fst snd].
  destruct p as [| |?|?|r ?| | | |todo ?| | |]; try destruct todo; intros Hs Hp; repeat case_match; simplify_eq/=; try done.
  - split; [done|eauto].
  - split; [done|]. exists cs, [], s, w. repeat eexists; eauto.
  - destruct Hp. split; auto using upserted_more.
Qed.

Lemma run_pool_holds cs w0 s w :
  run_pool job targets cs (start_pool ts) w0 = Some (s, w) ->
  s.(pl_todo) ⊆ ts /\ forall i tp, s.(pl_run) !! i = Some tp -> holds cs w0 i tp.
Proof.
  revert s w. induction cs as [|c cs IH] using rev_ind; intros s w; [by intros [= <- <-]|].
  rewrite run_pool_app. destruct (run_pool _ _ cs _ _) as [[s1 w1]|] eqn:E; [|done]. simpl.
  destruct (pool_step _ _ _ _ _) as [[s2 w2]|] eqn:Es; [|done]. intros [= <- <-]. destruct (IH _ _ eq_refl) as [Ht Hh].
  destruct c as [|i]; simpl in Es.
  - destruct (pl_todo s1) as [|t todo]; [done|]. destruct (_ <? _); [|done]. injection Es as <- _. simpl.
    split; [set_solver|]. intros i tp [Hi|[_ Hi]]%lookup_app_Some; [by apply holds_more, Hh|].
    apply list_lookup_singleton_Some in Hi as [_ <-]. split; [set_solver|done].
  - destruct (pl_run s1 !! i) as [[t p]|] eqn:Ei; [|done]. destruct (is_done p); [done|].
    destruct (step_pc _ _ _ _ _ _ w1) as [[p' st'] w3] eqn:Ep. injection Es as <- _. simpl. split; [done|].
    intros k tp [(<- & <- & _)|[_ Hk]]%list_lookup_insert_Some; [|by apply holds_more, Hh].
    eapply step_pc_holds; eauto.
Qed.

(** That row is there, while nobody deletes it. *)
Lemma upserted_row cs w0 s w i t r id :
  run_pool job targets cs (start_pool ts) w0 = Some (s, w) -> upserted cs w0 i t r id ->
  others_ok keeps_rows w0 -> certs_ok w0.(w_db).(certificates) ->
  exists c, w.(w_db).(certificates) !! id = Some c /\ c.(c_FingerprintSHA256) = r.(pr_Certificate).(p_FingerprintSHA256).
Proof.
  intros Hr (cs1 & cs2 & s1 & w1 & w2 & n & -> & Hr1 & Hi & Hu) Ho Hok. rewrite run_pool_app, Hr1 in Hr.
  destruct (run_pool_rows _ _ _ _ _ Hr1) as (_ & _ & K1). destruct (K1 Ho) as [Ho1 K1'], (K1' Hok) as [Hok1 _].
  destruct (UpsertCertificate_row _ _ _ _ _ _ Hu Ho1 Hok1) as (x & Hx & Ex).
  assert (evolves keeps_rows w1 w2) as (_ & _ & K2).
  { refine (rows_UpsertCertificate keeps_rows _ _ _ _ _ _ _ _ Hu); [apply same_certs_rows|intros *; apply upsert_certificate_rows]. }
  destruct (K2 Ho1) as [Ho2 K2'], (K2' Hok1) as [Hok2 _].
  simpl in Hr. rewrite Hi in Hr. simpl in Hr. unfold mbind in Hr. rewrite Hu in Hr. simpl in Hr.
  destruct (run_pool_rows _ _ _ _ _ Hr) as (_ & _ & K3). destruct (K3 Ho2) as [_ K3'], (K3' Hok2) as [_ R3].
  destruct (R3 id x Hx) as (c & Hc & Ec). exists c. split; [done|congruence].
Qed.

(** C24. A scan records a revocation on proof only.  However the goroutines
    interleave and whatever the network and the store answer, at any point of
    the run: where the next step of a goroutine marks a certificate as
    revoked, the target is one of the scan's, and it stapled to the
    certificate it presented an OCSP response which says revoked, verified for
    it and for the issuer it presented, whose signature it carries; that step
    is [MarkRevoked] on the row which this goroutine's own upsert of that
    certificate, earlier in the run, answered; and unless another replica
    deletes rows or rewrites fingerprints, that row is there and has the
    fingerprint of that certificate.  No other step marks anything. *)
Theorem scan_revokes_stapled cs w s w' :
  run_pool job targets cs (start_pool ts) w = Some (s, w') ->
  (forall i t r scanned certs id, s.(pl_run) !! i = Some (t, PcRevoke r scanned certs id) ->
     r.(pr_Verified) && r.(pr_Revoked) = true ->
     t ∈ ts /\ stapled_revoked t r /\ upserted cs w i t r id /\
     (exists s2, pool_step job targets (Advance i) s w' = Some (s2, (MarkRevoked id r.(pr_Source) w').2)) /\
     (others_ok keeps_rows w -> certs_ok w.(w_db).(certificates) ->
      exists c, w'.(w_db).(certificates) !! id = Some c /\
        c.(c_FingerprintSHA256) = r.(pr_Certificate).(p_FingerprintSHA256))) /\
  (forall c s2 w2, pool_step job targets c s w' = Some (s2, w2) ->
     (forall i t p, c = Advance i -> s.(pl_run) !! i = Some (t, p) -> about_to_mark p = false) ->
     others_ok marks_nothing w' -> marks_nothing w'.(w_db) w2.(w_db)).
Proof.
  intros Hr. split.
  - intros i t r scanned certs id Hi Hmark. pose proof Hmark as [Hv Hrev]%andb_true_iff.
    destruct (run_pool_holds _ _ _ _ Hr) as [_ Hh]. destruct (Hh _ _ Hi) as [Ht [(_ & n & now & Er) Hu]]. cbn [fst] in *. subst r.
    split_and!; [done|apply Probe_staple; [exact Hv|exact Hrev]|exact Hu| |].
    + unfold pool_step. rewrite Hi. simpl. rewrite Hmark. unfold quietly, mbind. destruct (MarkRevoked _ _ w'). simpl. eauto.
    + intros Ho Hok. by eapply upserted_row.
  - intros c s2 w2 Hs Hno Ho. assert (evolves marks_nothing w' w2) as (_ & _ & Hm); [|by apply Hm].
    refine (pool_step_rows marks_nothing _ _ _ _ _ _ _ _ Hs).
    + intros *. apply same_certs_rows.
    + intros *. apply upsert_certificate_rows.
    + intros i t p Hc Hi Hm. by rewrite (Hno i t p Hc Hi) in Hm.
Qed.
End ScanRevokes.

(** ** Witness: the only target staples a revocation *)

Section Demo.
#[local] Existing Instance ScanRunner.demo_uuid.
#[local] Existing Instance ScanRunner.demo_store.
#[local] Instance demo_x509 : X509Lib :=
  {| EncodeCertificate := fun der => der; Verify := fun _ _ _ => true; usage_order := usageMap |}.
#[local] Instance demo_revocation : RevocationLib := {|
  X509 := string; RevocationList := unit; pem_Decode := Some; x509_ParseCertificate := Some;
  ParseRevocationList := fun _ => None; RevokedCertificateEntries := fun _ => []; crl_CheckSignatureFrom := fun _ _ => false;
  cert_CheckSignatureFrom := fun leaf issuer => String.eqb leaf "leaf" && String.eqb issuer "ca";
  ocsp_CreateRequest := fun _ _ => None;
  ParseResponseForCert := fun der _ _ => if String.eqb der "staple" then Some (Build_OCSPResponse RevRevoked 5) else None;
  url_scheme := fun _ => None; dial_attempts := fun _ _ => []; http_reply := fun _ => None |}.
Definition demo_x509_cert (raw : string) (ca : bool) : X509Certificate :=
  Build_X509Certificate raw 1 "app.corp" "CN=app.corp" "CN=ca" "" 0 (90 * 24 * Hour) (RSAKey 2048) "SHA256-RSA" ca 0 [] [] [] [] [] [].
#[local] Instance demo_tls : TLSLib := {|
  tls_Dial := fun _ addr _ =>
    if String.eqb addr "10.0.0.1:443"
    then Ok (Build_ConnectionState [demo_x509_cert "leaf" false; demo_x509_cert "ca" true] "staple" 0x304 0x1301) else Err "refused"%string;
  LookupAddr := fun _ _ => None; CipherSuiteName := fun _ => "TLS_AES_128_GCM_SHA256"%string |}.

Definition demo_probe_pool : option (Pool * World) :=
  run_pool demo_job 1 (Launch :: repeat (Advance 0) 5) (start_pool (take 1 demo_targets)) demo_scan_world.

Lemma scan_revokes_stapled_witness :
  exists s w' t r id, demo_probe_pool = Some (s, w') /\ s.(pl_run) !! 0%nat = Some (t, PcRevoke r 1 1 id) /\ stapled_revoked t r /\
    exists c, w'.(w_db).(certificates) !! id = Some c /\ c.(c_FingerprintSHA256) = r.(pr_Certificate).(p_FingerprintSHA256).
Proof.
  destruct demo_probe_pool as [[s w']|] eqn:E; [|by vm_compute in E].
  destruct (pl_run s !! 0%nat) as [[t p]|] eqn:Ei; [|vm_compute in E; injection E as <- <-; by vm_compute in Ei].
  assert (exists r id, p = PcRevoke r 1 1 id /\ pr_Verified r && pr_Revoked r = true) as (r & id & -> & Hr).
  { vm_compute in E. injection E as <- _. vm_compute in Ei. injection Ei as _ <-. eexists _, _. split; reflexivity. }
  exists s, w', t, r, id. split; [reflexivity|]. split; [exact Ei|].
  destruct (scan_revokes_stapled demo_job 1 (take 1 demo_targets) _ _ _ _ E) as [Hm _].
  destruct (Hm _ _ _ _ _ _ Ei Hr) as (_ & Hst & _ & _ & Hrow). split; [exact Hst|]. apply Hrow; [constructor|].
  apply (table_ok_singleton c_ID c_FingerprintSHA256 demo_cert).
Defined.
End Demo.
