(* ===== verification/Markdown.v ===== *)
(** * The Markdown rendering of a report (internal/report/markdown.go)

    The text of every section, and that nothing a scanned endpoint chose can
    change the structure of the document. *)

From Stdlib Require Import Ascii.
From S2P Require Import Prelude GoLib Records Db Queue Compliance Report Renewal.

#[local] Open Scope string_scope.

(** ** Text *)

(** [Format("2006-01-02 15:04:05 UTC")] *)
Definition civil_from_days (n : Z) : Z * Z * Z :=
  let z := (n + 719468)%Z in
  let era := z / 146097 in
  let doe := z - era * 146097 in
  let yoe := (doe - doe / 1460 + doe / 36524 - doe / 146096) / 365 in
  let doy := doe - (365 * yoe + yoe / 4 - yoe / 100) in
  let mp := (5 * doy + 2) / 153 in
  let d := doy - (153 * mp + 2) / 5 + 1 in
  let m := (if mp <? 10 then mp + 3 else mp - 9)%Z in
  ((yoe + era * 400 + if m <=? 2 then 1 else 0)%Z, m, d).
Definition timestamp_text (t : time) : string :=
  let sec := t / Second in
  let day := sec / 86400 in
  let s := (sec - day * 86400)%Z in
  let '(y, m, d) := civil_from_days day in
  date_text y m d ++ " " ++ pad2 (s / 3600) ++ ":" ++ pad2 (s / 60 mod 60) ++ ":" ++ pad2 (s mod 60) ++ " UTC".

Example timestamp_examples :
  timestamp_text (utc_date 2024 2 29 + 86399 * Second) = "2024-02-29 23:59:59 UTC" /\
  timestamp_text (utc_date 1999 12 31) = "1999-12-31 00:00:00 UTC".
Proof. vm_compute. done. Qed.

Definition scan_status_text (s : ScanStatus) : string :=
  match s with
  | scan_pending => "pending" | scan_running => "running" | scan_completed => "completed" | scan_failed => "failed"
  end.

Definition escapeCell (s : string) : string :=
  let s := ReplaceAll s (String cr "") " " in
  let s := ReplaceAll s (String newline "") " " in
  let s := ReplaceAll s (String backslash "") (String backslash (String backslash "")) in
  ReplaceAll s "|" (String backslash "|").

(** A line, a paragraph, a row of a table. *)
Definition md_line (s : string) : string := s ++ String newline "".
Definition md_par (s : string) : string := md_line (md_line s).
Definition md_row (cells : list string) : string := md_line ("| " ++ Join cells " | " ++ " |").
Definition md_concat (l : list string) : string := foldr String.append "" l.
Definition md_map {A} (f : A -> string) (l : list A) : string := md_concat (map f l).

Definition or_dash (s : string) : string := if String.eqb s "" then "—" else s.
Definition bold (n : Z) : string := "**" ++ Itoa n ++ "**".

(** [sortedKeys], with the values *)
Definition sorted_entries {A} (m : gmap string A) : list (string * A) :=
  stable_sort (fun a b => string_lt a.1 b.1) (map_to_list m).

(** ** Sections *)

Definition formatScope (s : Scan) : string :=
  let part (label : string) (l : list string) := if (length l =? 0)%nat then [] else [label ++ ": " ++ Join l ", "] in
  let parts := (part "hostnames" s.(s_Hostnames) ++ part "CIDRs" s.(s_CIDRs) ++ part "ports" (map Itoa s.(s_Ports)))%list in
  if (length parts =? 0)%nat then "—" else Join parts "; ".

Definition fp_text (fp : string) : string :=
  if (12 <? String.length fp)%nat then limit_bytes 12 fp ++ "…" else fp.
Definition finding_row (f : Finding) : string :=
  md_row [escapeCell f.(fi_Severity); escapeCell f.(fi_RuleID); escapeCell (or_dash f.(fi_SubjectCN));
          escapeCell (fp_text f.(fi_Fingerprint))].
Definition writeFindingsByPack (summary : ComplianceSummary) (pack : string) : string :=
  let findings := filter (fun f => fi_Pack f = pack) summary.(cs_Findings) in
  if (length findings =? 0)%nat then md_par ("No " ++ pack ++ " findings.")
  else
    md_line "| Severity | Rule | Subject | Fingerprint |" ++ md_line "|----------|------|---------|-------------|" ++
    md_map finding_row (take 20 findings) ++ md_line "".

Definition count_row (kv : string * Z) : string := md_row [escapeCell kv.1; Itoa kv.2].
Definition writeCertHealth (h : CertHealth) : string :=
  let e := h.(ch_ExpiryBuckets) in
  md_par "## Certificate health" ++ md_par ("**Total certificates:** " ++ Itoa h.(ch_Total)) ++
  (if (size h.(ch_ByStatus) =? 0)%nat then ""
   else md_line "| Status | Count |" ++ md_line "|--------|-------|" ++ md_map count_row (sorted_entries h.(ch_ByStatus)) ++ md_line "") ++
  md_par "**Days until expiry:**" ++ md_line "| Bucket | Count |" ++ md_line "|--------|-------|" ++
  md_row ["Expired"; Itoa e.(eb_Expired)] ++ md_row ["≤ 7 days"; Itoa e.(eb_Within7)] ++
  md_row ["8–30 days"; Itoa e.(eb_Within30)] ++ md_row ["31–90 days"; Itoa e.(eb_Within90)] ++
  md_row ["> 90 days"; Itoa e.(eb_Beyond90)] ++ md_line "".

Definition scope_row (kv : string * ExpiryCounts) : string :=
  md_row [escapeCell (or_dash kv.1); Itoa kv.2.(ec_Within7); Itoa kv.2.(ec_Within30); Itoa kv.2.(ec_Within90)].
Definition writeExpiryRisk (r : ExpiryRisk) : string :=
  md_par "## Expiry risk" ++
  md_line ("- **Expiring within 7 days:** " ++ Itoa r.(er_Counts).(ec_Within7)) ++
  md_line ("- **Expiring within 30 days:** " ++ Itoa r.(er_Counts).(ec_Within30)) ++
  md_par ("- **Expiring within 90 days:** " ++ Itoa r.(er_Counts).(ec_Within90)) ++
  (if (size r.(er_ByScope) =? 0)%nat then ""
   else md_line "| Scope | ≤7d | ≤30d | ≤90d |" ++ md_line "|-------|-----|------|------|" ++
        md_map scope_row (sorted_entries r.(er_ByScope)) ++ md_line "").

Definition issuer_row (s : IssuerSummary) : string :=
  md_row [escapeCell s.(is_IssuerDN); Itoa s.(is_CertCount); Itoa s.(is_CACount); Itoa s.(is_InVault);
          if s.(is_ImportCandidate) then "yes" else "no"].
Definition writeIssuerTrust (issuers : list IssuerSummary) : string :=
  md_par "## Issuer trust & chain quality" ++
  if (length issuers =? 0)%nat then md_par "No issuers observed for this scan."
  else md_line "| Issuer | Certs | CA | In Vault | Import candidate |" ++
       md_line "|--------|-------|----|----------|------------------|" ++
       md_map issuer_row (take 25 issuers) ++ md_line "".

Definition count_item (kv : string * Z) : string := md_line ("- " ++ escapeCell kv.1 ++ ": " ++ Itoa kv.2).
Definition count_list (title : string) (m : gmap string Z) : string :=
  if (size m =? 0)%nat then "" else md_par title ++ md_map count_item (sorted_entries m) ++ md_line "".
Definition writeScopeGovernance (g : ScopeGovernance) : string :=
  md_par "## Scope & governance" ++ count_list "**By scope:**" g.(sg_ByScope) ++
  count_list "**By managed status:**" g.(sg_ByManagedStatus) ++
  md_par ("**Ownership coverage:** " ++ Itoa g.(sg_WithOwner) ++ " of " ++ Itoa g.(sg_Total) ++ " certificates have an owner.").

Definition insight_row (i : Insight) : string :=
  md_row [escapeCell i.(in_Severity); escapeCell i.(in_Type); escapeCell (or_dash i.(in_SubjectCN));
          escapeCell i.(in_Recommendation); escapeCell i.(in_Description)].
Definition writeTopInsights (insights : list Insight) : string :=
  md_par "## Insights" ++
  if (length insights =? 0)%nat then md_par "No insights for this scan."
  else md_line "| Severity | Type | Subject | Recommendation | Description |" ++
       md_line "|----------|------|---------|----------------|-------------|" ++
       md_map insight_row (take 50 insights) ++ md_line "".

Definition recommendation_row (r : Recommendation) : string :=
  md_row [escapeCell r.(re_Phase); escapeCell r.(re_Title); Itoa r.(re_Count)].
Definition writeRecommendations (recs : list Recommendation) : string :=
  md_par "## Recommendations" ++
  if (length recs =? 0)%nat then md_par "No recommended actions."
  else md_line "| Phase | Action | Count |" ++ md_line "|-------|--------|-------|" ++
       md_map recommendation_row recs ++ md_line "".

Definition sample_target (s : TargetFailureSample) : string :=
  (if String.eqb s.(fs_Hostname) "" then s.(fs_IP) else s.(fs_Hostname)) ++ ":" ++ Itoa s.(fs_Port).
Definition sample_row (s : TargetFailureSample) : string :=
  md_row [escapeCell s.(fs_Kind); escapeCell (sample_target s); escapeCell s.(fs_Reason)].

(** The summary and the sections [RenderMarkdown] writes itself. *)
Definition executive_summary (doc : Document) : string :=
  let b := doc.(doc_BlindSpot) in
  md_par "# Executive summary" ++
  md_par ("**Scan ID:** `" ++ doc.(doc_Scan).(s_ID) ++ "`") ++
  md_par ("**Status:** " ++ scan_status_text doc.(doc_Scan).(s_Status)) ++
  md_par ("**Generated:** " ++ timestamp_text doc.(doc_GeneratedAt)) ++
  md_par ("**Scope:** " ++ formatScope doc.(doc_Scan)) ++
  md_line ("- **Certificates discovered:** " ++ Itoa b.(bs_Discovered)) ++
  md_line ("- **Vault managed:** " ++ Itoa b.(bs_VaultManaged)) ++
  md_line ("- **Shadow certs (on wire, not in Vault):** " ++ Itoa b.(bs_Shadow)) ++
  md_line ("- **SC-081 violations:** " ++ Itoa b.(bs_SC081Violations)) ++
  md_line ("- **PCI findings:** " ++ Itoa doc.(doc_Compliance).(cs_PCIFindingCount)) ++
  md_par ("- **Total compliance findings:** " ++ Itoa (Z.of_nat (length doc.(doc_Compliance).(cs_Findings)))).

Definition blind_spot_section (b : BlindSpotSummary) : string :=
  md_par "## Blind-spot reveal" ++
  md_par ("Vault sees " ++ bold b.(bs_VaultManaged) ++ " managed certificate(s). The scan found " ++ bold b.(bs_Discovered) ++
          " unique certificate(s) on the wire. " ++ bold b.(bs_Shadow) ++
          " shadow certificate(s) are visible on the network but not matched to Vault PKI.") ++
  md_par (if (0 <? b.(bs_Shadow))%Z
          then "Shadow certs represent the Vault blind spot — TLS endpoints serving certificates that Vault PKI reconcile did not match."
          else "No shadow certificates detected for this scan scope.").

Definition compliance_sections (s : ComplianceSummary) : string :=
  let inv := s.(cs_AlgorithmInventory) in
  md_par "## SC-081 posture" ++
  md_par ("**Violations:** " ++ Itoa s.(cs_SC081ViolationCount) ++ " (of " ++ Itoa s.(cs_TotalCerts) ++ " certificates evaluated)") ++
  writeFindingsByPack s "sc081" ++
  md_par "## PCI inventory gaps" ++ md_par ("**Findings:** " ++ Itoa s.(cs_PCIFindingCount)) ++ writeFindingsByPack s "pci" ++
  md_par "## Algorithm inventory" ++ md_line "| Algorithm | Count |" ++ md_line "|-----------|-------|" ++
  md_row ["RSA 2048+"; Itoa inv.(ai_RSA2048Plus)] ++ md_row ["RSA under 2048"; Itoa inv.(ai_RSAUnder2048)] ++
  md_row ["ECDSA"; Itoa inv.(ai_ECDSA)] ++ md_row ["Ed25519"; Itoa inv.(ai_Ed25519)] ++
  md_row ["SHA-1 signatures"; Itoa inv.(ai_SHA1Signatures)] ++ md_line "".

Definition scan_diagnostics (d : Scan) : string :=
  md_par "## Scan diagnostics" ++
  md_line ("- **Targets:** " ++ Itoa d.(s_TargetsSucceeded) ++ " succeeded / " ++ Itoa d.(s_TargetsFailed) ++
           " failed / " ++ Itoa d.(s_TargetsTotal) ++ " total") ++
  md_line ("- **Certificates persisted:** " ++ Itoa d.(s_CertsFound)) ++
  md_line ("- **Upsert failures:** " ++ Itoa d.(s_UpsertFailures)) ++
  (if String.eqb (or_blank d.(s_Error)) "" then "" else md_line ("- **Scan error:** " ++ or_blank d.(s_Error))) ++
  (if (length d.(s_ExpansionWarnings) =? 0)%nat then ""
   else md_line "" ++ md_par "**Expansion warnings:**" ++ md_map (fun w => md_line ("- " ++ w)) d.(s_ExpansionWarnings)) ++
  (if (length d.(s_FailureSamples) =? 0)%nat then ""
   else md_line "" ++ md_par "**Failure samples:**" ++ md_line "| Kind | Target | Reason |" ++
        md_line "|------|--------|--------|" ++ md_map sample_row (take 10 d.(s_FailureSamples))) ++
  md_line "".

Definition RenderMarkdown (doc : Document) : string :=
  executive_summary doc ++ blind_spot_section doc.(doc_BlindSpot) ++ compliance_sections doc.(doc_Compliance) ++
  scan_diagnostics doc.(doc_Scan) ++ writeCertHealth doc.(doc_CertHealth) ++ writeExpiryRisk doc.(doc_ExpiryRisk) ++
  writeIssuerTrust doc.(doc_IssuerTrust) ++ writeScopeGovernance doc.(doc_Governance) ++
  writeTopInsights doc.(doc_Insights) ++ writeRecommendations doc.(doc_Recommends).

(** ** The structure of a text

    A reader of Markdown tables sees the line ends, which are line feeds and
    carriage returns, and the pipes that no backslash escapes.  [scan esc s] is
    that structure, and whether a backslash is pending at the end; [esc] says
    whether one is at the start. *)

Definition line_end (c : ascii) : bool := Ascii.eqb c newline || Ascii.eqb c cr.

Fixpoint scan (esc : bool) (s : string) : string * bool :=
  match s with
  | EmptyString => ("", esc)
  | String c s' =>
      if line_end c then let '(k, e) := scan false s' in (String c k, e)
      else if Ascii.eqb c backslash then scan (negb esc) s'
      else if Ascii.eqb c "|" && negb esc then let '(k, e) := scan false s' in (String "|" k, e)
      else scan false s'
  end.
Definition structure (s : string) : string := (scan false s).1.

(** Texts of one structure that leave no backslash pending. *)
Definition same (s t : string) : Prop := scan false s = scan false t /\ (scan false s).2 = false.

Lemma scan_app s t e : scan e (s ++ t) = ((scan e s).1 ++ (scan (scan e s).2 t).1, (scan (scan e s).2 t).2).
Proof.
  revert e. induction s as [|c s IH]; intros e; [change (scan e t = ("" ++ (scan e t).1, (scan e t).2)); rewrite string_app_nil; by destruct (scan e t)|].
  rewrite string_app_cons. simpl. destruct (line_end c).
  - rewrite IH. by destruct (scan false s).
  - destruct (Ascii.eqb c backslash); [apply IH|]. destruct (_ && _); [|apply IH]. rewrite IH. by destruct (scan false s).
Qed.

#[export] Instance same_app : Proper (same ==> same ==> same) String.append.
Proof.
  intros s s' [E1 F1] t t' [E2 F2]. unfold same. rewrite !scan_app, <- E1, F1, <- E2. done.
Qed.

Lemma same_symmetric s t : same s t -> same t s.
Proof. intros [E F]. split; [done|by rewrite <- E]. Qed.

(** A line closes every escape, so any line is like itself. *)
Lemma same_line s t : (scan false s).1 = (scan false t).1 -> same (md_line s) (md_line t).
Proof. intros E. unfold same, md_line. rewrite !scan_app, E. done. Qed.
Lemma same_par s t : (scan false s).1 = (scan false t).1 -> same (md_par s) (md_par t).
Proof. intros E. unfold md_par. apply same_line. rewrite (proj1 (same_line s t E)). done. Qed.

Lemma same_map {A} (f g : A -> string) l : (forall x, same (f x) (g x)) -> same (md_map f l) (md_map g l).
Proof. intros Hf. induction l as [|x l IH]; [done|]. unfold md_map. simpl. by apply same_app. Qed.
Lemma same_map_of {A} (f : A -> string) (h : A -> A) l : (forall x, same (f x) (f (h x))) -> same (md_map f l) (md_map f (map h l)).
Proof. intros Hf. induction l as [|x l IH]; [done|]. unfold md_map. simpl. by apply same_app. Qed.

(** *** Cells *)

(** A text that shows nothing to the reader. *)
Definition inert (s : string) : Prop := scan false s = ("", false).
Lemma inert_same s t : inert s -> inert t -> same s t.
Proof. intros Hs Ht. split; by rewrite Hs, ?Ht. Qed.

(** Replacing byte by byte. *)
Fixpoint flat_map_string (f : ascii -> string) (s : string) : string :=
  match s with EmptyString => "" | String a s' => f a ++ flat_map_string f s' end.
Definition subst_char (c : ascii) (new : string) (a : ascii) : string := if Ascii.eqb a c then new else String a "".

Lemma ReplaceAll_char c new s : ReplaceAll s (String c "") new = flat_map_string (subst_char c new) s.
Proof.
  unfold ReplaceAll. induction s as [|a s IH]; [done|]. simpl. rewrite <- IH. unfold subst_char.
  rewrite (Ascii.eqb_sym a c). by destruct (Ascii.eqb c a).
Qed.
Lemma flat_map_app f s t : flat_map_string f (s ++ t) = flat_map_string f s ++ flat_map_string f t.
Proof. induction s as [|a s IH]; [done|]. rewrite string_app_cons. simpl. by rewrite IH, string_app_assoc. Qed.
Lemma flat_map_flat_map f g s : flat_map_string g (flat_map_string f s) = flat_map_string (fun a => flat_map_string g (f a)) s.
Proof. induction s as [|a s IH]; [done|]. simpl. by rewrite flat_map_app, IH. Qed.

Lemma inert_app s t : inert s -> inert t -> inert (s ++ t).
Proof. unfold inert. intros Hs Ht. rewrite scan_app, Hs. simpl. by rewrite Ht. Qed.

(** Whatever a cell holds, the reader sees nothing of it. *)
Lemma escapeCell_inert s : inert (escapeCell s).
Proof.
  unfold escapeCell. rewrite !ReplaceAll_char, !flat_map_flat_map.
  induction s as [|a s IH]; [done|]. simpl. apply inert_app; [|done]. clear.
  destruct a as [[] [] [] [] [] [] [] []]; vm_compute; reflexivity.
Qed.

(** A number is written in digits, behind a sign. *)
Definition number_char (c : ascii) : bool := is_digit c || Ascii.eqb c "-".
Lemma pretty_N_go_digits x s :
  string_forallb number_char s = true -> string_forallb number_char (pretty_N_go x s) = true.
Proof.
  revert s. induction (N.lt_wf_0 x) as [x _ IH]; intros s Hs.
  assert (x = 0 \/ 0 < x)%N as [->|Hx] by lia; [by rewrite pretty_N_go_0|].
  rewrite pretty_N_go_step by done. apply IH; [by apply N.div_lt|]. simpl. rewrite Hs, andb_true_r.
  unfold pretty_N_char. by repeat case_match.
Qed.
Lemma Itoa_digits n : string_forallb number_char (Itoa n) = true.
Proof.
  assert (forall x : N, string_forallb number_char (pretty x) = true) as HN.
  { intros x. unfold pretty, pretty_N. case_decide; [done|]. by apply pretty_N_go_digits. }
  unfold Itoa, pretty, pretty_Z. destruct n as [|p|p]; [done|apply HN|].
  rewrite string_forallb_app. apply andb_true_iff. split; [done|apply (HN (N.pos p))].
Qed.

Lemma Itoa_inert n : inert (Itoa n).
Proof.
  assert (forall s, string_forallb number_char s = true -> inert s) as Hs.
  { induction s as [|c s IH]; [done|]. simpl. intros [Hc H]%andb_true_iff. change (String c s) with (String c "" ++ s).
    apply inert_app; [|by apply IH]. revert Hc. clear. destruct c as [[] [] [] [] [] [] [] []]; vm_compute; congruence. }
  apply Hs, Itoa_digits.
Qed.

Lemma same_row cells cells' : Forall2 (fun a b => inert a /\ inert b) cells cells' -> same (md_row cells) (md_row cells').
Proof.
  intros Hc. unfold md_row. apply same_line.
  assert (forall l l', Forall2 (fun a b => inert a /\ inert b) l l' -> same (Join l " | ") (Join l' " | ")) as Hj.
  { unfold Join. induction 1 as [|a b l l' [Ha Hb] H IH]; [done|]. destruct H; [by apply inert_same|].
    cbn [String.concat]. repeat apply same_app; [by apply inert_same|done|done]. }
  assert (same ("| " ++ Join cells " | " ++ " |") ("| " ++ Join cells' " | " ++ " |")) as [-> _]; [|done].
  repeat apply same_app; [done|by apply Hj|done].
Qed.

(** ** Nothing breaks out of its cell *)

(** The report with every text that a scanned endpoint chooses replaced. *)
Definition harmless_finding (f : Finding) : Finding :=
  Build_Finding "x" f.(fi_Pack) "x" "x" "x" f.(fi_CertID) "x" "x".
Definition harmless_insight (i : Insight) : Insight :=
  Build_Insight i.(in_Category) "x" "x" "x" "x" i.(in_Fingerprint) "x" "x" i.(in_Tags) i.(in_Metadata).
Definition harmless_issuer (s : IssuerSummary) : IssuerSummary :=
  Build_IssuerSummary "x" s.(is_CertCount) s.(is_CACount) s.(is_InVault) s.(is_ChainStatus) s.(is_ImportCandidate).
Definition harmless_sample (s : TargetFailureSample) : TargetFailureSample :=
  Build_TargetFailureSample "x" s.(fs_Port) "x" "x" "x" "x".
Definition harmless (doc : Document) : Document :=
  Build_Document doc.(doc_ReportVersion) doc.(doc_GeneratedAt)
    (doc.(doc_Scan) <| s_FailureSamples ::= map harmless_sample |>) doc.(doc_BlindSpot)
    (doc.(doc_Compliance) <| cs_Findings ::= map harmless_finding |>)
    doc.(doc_CertHealth) doc.(doc_ExpiryRisk) (map harmless_issuer doc.(doc_IssuerTrust)) doc.(doc_Governance)
    (map harmless_insight doc.(doc_Insights)) doc.(doc_Recommends).

Create HintDb markdown discriminated.
#[export] Hint Resolve escapeCell_inert Itoa_inert : markdown.

(** [same_tac] walks through a section written twice. *)
Ltac same_tac :=
  rewrite ?length_map, ?firstn_map;
  repeat match goal with
  | |- same (if ?b then _ else _) _ => destruct b
  | |- same (md_map ?f ?l) (md_map ?f (map ?h ?l)) => apply (same_map_of f h); intros ?
  | |- same (md_map ?f ?l) (md_map ?f ?l) => apply same_map; intros ?
  | |- same (finding_row _) _ => unfold finding_row
  | |- same (issuer_row _) _ => unfold issuer_row
  | |- same (insight_row _) _ => unfold insight_row
  | |- same (sample_row _) _ => unfold sample_row
  | |- same (String.append _ _) (String.append _ _) => apply same_app
  | |- same (md_row _) (md_row _) => apply same_row; repeat constructor; auto with markdown
  | |- same (md_line _) (md_line _) => apply same_line; reflexivity
  | |- same (md_par _) (md_par _) => apply same_par; reflexivity
  | |- same ?s ?s => by split
  end.

Lemma filter_map_harmless pack fs :
  filter (fun f => fi_Pack f = pack) (map harmless_finding fs) = map harmless_finding (filter (fun f => fi_Pack f = pack) fs).
Proof.
  induction fs as [|f fs IH]; [done|]. simpl. rewrite !filter_cons. simpl.
  destruct (decide (fi_Pack f = pack)); simpl; by rewrite IH.
Qed.

Lemma same_findings s pack :
  same (writeFindingsByPack s pack) (writeFindingsByPack (s <| cs_Findings ::= map harmless_finding |>) pack).
Proof. unfold writeFindingsByPack. simpl. rewrite filter_map_harmless. same_tac. Qed.

(** C38. A report has the lines, rows and columns of the report in which every text
    of a certificate, of a probe or of an issuer is harmless: the same line
    feeds, carriage returns and unescaped pipes in the same order. *)
Theorem RenderMarkdown_structure doc : structure (RenderMarkdown doc) = structure (RenderMarkdown (harmless doc)).
Proof.
  enough (same (RenderMarkdown doc) (RenderMarkdown (harmless doc))) as [E _] by (unfold structure; by rewrite E).
  unfold RenderMarkdown, harmless, executive_summary, blind_spot_section, compliance_sections, scan_diagnostics,
    writeCertHealth, writeExpiryRisk, writeIssuerTrust, writeScopeGovernance, count_list, writeTopInsights,
    writeRecommendations.
  cbn -[String.append writeFindingsByPack md_map md_row md_line md_par take]. same_tac; try apply same_findings.
  all: unfold count_row, scope_row, count_item, recommendation_row; same_tac; by destruct x as [????? []].
Qed.

(** The scope, the expansion warnings and the error of the scan are written as
    they are: a hostname with a line end adds lines to the report. *)
Definition demo_doc (hostname : string) : Document :=
  let s := Build_Scan "s" "network" scan_completed [] [hostname] [443] 1 None None 0 0 0 0 0 0 [] [] None None None 0 in
  Build_Document "0.2.0" 0 s (Build_BlindSpotSummary 0 0 0 0)
    (Build_ComplianceSummary None 0 0 ∅ ∅ (Build_AlgorithmInventory 0 0 0 0 0) 0 0 [])
    (BuildCertHealth []) (BuildExpiryRisk []) [] (BuildScopeGovernance []) [] [].
Example scope_breaks_out :
  structure (RenderMarkdown (demo_doc ("a" ++ String newline "# b"))) <> structure (RenderMarkdown (demo_doc "a")).
Proof. vm_compute. discriminate. Qed.
