(* ===== verification/ResourceApi.v ===== *)
(** * The handlers that read, annotate and delete (internal/api)

    server.go: health, listings, lookups, deletions, enrichment, renewal kit,
    inventory and events; handlers_posture.go, handlers_reconcile.go,
    handlers_compliance.go, handlers_blindspot.go and handlers_report.go. *)

From Stdlib Require Import Ascii.
From S2P Require Import Prelude GoLib Records Db Queue Outbox Lifecycle CertStore JobStore Issuers ScanQueue Compliance Report Posture Markdown Access Renewal Inventory LaunchApi Vault.

Open Scope clm_scope.

(** ** Requests and answers *)

(** [r.URL.Query().Get]: the first value of a parameter, or the empty text. *)
Definition Query : Type := string -> string.

(** What is written.  A certificate appears without its number of
    observations. *)
Inductive View :=
| VError (msg : string)
| VNoContent
| VHealth
| VText (contentType disposition text : string)
| VReport (doc : Document)
| VScan (s : Scan)
| VScans (items : list Scan) (limit offset : Z)
| VCert (c : Certificate)
| VCertObserved (c : Certificate) (obs : list Observation)
| VCerts (items : list Certificate) (total limit offset : Z)
| VChoose (code : ChooseCode)
| VKit (target : string) (arts : list Artifact)
| VJob (j : LifecycleJob) (userStatus : string)
| VJobs (items : list LifecycleJob)
| VInventory (doc : InventoryDoc)
| VEvents (items : list Event) (limit : Z)
| VIssuers (items : list Issuer) (limit offset : Z)
| VFindings (items : list FindingRow)
| VWaiver (w : Waiver)
| VWaivers (items : list Waiver)
| VPQC (counts : gmap string Z)
| VReconciled (sm : Vault.Summary)
| VCompliance (s : ComplianceSummary)
| VBlindSpot (b : BlindSpotSummary).

Record Answer := Build_Answer { an_status : Z; an_view : View; an_audit : option AuditEntry }.

Definition answer (v : View) : M Answer := mret (Build_Answer 200 v None).
Definition refuse (status : Z) (msg : string) : M Answer := mret (Build_Answer status (VError msg) None).
(** [writeServerError], [writeLookupError] *)
Definition server_refused (msg : string) : M Answer := refuse 500 msg.
Definition lookup_refused (err notFound : error) (notFoundMsg serverMsg : string) : M Answer :=
  if bool_decide (err = notFound) then refuse 404 notFoundMsg else server_refused serverMsg.
(** [auditAllow], then 204 *)
Definition answer_no_content (action targetType targetID : string) (payload : option any) : M Answer :=
  mret (Build_Answer 204 VNoContent (Some (Build_AuditEntry action targetType targetID payload))).

Definition with_param `{UuidParse} (param msg : string) (k : uuid -> M Answer) : M Answer :=
  match uuid_parse param with Some id => k id | None => refuse 400 msg end.
Definition bad_scan : string := "invalid scan id".
Definition bad_cert : string := "invalid certificate id".

(** [x, err := m; if err != nil { refused }; k] *)
Definition or_refuse {A} (m : M (res A)) (refused : error -> M Answer) (k : A -> M Answer) : M Answer :=
  r <-- m ;; match r with Ok a => k a | Err e => refused e end.

(** [strconv.Atoi]: the number, clamped when it does not fit, and whether
    there was an error. *)
Definition Atoi (s : string) : Z * bool :=
  let digits t := if String.eqb t "" then None else digits10 t 0 in
  match (match s with
         | String "-" t => Z.opp <$> digits t
         | String "+" t => digits t
         | _ => digits s
         end%char) with
  | None => (0, false)
  | Some n => if n <? min_int64 then (min_int64, false) else if max_int64 <? n then (max_int64, false) else (n, true)
  end.
Definition Atoi_ok (s : string) : option Z := match Atoi s with (n, true) => Some n | _ => None end.

Definition pagination (q : Query) : Z * Z :=
  let limit := (Atoi (q "limit"%string)).1 in
  let offset := (Atoi (q "offset"%string)).1 in
  (if limit <=? 0 then 50 else limit, if offset <? 0 then 0 else offset).

(** A positive number in a parameter, or the default. *)
Definition positive_param (q : Query) (name : string) (d : Z) : Z :=
  match Atoi_ok (TrimSpace (q name)) with Some n => if 0 <? n then n else d | None => d end.

(** [uuid.Nil] filters nothing. *)
Definition uuid_Nil : uuid := "00000000-0000-0000-0000-000000000000"%string.
Definition scan_filter (id : uuid) : option uuid := if String.eqb id uuid_Nil then None else Some id.

Section ResourceApi.
Context `{UuidGen, StoreConfig, UuidParse, OpsPolicy}.

(** [handleHealth] *)
Definition Ping : M (res unit) := store_call (tret tt).
Definition handleHealth : M Answer :=
  or_refuse Ping (fun _ => refuse 503 "database unavailable") (fun _ => answer VHealth).

(** ** Scans *)

Definition handleListScans (q : Query) : M Answer :=
  let '(limit, offset) := pagination q in
  or_refuse (ListScans limit offset) (fun _ => server_refused "failed to list scans")
    (fun scans => answer (VScans scans limit offset)).

Definition load_scan (id : uuid) (k : Scan -> M Answer) : M Answer :=
  or_refuse (GetScan id) (fun e => lookup_refused e ErrScanNotFound "scan not found" "failed to load scan") k.

Definition handleGetScan (param : string) : M Answer :=
  with_param param bad_scan (fun id => load_scan id (fun s => answer (VScan s))).

Definition handleListScanCertificates (param : string) (q : Query) : M Answer :=
  with_param param bad_scan (fun id => load_scan id (fun _ =>
    let '(limit, offset) := pagination q in
    or_refuse (ListCertificates {| cf_Status := ""; cf_ChainStatus := ""; cf_Search := ""; cf_ScanID := scan_filter id;
                                   cf_PQCTag := ""; cf_MinRisk := None; cf_SortBy := ""; cf_SortDesc := false;
                                   cf_Limit := limit; cf_Offset := offset |})
      (fun _ => server_refused "failed to list scan certificates")
      (fun page => answer (VCerts page.1 page.2 limit offset)))).

Definition handleDeleteScan (param : string) : M Answer :=
  with_param param bad_scan (fun id =>
    or_refuse (DeleteScan id) (fun e => lookup_refused e ErrScanNotFound "scan not found" "failed to delete scan")
      (fun _ => answer_no_content "delete" "scan" id None)).

(** ** Certificates *)

(** The filter of [handleListCertificates], or the message of a 400. *)
Definition certificate_filter (q : Query) (limit offset : Z) : result string CertificateFilter :=
  let get := fun name : string => q name in
  let desc := if String.eqb (get "sort_dir"%string) "asc" then false else String.eqb (get "sort"%string) "risk_score" in
  let filter_with (risk : option Z) (scan : option uuid) : CertificateFilter :=
    {| cf_Status := get "status"%string; cf_ChainStatus := get "chain_status"%string; cf_Search := get "search"%string;
       cf_ScanID := scan; cf_PQCTag := get "pqc_tag"%string; cf_MinRisk := risk; cf_SortBy := get "sort"%string;
       cf_SortDesc := desc; cf_Limit := limit; cf_Offset := offset |} in
  let with_scan (risk : option Z) : result string CertificateFilter :=
    if String.eqb (get "scan_id"%string) "" then Ok (filter_with risk None)
    else match uuid_parse (get "scan_id"%string) with
         | None => Err "invalid scan_id"%string
         | Some id => Ok (filter_with risk (scan_filter id))
         end in
  if String.eqb (get "min_risk"%string) "" then with_scan None
  else match Atoi_ok (get "min_risk"%string) with
       | None => Err "invalid min_risk"%string
       | Some n => with_scan (Some n)
       end.

Definition handleListCertificates (q : Query) : M Answer :=
  let '(limit, offset) := pagination q in
  match certificate_filter q limit offset with
  | Err msg => refuse 400 msg
  | Ok f =>
      or_refuse (ListCertificates f) (fun _ => server_refused "failed to list certificates")
        (fun page => answer (VCerts page.1 page.2 limit offset))
  end.

Definition load_cert (id : uuid) (k : Certificate -> M Answer) : M Answer :=
  or_refuse (GetCertificate id)
    (fun e => lookup_refused e ErrCertificateNotFound "certificate not found" "failed to load certificate") k.

Definition handleGetCertificate (param : string) : M Answer :=
  with_param param bad_cert (fun id => load_cert id (fun c =>
    or_refuse (GetCertificateObservations id) (fun _ => server_refused "failed to get observations")
      (fun obs => answer (VCertObserved c obs)))).

Definition handleGetCertificatePEM (param : string) : M Answer :=
  with_param param bad_cert (fun id => load_cert id (fun c =>
    answer (VText "application/x-pem-file" "attachment; filename=certificate.pem" c.(c_PEM)))).

(** [handlePatchCertificate]: a failed recomputation is logged. *)
Definition handlePatchCertificate (param : string) (body : option EnrichmentUpdate) : M Answer :=
  with_param param bad_cert (fun id =>
    match body with
    | None => refuse 400 "invalid request body"
    | Some u =>
        or_refuse (UpdateCertificateEnrichment id u) (fun _ => server_refused "failed to update certificate")
          (fun c => r <-- RecomputeCert id ;; answer (VCert (match r with Ok c' => c' | Err _ => c end)))
    end).

Definition handleDeleteCertificate (param : string) : M Answer :=
  with_param param bad_cert (fun id =>
    or_refuse (DeleteCertificate id)
      (fun e => lookup_refused e ErrCertificateNotFound "certificate not found" "failed to delete certificate")
      (fun _ => answer_no_content "delete" "certificate" id None)).

Definition handleGetCertificateChoose (param : string) : M Answer :=
  with_param param bad_cert (fun id => load_cert id (fun c =>
    answer (VChoose (ChooseRecommendation
      (Build_ChooseInput c.(c_CertScope) c.(c_ManagedStatus) c.(c_ChainStatus) c.(c_IsCA)))))).

Definition handleRenewalKit (param : string) (q : Query) : M Answer :=
  with_param param bad_cert (fun id => load_cert id (fun c =>
    let target := ToLower (q "target"%string) in
    let target := if String.eqb target "" then "agent"%string else target in
    let mount := TrimSpace (q "mount"%string) in
    let mount := if String.eqb mount "" then "pki"%string else mount in
    match Renewal.Generate target (Build_KitInput (or_blank_cn c) mount (TrimSpace (q "role"%string)) (TrimSpace (q "service"%string))) with
    | Err e => refuse 400 (launch_error_text (LaunchKit e))
    | Ok arts => answer (VKit target arts)
    end)).

(** ** Issuers, jobs, inventory, events *)

Definition handleListIssuers (q : Query) : M Answer :=
  let '(limit, offset) := pagination q in
  or_refuse (ListIssuers limit offset) (fun _ => server_refused "failed to list issuers")
    (fun issuers => answer (VIssuers issuers limit offset)).

Definition handleDeleteIssuer (param : string) : M Answer :=
  with_param param "invalid issuer id" (fun id =>
    or_refuse (DeleteIssuer id) (fun e => lookup_refused e ErrIssuerNotFound "issuer not found" "failed to delete issuer")
      (fun _ => answer_no_content "delete" "issuer" id None)).

Definition handleGetLifecycleJob (param : string) : M Answer :=
  with_param param "invalid lifecycle job id" (fun id =>
    or_refuse (GetLifecycleJob id)
      (fun e => lookup_refused e ErrLifecycleJobNotFound "lifecycle job not found" "failed to load lifecycle job")
      (fun j => answer (VJob j (UserStatus j.(j_Status))))).

Definition handleListCertLifecycleJobs (param : string) : M Answer :=
  with_param param bad_cert (fun id =>
    or_refuse (ListLifecycleJobsByCert id 50) (fun _ => server_refused "failed to list lifecycle jobs")
      (fun jobs => answer (VJobs jobs))).

Definition allRenewable : Z := 36500.
Definition handleInventory (q : Query) : M Answer :=
  or_refuse (ListRenewable (positive_param q "within_days" allRenewable))
    (fun _ => server_refused "failed to list renewable certificates")
    (fun certs => answer (VInventory (Inventory.Build certs))).

Definition handleListEvents (q : Query) : M Answer :=
  let limit := Z.min 500 (positive_param q "limit" 100) in
  or_refuse (ListEvents {| ef_Limit := limit; ef_EventType := TrimSpace (q "event_type"%string); ef_CertificateID := None |})
    (fun _ => server_refused "failed to list events") (fun events => answer (VEvents events limit)).

(** ** Findings and waivers (handlers_posture.go) *)

Definition handleListCertFindings (param : string) : M Answer :=
  with_param param bad_cert (fun id =>
    or_refuse (ListOpenFindings id) (fun _ => server_refused "failed to list findings") (fun fs => answer (VFindings fs))).

Definition handleListCertWaivers (param : string) : M Answer :=
  with_param param bad_cert (fun id =>
    or_refuse (ListWaiversForCert id) (fun _ => server_refused "failed to list waivers") (fun ws => answer (VWaivers ws))).

(** [handleCreateCertWaiver]; [actor] is [requestActor], the body a rule, a
    reason and an expiry.  A failed recomputation is logged. *)
Definition handleCreateCertWaiver (actor param : string) (body : option (string * string * time)) : M Answer :=
  with_param param bad_cert (fun id =>
    if String.eqb actor "" then refuse 401 "unauthorized"
    else match body with
    | None => refuse 400 "invalid request body"
    | Some (ruleID, reason, expiresAt) =>
        or_refuse (CreateWaiver id ruleID reason actor expiresAt)
          (fun e => if bool_decide (e = ErrWaiverExpired) then refuse 400 "expires_at must be in the future"
                    else server_refused "failed to create waiver")
          (fun wv => _ <-- RecomputeCert id ;;
                     mret (Build_Answer 201 (VWaiver wv) (Some (Build_AuditEntry "create_waiver" "certificate" id
                       (Some (AMap [("rule_id"%string, AStr ruleID); ("waiver_id"%string, AStr wv.(w_ID))]))))))
    end).

Definition handleRevokeWaiver (param : string) : M Answer :=
  with_param param "invalid waiver id" (fun id =>
    or_refuse (GetWaiver id) (fun e => lookup_refused e ErrWaiverNotFound "waiver not found" "failed to load waiver") (fun wv =>
    or_refuse (RevokeWaiver id) (fun e => lookup_refused e ErrWaiverNotFound "waiver not found" "failed to revoke waiver") (fun _ =>
    _ <-- RecomputeCert wv.(w_CertID) ;;
    answer_no_content "revoke_waiver" "waiver" id
      (Some (AMap [("cert_id"%string, AStr wv.(w_CertID)); ("rule_id"%string, AStr wv.(w_RuleID))]))))).

Definition handlePQCInventory : M Answer :=
  or_refuse CountPQCTags (fun _ => server_refused "failed to count pqc tags") (fun m => answer (VPQC m)).

Definition handleListScanFindings (param : string) : M Answer :=
  with_param param bad_scan (fun id => load_scan id (fun _ =>
    or_refuse (ListFindingsForScan id) (fun _ => server_refused "failed to list findings") (fun fs => answer (VFindings fs)))).

(** ** Compliance, blind spot, report *)

Definition evaluated (scanID : option uuid) : M Answer :=
  or_refuse (EvaluateScan scanID) (fun _ => server_refused "failed to evaluate compliance") (fun s => answer (VCompliance s)).
Definition handleGetScanCompliance (param : string) : M Answer :=
  with_param param bad_scan (fun id => load_scan id (fun _ => evaluated (Some id))).
Definition handleGetComplianceSummary (q : Query) : M Answer :=
  if String.eqb (q "scan_id"%string) "" then evaluated None
  else with_param (q "scan_id"%string) "invalid scan_id" (fun id => load_scan id (fun _ => evaluated (Some id))).

Definition buildBlindSpotSummary (managed discovered sc081Violations : Z) : BlindSpotSummary :=
  let shadow := discovered - managed in
  Build_BlindSpotSummary managed discovered (if shadow <? 0 then 0 else shadow) sc081Violations.
Definition blindSpotSummary (scanID : option uuid) : M (res BlindSpotSummary) :=
  counts <-? CountByManagedStatus scanID ;;
  n <-? CountSC081Violations scanID ;;
  mret (Ok (buildBlindSpotSummary counts.1 counts.2 n)).
Definition summarised (scanID : option uuid) : M Answer :=
  or_refuse (blindSpotSummary scanID) (fun _ => server_refused "failed to compute blind-spot summary") (fun b => answer (VBlindSpot b)).
Definition handleGetScanBlindSpot (param : string) : M Answer :=
  with_param param bad_scan (fun id => load_scan id (fun _ => summarised (Some id))).
Definition handleGetBlindSpot : M Answer := summarised None.

(** The rendering of a report; an unknown format is refused after the report
    has been built. *)
Definition rendered (id : uuid) (format : string) (doc : Document) : M Answer :=
  if String.eqb format "markdown" then answer (VText "text/markdown; charset=utf-8" "" (RenderMarkdown doc))
  else if String.eqb format "json" then answer (VReport doc)
  else if String.eqb format "csv" then
    answer (VText "text/csv; charset=utf-8"
      ("attachment; filename=" ++ String dquote "scan-" ++ id ++ "-report.csv" ++ String dquote "") (RenderCSV doc.(doc_Insights)))
  else refuse 400 "format must be markdown, json, or csv".
Definition handleGetScanReport (param : string) (q : Query) : M Answer :=
  with_param param bad_scan (fun id =>
    or_refuse (BuildForScan id)
      (fun e => if bool_decide (e = ErrScanNotCompleted) then refuse 404 "scan not completed"
                else if bool_decide (e = ErrScanNotFound) then refuse 404 "scan not found"
                else server_refused "failed to build report")
      (fun doc => let format := ToLower (q "format"%string) in
                  rendered id (if String.eqb format "" then "markdown"%string else format) doc)).

(** ** The readers, by the name the router gives them *)

Definition read_handler (name param : string) (q : Query) : option (M Answer) :=
  let named := String.eqb name in
  if named "handleHealth" then Some handleHealth
  else if named "handleListScans" then Some (handleListScans q)
  else if named "handleGetScan" then Some (handleGetScan param)
  else if named "handleGetScanBlindSpot" then Some (handleGetScanBlindSpot param)
  else if named "handleGetScanCompliance" then Some (handleGetScanCompliance param)
  else if named "handleGetScanReport" then Some (handleGetScanReport param q)
  else if named "handleListScanFindings" then Some (handleListScanFindings param)
  else if named "handleListScanCertificates" then Some (handleListScanCertificates param q)
  else if named "handleListCertificates" then Some (handleListCertificates q)
  else if named "handleGetCertificate" then Some (handleGetCertificate param)
  else if named "handleGetCertificatePEM" then Some (handleGetCertificatePEM param)
  else if named "handleGetCertificateChoose" then Some (handleGetCertificateChoose param)
  else if named "handleListCertFindings" then Some (handleListCertFindings param)
  else if named "handleListCertWaivers" then Some (handleListCertWaivers param)
  else if named "handleRenewalKit" then Some (handleRenewalKit param q)
  else if named "handleListIssuers" then Some (handleListIssuers q)
  else if named "handleInventory" then Some (handleInventory q)
  else if named "handlePQCInventory" then Some handlePQCInventory
  else if named "handleListEvents" then Some (handleListEvents q)
  else if named "handleGetLifecycleJob" then Some (handleGetLifecycleJob param)
  else if named "handleListCertLifecycleJobs" then Some (handleListCertLifecycleJobs param)
  else if named "handleGetBlindSpot" then Some handleGetBlindSpot
  else if named "handleGetComplianceSummary" then Some (handleGetComplianceSummary q)
  else None.
End ResourceApi.

(** [handleReconcile]; [reconciler] is set when a client could be made. *)
Section ReconcileApi.
Context {S : Type} `{UuidGen, StoreConfig, VaultLib, !PKIReader S}.

Definition handleReconcile (cfg : ApiConfig) (reconciler : option S) : M (Answer * option S) :=
  let keep (m : M Answer) (s : option S) : M (Answer * option S) := a <-- m ;; mret (a, s) in
  if String.eqb cfg.(api_VaultAddr) "" then keep (refuse 503 "vault not configured") reconciler
  else match reconciler with
  | None => keep (refuse 503 "vault not configured") None
  | Some s =>
      x <-- Reconcile s ;;
      match x with
      | (_, Some _, s') => keep (server_refused "reconcile failed") (Some s')
      | (sm, None, s') =>
          mret (Build_Answer 200 (VReconciled sm)
                  (Some (Build_AuditEntry "reconcile" "" "" (Some (AMap [("status"%string, AStr sm.(sm_Status))])))), Some s')
      end
  end.
End ReconcileApi.
