(* ===== verification/Cmd.v ===== *)
(** * The commands (cmd/, internal/cli)

    The scan from the command line, the adapters that give the lifecycle
    worker of the server its Controller, the levels of the log
    (internal/logging) and the names the demonstration scans (internal/demo). *)

From Stdlib Require Import Ascii.
From S2P Require Import Prelude GoLib Records Db Queue CertStore ScanQueue ScanRunner Ip Scanner Vault Aap ResourceApi.

Open Scope clm_scope.

(** ** Lists of flags (cli/parse.go) *)

Fixpoint parse_port_parts (parts : list string) : option (list Z) :=
  match parts with
  | [] => Some []
  | p :: parts' => n ← Atoi_ok (TrimSpace p); rest ← parse_port_parts parts'; Some (n :: rest)
  end.
Definition ParsePorts (s : string) : option (list Z) := parse_port_parts (Split s ",").

Definition nonblank (l : list string) : list string := filter (fun v => v <> ""%string) (map TrimSpace l).
Definition SplitCSV (s : string) : list string :=
  if String.eqb (TrimSpace s) "" then [] else nonblank (Split s ",").

(** ** clm-scan *)

(** The flags, and their defaults. *)
Record ScanFlags := Build_ScanFlags {
  fl_cidrs : string;
  fl_hostnames : string;
  fl_ports : string;
  fl_concurrency : Z;
  fl_consent : bool
}.
#[export] Instance ScanFlags_eta : Eta ScanFlags := fun x =>
  Build_ScanFlags (x.(fl_cidrs)) (x.(fl_hostnames)) (x.(fl_ports)) (x.(fl_concurrency)) (x.(fl_consent)).
Definition default_flags : ScanFlags := Build_ScanFlags "" "" "443,8443,6443,993,465" 50 false.

(** What the command leaves: its exit status, the lines it printed, and the
    message of the error it logged, if any. *)
Record Finished := Build_Finished {
  fn_status : Z;
  fn_stdout : list string;
  fn_stderr : list string;
  fn_error : option string
}.
Definition stopped (msg : string) : Finished := Build_Finished 1 [] [] (Some msg).
Definition starting_line (id : uuid) : string := ("scan " ++ id ++ ": starting")%string.
Definition summary_line (s : Scan) : string :=
  ("scan complete: " ++ Itoa s.(s_TargetsTotal) ++ " targets, " ++ Itoa s.(s_TargetsSucceeded) ++ " succeeded, "
   ++ Itoa s.(s_TargetsFailed) ++ " failed, " ++ Itoa s.(s_CertsFound) ++ " certificates, "
   ++ Itoa s.(s_UpsertFailures) ++ " upsert failures, "
   ++ Itoa (Z.of_nat (length s.(s_ExpansionWarnings))) ++ " warnings")%string.

Section Scan.
Context `{UuidGen, StoreConfig, Prober, Resolver}.

(** [main] from the parsed flags on.  [loaded] is the [AllowPrivateRanges] of
    the configuration, [None] when it cannot be loaded, [connected] whether the pool could
    be configured, and [cs] the order in which the goroutines of the scan
    ran. *)
Definition clm_scan (fl : ScanFlags) (loaded : option bool) (connected : bool) (cs : list choice) (w : World) :
    option (Finished * World) :=
  if negb fl.(fl_consent) then Some (stopped "scanning requires consent", w)
  else if String.eqb fl.(fl_cidrs) "" && String.eqb fl.(fl_hostnames) "" then Some (stopped "no targets", w)
  else
    match loaded with
    | None => Some (stopped "load config", w)
    | Some AllowPrivateRanges =>
        if negb connected then Some (stopped "connect database", w)
        else
          let cidrList := SplitCSV fl.(fl_cidrs) in
          let hostnameList := SplitCSV fl.(fl_hostnames) in
          match ParsePorts fl.(fl_ports) with
          | None => Some (stopped "parse ports", w)
          | Some portList =>
              let '(created, w1) := CreateScan cidrList hostnameList portList fl.(fl_concurrency) 0 w in
              match created with
              | Err _ => Some (stopped "create scan", w1)
              | Ok scan =>
                  let started := [starting_line scan.(s_ID)] in
                  let expansion := match ExpandScanTargets portList AllowPrivateRanges cidrList hostnameList with
                                   | (Ok ts, warnings) => Ok (ts, warnings)
                                   | (Err e, _) => Err (ErrMsg e)
                                   end in
                  match Run (Build_Job scan.(s_ID) fl.(fl_concurrency)) expansion cs w1 with
                  | None => None
                  | Some (Err _, w2) => Some (Build_Finished 1 started [] None, w2)
                  | Some (Ok _, w2) =>
                      let '(completed, w3) := GetScan scan.(s_ID) w2 in
                      Some (match completed with
                            | Err _ => Build_Finished 1 started [] (Some "load scan summary")
                            | Ok s => Build_Finished 0 started [summary_line s] None
                            end, w3)
                  end
              end
          end
    end.
End Scan.

(** Without consent or without a target flag nothing is stored or probed. *)
Lemma clm_scan_refused `{UuidGen, StoreConfig, Prober, Resolver} fl loaded connected cs w :
  fl.(fl_consent) = false \/ fl.(fl_cidrs) = ""%string /\ fl.(fl_hostnames) = ""%string ->
  exists f, clm_scan fl loaded connected cs w = Some (f, w) /\ f.(fn_status) = 1.
Proof.
  unfold clm_scan. destruct (fl_consent fl); [intros [[=]|[-> ->]]|]; by eexists.
Qed.

Lemma SplitCSV_nonblank s : Forall (fun v => v <> ""%string) (SplitCSV s).
Proof.
  unfold SplitCSV. destruct (String.eqb _ _); [constructor|]. apply Forall_forall. intros v [Hv _]%list_elem_of_filter. done.
Qed.

(** ** The adapters of the lifecycle worker (lifecycle_worker.go) *)

Section Adapters.
Context `{AapLib} (client : AapConfig).

Definition aapLifecycleRenewer_Renew (templateName : string) (workflow : bool) (extraVars : list (string * json)) :
    M (result string (Z * bool)) :=
  res <-e (if workflow
           then id <-e FindWorkflowJobTemplate client templateName ;; LaunchWorkflowJobTemplate client id extraVars
           else id <-e FindJobTemplate client templateName ;; LaunchJobTemplate client id extraVars) ;;
  mret (Ok (res.(lr_JobID), res.(lr_Workflow))).

Definition aapLifecyclePoller_WaitForJob (fuel : nat) (deadline : option time) (jobID : Z) (workflow : bool) (interval : duration) :=
  WaitForJob client fuel deadline (Build_LaunchResult jobID workflow) interval.

(** The worker launches as the API does. *)
Lemma aapLifecycleRenewer_launches name workflow vars w :
  aapLifecycleRenewer_Renew name workflow vars w = launchAAPTemplate client name workflow vars w.
Proof.
  unfold aapLifecycleRenewer_Renew, launchAAPTemplate, etry, mbind, mret.
  destruct workflow; [destruct (FindWorkflowJobTemplate _ _ w) as [[id|e] w1]|destruct (FindJobTemplate _ _ w) as [[id|e] w1]]; done.
Qed.
End Adapters.

(** ** Levels of the log (logging.go) *)

(** [slog]'s levels are numbers, the quieter the larger. *)
Definition LevelTrace : Z := -8.
Definition LevelDebug : Z := -4.
Definition LevelInfo : Z := 0.
Definition LevelWarn : Z := 4.
Definition LevelError : Z := 8.

Definition ParseLevel (level : string) : Z :=
  let is_ := String.eqb (ToLower (TrimSpace level)) in
  if is_ "trace" then LevelTrace
  else if is_ "debug" then LevelDebug
  else if is_ "warn" || is_ "warning" then LevelWarn
  else if is_ "error" then LevelError
  else LevelInfo.
Definition IsDebugOrTrace (level : string) : bool :=
  let is_ := String.eqb (ToLower (TrimSpace level)) in is_ "trace" || is_ "debug".
Definition IsTrace (level : string) : bool := EqualFold (TrimSpace level) "trace".

(** The predicates agree with what the handler of that level lets through. *)
Lemma IsDebugOrTrace_enabled level : IsDebugOrTrace level = (ParseLevel level <=? LevelDebug).
Proof. unfold IsDebugOrTrace, ParseLevel. by repeat destruct (String.eqb _ _). Qed.
Lemma IsTrace_enabled level : IsTrace level = (ParseLevel level <=? LevelTrace).
Proof. unfold IsTrace, EqualFold, ParseLevel. change (ToLower "trace") with "trace"%string. by repeat destruct (String.eqb _ _). Qed.

(** ** Demonstration targets (demo/hostnames.go) *)

Definition ScanHostnames : list string := ["aap.david-joo.sbx.hashidemos.io"; "coffeesnob.withdevo.net"]%string.
Definition ScanHostnamesCSV : string := Join ScanHostnames ",".

Definition ValidateScanHostname (host : string) : result string unit :=
  let host := TrimSpace host in
  let refuse msg := Err (msg ++ ": " ++ Quote host)%string in
  if String.eqb host "" then Err "empty hostname"
  else if Contains host "://" then refuse "hostname must not include a URL scheme"
  else if Contains host "/" || Contains host "?" || Contains host "#" then refuse "hostname must not include path or query"
  else if HasSuffix host "." then refuse "hostname must not have trailing dot"
  else if Contains host " " then refuse "hostname contains spaces"
  else
    let labels := Split host "." in
    if (length labels <? 2)%nat then refuse "hostname must have at least two labels"
    else if existsb (String.eqb "") labels then refuse "hostname has empty label"
    else Ok tt.

(** The default targets are valid and survive their comma-separated form. *)
Example demo_targets_valid :
  map ValidateScanHostname ScanHostnames = [Ok tt; Ok tt] /\ SplitCSV ScanHostnamesCSV = ScanHostnames.
Proof. vm_compute. split; reflexivity. Qed.
(** A port passes as part of the last label. *)
Example port_passes : ValidateScanHostname "db.corp:5432" = Ok tt.
Proof. vm_compute. reflexivity. Qed.
