(* ===== verification/ResourceSpec.v ===== *)
(** * What the reading and annotating handlers do

    GET requests leave the world alone; deletions and waivers are audited. *)

From S2P Require Import Prelude GoLib Records Db Queue Outbox CertStore JobStore Issuers ScanQueue Compliance Report Posture Sends Access Renewal Inventory LaunchApi ResourceApi.

Open Scope clm_scope.

(** ** Readers *)

#[local] Hint Unfold Ping ListScans GetScan ListCertificates GetCertificate GetCertificateObservations ListIssuers
  GetLifecycleJob ListLifecycleJobsByCert ListRenewable ListEvents ListOpenFindings ListWaiversForCert CountPQCTags
  ListFindingsForScan CountByManagedStatus EvaluateScan CountSC081Violations BuildForScan Report.Generate
  loadScanCertificates EvaluateCerts blindSpotSummary get_certificate_tx get_scan_tx get_job_tx : store_ops.

Lemma reads_get_certificate id : reads (get_certificate_tx id).
Proof. unfold get_certificate_tx. auto with reads. Qed.
Lemma reads_get_scan id : reads (get_scan_tx id).
Proof. unfold get_scan_tx. auto with reads. Qed.
Lemma reads_get_job id : reads (get_job_tx id).
Proof. unfold get_job_tx. auto with reads. Qed.
#[local] Hint Resolve reads_get_certificate reads_get_scan reads_get_job : reads.

Section Readers.
Context `{UuidGen, UuidParse}.

Lemma reads_load_pages n scanID offset all : moves only_others (load_pages n scanID offset all).
Proof.
  revert offset all. induction n as [|n IH]; intros offset all; simpl; [reads_tac|].
  unfold list_certificates, pg_cert_lister. reads_tac.
Qed.
Lemma reads_add_certs certs s : moves only_others (add_certs certs s).
Proof. revert s. induction certs; intros s; simpl; reads_tac. Qed.
Lemma reads_count_all certs n : moves only_others (count_all certs n).
Proof. revert n. induction certs; intros n; simpl; reads_tac. Qed.
Lemma reads_load_all scanID : moves only_others (loadAllCertificates scanID).
Proof. intros w. apply reads_load_pages. Qed.
#[local] Hint Resolve reads_load_all reads_add_certs reads_count_all : reads.

(** A handler that only reads, refuses with one of the statuses of the API and
    appends no audit event. *)
Definition reader (m : M Answer) : Prop :=
  forall w a w', m w = (a, w') ->
    only_others w w' /\ a.(an_audit) = None /\ a.(an_status) ∈ [200; 400; 404; 500; 503].

Lemma reader_answer v : reader (answer v).
Proof. intros w a w' [= <- <-]. split_and!; [reflexivity|done|simpl; set_solver]. Qed.
Lemma reader_refuse st msg : st ∈ [400; 404; 500; 503] -> reader (refuse st msg).
Proof. intros Hs w a w' [= <- <-]. split_and!; [reflexivity|done|simpl; set_solver]. Qed.
Lemma reader_server_refused msg : reader (server_refused msg).
Proof. apply reader_refuse. set_solver. Qed.
Lemma reader_lookup_refused e nf m1 m2 : reader (lookup_refused e nf m1 m2).
Proof. unfold lookup_refused. case_bool_decide; apply reader_refuse; set_solver. Qed.
Lemma reader_param param msg k : (forall id, reader (k id)) -> reader (with_param param msg k).
Proof. intros Hk. unfold with_param. destruct (uuid_parse param); [done|]. apply reader_refuse. set_solver. Qed.
Lemma reader_or_refuse {A} (m : M (res A)) refused k :
  moves only_others m -> (forall e, reader (refused e)) -> (forall a, reader (k a)) -> reader (or_refuse m refused k).
Proof.
  intros Hm Hr Hk w a w'. unfold or_refuse, mbind. destruct (m w) as [r w1] eqn:E. apply Hm in E.
  intros Ha. destruct r as [x|e]; [apply Hk in Ha|apply Hr in Ha];
    destruct Ha as (Hw & Ha); (split; [by etransitivity|done]).
Qed.

(** [reader_tac] walks through such a handler. *)
Ltac reader_tac :=
  repeat match goal with
  | |- reader (answer _) => apply reader_answer
  | |- reader (refuse _ _) => apply reader_refuse; set_solver
  | |- reader (server_refused _) => apply reader_server_refused
  | |- reader (lookup_refused _ _ _ _) => apply reader_lookup_refused
  | |- reader (with_param _ _ _) => apply reader_param; intros ?
  | |- reader (or_refuse _ _ _) => apply reader_or_refuse; [reads_tac|intros ?|intros ?]
  | |- reader (load_scan _ _) => unfold load_scan
  | |- reader (load_cert _ _) => unfold load_cert
  | |- reader (rendered _ _ _) => unfold rendered
  | |- reader (evaluated _) => unfold evaluated
  | |- reader (summarised _) => unfold summarised
  | |- reader (let _ := _ in _) => cbv zeta
  | |- reader (match ?x with _ => _ end) => destruct x
  end.

Lemma read_handler_reader name param q m : read_handler name param q = Some m -> reader m.
Proof.
  unfold read_handler.
  repeat (destruct (String.eqb name _); [intros [= <-]|]); [..|by intros].
  all: unfold handleHealth, handleListScans, handleGetScan, handleGetScanBlindSpot, handleGetScanCompliance,
    handleGetScanReport, handleListScanFindings, handleListScanCertificates, handleListCertificates,
    handleGetCertificate, handleGetCertificatePEM, handleGetCertificateChoose, handleListCertFindings,
    handleListCertWaivers, handleRenewalKit, handleListIssuers, handleInventory, handlePQCInventory,
    handleListEvents, handleGetLifecycleJob, handleListCertLifecycleJobs, handleGetBlindSpot,
    handleGetComplianceSummary; reader_tac.
Qed.
End Readers.

(** ** What the router serves *)

(** The readers that ask Vault or the Controller (Settings.v). *)
Definition settings_readers : list string :=
  ["handleGetConnections"; "handleOptionsVaultPKIMounts"; "handleOptionsAAPTemplates"]%string.

(** Every GET route but those of the settings is served by a handler of this
    development that changes nothing: in any environment, with any
    parameters, it sends nothing, leaves the database to the other replicas
    and requests, appends no audit event and answers 200, 400, 404 or 500 (503
    for the health check). *)
Theorem get_routes_only_read `{UuidGen, UuidParse} rt param q :
  rt ∈ routes -> rt.(rt_method) = "GET"%string -> rt.(rt_handler) ∉ settings_readers ->
  exists m, read_handler rt.(rt_handler) param q = Some m /\
    forall w a w', m w = (a, w') ->
      only_others w w' /\ a.(an_audit) = None /\ a.(an_status) ∈ [200; 400; 404; 500; 503].
Proof.
  intros Hrt Hget Hset.
  assert (is_Some (read_handler rt.(rt_handler) param q)) as [m Hm].
  { unfold routes in Hrt. repeat (apply elem_of_cons in Hrt as [->|Hrt]; [try done; try by eexists|]).
    1-3: destruct Hset; set_solver. by apply elem_of_nil in Hrt. }
  exists m. split; [done|]. by eapply read_handler_reader.
Qed.

(** ** Changes are audited *)

(** Nothing is sent, and a calm environment stays calm. *)
Definition quiet (w w' : World) : Prop := w'.(w_sent) = w.(w_sent) /\ (w.(w_env) = [] -> w'.(w_env) = []).
#[export] Instance quiet_rel : WorldRel quiet.
Proof. split; [by intros w|]. unfold quiet. intros w1 w2 w3 [? ?] [? ?]. split; [congruence|auto]. Qed.
Lemma quiet_env w e w1 : next_env w = (e, w1) -> quiet w w1.
Proof. intros (_ & _ & S & [E|(E & E1 & _)])%next_env_spec; (split; [done|]); congruence. Qed.
Lemma quiet_store_call {A} (t : txn A) : moves quiet (store_call t).
Proof. intros w r w' (e & w1 & He%quiet_env & [[-> _]|(a & db' & _ & -> & _)])%store_call_spec; done. Qed.
Lemma quiet_time_now : moves quiet time_now.
Proof.
  intros w r w'. unfold time_now. destruct (next_env w) as [e w1] eqn:He. intros [= <- <-]. by eapply quiet_env.
Qed.
Ltac quiet_tac :=
  repeat match goal with
  | |- moves _ (mret _) => apply moves_ret; exact _
  | |- moves _ (store_call _) => apply quiet_store_call
  | |- moves _ time_now => apply quiet_time_now
  | |- moves _ (mtry _ _) => apply moves_try; [exact _| |intros ?]
  | |- moves _ (mbind _ _) => apply moves_bind; [exact _| |intros ?]
  | |- moves _ (mcollect _ _) => apply moves_collect; [exact _|intros ?]
  | |- moves _ (match ?x with _ => _ end) => destruct x
  end.

Section Audited.
Context `{UuidGen, StoreConfig, UuidParse, OpsPolicy}.

(** The reply to a change: it says what was done to what. *)
Definition reported (action target : string) (a : Answer) : Prop :=
  a.(an_status) ∈ [201; 204] /\ exists id payload, a.(an_audit) = Some (Build_AuditEntry action target id payload).

(** Undisturbed, a handler that changed the database reported it. *)
Definition audited (action target : string) (m : M Answer) : Prop :=
  forall w a w', w.(w_env) = [] -> m w = (a, w') ->
    w'.(w_env) = [] /\ w'.(w_sent) = w.(w_sent) /\ (w'.(w_db) <> w.(w_db) -> reported action target a).
(** A handler that reports, whatever it changes. *)
Definition reports (action target : string) (m : M Answer) : Prop :=
  forall w a w', w.(w_env) = [] -> m w = (a, w') ->
    w'.(w_env) = [] /\ w'.(w_sent) = w.(w_sent) /\ reported action target a.

(** Undisturbed, a call fails without effect. *)
Definition clean {A} (m : M (res A)) : Prop :=
  forall w r w', w.(w_env) = [] -> m w = (r, w') ->
    w'.(w_env) = [] /\ w'.(w_sent) = w.(w_sent) /\ (w'.(w_db) = w.(w_db) \/ exists a, r = Ok a).

Lemma clean_store_call {A} (t : txn A) : clean (store_call t).
Proof.
  intros w r w' Henv. rewrite store_call_calm by done. destruct (t _ _) as [[db a]|e]; intros [= <- <-]; eauto.
Qed.

Lemma audited_refuse action target st msg : audited action target (refuse st msg).
Proof. by intros w a w' Henv [= <- <-]. Qed.
Lemma audited_lookup_refused action target e nf m1 m2 : audited action target (lookup_refused e nf m1 m2).
Proof. unfold lookup_refused. case_bool_decide; apply audited_refuse. Qed.
Lemma audited_param action target param msg k : (forall id, audited action target (k id)) -> audited action target (with_param param msg k).
Proof. intros Hk. unfold with_param. destruct (uuid_parse param); [done|apply audited_refuse]. Qed.
Lemma audited_change {A} action target (m : M (res A)) refused k :
  clean m -> (forall e, audited action target (refused e)) -> (forall a, reports action target (k a)) ->
  audited action target (or_refuse m refused k).
Proof.
  intros Hm Hr Hk w a w' Henv. unfold or_refuse, mbind. destruct (m w) as [r w1] eqn:E.
  destruct (Hm _ _ _ Henv E) as (Henv1 & Hs1 & Hd). intros Ha. destruct r as [x|e].
  - destruct (Hk x w1 a w' Henv1 Ha) as (? & ? & ?). split_and!; [done|congruence|done].
  - destruct (Hr e w1 a w' Henv1 Ha) as (? & ? & Hrep). destruct Hd as [Hd|[? [=]]].
    split_and!; [done|congruence|]. by rewrite <- Hd.
Qed.
Lemma audited_read {A} action target (t : txn A) refused k :
  reads t -> (forall e, audited action target (refused e)) -> (forall a, audited action target (k a)) ->
  audited action target (or_refuse (store_call t) refused k).
Proof.
  intros Ht Hr Hk w a w' Henv. unfold or_refuse, mbind. rewrite store_call_calm by done.
  destruct (t _ _) as [[db x]|e] eqn:E.
  - apply Ht in E as ->. rewrite world_db_id. by apply Hk.
  - by apply Hr.
Qed.

Lemma reports_mret action target id v payload st :
  st ∈ [201; 204] -> reports action target (mret (Build_Answer st v (Some (Build_AuditEntry action target id payload)))).
Proof. intros Hst w a w' Henv [= <- <-]. split_and!; [done..|]. split; [done|eauto]. Qed.
Lemma reports_no_content action target id payload : reports action target (answer_no_content action target id payload).
Proof. apply reports_mret. set_solver. Qed.
Lemma reports_after {A} action target (m : M A) k :
  moves quiet m -> (forall a, reports action target (k a)) -> reports action target (mbind m k).
Proof.
  intros Hm Hk w a w' Henv. unfold mbind. destruct (m w) as [r w1] eqn:E. intros Ha.
  destruct (Hm _ _ _ E) as [Hs1 He1]. destruct (Hk r w1 a w' (He1 Henv) Ha) as (? & ? & ?). split_and!; [done|congruence|done].
Qed.

Lemma quiet_RecomputeCert id : moves quiet (RecomputeCert id).
Proof.
  unfold RecomputeCert, GetCertificate, CurrentOpsPolicyVersionID, UpsertFindings, ListOpenFindings, UpdateCertificateRisk.
  quiet_tac. unfold to_upsert, ActiveWaiver. quiet_tac.
Qed.

Lemma clean_CreateWaiver id rule reason actor expires : clean (CreateWaiver id rule reason actor expires).
Proof.
  unfold CreateWaiver. destruct (String.eqb actor ""); [by intros w r w' Henv [= <- <-]; auto|].
  destruct (String.eqb reason ""); [by intros w r w' Henv [= <- <-]; auto|].
  intros w r w' Henv. unfold mbind. rewrite time_now_calm by done.
  destruct (_ <? expires); simpl; [by apply clean_store_call|intros [= <- <-]; auto].
Qed.

(** C37. Undisturbed, no deletion and no waiver goes unrecorded: whenever one of
    these requests changes the database its reply is a success and carries an
    audit event with the action and the kind of its target, and nothing is sent
    to another service. *)
Theorem changes_are_audited param actor body w :
  w.(w_env) = [] ->
  Forall (fun '(action, target, m) => forall a w', m w = (a, w') ->
      w'.(w_sent) = w.(w_sent) /\ (w'.(w_db) <> w.(w_db) -> reported action target a))
    [("delete", "scan", handleDeleteScan param); ("delete", "certificate", handleDeleteCertificate param);
     ("delete", "issuer", handleDeleteIssuer param);
     ("create_waiver", "certificate", handleCreateCertWaiver actor param body);
     ("revoke_waiver", "waiver", handleRevokeWaiver param)]%string.
Proof.
  intros Henv.
  assert (forall action target m, audited action target m -> forall a w', m w = (a, w') ->
    w'.(w_sent) = w.(w_sent) /\ (w'.(w_db) <> w.(w_db) -> reported action target a)) as Hof
    by (intros action target m Hm a w' E; by destruct (Hm w a w' Henv E) as (_ & ? & ?)).
  repeat apply List.Forall_cons; [..|apply List.Forall_nil]; apply Hof; apply audited_param; intros id.
  1-3: apply audited_change; [apply clean_store_call|intros; apply audited_lookup_refused|intros; apply reports_no_content].
  - destruct (String.eqb actor ""); [apply audited_refuse|]. destruct body as [[[rule reason] expires]|]; [|apply audited_refuse].
    apply audited_change; [apply clean_CreateWaiver|intros; case_bool_decide; apply audited_refuse|].
    intros wv. apply reports_after; [apply quiet_RecomputeCert|]. intros _. apply reports_mret. set_solver.
  - apply audited_read; [auto with reads|intros; apply audited_lookup_refused|]. intros wv.
    apply audited_change; [apply clean_store_call|intros; apply audited_lookup_refused|].
    intros _. apply reports_after; [apply quiet_RecomputeCert|]. intros _. apply reports_no_content.
Qed.
End Audited.

(** ** Waivers take effect *)

Section Waivers.
Context `{UuidGen, StoreConfig, UuidParse, OpsPolicy}.

(** The open findings of the rule on the certificate are waived, or are not. *)
Definition rule_waived (db : DB) (id : uuid) (rule : string) (b : bool) : Prop :=
  forall f, db.(findings) !! (id, rule) = Some f -> f.(f_Open) = true -> f.(f_Waived) = b.

(** A waiver takes effect at once and its revocation takes it back.
    Undisturbed, a request of an actor for a waiver with a reason and a future
    expiry is answered 201 with the row, which names the actor; every open
    finding of the rule on that certificate is then waived.  Revoking it is
    answered 204, and if no other waiver of the rule is active the open
    findings count again. *)
Theorem waivers_take_effect param id actor rule reason expires w c :
  w.(w_env) = [] -> uuid_parse param = Some id -> w.(w_db).(certificates) !! id = Some c -> c.(c_ID) = id ->
  actor <> ""%string -> reason <> ""%string -> w.(w_clock) < expires ->
  w.(w_db).(waivers) !! gen_random_uuid w.(w_db).(gen) = None ->
  let wv := Build_Waiver (gen_random_uuid w.(w_db).(gen)) id rule reason actor expires w.(w_clock) None in
  exists a w1, handleCreateCertWaiver actor param (Some (rule, reason, expires)) w = (a, w1) /\
    a.(an_status) = 201 /\ a.(an_view) = VWaiver wv /\ w1.(w_db).(waivers) = <[wv.(w_ID) := wv]> w.(w_db).(waivers) /\
    rule_waived w1.(w_db) id rule true /\
    (forall param', uuid_parse param' = Some wv.(w_ID) ->
     exists a' w2, handleRevokeWaiver param' w1 = (a', w2) /\ a'.(an_status) = 204 /\
       w2.(w_db).(waivers) = <[wv.(w_ID) := wv <| w_RevokedAt := Some w.(w_clock) |>]> w.(w_db).(waivers) /\
       rule_waived w2.(w_db) id rule (waived_at w.(w_db) id rule w.(w_clock))).
Proof.
  intros Henv Hparam Hc Hid Hactor Hreason Hexp Hfresh wv.
  set (db1 := w.(w_db) <| gen ::= S |> <| waivers ::= <[wv.(w_ID) := wv]> |>).
  set (now := w.(w_clock)).
  assert (CreateWaiver id rule reason actor expires w = (Ok wv, w <| w_db := db1 |>)) as Hcreate.
  { unfold CreateWaiver, mbind. rewrite (proj2 (String.eqb_neq _ _) Hactor), (proj2 (String.eqb_neq _ _) Hreason).
    rewrite time_now_calm by done. rewrite (proj2 (Z.ltb_lt _ _) Hexp). simpl. rewrite store_call_calm by done.
    unfold insert_waiver, fk_certificate, tbind, trequire, new_uuid. rewrite bool_decide_true by eauto.
    simpl. rewrite bool_decide_true by done. reflexivity. }
  set (w1 := w <| w_db := db1 |>) in *.
  pose proof (RecomputeCert_calm id w1 c Henv Hc Hid) as Hrec. simpl in Hrec. fold now in Hrec.
  set (c1 := rescored db1 id now c) in *.
  set (db2 := (with_findings db1 id now c) <| certificates := <[id := c1]> (certificates (w_db w)) |>) in *.
  eexists _, (w1 <| w_db := db2 |>). split_and!.
  - unfold handleCreateCertWaiver, with_param. rewrite Hparam, (proj2 (String.eqb_neq _ _) Hactor).
    unfold or_refuse, mbind. rewrite Hcreate, Hrec. reflexivity.
  - done.
  - done.
  - done.
  - intros f Hf Ho. rewrite (with_findings_waived db1 id now c rule f Hf Ho). apply waived_at_spec.
    exists wv.(w_ID), wv. split; [apply lookup_insert_eq|]. unfold waiver_active. simpl.
    rewrite bool_decide_true, String.eqb_refl by done. simpl. by apply Z.ltb_lt.
  - intros param' Hparam'. set (wr := wv <| w_RevokedAt := Some now |>).
    set (db3 := db2 <| waivers ::= <[wv.(w_ID) := wr]> |>). set (w2 := w1 <| w_db := db3 |>).
    assert (certificates db3 !! id = Some c1) as Hc1 by apply lookup_insert_eq.
    pose proof (RecomputeCert_calm id w2 c1 Henv Hc1 Hid) as Hrec2. simpl in Hrec2. fold now in Hrec2.
    eexists _, _. split_and!.
    + unfold handleRevokeWaiver, with_param. rewrite Hparam'. unfold or_refuse, mbind.
      unfold GetWaiver. rewrite (store_call_read _ _ wv) by (try done; unfold tbind, tget; simpl; by rewrite lookup_insert_eq).
      unfold RevokeWaiver. rewrite store_call_calm by done. simpl. rewrite lookup_insert_eq. simpl.
      match goal with |- context [RecomputeCert ?i ?v] => change (RecomputeCert i v) with (RecomputeCert id w2) end.
      rewrite Hrec2. reflexivity.
    + done.
    + simpl. by rewrite insert_insert_eq.
    + intros f Hf Ho. rewrite (with_findings_waived db3 id now c1 rule f Hf Ho).
      apply eq_true_iff_eq. rewrite !waived_at_spec. simpl. rewrite insert_insert_eq. split; intros (k & x & Hk & Hx).
      * apply lookup_insert_Some in Hk as [[<- <-]|[_ Hk]]; [|eauto].
        unfold waiver_active in Hx. rewrite !andb_true_iff in Hx. destruct Hx as [[_ Hr] _].
        by apply bool_decide_eq_true in Hr.
      * exists k, x. split; [|done]. rewrite lookup_insert_ne; [done|]. intros <-. simpl in Hk. congruence.
Qed.
End Waivers.

(** ** Concrete requests *)

Section Demo.
#[local] Instance demo_uuid : UuidGen := fun n => pretty n.
#[local] Instance demo_store : StoreConfig := 30.
#[local] Instance demo_policy : OpsPolicy := None.
#[local] Instance demo_parse : UuidParse := fun s => if String.eqb s "" then None else Some s.

Definition demo_estate : World := calm_world (demo_db demo_weak) (10 * 24 * Hour).

Lemma get_routes_only_read_witness :
  exists m, read_handler "handleListCertificates" "" (fun _ => ""%string) = Some m /\
    forall a w', m demo_estate = (a, w') -> only_others demo_estate w'.
Proof.
  destruct (get_routes_only_read (plain "GET" "/certificates" "handleListCertificates") "" (fun _ => ""%string)) as (m & Hm & Hw).
  - unfold routes. set_solver.
  - reflexivity.
  - unfold settings_readers. set_solver.
  - exists m. split; [exact Hm|]. intros a w' E. apply (Hw demo_estate a w' E).
Defined.

Lemma changes_are_audited_witness :
  let r := handleDeleteCertificate "c1" demo_estate in
  r.2.(w_db) <> demo_estate.(w_db) /\ reported "delete" "certificate" r.1.
Proof.
  pose proof (changes_are_audited "c1" "" None demo_estate eq_refl) as Hall.
  apply List.Forall_inv_tail, List.Forall_inv in Hall. cbv zeta in *.
  assert (((handleDeleteCertificate "c1" demo_estate).2).(w_db) <> demo_estate.(w_db)) as Hne.
  { intros E. apply (f_equal (fun db => size db.(certificates))) in E. revert E. vm_compute. discriminate. }
  split; [exact Hne|]. by apply (Hall _ _ (surjective_pairing _)).
Defined.

Lemma waivers_take_effect_witness :
  exists a w1, handleCreateCertWaiver "alice" "c1" (Some ("crypto.rsa.weak_key", "legacy appliance", 200 * 24 * Hour)%string) demo_estate = (a, w1) /\
    a.(an_status) = 201 /\ rule_waived w1.(w_db) "c1" "crypto.rsa.weak_key" true.
Proof.
  destruct (waivers_take_effect "c1" "c1" "alice" "crypto.rsa.weak_key" "legacy appliance" (200 * 24 * Hour) demo_estate demo_weak)
    as (a & w1 & E & Hs & _ & _ & Hr & _);
    [reflexivity|reflexivity|vm_compute; reflexivity|reflexivity|discriminate|discriminate|vm_compute; reflexivity|vm_compute; reflexivity|].
  exists a, w1. split; [exact E|]. split; [exact Hs|exact Hr].
Defined.

(** An enrichment changes who owns a certificate and leaves no audit event. *)
Example patch_not_audited :
  let r := handlePatchCertificate "c1" (Some {| eu_Owner := Some "mallory"%string; eu_Team := None; eu_Environment := None; eu_Tags := None |}) demo_estate in
  r.1.(an_status) = 200 /\ r.1.(an_audit) = None /\
  (c_Owner <$> r.2.(w_db).(certificates) !! "c1"%string) = Some (Some "mallory"%string) /\ c_Owner demo_weak <> Some "mallory"%string.
Proof. vm_compute. split_and!; [done..|discriminate]. Qed.

(** An unknown certificate is an internal error to it, where the other
    handlers answer 404. *)
Example patch_unknown :
  (handlePatchCertificate "c9" (Some {| eu_Owner := None; eu_Team := None; eu_Environment := None; eu_Tags := None |}) demo_estate).1.(an_status) = 500 /\
  (handleGetCertificate "c9" demo_estate).1.(an_status) = 404.
Proof. vm_compute. done. Qed.

(** A status that does not exist is an internal error as well. *)
Example unknown_status :
  (handleListCertificates (fun k => if String.eqb k "status" then "bogus" else "")%string demo_estate).1.(an_status) = 500.
Proof. vm_compute. reflexivity. Qed.
End Demo.
