(* ===== verification/History.v ===== *)
(** * What the database never forgets

    Jobs, their timeline, approvals and outbox events are history: no
    transaction of the store removes or rewrites what they say. *)

From S2P Require Import Prelude GoLib Records Db Queue Outbox OutboxSpec CertStore JobStore Issuers ScanQueue Posture Connections.

Open Scope clm_scope.

(** What identifies a job. *)
Definition job_core (j : LifecycleJob) : uuid * string * string * time * time :=
  (j.(j_ID), j.(j_Kind), j.(j_IdempotencyKey), j.(j_TimeoutAt), j.(j_CreatedAt)).

Definition same_core (j j' : LifecycleJob) : Prop := job_core j' = job_core j.
(** The same announcement; once delivered it stays delivered. *)
Definition event_after (e e' : Event) : Prop :=
  event_core e' = event_core e /\ (is_Some e.(e_DeliveredAt) -> is_Some e'.(e_DeliveredAt)).

(** Every row is still there, after [same]. *)
Definition grown {R} (same : R -> R -> Prop) (t t' : gmap uuid R) : Prop :=
  forall k r, t !! k = Some r -> exists r', t' !! k = Some r' /\ same r r'.

#[export] Instance grown_preorder {R} (same : R -> R -> Prop) `{!PreOrder same} : PreOrder (grown same).
Proof.
  split; [intros t k r Hr; by exists r|]. intros t1 t2 t3 H12 H23 k r Hr.
  destruct (H12 k r Hr) as (r' & Hr' & S1), (H23 k r' Hr') as (r'' & Hr'' & S2). exists r''. split; [done|by etransitivity].
Qed.
Lemma grown_rewritten {R} (same : R -> R -> Prop) t t' : rewritten same t t' -> grown same t t'.
Proof. intros Ht k r Hr. specialize (Ht k). rewrite Hr in Ht. inversion Ht; subst. eauto. Qed.
Lemma grown_insert {R} (same : R -> R -> Prop) `{!PreOrder same} t k r : t !! k = None -> grown same t (<[k := r]> t).
Proof.
  intros Hk k' r' Hr'. exists r'. split; [|done]. rewrite lookup_insert_ne; [done|]. intros ->. congruence.
Qed.

#[export] Instance same_core_preorder : PreOrder same_core.
Proof. unfold same_core. split; [done|]. intros ???. congruence. Qed.
#[export] Instance event_after_preorder : PreOrder event_after.
Proof. split; [by intros e|]. intros e1 e2 e3 [E1 ?] [E2 ?]. split; [congruence|auto]. Qed.

(** [outbox] says what became of the events. *)
Record history_by (outbox : DB -> DB -> Prop) (db db' : DB) : Prop := {
  hg_jobs : grown same_core db.(lifecycle_jobs) db'.(lifecycle_jobs);
  hg_timeline : db.(lifecycle_job_events) `prefix_of` db'.(lifecycle_job_events);
  hg_approvals : db.(lifecycle_approvals) `prefix_of` db'.(lifecycle_approvals);
  hg_events : outbox db db'
}.
#[export] Instance history_by_preorder outbox `{!PreOrder outbox} : PreOrder (history_by outbox).
Proof.
  split; [intros db; by split|]. intros d1 d2 d3 [] []. split; by etransitivity.
Qed.
Lemma history_by_impl (o o' : DB -> DB -> Prop) db db' : (o db db' -> o' db db') -> history_by o db db' -> history_by o' db db'.
Proof. intros Ho []. split; auto. Qed.

(** Every event is still there. *)
Definition events_grow (db db' : DB) : Prop := grown event_after db.(events) db'.(events).
#[export] Instance events_grow_preorder : PreOrder events_grow.
Proof. split; [intros db; unfold events_grow; reflexivity|]. intros d1 d2 d3. unfold events_grow. by etransitivity. Qed.
Definition history_grows : DB -> DB -> Prop := history_by events_grow.

(** The steps of the outbox keep the events. *)
Lemma outbox_steps_grow T db db' : outbox_steps T db db' -> events_grow db db'.
Proof.
  intros Hs k e He. specialize (Hs k). unfold mail_at in Hs. rewrite He in Hs.
  destruct (mail_promised _ _ _ _ Hs) as (e' & He' & []). by exists e'.
Qed.

Definition same_history (db db' : DB) : Prop :=
  db'.(lifecycle_jobs) = db.(lifecycle_jobs) /\ db'.(lifecycle_job_events) = db.(lifecycle_job_events) /\
  db'.(lifecycle_approvals) = db.(lifecycle_approvals) /\ db'.(events) = db.(events).
Lemma grows_same_history db db' : same_history db db' -> history_by only_posts db db'.
Proof. intros (E1 & E2 & E3 & E4). split; [by rewrite E1|by rewrite E2|by rewrite E3|by apply only_posts_same]. Qed.

(** ** Transactions *)

(** They only post to the outbox; the dispatchers' own follow the steps of
    OutboxSpec.v. *)
Definition grows {A} (t : txn A) : Prop := forall c db db' a, t c db = Ok (db', a) -> history_by only_posts db db'.

Lemma grows_get {A} (f : Ctx -> DB -> A) : grows (tget f).
Proof. by intros c db db' a [= <- _]. Qed.
Lemma grows_ret {A} (a : A) : grows (tret a).
Proof. by intros c db db' a' [= <- _]. Qed.
Lemma grows_fail {A} e : grows (@tfail A e).
Proof. by intros ????. Qed.
Lemma grows_require p e : grows (trequire p e).
Proof. intros c db db' [] (_ & -> & _)%trequire_ok. done. Qed.
Lemma grows_some {A} (o : option A) e : grows (tsome o e).
Proof. destruct o; [apply grows_ret|apply grows_fail]. Qed.
Lemma grows_bind {A B} (t : txn A) (f : A -> txn B) : grows t -> (forall a, grows (f a)) -> grows (tbind t f).
Proof. intros Ht Hf c db db' b (db1 & a & E1%Ht & E2%Hf)%tbind_ok. by etransitivity. Qed.
Lemma grows_map_err {A} g (t : txn A) : grows t -> grows (tmap_err g t).
Proof. intros Ht c db db' a E%tmap_err_ok. by eapply Ht. Qed.
Lemma grows_if {A} (b : bool) (t u : txn A) : grows t -> grows u -> grows (if b then t else u).
Proof. by destruct b. Qed.
Lemma grows_tfor {A} (l : list A) (t : A -> txn unit) : (forall x, grows (t x)) -> grows (tfor l t).
Proof. intros Ht. induction l; simpl; [apply grows_ret|by apply grows_bind]. Qed.
Create HintDb grows discriminated.
#[export] Hint Resolve grows_get grows_ret grows_fail grows_require grows_some grows_bind grows_map_err grows_if grows_tfor : grows.

(** A transaction on other tables. *)
Lemma grows_same {A} (t : txn A) : (forall c db db' a, t c db = Ok (db', a) -> same_history db db') -> grows t.
Proof. intros Ht c db db' a E. by eapply grows_same_history, Ht. Qed.

Ltac other_tables :=
  apply grows_same; intros ? ? ? ? Ht; unfold same_history; do 8 (txn_inv; try case_match; simplify_eq); done.

Section Transactions.
Context `{UuidGen, StoreConfig}.

Lemma grows_update_cert id f : grows (update_cert id f).
Proof. unfold update_cert. other_tables. Qed.
Lemma grows_update_managed fp u : grows (update_managed_tx fp u).
Proof. unfold update_managed_tx. other_tables. Qed.
Lemma grows_set_managed id st : grows (set_managed_status_tx id st).
Proof. unfold set_managed_status_tx. other_tables. Qed.
Lemma grows_update_scan id p f : grows (update_scan id p f).
Proof. unfold update_scan. other_tables. Qed.
Lemma grows_claim_scans o s n : grows (claim_scans_tx o s n).
Proof. unfold claim_scans_tx. other_tables. Qed.
Lemma grows_insert_scan src ci h p n now : grows (insert_scan_tx src ci h p n now).
Proof. unfold insert_scan_tx. other_tables. Qed.
Lemma grows_create_scan src ci h p n m r : grows (create_scan_tx src ci h p n m r).
Proof. unfold create_scan_tx, insert_scan_tx. other_tables. Qed.
Lemma grows_insert_waiver id rule reason actor e : grows (insert_waiver id rule reason actor e).
Proof. unfold insert_waiver, fk_certificate. other_tables. Qed.
Lemma grows_upsert_certificate parsed obs st days sc : grows (upsert_certificate_tx parsed obs st days sc).
Proof. unfold upsert_certificate_tx. other_tables. Qed.
Lemma grows_upsert_observation o : grows (upsert_observation_tx o).
Proof. unfold upsert_observation_tx, fk_certificate. other_tables. Qed.
Lemma grows_upsert_issuer parsed st days chain : grows (upsert_issuer_tx parsed st days chain).
Proof. unfold upsert_issuer_tx. other_tables. Qed.
Lemma grows_upsert_one f : grows (upsert_one f).
Proof. unfold upsert_one, fk_certificate. other_tables. Qed.
Lemma grows_upsert_findings id fs : grows (upsert_findings_tx id fs).
Proof.
  unfold upsert_findings_tx. apply grows_bind; [apply grows_tfor, grows_upsert_one|]. intros _. other_tables.
Qed.
Lemma grows_upsert_connection row : grows (upsert_connection_tx row).
Proof. unfold upsert_connection_tx. other_tables. Qed.
Lemma grows_fk o : grows (fk_certificate o).
Proof. apply grows_require. Qed.

(** *** Jobs *)

Lemma grows_jobs_rewritten db t : rewritten same_core db.(lifecycle_jobs) t -> history_by only_posts db (db <| lifecycle_jobs := t |>).
Proof. intros Ht. split; simpl; [by apply grown_rewritten|done|done|by apply only_posts_same]. Qed.
Lemma grows_update_job id f : (forall c j, same_core j (f c j)) -> grows (update_job id f).
Proof.
  intros Hf c db db' b. unfold update_job. destruct (update_row id (f c) _) as [t|] eqn:E; intros [= <- <-].
  apply grows_jobs_rewritten. by eapply rewritten_update_row.
Qed.
Lemma grows_update_status id p : grows (_ <-! fk_certificate p.(us_SuccessorCertID) ;; update_job id (update_status p)).
Proof. apply grows_bind; [apply grows_fk|]. intros _. by apply grows_update_job. Qed.
Lemma grows_claim_jobs o e n : grows (claim_jobs_tx o e n).
Proof.
  intros c db db' l. unfold claim_jobs_tx. destruct (claim _ _ _ _ _ _) as [t ids] eqn:E. intros [= <- _].
  apply grows_jobs_rewritten. by eapply rewritten_claim.
Qed.
Lemma grows_claim_due now e n : grows (claim_due_tx now e n).
Proof.
  intros c db db' l. unfold claim_due_tx. destruct (claim _ _ _ _ _ _) as [t ids] eqn:E. intros [= <- _].
  apply grows_jobs_rewritten. by eapply rewritten_claim.
Qed.
Lemma grows_expire now : grows (expire_tx now).
Proof. intros c db db' l [= <- _]. apply grows_jobs_rewritten. by apply rewritten_update_where. Qed.
Lemma grows_insert_job kind st pred key ex aap wf nv ta : grows (insert_job_row kind st pred key ex aap wf nv ta).
Proof.
  intros c db db' j Ht. unfold insert_job_row, fk_certificate in Ht. txn_inv. b2p.
  split; simpl; [by apply grown_insert; [exact _|]|done|done|by apply only_posts_same].
Qed.
Lemma grows_insert_job_event id ty p : grows (insert_job_event id ty p).
Proof. intros c db db' [] Ht. unfold insert_job_event in Ht. txn_inv. split; simpl; try done; [by apply prefix_app_r|by apply only_posts_same]. Qed.
Lemma grows_insert_approval id a d : grows (insert_approval id a d).
Proof. intros c db db' [] Ht. unfold insert_approval in Ht. txn_inv. split; simpl; try done; [by apply prefix_app_r|by apply only_posts_same]. Qed.

(** *** Events *)

Lemma grows_append_event ty cert p : grows (appendEventTx ty cert p).
Proof.
  intros c db db' u E. split; [..|by eapply append_posts]; destruct u; apply appendEventTx_ok in E as (id & _ & ->); done.
Qed.
(** A dispatcher's transaction leaves the rest of the history alone. *)
Lemma history_dispatched T db t : outbox_steps T db (db <| events := t |>) -> history_by (outbox_steps T) db (db <| events := t |>).
Proof. by split. Qed.
End Transactions.

#[export] Hint Resolve grows_update_cert grows_update_managed grows_set_managed grows_update_scan grows_claim_scans
  grows_insert_scan grows_create_scan grows_insert_waiver grows_upsert_certificate grows_upsert_observation grows_upsert_issuer grows_upsert_findings
  grows_upsert_connection grows_fk grows_update_status grows_claim_jobs grows_claim_due grows_expire grows_insert_job
  grows_insert_job_event grows_insert_approval grows_append_event : grows.

Section Combined.
Context `{UuidGen, StoreConfig}.

Lemma grows_set_renewal_config id cfg : grows (set_renewal_config id cfg).
Proof. unfold set_renewal_config. auto with grows. Qed.
#[local] Hint Resolve grows_set_renewal_config : grows.
Lemma grows_persist_renew id cfg fp aap wf ex : grows (persist_renew_tx id cfg fp aap wf ex).
Proof. unfold persist_renew_tx. auto 20 with grows. Qed.
Lemma grows_insert_migrate id fp ex t n : grows (insert_migrate_tx id fp ex t n).
Proof. unfold insert_migrate_tx. auto 20 with grows. Qed.
Lemma grows_persist_migrate id cfg fp aap wf ex t n : grows (persist_migrate_tx id cfg fp aap wf ex t n).
Proof.
  intros c db db' j E. unfold persist_migrate_tx in E.
  lazymatch type of E with ?t c db = _ => assert (grows t) as Ht by auto 20 with grows end. by eapply Ht.
Qed.
Lemma grows_mark_revoked id src : grows (mark_revoked_tx id src).
Proof. unfold mark_revoked_tx. auto with grows. Qed.

(** A deletion takes the certificate's rows away, and only the reference to
    it from jobs and events. *)
Lemma grows_delete_certificate id : grows (delete_certificate_tx id).
Proof.
  intros c db db' [] Ht. unfold delete_certificate_tx in Ht. txn_inv. split; simpl; [by apply grown_rewritten, rewritten_fmap|done|done|].
  intros k. left. unfold mail_at. simpl. rewrite lookup_fmap. by destruct (events db !! k).
Qed.
End Combined.

#[export] Hint Resolve grows_persist_renew grows_insert_migrate grows_persist_migrate grows_mark_revoked grows_delete_certificate : grows.
