(* ===== verification/Schema.v ===== *)
(** * What every state of the database satisfies (migrations/, internal/store)

    The keys, unique columns and references the migrations declare, as a
    predicate on the tables, and that every operation of the store keeps it. *)

From S2P Require Import Prelude GoLib Records Db Queue Outbox CertStore JobStore Issuers ScanQueue Posture Connections.

Open Scope clm_scope.

(** ** Well-formed tables *)

(** A nullable reference. *)
Definition known {R} (t : gmap uuid R) (o : option uuid) : Prop :=
  match o with Some k => is_Some (t !! k) | None => True end.

Record schema_ok (db : DB) : Prop := {
  sch_certs : table_ok c_ID c_FingerprintSHA256 db.(certificates);
  sch_issuers : table_ok iss_ID iss_FingerprintSHA256 db.(issuers);
  sch_jobs : table_ok j_ID j_IdempotencyKey db.(lifecycle_jobs);
  sch_job_refs : forall k j, db.(lifecycle_jobs) !! k = Some j ->
    known db.(certificates) j.(j_PredecessorCertID) /\ known db.(certificates) j.(j_SuccessorCertID);
  sch_history : Forall (fun e => is_Some (db.(lifecycle_jobs) !! e.(je_JobID))) db.(lifecycle_job_events);
  sch_approvals : Forall (fun a => is_Some (db.(lifecycle_jobs) !! a.(ap_JobID))) db.(lifecycle_approvals);
  sch_scans : forall k s, db.(scans) !! k = Some s -> s.(s_ID) = k;
  sch_events : forall k e, db.(events) !! k = Some e -> e.(e_ID) = k /\ known db.(certificates) e.(e_CertificateID);
  sch_observations : Forall (fun o => is_Some (db.(certificates) !! o.(o_CertificateID)) /\
                                      is_Some (db.(scans) !! o.(o_ScanID))) db.(observations);
  sch_findings : forall k f, db.(findings) !! k = Some f ->
    k = (f.(f_CertID), f.(f_RuleID)) /\ is_Some (db.(certificates) !! f.(f_CertID));
  sch_waivers : forall k v, db.(waivers) !! k = Some v -> v.(w_ID) = k /\ is_Some (db.(certificates) !! v.(w_CertID));
  sch_connections : forall k c, db.(connections) !! k = Some c -> c.(cn_Target) = k
}.

Lemma known_grow {R} (t t' : gmap uuid R) o : (forall k, is_Some (t !! k) -> is_Some (t' !! k)) -> known t o -> known t' o.
Proof. destruct o; simpl; auto. Qed.

Lemma table_ok_rewritten {R} (pk uk : R -> string) t t' :
  rewritten (fun r r' => pk r' = pk r /\ uk r' = uk r) t t' -> table_ok pk uk t -> table_ok pk uk t'.
Proof.
  intros Ht Hok. split.
  - intros k r' (r & Hr & Hp & _)%(rewritten_back _ _ _ _ _ Ht). rewrite Hp. by apply (table_keyed Hok).
  - intros k1 k2 r1' r2' (r1 & H1 & _ & U1)%(rewritten_back _ _ _ _ _ Ht) (r2 & H2 & _ & U2)%(rewritten_back _ _ _ _ _ Ht) E.
    apply (table_unique Hok _ _ _ _ H1 H2). congruence.
Qed.

(** ** One table at a time *)

Section Tables.
Context (db : DB) (Hok : schema_ok db).

Lemma schema_gen n : schema_ok (db <| gen := n |>).
Proof. by destruct Hok. Qed.

Lemma schema_certs t :
  table_ok c_ID c_FingerprintSHA256 t -> (forall k, is_Some (db.(certificates) !! k) -> is_Some (t !! k)) ->
  schema_ok (db <| certificates := t |>).
Proof.
  intros Ht Hg. destruct Hok. split; simpl; try done.
  - intros k j Hj. destruct (sch_job_refs0 k j Hj). split; by eapply known_grow.
  - intros k e He. destruct (sch_events0 k e He). split; [done|by eapply known_grow].
  - eapply Forall_impl; [done|]. intros o [? ?]. auto.
  - intros k f Hf. destruct (sch_findings0 k f Hf). auto.
  - intros k v Hv. destruct (sch_waivers0 k v Hv). auto.
Qed.
Lemma schema_certs_rewritten t :
  rewritten (fun c c' => c_ID c' = c_ID c /\ c_FingerprintSHA256 c' = c_FingerprintSHA256 c) db.(certificates) t ->
  schema_ok (db <| certificates := t |>).
Proof.
  intros Ht. apply schema_certs; [by eapply table_ok_rewritten, sch_certs|]. intros k. by eapply rewritten_known.
Qed.

Lemma schema_issuers t : table_ok iss_ID iss_FingerprintSHA256 t -> schema_ok (db <| issuers := t |>).
Proof. intros Ht. by destruct Hok. Qed.

Lemma schema_jobs t :
  table_ok j_ID j_IdempotencyKey t -> (forall k, is_Some (db.(lifecycle_jobs) !! k) -> is_Some (t !! k)) ->
  (forall k j, t !! k = Some j -> known db.(certificates) j.(j_PredecessorCertID) /\ known db.(certificates) j.(j_SuccessorCertID)) ->
  schema_ok (db <| lifecycle_jobs := t |>).
Proof.
  intros Ht Hg Hr. destruct Hok. split; simpl; try done; (eapply Forall_impl; [done|]); simpl; auto.
Qed.
(** Rewriting a job keeps its keys and its predecessor; its successor is
    kept or known. *)
Definition same_job (certs : gmap uuid Certificate) (j j' : LifecycleJob) : Prop :=
  (j_ID j' = j_ID j /\ j_IdempotencyKey j' = j_IdempotencyKey j) /\ j_PredecessorCertID j' = j_PredecessorCertID j /\
  (j_SuccessorCertID j' = j_SuccessorCertID j \/ known certs (j_SuccessorCertID j')).
Lemma schema_jobs_rewritten t : rewritten (same_job db.(certificates)) db.(lifecycle_jobs) t -> schema_ok (db <| lifecycle_jobs := t |>).
Proof.
  intros Ht. apply schema_jobs.
  - eapply table_ok_rewritten, sch_jobs, Hok. eapply rewritten_impl; [|done]. by intros j j' [? _].
  - intros k. by eapply rewritten_known.
  - intros k j' (j & Hj & _ & Hp & Hs)%(rewritten_back _ _ _ _ _ Ht). destruct (sch_job_refs db Hok k j Hj) as [? Hs'].
    rewrite Hp. split; [done|]. by destruct Hs as [->|].
Qed.

Lemma schema_scans t :
  (forall k s, t !! k = Some s -> s.(s_ID) = k) -> (forall k, is_Some (db.(scans) !! k) -> is_Some (t !! k)) ->
  schema_ok (db <| scans := t |>).
Proof.
  intros Ht Hg. destruct Hok. split; simpl; try done. eapply Forall_impl; [done|]. intros o [? ?]. auto.
Qed.
Lemma schema_scans_rewritten t : rewritten (fun s s' => s_ID s' = s_ID s) db.(scans) t -> schema_ok (db <| scans := t |>).
Proof.
  intros Ht. apply schema_scans; [|intros k; by eapply rewritten_known].
  intros k s' (s & Hs & E)%(rewritten_back _ _ _ _ _ Ht). rewrite E. by apply (sch_scans db Hok).
Qed.

Lemma schema_events t :
  (forall k e, t !! k = Some e -> e.(e_ID) = k /\ known db.(certificates) e.(e_CertificateID)) -> schema_ok (db <| events := t |>).
Proof. intros Ht. by destruct Hok. Qed.
Lemma schema_events_rewritten t :
  rewritten (fun e e' => e_ID e' = e_ID e /\ e_CertificateID e' = e_CertificateID e) db.(events) t -> schema_ok (db <| events := t |>).
Proof.
  intros Ht. apply schema_events. intros k e' (e & He & -> & ->)%(rewritten_back _ _ _ _ _ Ht). by apply (sch_events db Hok).
Qed.

Lemma schema_waivers t :
  (forall k v, t !! k = Some v -> v.(w_ID) = k /\ is_Some (db.(certificates) !! v.(w_CertID))) -> schema_ok (db <| waivers := t |>).
Proof. intros Ht. by destruct Hok. Qed.
Lemma schema_findings t :
  (forall k f, t !! k = Some f -> k = (f.(f_CertID), f.(f_RuleID)) /\ is_Some (db.(certificates) !! f.(f_CertID))) ->
  schema_ok (db <| findings := t |>).
Proof. intros Ht. by destruct Hok. Qed.
Lemma schema_observations l :
  Forall (fun o => is_Some (db.(certificates) !! o.(o_CertificateID)) /\ is_Some (db.(scans) !! o.(o_ScanID))) l ->
  schema_ok (db <| observations := l |>).
Proof. intros Hl. by destruct Hok. Qed.
End Tables.

(** ** Transactions *)

Definition types {A} (t : txn A) : Prop := forall c db db' a, t c db = Ok (db', a) -> schema_ok db -> schema_ok db'.

Lemma types_get {A} (f : Ctx -> DB -> A) : types (tget f).
Proof. by intros c db db' a [= <- _]. Qed.
Lemma types_ret {A} (a : A) : types (tret a).
Proof. by intros c db db' a' [= <- _]. Qed.
Lemma types_fail {A} e : types (@tfail A e).
Proof. by intros ????. Qed.
Lemma types_require p e : types (trequire p e).
Proof. intros c db db' [] (_ & -> & _)%trequire_ok. done. Qed.
Lemma types_some {A} (o : option A) e : types (tsome o e).
Proof. destruct o; [apply types_ret|apply types_fail]. Qed.
Lemma types_bind {A B} (t : txn A) (f : A -> txn B) : types t -> (forall a, types (f a)) -> types (tbind t f).
Proof. intros Ht Hf c db db' b (db1 & a & E1 & E2)%tbind_ok Hok. eapply Hf; [done|]. by eapply Ht. Qed.
Lemma types_map_err {A} g (t : txn A) : types t -> types (tmap_err g t).
Proof. intros Ht c db db' a E%tmap_err_ok. by eapply Ht. Qed.
Lemma types_if {A} (b : bool) (t u : txn A) : types t -> types u -> types (if b then t else u).
Proof. by destruct b. Qed.
Create HintDb types discriminated.
#[export] Hint Resolve types_get types_ret types_fail types_require types_some types_bind types_map_err types_if : types.

(** What a reference check found. *)
Lemma fk_certificate_ok o c db db' u : fk_certificate o c db = Ok (db', u) -> known db.(certificates) o /\ db' = db.
Proof.
  unfold fk_certificate. intros (Hp & -> & _)%trequire_ok. split; [|done]. destruct o; [|done]. by apply bool_decide_eq_true in Hp.
Qed.

Section Transactions.
Context `{UuidGen}.

(** *** Rewrites *)

Lemma types_update_cert id f :
  (forall c r, c_ID (f c r) = c_ID r /\ c_FingerprintSHA256 (f c r) = c_FingerprintSHA256 r) -> types (update_cert id f).
Proof.
  intros Hf c db db' b. unfold update_cert. destruct (update_row id (f c) _) as [t|] eqn:E; intros [= <- <-] Hok; [|done].
  apply schema_certs_rewritten; [done|]. eapply rewritten_update_row; [done|apply Hf|done].
Qed.
Lemma types_update_managed fp u : types (update_managed_tx fp u).
Proof.
  intros c db db' b [= <- <-] Hok. apply (schema_certs_rewritten db Hok). by apply rewritten_update_where.
Qed.
Lemma types_set_managed id st : types (set_managed_status_tx id st).
Proof.
  intros c db db' b. unfold set_managed_status_tx. destruct (certificates db !! id) as [r|] eqn:E; [|by intros [= <- <-]].
  case_bool_decide; intros [= <- <-] Hok; [done|]. apply (schema_certs_rewritten db Hok). by eapply rewritten_insert.
Qed.

Lemma same_job_refl certs j : same_job certs j j.
Proof. by repeat split; left. Qed.
#[local] Hint Resolve same_job_refl : types.

Lemma types_update_job id f : (forall c j certs, same_job certs j (f c j)) -> types (update_job id f).
Proof.
  intros Hf c db db' b. unfold update_job. destruct (update_row id (f c) _) as [t|] eqn:E; intros [= <- <-] Hok.
  apply (schema_jobs_rewritten db Hok). eapply rewritten_update_row; [done|intros j; apply Hf|auto with types].
Qed.
Lemma types_update_status id p : types (_ <-! fk_certificate p.(us_SuccessorCertID) ;; update_job id (update_status p)).
Proof.
  intros c db db' b (db1 & [] & [Hfk ->]%fk_certificate_ok & E)%tbind_ok Hok. revert E. unfold update_job.
  destruct (update_row _ _ _) as [t|] eqn:E; intros [= <- <-]. apply (schema_jobs_rewritten db Hok).
  eapply rewritten_update_row; [done| |auto with types]. intros j. split; [done|]. split; [done|]. simpl.
  destruct (us_SuccessorCertID p) as [k|]; [right|by left]. exact Hfk.
Qed.

Lemma types_claim_jobs o e n : types (claim_jobs_tx o e n).
Proof.
  intros c db db' l. unfold claim_jobs_tx. destruct (claim _ _ _ _ _ _) as [t ids] eqn:E. intros [= <- _] Hok.
  apply (schema_jobs_rewritten db Hok). eapply rewritten_claim; [done| |auto with types]. intros j. by repeat split; left.
Qed.
Lemma types_claim_due now e n : types (claim_due_tx now e n).
Proof.
  intros c db db' l. unfold claim_due_tx. destruct (claim _ _ _ _ _ _) as [t ids] eqn:E. intros [= <- _] Hok.
  apply (schema_jobs_rewritten db Hok). eapply rewritten_claim; [done| |auto with types]. intros j. by repeat split; left.
Qed.
Lemma types_expire now : types (expire_tx now).
Proof.
  intros c db db' l [= <- _] Hok. apply (schema_jobs_rewritten db Hok).
  apply rewritten_update_where; [|auto with types]. intros j. by repeat split; left.
Qed.

Lemma types_claim_events o e n m : types (claim_events_tx o e n m).
Proof.
  intros c db db' l. unfold claim_events_tx. destruct (claim _ _ _ _ _ _) as [t ids] eqn:E. intros [= <- _] Hok.
  apply (schema_events_rewritten db Hok). by eapply rewritten_claim.
Qed.
Lemma types_alter_event (f : Ctx -> Event -> Event) id :
  (forall c e, e_ID (f c e) = e_ID e /\ e_CertificateID (f c e) = e_CertificateID e) ->
  types (tmod (fun c db => db <| events ::= alter (f c) id |>)).
Proof.
  intros Hf c db db' [] [= <-] Hok. apply (schema_events_rewritten db Hok). by apply rewritten_alter.
Qed.

Lemma types_update_scan id p f : (forall c s, s_ID (f c s) = s_ID s) -> types (update_scan id p f).
Proof.
  intros Hf c db db' b. unfold update_scan. destruct (scans db !! id) as [s|] eqn:E; [|by intros [= <- <-]].
  destruct (p s); intros [= <- <-] Hok; [|done]. apply (schema_scans_rewritten db Hok). by eapply rewritten_insert.
Qed.
Lemma types_claim_scans o s n : types (claim_scans_tx o s n).
Proof.
  intros c db db' l. unfold claim_scans_tx. destruct (claim _ _ _ _ _ _) as [t ids] eqn:E. intros [= <- _] Hok.
  apply (schema_scans_rewritten db Hok). by eapply rewritten_claim.
Qed.

(** *** Insertions *)

Lemma types_append_event ty cert p : types (appendEventTx ty cert p).
Proof.
  intros c db db' [] Ht Hok. unfold appendEventTx in Ht.
  apply tbind_ok in Ht as (db1 & [] & [Hk ->]%fk_certificate_ok & Ht). txn_inv.
  apply (schema_events (db <| gen ::= S |>)); [by destruct Hok|].
  intros k e. rewrite lookup_insert. case_decide; [intros [= <-]; by subst|]. apply (sch_events db Hok).
Qed.

Lemma types_insert_job_event id ty p : types (insert_job_event id ty p).
Proof.
  intros c db db' [] Ht Hok. unfold insert_job_event in Ht. txn_inv. b2p. destruct Hok. split; simpl; try done.
  apply Forall_app. by split; [|repeat constructor].
Qed.
Lemma types_insert_approval id a d : types (insert_approval id a d).
Proof.
  intros c db db' [] Ht Hok. unfold insert_approval in Ht. txn_inv. b2p. destruct Hok. split; simpl; try done.
  apply Forall_app. by split; [|repeat constructor].
Qed.

Lemma types_insert_job kind st pred key ex aap wf nv ta : types (insert_job_row kind st pred key ex aap wf nv ta).
Proof.
  intros c db db' j Ht Hok. unfold insert_job_row in Ht. apply tbind_ok in Ht as (db1 & [] & (_ & -> & _)%trequire_ok & Ht).
  apply tbind_ok in Ht as (db1 & [] & [Hk ->]%fk_certificate_ok & Ht). txn_inv. b2p.
  apply (schema_jobs (db <| gen ::= S |>)); [by destruct Hok|by apply table_ok_new; [apply (sch_jobs db Hok)|..]| |].
  - intros k Hj. simpl in *. rewrite lookup_insert. case_decide; [by eexists|done].
  - intros k x. simpl. rewrite lookup_insert. case_decide; [by intros [= <-]|]. apply (sch_job_refs db Hok).
Qed.

Lemma types_insert_scan src ci h p n now : types (insert_scan_tx src ci h p n now).
Proof.
  intros c db db' s Ht Hok. unfold insert_scan_tx in Ht. txn_inv. b2p.
  apply (schema_scans (db <| gen ::= S |>)); [by destruct Hok|..]; simpl.
  - intros k x. rewrite lookup_insert. case_decide; [intros [= <-]; by subst|]. apply (sch_scans db Hok).
  - intros k Hs. rewrite lookup_insert. case_decide; [by eexists|done].
Qed.

Lemma types_create_scan src ci h p n m r : types (create_scan_tx src ci h p n m r).
Proof.
  intros c db db' s Ht. unfold create_scan_tx in Ht. apply tbind_ok in Ht as (db1 & [] & (_ & -> & _)%trequire_ok & Ht).
  by eapply types_insert_scan.
Qed.

Lemma types_insert_waiver id rule reason actor e : types (insert_waiver id rule reason actor e).
Proof.
  intros c db db' v Ht Hok. unfold insert_waiver in Ht.
  apply tbind_ok in Ht as (db1 & [] & [Hk ->]%fk_certificate_ok & Ht). txn_inv.
  apply (schema_waivers (db <| gen ::= S |>)); [by destruct Hok|]. simpl.
  intros k x. rewrite lookup_insert. case_decide; [intros [= <-]; by subst|]. apply (sch_waivers db Hok).
Qed.
End Transactions.

#[export] Hint Resolve types_append_event types_insert_job_event types_insert_approval types_insert_job
  types_update_managed types_set_managed types_update_status types_claim_jobs types_claim_due types_expire
  types_claim_events types_claim_scans types_insert_scan types_create_scan types_insert_waiver : types.
#[export] Hint Extern 1 (types (update_cert _ _)) => apply types_update_cert : types.
#[export] Hint Extern 1 (types (update_scan _ _ _)) => apply types_update_scan : types.

Section Combined.
Context `{UuidGen, StoreConfig}.

(** *** Upserts *)

Lemma types_upsert_certificate parsed obs st days sc : types (upsert_certificate_tx parsed obs st days sc).
Proof.
  intros c db db' id Ht Hok. unfold upsert_certificate_tx in Ht. txn_inv.
  destruct (cert_by_fp _ _) as [c0|] eqn:Efp; txn_inv.
  - apply row_by_some in Efp as [Hfp [k Hk]]. pose proof (table_keyed (sch_certs _ Hok) _ _ Hk) as Hid. rewrite Hid.
    apply schema_certs_rewritten; [done|]. by eapply rewritten_insert.
  - b2p. lazymatch type of Hok with schema_ok ?d => apply (schema_certs (d <| gen ::= S |>)) end;
      [by destruct Hok|by apply table_ok_new; [apply (sch_certs _ Hok)|..]|].
    intros k Hc. simpl in *. rewrite lookup_insert. case_decide; [by eexists|done].
Qed.

Lemma types_upsert_observation o : types (upsert_observation_tx o).
Proof.
  intros c db db' [] Ht Hok. unfold upsert_observation_tx in Ht.
  apply tbind_ok in Ht as (db1 & [] & [Hk ->]%fk_certificate_ok & Ht). txn_inv. b2p.
  pose proof (sch_observations _ Hok) as Ho. apply (schema_observations _ Hok). destruct (existsb _ _).
  - apply Forall_map. eapply Forall_impl; [done|]. intros o' Hr. by destruct (same_observation o o').
  - apply Forall_app. split; [done|]. by repeat constructor.
Qed.

Lemma types_upsert_issuer parsed st days chain : types (upsert_issuer_tx parsed st days chain).
Proof.
  intros c db db' [] Ht Hok. unfold upsert_issuer_tx in Ht. txn_inv. destruct (row_by _ _ _) as [i|] eqn:E; txn_inv.
  - apply row_by_some in E as [Hfp [k Hk]]. pose proof (table_keyed (sch_issuers _ Hok) _ _ Hk) as Hid. rewrite Hid.
    apply (schema_issuers _ Hok). eapply table_ok_insert; [apply (sch_issuers _ Hok)|done..].
  - b2p. lazymatch type of Hok with schema_ok ?d => apply (schema_issuers (d <| gen ::= S |>)) end; [by destruct Hok|].
    by apply table_ok_new; [apply (sch_issuers _ Hok)|..].
Qed.

Lemma types_upsert_one f : types (upsert_one f).
Proof.
  intros c db db' [] Ht Hok. unfold upsert_one in Ht. apply tbind_ok in Ht as (db1 & [] & [Hk ->]%fk_certificate_ok & Ht). txn_inv.
  apply (schema_findings _ Hok). intros k r. unfold upsert_finding. rewrite lookup_insert.
  case_decide; [intros [= <-]; by subst|]. apply (sch_findings _ Hok).
Qed.
Lemma types_tfor {A} (l : list A) (t : A -> txn unit) : (forall x, types (t x)) -> types (tfor l t).
Proof. intros Ht. induction l as [|x l IH]; simpl; auto with types. Qed.
Lemma types_upsert_findings id fs : types (upsert_findings_tx id fs).
Proof.
  unfold upsert_findings_tx. apply types_bind; [apply types_tfor, types_upsert_one|]. intros _ c db db' [] [= <-] Hok.
  apply (schema_findings _ Hok). intros k r'. rewrite map_lookup_imap. intros (r & Hr & [= <-])%bind_Some.
  unfold resolve_unseen. destruct (_ && _); by apply (sch_findings db Hok k r Hr).
Qed.

(** *** Launches *)

Lemma types_set_renewal_config id cfg : types (set_renewal_config id cfg).
Proof. unfold set_renewal_config. apply types_bind; [by apply types_update_cert|auto with types]. Qed.
#[local] Hint Resolve types_set_renewal_config : types.

Lemma types_persist_renew id cfg fp aap wf ex : types (persist_renew_tx id cfg fp aap wf ex).
Proof. unfold persist_renew_tx. auto 20 with types. Qed.
Lemma types_insert_migrate id fp ex t n : types (insert_migrate_tx id fp ex t n).
Proof. unfold insert_migrate_tx. auto 20 with types. Qed.
Lemma types_persist_migrate id cfg fp aap wf ex t n : types (persist_migrate_tx id cfg fp aap wf ex t n).
Proof.
  intros c db db' j E. unfold persist_migrate_tx in E.
  lazymatch type of E with ?t c db = _ => assert (types t) as Ht by auto 20 with types end. by eapply Ht.
Qed.
Lemma types_mark_revoked id src : types (mark_revoked_tx id src).
Proof. unfold mark_revoked_tx. apply types_bind; [by apply types_update_cert|auto with types]. Qed.

(** *** Deletions *)

Lemma known_delete {R} (t : gmap uuid R) id o :
  known t o -> known (delete id t) (if bool_decide (o = Some id) then None else o).
Proof.
  case_bool_decide as E; [done|]. destruct o as [k|]; [|done]. simpl. rewrite lookup_delete_ne; [done|]. by intros ->.
Qed.
Lemma table_ok_delete {R} (pk uk : R -> string) t id : table_ok pk uk t -> table_ok pk uk (delete id t).
Proof.
  intros Hok. split.
  - intros k r [_ Hr]%lookup_delete_Some. by apply (table_keyed Hok).
  - intros k1 k2 r1 r2 [_ H1]%lookup_delete_Some [_ H2]%lookup_delete_Some. by apply (table_unique Hok).
Qed.

(** The cascade leaves no reference to the certificate behind. *)
Lemma types_delete_certificate id : types (delete_certificate_tx id).
Proof.
  intros c db db' [] Ht Hok. unfold delete_certificate_tx in Ht. txn_inv. destruct Hok. split; simpl.
  - by apply table_ok_delete.
  - done.
  - eapply table_ok_rewritten, sch_jobs0. by apply rewritten_fmap.
  - intros k j'. rewrite lookup_fmap. intros (j & Hj & ->)%fmap_Some. destruct (sch_job_refs0 k j Hj).
    split; by apply known_delete.
  - eapply Forall_impl; [done|]. intros e [x Hx]. rewrite lookup_fmap, Hx. by eexists.
  - eapply Forall_impl; [done|]. intros e [x Hx]. rewrite lookup_fmap, Hx. by eexists.
  - done.
  - intros k e'. rewrite lookup_fmap. intros (e & He & ->)%fmap_Some. destruct (sch_events0 k e He).
    split; [done|by apply known_delete].
  - apply Forall_forall. intros o [Hne Ho]%list_elem_of_filter. rewrite Forall_forall in sch_observations0.
    destruct (sch_observations0 o Ho). by rewrite lookup_delete_ne.
  - intros k f [Hf Hne]%map_lookup_filter_Some. destruct (sch_findings0 k f Hf) as [-> ?]. split; [done|].
    by rewrite lookup_delete_ne.
  - intros k v [Hv Hne]%map_lookup_filter_Some. destruct (sch_waivers0 k v Hv) as [<- ?]. split; [done|].
    by rewrite lookup_delete_ne.
  - done.
Qed.
End Combined.
(** ** What a change keeps *)

(** The state after is well-formed if the state before is. *)
Definition schema_kept (db db' : DB) : Prop := schema_ok db -> schema_ok db'.
#[export] Instance schema_kept_preorder : PreOrder schema_kept.
Proof. split; [by intros db ?|]. intros d1 d2 d3 H12 H23 H. auto. Qed.

#[export] Hint Resolve types_upsert_certificate types_upsert_observation types_upsert_issuer types_upsert_findings
  types_persist_renew types_insert_migrate types_persist_migrate types_mark_revoked types_delete_certificate : types.

Lemma types_upsert_connection row : types (upsert_connection_tx row).
Proof.
  intros c db db' [] [= <-] Hok. destruct Hok. split; simpl; try done.
  intros k x. rewrite lookup_insert. case_decide; [by intros [= <-]|apply sch_connections0].
Qed.
#[export] Hint Resolve types_upsert_connection : types.

(** The database before the first migration has data. *)
Lemma schema_empty : schema_ok (Build_DB ∅ [] ∅ ∅ [] [] ∅ ∅ ∅ ∅ ∅ 0).
Proof.
  split; simpl; try exact (table_ok_empty _ _); try exact (Forall_nil_2 _); intros k x E; by rewrite lookup_empty in E.
Qed.
