(* ===== verification/Store.v ===== *)
(** * The store under a law

    A law is a preorder on the database that every transaction of the store
    follows.  The well-formedness of the tables (Schema.v), what the database
    never forgets (History.v) and the steps of the outbox (OutboxSpec.v) are
    laws; a law holds of every
    operation, and so of every program made of them. *)

From S2P Require Import Prelude GoLib Records Db Queue Outbox OutboxSpec CertStore JobStore Issuers ScanQueue Posture Connections Schema History.

Open Scope clm_scope.

Class Law (P : DB -> DB -> Prop) : Prop := {
  law_preorder :: PreOrder P;
  law_of db db' : schema_kept db db' -> history_by only_posts db db' -> P db db'
}.
(** A law the dispatchers follow too, whatever their terms. *)
Class DispatchLaw (P : DB -> DB -> Prop) : Prop := {
  law_others :: Law P;
  law_dispatched T db db' : schema_kept db db' -> history_by (outbox_steps T) db db' -> P db db'
}.

#[export] Instance law_schema : DispatchLaw schema_kept.
Proof. split; [split; [exact _|done]|done]. Qed.
Lemma history_steps T db db' : history_by (outbox_steps T) db db' -> history_grows db db'.
Proof. apply history_by_impl, outbox_steps_grow. Qed.
Lemma history_posts T db db' : history_by only_posts db db' -> history_by (outbox_steps T) db db'.
Proof. apply history_by_impl, only_posts_steps. Qed.
#[export] Instance law_history : DispatchLaw history_grows.
Proof.
  split; [split|].
  - unfold history_grows. exact _.
  - intros db db' _ Hh. by apply (history_steps (Build_Terms 0 0 (fun _ => False))), history_posts.
  - intros T db db' _. apply history_steps.
Qed.
(** The steps of the outbox are a law of everything but the dispatchers. *)
#[export] Instance law_outbox T : Law (outbox_steps T).
Proof. split; [exact _|]. intros db db' _ []. by apply only_posts_steps. Qed.

Lemma lawful_store_call {P} `{!Law P} {A} (t : txn A) : types t -> grows t -> moves (evolves P) (store_call t).
Proof.
  intros Ht Hg. apply moves_store_call; [exact _|]. intros c db db' a E.
  apply law_of; [intros ?; by eapply Ht|by eapply Hg].
Qed.

(** Terms under which any cycle may run. *)
Definition any_terms (cap : Z) (now : time) : Terms := Build_Terms cap now (fun _ => True).
Lemma lawful_dispatch_call {P} `{!DispatchLaw P} {A} (t : txn A) :
  types t -> (forall c db db' a, t c db = Ok (db', a) -> exists T, history_by (outbox_steps T) db db') ->
  moves (evolves P) (store_call t).
Proof.
  intros Ht Hg. apply moves_store_call; [exact _|]. intros c db db' a E. destruct (Hg _ _ _ _ E) as [T HT].
  apply (law_dispatched T); [intros ?; by eapply Ht|done].
Qed.

Create HintDb lawful discriminated.
Create HintDb lawful_ops.

(** [lawful_tac] walks through the code; [lawful_ops] unfolds it. *)
Ltac lawful_step :=
  match goal with
  | |- moves _ (mret _) => apply moves_ret; exact _
  | |- moves _ (store_call _) => apply lawful_store_call; [auto 12 with types|auto 12 with grows]
  | |- moves _ time_now => apply moves_time_now; exact _
  | |- moves _ (net_call _ _) => apply moves_net_call; exact _
  | |- moves _ (mtry _ _) => apply moves_try; [exact _| |intros ?]
  | |- moves _ (mbind _ _) => apply moves_bind; [exact _| |intros ?]
  | |- moves _ (mcollect _ _) => apply moves_collect; [exact _|intros ?]
  | |- moves _ (mfor _ _) => apply moves_for; [exact _|intros ? ?]
  | |- moves _ (match ?x with _ => _ end) => destruct x
  | |- moves _ _ => solve [eauto with lawful]
  | |- moves _ _ => progress autounfold with lawful_ops
  end.
Ltac lawful_tac := repeat lawful_step.

Section Operations.
Context `{UuidGen, StoreConfig} {P : DB -> DB -> Prop} `{!Law P}.
#[local] Abbreviation lawful m := (moves (evolves P) m).

(** Outbox *)
Lemma lawful_AppendEvent ty k p : lawful (appendEventStandalone ty k p).
Proof. unfold appendEventStandalone. lawful_tac. Qed.
#[local] Hint Resolve lawful_AppendEvent : lawful.
Lemma lawful_ListEvents f : lawful (ListEvents f).
Proof. unfold ListEvents. lawful_tac. Qed.
(** Certificates *)
Lemma lawful_UpsertCertificate s p o : lawful (UpsertCertificate s p o).
Proof.
  unfold UpsertCertificate, emitDiscoveryCatalogueEvents. lawful_tac.
Qed.
Lemma lawful_GetCertificate id : lawful (GetCertificate id).
Proof. unfold GetCertificate, get_certificate_tx. lawful_tac. Qed.
#[local] Hint Resolve lawful_GetCertificate : lawful.
Lemma lawful_MarkRevoked id s : lawful (MarkRevoked id s).
Proof. unfold MarkRevoked. lawful_tac. Qed.
Lemma lawful_SetManagedStatus id s : lawful (SetManagedStatus id s).
Proof. unfold SetManagedStatus. lawful_tac. Qed.
Lemma lawful_UpdateManagedStatus fp u : lawful (UpdateManagedStatusByFingerprint fp u).
Proof. unfold UpdateManagedStatusByFingerprint. lawful_tac. Qed.
Lemma lawful_CountByManagedStatus s : lawful (CountByManagedStatus s).
Proof. unfold CountByManagedStatus. lawful_tac. Qed.
Lemma lawful_ListCertificates f : lawful (ListCertificates f).
Proof. unfold ListCertificates. lawful_tac. Qed.
Lemma lawful_ListRenewable n : lawful (ListRenewable n).
Proof. unfold ListRenewable. lawful_tac. Qed.
Lemma lawful_GetCertificateObservations id : lawful (GetCertificateObservations id).
Proof. unfold GetCertificateObservations. lawful_tac. Qed.
Lemma lawful_UpdateCertificateEnrichment id u : lawful (UpdateCertificateEnrichment id u).
Proof. unfold UpdateCertificateEnrichment. lawful_tac. Qed.
Lemma lawful_SetRenewalConfig id c : lawful (SetRenewalConfig id c).
Proof. unfold SetRenewalConfig. lawful_tac. Qed.
Lemma lawful_DeleteCertificate id : lawful (DeleteCertificate id).
Proof. unfold DeleteCertificate. lawful_tac. Qed.

(** Issuers *)
Lemma lawful_UpsertIssuer p l : lawful (UpsertIssuer p l).
Proof. unfold UpsertIssuer. lawful_tac. Qed.
Lemma lawful_ListIssuers l o : lawful (ListIssuers l o).
Proof. unfold ListIssuers. lawful_tac. Qed.
Lemma lawful_GetIssuerPEMForCert s : lawful (GetIssuerPEMForCert s).
Proof. unfold GetIssuerPEMForCert. lawful_tac. Qed.
Lemma lawful_GetIssuer id : lawful (GetIssuer id).
Proof. unfold GetIssuer, get_issuer_tx. lawful_tac. Qed.
#[local] Hint Resolve lawful_GetIssuer : lawful.
Lemma lawful_SetIssuerVaultRef id r m : lawful (SetIssuerVaultRef id r m).
Proof.
  unfold SetIssuerVaultRef. apply moves_try; [exact _| |intros; apply lawful_GetIssuer]. apply lawful_store_call; [|other_tables].
  intros c db db' [] E Hok. destruct (update_row _ _ _) as [t|] eqn:Er; [|done]. injection E as <-.
  apply (schema_issuers _ Hok). apply update_row_spec in Er as (i & Hi & ->).
  by eapply table_ok_insert; [apply (sch_issuers _ Hok)|..].
Qed.
Lemma lawful_DeleteIssuer id : lawful (DeleteIssuer id).
Proof.
  apply lawful_store_call; [|other_tables]. intros c db db' [] Ht Hok. txn_inv. apply (schema_issuers _ Hok).
  apply table_ok_delete, (sch_issuers _ Hok).
Qed.

(** Scans *)
Lemma lawful_CreateScanWithSource src ci h p n m : lawful (CreateScanWithSource src ci h p n m).
Proof. unfold CreateScanWithSource, count_pending_tx. lawful_tac. Qed.
Lemma lawful_GetScan id : lawful (GetScan id).
Proof. unfold GetScan, get_scan_tx. lawful_tac. Qed.
#[local] Hint Resolve lawful_GetScan : lawful.
Lemma lawful_ClaimNextScans o l n : lawful (ClaimNextScans o l n).
Proof. unfold ClaimNextScans. lawful_tac. Qed.
Lemma lawful_HeartbeatScanClaim id o : lawful (HeartbeatScanClaim id o).
Proof. unfold HeartbeatScanClaim. lawful_tac. Qed.
Lemma lawful_ReleaseScanClaim id o : lawful (ReleaseScanClaim id o).
Proof. unfold ReleaseScanClaim. lawful_tac. Qed.
Lemma lawful_UpdateScanRunning id n : lawful (UpdateScanRunning id n).
Proof. unfold UpdateScanRunning. lawful_tac. Qed.
Lemma lawful_UpdateScanProgress id n m : lawful (UpdateScanProgress id n m).
Proof. unfold UpdateScanProgress. lawful_tac. Qed.
Lemma lawful_CompleteScan id s : lawful (CompleteScan id s).
Proof. unfold CompleteScan. lawful_tac. Qed.
Lemma lawful_FailScan id e : lawful (FailScan id e).
Proof. unfold FailScan. lawful_tac. Qed.
Lemma lawful_ListScans l o : lawful (ListScans l o).
Proof. unfold ListScans. lawful_tac. Qed.
Lemma lawful_DeleteScan id : lawful (DeleteScan id).
Proof.
  apply lawful_store_call; [|other_tables]. intros c db db' [] Ht Hok. txn_inv. destruct Hok. split; simpl; try done.
  - by intros k s [_ Hs]%lookup_delete_Some; apply sch_scans.
  - apply Forall_forall. intros o [Hne Ho]%list_elem_of_filter. rewrite Forall_forall in sch_observations.
    destruct (sch_observations o Ho). by rewrite lookup_delete_ne.
Qed.

(** Jobs *)
Lemma lawful_GetLifecycleJob id : lawful (GetLifecycleJob id).
Proof. unfold GetLifecycleJob, get_job_tx. lawful_tac. Qed.
Lemma lawful_GetLifecycleJobByIdempotency k : lawful (GetLifecycleJobByIdempotency k).
Proof. unfold GetLifecycleJobByIdempotency. lawful_tac. Qed.
#[local] Hint Resolve lawful_GetLifecycleJob lawful_GetLifecycleJobByIdempotency : lawful.
Lemma lawful_ListLifecycleJobsByCert id n : lawful (ListLifecycleJobsByCert id n).
Proof. unfold ListLifecycleJobsByCert. lawful_tac. Qed.
Lemma lawful_InsertLifecycleJob p : lawful (InsertLifecycleJob p).
Proof. unfold InsertLifecycleJob. lawful_tac. Qed.
Lemma lawful_SetLifecycleAAPRef id n w s : lawful (SetLifecycleAAPRef id n w s).
Proof. apply lawful_store_call; [apply types_update_job; intros c j certs; by repeat split; left|by apply grows_update_job]. Qed.
#[local] Hint Resolve lawful_InsertLifecycleJob lawful_SetLifecycleAAPRef : lawful.
Lemma lawful_UpdateLifecycleStatus id p : lawful (UpdateLifecycleStatus id p).
Proof. unfold UpdateLifecycleStatus. lawful_tac. Qed.
Lemma lawful_AppendRenewalOutboxEvent ty k p : lawful (AppendRenewalOutboxEvent ty k p).
Proof. apply lawful_AppendEvent. Qed.
Lemma lawful_AppendLifecycleJobEvent id ty p : lawful (AppendLifecycleJobEvent id ty p).
Proof. unfold AppendLifecycleJobEvent. lawful_tac. Qed.
Lemma lawful_InsertLifecycleApproval id a d : lawful (InsertLifecycleApproval id a d).
Proof. unfold InsertLifecycleApproval. lawful_tac. Qed.
#[local] Hint Resolve lawful_AppendLifecycleJobEvent lawful_InsertLifecycleApproval : lawful.
Lemma lawful_ClaimLifecycleJobs o l n : lawful (ClaimLifecycleJobs o l n).
Proof. unfold ClaimLifecycleJobs. lawful_tac. Qed.
Lemma lawful_ClaimDueVerifyJobs t n l : lawful (ClaimDueVerifyJobs t n l).
Proof. unfold ClaimDueVerifyJobs. lawful_tac. Qed.
Lemma lawful_ScheduleNextVerify id n t : lawful (ScheduleNextVerify id n t).
Proof. apply lawful_store_call; [apply types_update_job; intros c j certs; by repeat split; left|by apply grows_update_job]. Qed.
Lemma lawful_ExpireTimedOutVerifyJobs t : lawful (ExpireTimedOutVerifyJobs t).
Proof. unfold ExpireTimedOutVerifyJobs. lawful_tac. Qed.
Lemma lawful_PersistRenewLaunch id cfg fp n w e : lawful (PersistRenewLaunch id cfg fp n w e).
Proof. unfold PersistRenewLaunch. lawful_tac. Qed.
Lemma lawful_InsertLifecycleJobPending id fp e : lawful (InsertLifecycleJobPending id fp e).
Proof. unfold InsertLifecycleJobPending. lawful_tac. Qed.
Lemma lawful_PersistMigrateLaunch id cfg fp n w e d t : lawful (PersistMigrateLaunch id cfg fp n w e d t).
Proof. unfold PersistMigrateLaunch. lawful_tac. Qed.
Lemma lawful_InsertMigrateJobPending id fp e d t : lawful (InsertMigrateJobPending id fp e d t).
Proof. unfold InsertMigrateJobPending. lawful_tac. Qed.
Lemma lawful_ClaimByIdempotency k n : lawful (ClaimByIdempotency k n).
Proof. unfold ClaimByIdempotency. lawful_tac. Qed.

(** Findings, waivers, connections *)
Lemma lawful_ListOpenFindings id : lawful (ListOpenFindings id).
Proof. unfold ListOpenFindings. lawful_tac. Qed.
#[local] Hint Resolve lawful_ListOpenFindings : lawful.
Lemma lawful_UpsertFindings id l : lawful (UpsertFindings id l).
Proof. unfold UpsertFindings. lawful_tac. Qed.
Lemma lawful_ListFindingsForScan id : lawful (ListFindingsForScan id).
Proof. unfold ListFindingsForScan. lawful_tac. Qed.
Lemma lawful_UpdateCertificateRisk id n l : lawful (UpdateCertificateRisk id n l).
Proof. unfold UpdateCertificateRisk. lawful_tac. Qed.
Lemma lawful_CountPQCTags : lawful CountPQCTags.
Proof. unfold CountPQCTags. lawful_tac. Qed.
Lemma lawful_ActiveWaiver id r t : lawful (ActiveWaiver id r t).
Proof. unfold ActiveWaiver. lawful_tac. Qed.
Lemma lawful_ListWaiversForCert id : lawful (ListWaiversForCert id).
Proof. unfold ListWaiversForCert. lawful_tac. Qed.
Lemma lawful_CreateWaiver id r re a t : lawful (CreateWaiver id r re a t).
Proof. unfold CreateWaiver. lawful_tac. Qed.
Lemma lawful_GetWaiver id : lawful (GetWaiver id).
Proof. unfold GetWaiver. lawful_tac. Qed.
Lemma lawful_RevokeWaiver id : lawful (RevokeWaiver id).
Proof.
  apply lawful_store_call; [|other_tables]. intros c db db' [] E Hok. destruct (waivers db !! id) as [v|] eqn:Ev; [|done].
  case_bool_decide; [|done]. injection E as <-. apply (schema_waivers _ Hok). intros k x. rewrite lookup_insert.
  case_decide as Ek; [intros [= <-]; rewrite <- Ek; exact (sch_waivers _ Hok _ _ Ev)|apply (sch_waivers _ Hok)].
Qed.
End Operations.

(** The outbox, for the dispatchers. *)
Section Dispatched.
Context `{UuidGen} {P : DB -> DB -> Prop} `{!DispatchLaw P}.
#[local] Abbreviation lawful m := (moves (evolves P) m).

Lemma lawful_claim_events o e n m : lawful (store_call (claim_events_tx o e n m)).
Proof.
  apply lawful_dispatch_call; [apply types_claim_events|]. intros c db db' ids E. exists (any_terms m c.(NOW)).
  assert (outbox_steps (any_terms m c.(NOW)) db db') as Hs by (by eapply claim_events_steps).
  unfold claim_events_tx in E. destruct (claim _ _ _ _ _ _) as [t l']. injection E as <- _. by apply history_dispatched.
Qed.
Lemma lawful_ClaimUndeliveredEvents o l n m : lawful (ClaimUndeliveredEvents o l n m).
Proof.
  unfold ClaimUndeliveredEvents, get_event. destruct (String.eqb o ""); [lawful_tac|].
  apply moves_bind; [exact _|lawful_tac|intros now]. apply moves_try; [exact _|apply lawful_claim_events|intros ids; lawful_tac].
Qed.
Lemma lawful_MarkEventDelivered id : lawful (MarkEventDelivered id).
Proof.
  apply lawful_dispatch_call; [apply types_alter_event; done|]. intros c db db' u [= <- _].
  by exists (any_terms 0 0); apply history_dispatched, mark_delivered_steps.
Qed.
Lemma lawful_MarkEventFailed id e : lawful (MarkEventFailed id e).
Proof.
  apply lawful_dispatch_call; [apply (types_alter_event (fun _ => mark_failed e)); done|]. intros c db db' u [= <- _].
  exists (any_terms 0 0). apply history_dispatched, mark_failed_steps.
Qed.
End Dispatched.

#[export] Hint Resolve lawful_AppendEvent lawful_ListEvents lawful_ClaimUndeliveredEvents lawful_MarkEventDelivered
  lawful_MarkEventFailed lawful_UpsertCertificate lawful_GetCertificate lawful_MarkRevoked lawful_SetManagedStatus
  lawful_UpdateManagedStatus lawful_CountByManagedStatus lawful_ListCertificates lawful_ListRenewable
  lawful_GetCertificateObservations lawful_UpdateCertificateEnrichment lawful_SetRenewalConfig lawful_DeleteCertificate
  lawful_UpsertIssuer lawful_ListIssuers lawful_GetIssuerPEMForCert lawful_GetIssuer lawful_SetIssuerVaultRef lawful_DeleteIssuer
  lawful_CreateScanWithSource lawful_GetScan lawful_ClaimNextScans lawful_HeartbeatScanClaim lawful_ReleaseScanClaim
  lawful_UpdateScanRunning lawful_UpdateScanProgress lawful_CompleteScan lawful_FailScan lawful_ListScans lawful_DeleteScan
  lawful_GetLifecycleJob lawful_GetLifecycleJobByIdempotency lawful_ListLifecycleJobsByCert lawful_InsertLifecycleJob
  lawful_SetLifecycleAAPRef lawful_UpdateLifecycleStatus lawful_AppendRenewalOutboxEvent lawful_AppendLifecycleJobEvent
  lawful_InsertLifecycleApproval lawful_ClaimLifecycleJobs lawful_ClaimDueVerifyJobs lawful_ScheduleNextVerify
  lawful_ExpireTimedOutVerifyJobs lawful_PersistRenewLaunch lawful_InsertLifecycleJobPending lawful_PersistMigrateLaunch
  lawful_InsertMigrateJobPending lawful_ClaimByIdempotency lawful_ListOpenFindings lawful_UpsertFindings
  lawful_ListFindingsForScan lawful_UpdateCertificateRisk lawful_CountPQCTags lawful_ActiveWaiver lawful_ListWaiversForCert
  lawful_CreateWaiver lawful_GetWaiver lawful_RevokeWaiver : lawful.
