(* ===== verification/Server.v ===== *)
(** * The server (internal/config/config.go, internal/api/server.go)

    The whole configuration, what [NewServer] makes of it, and the router:
    from an HTTP request, through authentication and permission, to the
    handler of its route and the audit event of its answer. *)

From Stdlib Require Import Ascii.
From S2P Require Import Prelude GoLib Records Db Queue CertStore ScanQueue Outbox Dispatcher Worker ScanRunner Ip Scanner Posture Access Sends Revocation LaunchApi LaunchSpec Json Vault VaultSpec Aap Connections Settings SettingsSpec ScanWorker Inventory CertParse Collectors ResourceApi ResourceSpec.

Open Scope clm_scope.

(** ** The configuration *)

(** [Config], in the order of the source. *)
Record Config := Build_Config {
  Addr : string; DatabaseURL : string; ExpiringSoonDays : Z; ScanTimeout : duration; DefaultConcurrency : Z;
  AllowPrivateRanges : bool; CORSOrigins : list string; LogLevel : string;
  ScanQueueMaxPending : Z; ScanWorkerSlots : Z; ScanClaimInterval : duration; ScanLeaseTTL : duration; ScanWorkerID : string;
  VaultAddr : string; VaultNamespace : string; VaultToken : string; VaultAuthMethod : string; VaultRoleID : string;
  VaultSecretID : string;
  VaultImportToken : string; VaultImportAuthMethod : string; VaultImportRoleID : string; VaultImportSecretID : string;
  ReconcileOnScanComplete : bool;
  AAPURL : string; AAPToken : string; AAPRenewTemplate : string; AAPRenewWorkflow : bool; AAPRevokeTemplate : string;
  AAPRevokeWorkflow : bool; AAPSkipTLSVerify : bool; AAPDefaultMount : string; AAPADCSTemplate : string;
  AzureKeyVaultURI : string; AzureTenantID : string; AzureClientID : string; AzureClientSecret : string;
  AzureAccessToken : string;
  EDAWebhookURL : string; EDAWebhookToken : string; ITSMWebhookURL : string; ITSMWebhookHMACSecret : string;
  EventDispatchInterval : duration; EventDispatchBatch : Z; EventMaxAttempts : Z;
  LifecycleVerifyTimeout : duration; LifecycleVerifyPoll : duration;
  ConnectionsKey : string; InsecureNoAuth : bool; AuthMode : string; StaticTokensRaw : string;
  StaticTokens : gmap string string
}.
#[export] Instance Config_eta : Eta Config := fun x =>
  Build_Config (x.(Addr)) (x.(DatabaseURL)) (x.(ExpiringSoonDays)) (x.(ScanTimeout)) (x.(DefaultConcurrency))
    (x.(AllowPrivateRanges)) (x.(CORSOrigins)) (x.(LogLevel)) (x.(ScanQueueMaxPending)) (x.(ScanWorkerSlots))
    (x.(ScanClaimInterval)) (x.(ScanLeaseTTL)) (x.(ScanWorkerID)) (x.(VaultAddr)) (x.(VaultNamespace))
    (x.(VaultToken)) (x.(VaultAuthMethod)) (x.(VaultRoleID)) (x.(VaultSecretID)) (x.(VaultImportToken))
    (x.(VaultImportAuthMethod)) (x.(VaultImportRoleID)) (x.(VaultImportSecretID)) (x.(ReconcileOnScanComplete))
    (x.(AAPURL)) (x.(AAPToken)) (x.(AAPRenewTemplate)) (x.(AAPRenewWorkflow)) (x.(AAPRevokeTemplate))
    (x.(AAPRevokeWorkflow)) (x.(AAPSkipTLSVerify)) (x.(AAPDefaultMount)) (x.(AAPADCSTemplate)) (x.(AzureKeyVaultURI))
    (x.(AzureTenantID)) (x.(AzureClientID)) (x.(AzureClientSecret)) (x.(AzureAccessToken)) (x.(EDAWebhookURL))
    (x.(EDAWebhookToken)) (x.(ITSMWebhookURL)) (x.(ITSMWebhookHMACSecret)) (x.(EventDispatchInterval))
    (x.(EventDispatchBatch)) (x.(EventMaxAttempts)) (x.(LifecycleVerifyTimeout)) (x.(LifecycleVerifyPoll))
    (x.(ConnectionsKey)) (x.(InsecureNoAuth)) (x.(AuthMode)) (x.(StaticTokensRaw)) (x.(StaticTokens)).

(** What the [default:] tags give when the environment sets only
    [DATABASE_URL]. *)
Definition default_config (databaseURL : string) : Config := {|
  Addr := ":8080"; DatabaseURL := databaseURL; ExpiringSoonDays := 30; ScanTimeout := 5 * Second; DefaultConcurrency := 50;
  AllowPrivateRanges := false; CORSOrigins := ["http://localhost:3000"%string]; LogLevel := "info";
  ScanQueueMaxPending := 32; ScanWorkerSlots := 2; ScanClaimInterval := 2 * Second; ScanLeaseTTL := 30 * Second;
  ScanWorkerID := "";
  VaultAddr := ""; VaultNamespace := ""; VaultToken := ""; VaultAuthMethod := "token"; VaultRoleID := "";
  VaultSecretID := "";
  VaultImportToken := ""; VaultImportAuthMethod := ""; VaultImportRoleID := ""; VaultImportSecretID := "";
  ReconcileOnScanComplete := false;
  AAPURL := ""; AAPToken := ""; AAPRenewTemplate := "CLM - Issue Certificate"; AAPRenewWorkflow := false;
  AAPRevokeTemplate := "CLM - Revoke Certificate"; AAPRevokeWorkflow := false; AAPSkipTLSVerify := false;
  AAPDefaultMount := "pki"; AAPADCSTemplate := "CLM - Collect ADCS";
  AzureKeyVaultURI := ""; AzureTenantID := ""; AzureClientID := ""; AzureClientSecret := ""; AzureAccessToken := "";
  EDAWebhookURL := ""; EDAWebhookToken := ""; ITSMWebhookURL := ""; ITSMWebhookHMACSecret := "";
  EventDispatchInterval := 15 * Second; EventDispatchBatch := 50; EventMaxAttempts := 10;
  LifecycleVerifyTimeout := 24 * Hour; LifecycleVerifyPoll := 5 * Second;
  ConnectionsKey := ""; InsecureNoAuth := false; AuthMode := "static_token"; StaticTokensRaw := ""; StaticTokens := ∅ |}.

(** The parts of it that the other files know by their own records. *)
Definition auth_config (c : Config) : AuthConfig :=
  Build_AuthConfig c.(InsecureNoAuth) c.(AuthMode) c.(StaticTokensRaw) c.(StaticTokens) c.(VaultAuthMethod)
    c.(VaultImportToken) c.(VaultImportRoleID) c.(VaultImportSecretID) c.(VaultImportAuthMethod).
Definition vault_config (c : Config) : ClientConfig :=
  Build_ClientConfig c.(VaultAddr) c.(VaultNamespace) c.(VaultToken) c.(VaultAuthMethod) c.(VaultRoleID) c.(VaultSecretID).
Definition import_config (c : Config) : ClientConfig :=
  Build_ClientConfig c.(VaultAddr) c.(VaultNamespace) c.(VaultImportToken) (ResolveVaultImportAuthMethod (auth_config c))
    c.(VaultImportRoleID) c.(VaultImportSecretID).
Definition aap_config (c : Config) : AapConfig := Build_AapConfig c.(AAPURL) c.(AAPToken) c.(AAPSkipTLSVerify).
Definition azure_config (c : Config) : AzureConfig :=
  Build_AzureConfig c.(AzureKeyVaultURI) c.(AzureTenantID) c.(AzureClientID) c.(AzureClientSecret) c.(AzureAccessToken).
Definition scan_worker_config (c : Config) : ScanWorkerConfig :=
  Build_ScanWorkerConfig c.(ScanWorkerID) c.(ScanWorkerSlots) c.(ScanClaimInterval) c.(ScanLeaseTTL)
    c.(AllowPrivateRanges) c.(ReconcileOnScanComplete).
(** What [settings.Resolve] starts from. *)
Definition env_config (c : Config) : EnvConfig := {|
  env_Vault := vault_config c; env_AAP := aap_config c; env_AAPRenewTemplate := c.(AAPRenewTemplate);
  env_AAPRenewWorkflow := c.(AAPRenewWorkflow); env_AAPDefaultMount := c.(AAPDefaultMount);
  env_EDA := Dispatcher.Build_Config c.(EDAWebhookURL) c.(EDAWebhookToken) c.(EventDispatchInterval)
               c.(EventDispatchBatch) c.(EventMaxAttempts) "" 0 "" "" |}.

Inductive LoadError := LoadEnv (e : string) | LoadAuth (e : ConfigError).
(** [Load], from what [envconfig.Process] makes of the environment. *)
Definition Load (processed : result string Config) : result LoadError Config :=
  match processed with
  | Err e => Err (LoadEnv e)
  | Ok c =>
      match normalizeAuth (auth_config c) with
      | Err e => Err (LoadAuth e)
      | Ok a => Ok (c <| AuthMode := a.(ac_AuthMode) |> <| StaticTokens := a.(ac_StaticTokens) |>)
      end
  end.

(** ** The server *)

(** [Server]: the configuration and the clients that are set.  The stores and
    the auditor always are. *)
Record ApiServer := Build_ApiServer {
  as_cfg : Config;
  as_reconciler : option ClientConfig;
  as_importer : option ClientConfig;
  as_aapClient : option AapConfig;
  as_worker : ScanWorker
}.

(** [NewServer]; [generated] is the host name with a piece of a fresh UUID.
    The renewer and the revoker are set when the AAP client is. *)
Definition NewServer `{AapLib} (cfg : Config) (generated : string) : ApiServer :=
  let has_vault := negb (String.eqb cfg.(VaultAddr) "") in
  {| as_cfg := cfg;
     as_reconciler := if has_vault then Some (Vault.NewClient (vault_config cfg)) else None;
     as_importer := if has_vault && HasVaultImportIdentity (auth_config cfg)
                    then Some (Vault.NewClient (import_config cfg)) else None;
     as_aapClient := if negb (String.eqb cfg.(AAPURL) "") then
                       match Aap.NewClient (aap_config cfg) with Ok ac => Some ac | Err _ => None end
                     else None;
     as_worker := NewScanWorker (scan_worker_config cfg) generated |}.

Definition is_set {A} (o : option A) : bool := match o with Some _ => true | None => false end.
Definition api_config (s : ApiServer) : ApiConfig := {|
  api_renewer := is_set s.(as_aapClient); api_revoker := is_set s.(as_aapClient); api_importer := is_set s.(as_importer);
  api_VaultAddr := s.(as_cfg).(VaultAddr); api_AAPDefaultMount := s.(as_cfg).(AAPDefaultMount);
  api_EDAWebhookURL := s.(as_cfg).(EDAWebhookURL); api_LifecycleVerifyTimeout := s.(as_cfg).(LifecycleVerifyTimeout);
  api_ExpiringSoonDays := s.(as_cfg).(ExpiringSoonDays); api_DefaultConcurrency := s.(as_cfg).(DefaultConcurrency);
  api_ScanQueueMaxPending := s.(as_cfg).(ScanQueueMaxPending) |}.
(** The fields the middleware reads. *)
Definition access_server (s : ApiServer) : Server := Build_Server (auth_config s.(as_cfg)) "" true.

(** ** Calls *)

(** A request to one of the routes: the [{id}] of its path, its query and its
    body, where [None] does not decode. *)
Inductive Call :=
| CallRead (handler param : string) (q : Query)
| CallLaunch (q : ApiRequest)
| CallDeleteScan (param : string)
| CallDeleteCertificate (param : string)
| CallDeleteIssuer (param : string)
| CallPatch (param : string) (body : option EnrichmentUpdate)
| CallWaive (param : string) (body : option (string * string * time))
| CallUnwaive (param : string)
| CallReconcile
| CallCollect (body : option (bool * string * list Item))
| CallADCS (deadline : option time) (body : option (bool * string))
| CallAKV (body : option bool)
| CallConnections
| CallPut (body : option json)
| CallPatchConnections (body : option json)
| CallTest (body : option string) (eventID : uuid)
| CallMounts
| CallTemplates (kind : string).

Definition launch_handler (q : ApiRequest) : string * string :=
  match q with
  | ReqCreateScan _ => ("handleCreateScan", "")
  | ReqRenew id _ => ("handleRenewCertificate", id)
  | ReqMigrate id _ => ("handleMigrateCertificate", id)
  | ReqMigrateEligible _ => ("handleMigrateEligible", "")
  | ReqClaimJob _ => ("handleClaimLifecycleJob", "")
  | ReqRevoke id _ => ("handleRevokeCertificate", id)
  | ReqRenewExpiring _ => ("handleRenewExpiring", "")
  | ReqRevocationCheck id => ("handleRevocationCheck", id)
  | ReqCatalogImport id _ => ("handleCatalogImport", id)
  | ReqImportIssuer id _ => ("handleImportIssuer", id)
  end%string.
(** The handler a call is meant for, and its [{id}]. *)
Definition call_handler (c : Call) : string * string :=
  match c with
  | CallRead handler param _ => (handler, param)
  | CallLaunch q => launch_handler q
  | CallDeleteScan param => ("handleDeleteScan", param)
  | CallDeleteCertificate param => ("handleDeleteCertificate", param)
  | CallDeleteIssuer param => ("handleDeleteIssuer", param)
  | CallPatch param _ => ("handlePatchCertificate", param)
  | CallWaive param _ => ("handleCreateCertWaiver", param)
  | CallUnwaive param => ("handleRevokeWaiver", param)
  | CallReconcile => ("handleReconcile", "")
  | CallCollect _ => ("handleCollectScan", "")
  | CallADCS _ _ => ("handleCollectADCS", "")
  | CallAKV _ => ("handleCollectAKV", "")
  | CallConnections => ("handleGetConnections", "")
  | CallPut _ => ("handlePutConnections", "")
  | CallPatchConnections _ => ("handlePatchConnections", "")
  | CallTest _ _ => ("handleTestConnections", "")
  | CallMounts => ("handleOptionsVaultPKIMounts", "")
  | CallTemplates _ => ("handleOptionsAAPTemplates", "")
  end%string.

(** The route of a call. *)
Definition route_of (c : Call) : option Route :=
  find (fun rt => String.eqb rt.(rt_handler) (call_handler c).1) routes.

(** ** From the request to the answer *)

(** Everything a request can act on: the world, the audit table and the token
    of the Vault client. *)
Record Backend := Build_Backend { bk_world : World; bk_audit : AuditTable; bk_vault : ClientState }.
#[export] Instance Backend_eta : Eta Backend := fun x => Build_Backend (x.(bk_world)) (x.(bk_audit)) (x.(bk_vault)).
#[export] Instance backend_audit : AuditSink Backend := fun ev b => b <| bk_audit ::= store_AppendAudit ev |>.

(** What is written: a refusal of the middleware, the router's 404, the answer
    of a handler, or nothing yet when a handler needs more than [fuel] pages
    or polls. *)
Inductive Output :=
| OutRefused (r : Response)
| OutNoRoute
| OutReply (r : Reply)
| OutAnswer (a : Answer)
| OutSettings (r : SettingsReply)
| OutRunning.
#[export] Instance output_writer : ResponseWriter Output := OutRefused.

(** An HTTP request: what it calls, and its [Authorization] header, remote
    address and request id. *)
Record Incoming := Build_Incoming { in_call : Call; in_auth : string; in_remote : string; in_id : string }.

(** An identifier the router matches with [{id}]. *)
Definition path_idb (id : string) : bool := negb (String.eqb id "") && string_forallb (fun c => negb (Ascii.eqb c "/")) id.

Section Serve.
Context `{UuidGen, StoreConfig, UuidParse, OpsPolicy, Controller, Services, RevocationLib, HttpPeer, VaultLib,
  X509Lib, CollectLib, AapLib, AzureLib, SecretsLib}.
Context (fuel : nat) (s : ApiServer).

Definition audited (r : Request) (o : option AuditEntry) (b : Backend) : Backend :=
  match o with
  | Some e => auditAllow (access_server s) r e.(ae_Action) e.(ae_TargetType) e.(ae_TargetID) e.(ae_Payload) b
  | None => b
  end.
(** A handler runs, audits and answers. *)
Definition finish {A} (r : Request) (m : M A) (write : A -> Output) (audit : A -> option AuditEntry) (b : Backend) :
    Output * Backend :=
  let '(a, w) := m b.(bk_world) in (write a, audited r (audit a) (b <| bk_world := w |>)).

Definition write_reply (r : Request) (m : M Reply) := finish r m OutReply rp_audit.
Definition write_answer (r : Request) (m : M Answer) := finish r m OutAnswer an_audit.
Definition write_settings (r : Request) (m : M SettingsReply) := finish r m OutSettings (fun _ => None).
Definition write_if_ended {A} (r : Request) (m : M (option A)) (write : A -> Output) (audit : A -> option AuditEntry) :=
  finish r m (fun o => match o with Some a => write a | None => OutRunning end) (fun o => o ≫= audit).

(** The handler of a call. *)
Definition respond (c : Call) (r : Request) (b : Backend) : Output * Backend :=
  let cfg := s.(as_cfg) in
  let server := access_server s in
  match c with
  | CallRead handler param q =>
      match read_handler handler param q with Some m => write_answer r m b | None => (OutNoRoute, b) end
  | CallLaunch q => write_reply r (handle (api_config s) q) b
  | CallDeleteScan param => write_answer r (handleDeleteScan param) b
  | CallDeleteCertificate param => write_answer r (handleDeleteCertificate param) b
  | CallDeleteIssuer param => write_answer r (handleDeleteIssuer param) b
  | CallPatch param body => write_answer r (handlePatchCertificate param body) b
  | CallWaive param body => write_answer r (handleCreateCertWaiver (requestActor server r) param body) b
  | CallUnwaive param => write_answer r (handleRevokeWaiver param) b
  | CallReconcile =>
      match s.(as_reconciler) with
      | None => write_answer r (refuse 503 "vault not configured") b
      | Some client =>
          let '((a, st), w) := handleReconcile (PKIReader0 := client_reader client) (api_config s) (Some b.(bk_vault)) b.(bk_world) in
          (OutAnswer a, audited r a.(an_audit) (Build_Backend w b.(bk_audit) (default b.(bk_vault) st)))
      end
  | CallCollect body => write_reply r (handleCollectScan body) b
  | CallADCS deadline body =>
      write_if_ended r (handleCollectADCS fuel deadline s.(as_aapClient) cfg.(AAPADCSTemplate) body) OutReply rp_audit b
  | CallAKV body => write_reply r (handleCollectAKV (azure_config cfg) body) b
  | CallConnections => write_settings r (handleGetConnections server (env_config cfg) cfg.(ConnectionsKey) r) b
  | CallPut body => write_settings r (handlePutConnections server (env_config cfg) cfg.(ConnectionsKey) r body) b
  | CallPatchConnections body => write_settings r (handlePatchConnections server (env_config cfg) cfg.(ConnectionsKey) r body) b
  | CallTest body eventID => write_settings r (handleTestConnections server (env_config cfg) cfg.(ConnectionsKey) r body eventID) b
  | CallMounts => write_settings r (handleOptionsVaultPKIMounts server (env_config cfg) cfg.(ConnectionsKey) r) b
  | CallTemplates kind =>
      write_if_ended r (handleOptionsAAPTemplates server (env_config cfg) cfg.(ConnectionsKey) fuel r kind) OutSettings (fun _ => None) b
  end.

(** [Router]: the health check is open, every other route is guarded;
    [order] is the order Go ranges over the tokens in. *)
Definition request_of (i : Incoming) (rt : Route) : Request :=
  Build_Request rt.(rt_method) (route_path rt (call_handler i.(in_call)).2) i.(in_auth) i.(in_remote) i.(in_id) None.
Definition serve (order : list (string * string)) (i : Incoming) (b : Backend) : Output * Backend :=
  if String.eqb (call_handler i.(in_call)).1 "handleHealth" then
    finish (Build_Request "GET" "/api/v1/health" i.(in_auth) i.(in_remote) i.(in_id) None) handleHealth OutAnswer an_audit b
  else match route_of i.(in_call) with
       | None => (OutNoRoute, b)
       | Some rt =>
           if rt.(rt_id) && negb (path_idb (call_handler i.(in_call)).2) then (OutNoRoute, b)
           else guarded (access_server s) order (respond i.(in_call)) (request_of i rt) b
       end.
End Serve.

(** ** Who can change anything *)

Section Permission.
Context `{UuidGen, StoreConfig, UuidParse, OpsPolicy, Controller, Services, RevocationLib, HttpPeer, VaultLib,
  X509Lib, CollectLib, AapLib, AzureLib, SecretsLib}.
Context (fuel : nat) (s : ApiServer) (order : list (string * string)).

(** The request authenticates as [role]. *)
Definition authenticates (auth role : string) : Prop :=
  if s.(as_cfg).(InsecureNoAuth) then role = rolePlatformAdmin
  else exists secret, s.(as_cfg).(StaticTokens) !! role = Some secret /\ accepted (bearerToken auth) secret.

(** Permissions to read the inventory and nothing else. *)
Definition read_only (p : Permission) : bool := match p with PRead | PInventory => true | _ => false end.

Lemma route_of_handler c rt : route_of c = Some rt -> rt ∈ routes /\ rt.(rt_handler) = (call_handler c).1.
Proof.
  unfold route_of. intros E. pose proof (find_spec (fun rt => String.eqb (rt_handler rt) (call_handler c).1) routes) as Hf.
  rewrite E in Hf. destruct Hf as [? ?%String.eqb_eq]. done.
Qed.
Lemma path_idb_spec id : path_idb id = true -> path_id id.
Proof. unfold path_idb. intros [Hne Hc]%andb_true_iff. split; [|exact Hc]. by destruct (String.eqb_spec id ""). Qed.

(** The middleware lets a request through or leaves the world alone. *)
Lemma guarded_runs next r b out b' :
  guarded (access_server s) order next r b = (out, b') ->
  b'.(bk_world) = b.(bk_world) \/ exists r', next r' b = (out, b').
Proof.
  assert (forall r1, requirePermission (access_server s) next r1 b = (out, b') ->
    b'.(bk_world) = b.(bk_world) \/ exists r', next r' b = (out, b')) as Hp.
  { intros r1. unfold requirePermission. repeat case_match; [by intros [= _ <-]; left..|]. intros E. right. by exists r1. }
  unfold guarded, requireAuth. repeat case_match; try apply Hp. intros [= _ <-]. by left.
Qed.
Lemma guarded_world next r b out b' :
  map_order s.(as_cfg).(StaticTokens) order -> r.(rq_actor) = None ->
  guarded (access_server s) order next r b = (out, b') ->
  b'.(bk_world) = b.(bk_world) /\ b'.(bk_vault) = b.(bk_vault) \/
  exists role, authenticates r.(rq_Authorization) role /\ roleAllows role r.(rq_Method) r.(rq_Path) = true /\
    next (ContextWithActor role r) b = (out, b').
Proof.
  intros Ho Ha. unfold guarded, requireAuth. rewrite Ha. unfold authenticates. cbn [access_server sv_cfg auth_config ac_InsecureNoAuth].
  assert (forall role, requestActor (access_server s) (ContextWithActor role r) =
    if negb (String.eqb role "") then role else if s.(as_cfg).(InsecureNoAuth) then rolePlatformAdmin else ""%string) as Hr
    by (intros role; reflexivity).
  destruct (InsecureNoAuth (as_cfg s)) eqn:Ei.
  - unfold requirePermission. rewrite Hr. simpl. intros E. right. by exists rolePlatformAdmin.
  - pose proof (LookupStaticRole_spec _ _ (bearerToken (rq_Authorization r)) Ho) as Hl.
    destruct (LookupStaticRole _ _) as [role|]; [|intros [= _ <-]; by left].
    unfold requirePermission. rewrite Hr. destruct (String.eqb role "") eqn:En; simpl; [intros [= _ <-]; by left|].
    rewrite En. destruct (knownRBACRole role); simpl; [|intros [= _ <-]; by left].
    destruct (roleAllows role _ _) eqn:Ep; simpl; [|intros [= _ <-]; by left]. intros E. right. by exists role.
Qed.

Lemma audited_world r o b : (audited s r o b).(bk_world) = b.(bk_world).
Proof. by destruct o. Qed.
Lemma finish_world {A} r (m : M A) write audit b out b' :
  finish s r m write audit b = (out, b') -> b'.(bk_world) = (m b.(bk_world)).2.
Proof. unfold finish. destruct (m _) as [a w]. intros [= _ <-]. by rewrite audited_world. Qed.

Lemma reads_only handler param q m b : read_handler handler param q = Some m -> only_others b (m b).2.
Proof. intros Hm%read_handler_reader. destruct (m b) as [a w'] eqn:E. by destruct (Hm b a w' E). Qed.

(** A handler that only takes a permission to read changes nothing. *)
Lemma respond_reads c r b out b' :
  read_only (permission_of (call_handler c).1) = true ->
  respond fuel s c r b = (out, b') -> only_others b.(bk_world) b'.(bk_world).
Proof.
  destruct c as [handler param q|q| | | | | | | | | | | | | | | |]; try done; [|by destruct q]. intros _. simpl.
  destruct (read_handler handler param q) as [m|] eqn:Em; [|by intros [= _ <-]].
  intros ->%finish_world. by eapply reads_only.
Qed.

(** C8. Whatever changes, somebody was allowed to change it.  For every request,
    whatever its path, header and body, in every environment: the database is
    left to the other replicas and nothing is sent to any service, or the
    request carries a token that the secret of some role accepts (any request
    is the administrator's when authentication is switched off) and that role
    has the permission of the handler called, which is not one to read. *)
Theorem changes_need_permission i b out b' :
  map_order s.(as_cfg).(StaticTokens) order ->
  serve fuel s order i b = (out, b') ->
  only_others b.(bk_world) b'.(bk_world) \/
  let p := permission_of (call_handler i.(in_call)).1 in
  read_only p = false /\ exists role, authenticates i.(in_auth) role /\ may role p = true.
Proof.
  intros Ho. unfold serve. destruct (String.eqb _ "handleHealth").
  { intros ->%finish_world. left. by apply (reads_only "handleHealth" "" (fun _ => ""%string)). }
  destruct (route_of _) as [rt|] eqn:Er; [|by intros [= _ <-]; left].
  destruct (rt_id rt && _) eqn:Eid; [by intros [= _ <-]; left|]. intros E.
  apply route_of_handler in Er as [Hrt Hh].
  apply guarded_world in E as [[-> _]|(role & Ha & Hrole & E)]; [by left|..|done|done].
  destruct (read_only (permission_of (call_handler (in_call i)).1)) eqn:Hp; [left; by eapply respond_reads|].
  right. split; [done|]. exists role. split; [done|]. rewrite <- Hh.
  set (id := if rt_id rt then (call_handler (in_call i)).2 else "x"%string).
  rewrite <- Hrole. symmetry. cbn [request_of rq_Method rq_Path].
  assert (route_path rt (call_handler (in_call i)).2 = route_path rt id) as ->
    by (unfold route_path, id; by destruct (rt_id rt)).
  apply roleAllows_may, route_capabilities; [done|]. unfold id. destruct (rt_id rt); [|by split].
  apply path_idb_spec. by apply negb_false_iff.
Qed.

End Permission.

(** ** A demonstration *)

Definition demo_azure : AzureLib := {|
  azure_reply := fun _ => Err "down"%string; azure_json := Aap.demo_controller_lib.(@aap_json);
  b64_Std := Some; b64_RawURL := Some; azure_url_error := fun _ => None |}.

(** The libraries and services of the demonstrations of the other files, and
    those of this one and of Program.v and Main.v. *)
Module Demonstration.
#[export] Existing Instance LaunchSpec.demo_uuid.
#[export] Existing Instance LaunchSpec.demo_store.
#[export] Existing Instance LaunchSpec.demo_parse.
#[export] Existing Instance LaunchSpec.demo_controller.
#[export] Existing Instance LaunchSpec.demo_services.
#[export] Existing Instance Revocation.demo_lib.
#[export] Existing Instance ResourceSpec.demo_policy.
#[export] Existing Instance Dispatcher.demo_peer.
#[export] Existing Instance VaultSpec.demo_vault.
#[export] Existing Instance Collectors.demo_x509.
#[export] Existing Instance Collectors.demo_collect.
#[export] Existing Instance Aap.demo_controller_lib.
#[export] Existing Instance SettingsSpec.demo_secrets.
#[export] Existing Instance demo_azure.
End Demonstration.

Section Demo.
Import Demonstration.

(** The defaults with a controller and a token per role. *)
Definition demo_processed : Config :=
  (default_config "postgres://db") <| AAPURL := "https://aap" |> <| VaultAddr := "vault:8200" |>
    <| StaticTokensRaw := "viewer:v, scanner_operator:o, remediator:r, platform_admin:p" |>.
Definition demo_config : Config := match Load (Ok demo_processed) with Ok c => c | Err _ => demo_processed end.
Definition demo_srv : ApiServer := NewServer demo_config "host-1".
Definition demo_order : list (string * string) := map_to_list demo_srv.(as_cfg).(StaticTokens).
Definition demo_http (token : string) (c : Call) : Incoming := Build_Incoming c ("Bearer " ++ token) "10.0.0.9" "req".
Definition demo_calls : list Incoming := [
  demo_http "o" (CallCollect (Some (true, "cloud_acm", [Build_Item "good" ""])));
  demo_http "v" (CallDeleteCertificate "1");
  demo_http "p" (CallDeleteCertificate "1")]%string.
Definition demo_serve (i : Incoming) (b : Backend) : Output * Backend := serve 5 demo_srv demo_order i b.
Definition demo_backend : Backend := Build_Backend (calm_world (Build_DB ∅ [] ∅ ∅ [] [] ∅ ∅ ∅ ∅ ∅ 0) 0) (Build_AuditTable [] []) new_state.
Definition demo_after (n : nat) : Backend := foldl (fun b i => (demo_serve i b).2) demo_backend (firstn n demo_calls).

(** The operator collects a certificate, the viewer may not delete it, and
    only a token of the administrator explains that it is gone. *)
Lemma changes_need_permission_witness :
  size (demo_after 1).(bk_world).(w_db).(certificates) = 1%nat /\
  (demo_serve (demo_http "v" (CallDeleteCertificate "1")) (demo_after 1)).1 = OutRefused forbidden /\
  size (demo_after 3).(bk_world).(w_db).(certificates) = 0%nat /\
  map (fun e => (au_Role e, au_Decision e)) (demo_after 3).(bk_audit).(at_rows)
    = [("scanner_operator", "allow"); ("viewer", "deny"); ("platform_admin", "allow")]%string /\
  exists role, authenticates demo_srv "Bearer p" role /\ may role PAdmin = true.
Proof.
  split_and!; [vm_compute; reflexivity..|].
  set (i := demo_http "p" (CallDeleteCertificate "1")).
  set (b := demo_after 2). destruct (serve 5 demo_srv demo_order i b) as [out b'] eqn:E.
  destruct (changes_need_permission 5 demo_srv demo_order i b out b') as [(es & Henv & Hdb & _)|[_ Hr]];
    [apply Permutation_refl|exact E| |exact Hr].
  exfalso. assert (es = []) as -> by (destruct es; [done|by vm_compute in Henv]).
  apply (f_equal (fun db => size (certificates db))) in Hdb. apply (f_equal snd) in E. simpl in E. subst b'.
  vm_compute in Hdb. discriminate.
Defined.
End Demo.
