(* ===== verification/Consent.v ===== *)
(** * What needs consent

    The routes that scan, import, collect, renew, migrate or revoke ask the
    caller to consent in the body of the request (server.go,
    handlers_collect.go); the others do not ask, and do none of these. *)

From S2P Require Import Prelude GoLib Records Db Queue Outbox Dispatcher CertStore JobStore Worker Issuers ScanQueue ScanRunner Compliance Report Posture Access Ip Sends Revocation LaunchApi LaunchSpec Scanner Json Vault VaultSpec Aap Connections Settings SettingsSpec ScanWorker Inventory CertParse Collectors ResourceApi ResourceSpec Cmd Schema Server.

Open Scope clm_scope.

(** Where a call is asked for consent: whether its body decodes and gives it. *)
Definition consent_of (c : Call) : option bool :=
  match c with
  | CallLaunch q => launch_consent q
  | CallCollect b => Some (match b with Some (consent, _, _) => consent | None => false end)
  | CallADCS _ b => Some (match b with Some (consent, _) => consent | None => false end)
  | CallAKV b => Some (default false b)
  | _ => None
  end.

(** A refusal of a handler, or of what stands before it. *)
Definition refused (out : Output) : Prop :=
  match out with
  | OutReply rep => 400 <= rep.(rp_status) /\ rep.(rp_audit) = None
  | OutRefused _ | OutNoRoute => True
  | _ => False
  end.

(** What is asked consent for: a launch in AAP or an import into Vault; *)
Definition harmless (c : netcall) : Prop :=
  match c.(nc_service) with
  | SvcAAPLaunch | SvcAAPRevoke => False
  | SvcAAP => match c.(nc_body) with JObj l => json_field "method" l = Some (JStr "GET") | _ => False end
  | SvcVault => forall mount bundle, c.(nc_body) <> JObj [("mount"%string, JStr mount); ("pem_bundle"%string, JStr bundle)]
  | _ => True
  end.
(** a certificate, scan or job that was not there, or an issuer in Vault. *)
Definition adds_nothing (db db' : DB) : Prop :=
  dom db'.(certificates) ⊆ dom db.(certificates) /\ dom db'.(scans) ⊆ dom db.(scans) /\
  dom db'.(lifecycle_jobs) ⊆ dom db.(lifecycle_jobs) /\ db'.(issuers) ⊆ db.(issuers).
#[export] Instance adds_nothing_preorder : PreOrder adds_nothing.
Proof.
  split; [done|]. intros d1 d2 d3 (A1 & A2 & A3 & A4) (B1 & B2 & B3 & B4).
  split_and!; by etransitivity.
Qed.

Definition asks_nothing (w w' : World) : Prop := sends harmless w w' /\ evolves adds_nothing w w'.
#[export] Instance asks_nothing_rel : WorldRel asks_nothing.
Proof.
  split; [intros w; split; apply wr_refl|]. intros w1 w2 w3 [A B] [C D].
  split; [exact (wr_trans _ _ _ A C)|exact (wr_trans _ _ _ B D)].
Qed.

Definition inert {A} (t : txn A) : Prop := forall c db db' a, t c db = Ok (db', a) -> adds_nothing db db'.
Lemma inert_reads {A} (t : txn A) : reads t -> inert t.
Proof. by intros Ht c db db' a ->%Ht. Qed.
Lemma inert_bind {A B} (t : txn A) (f : A -> txn B) : inert t -> (forall a, inert (f a)) -> inert (tbind t f).
Proof. intros Ht Hf c db db' b (db1 & a & E1%Ht & E2%Hf)%tbind_ok. by etransitivity. Qed.
Lemma inert_tfor {A} (l : list A) (t : A -> txn unit) : (forall x, inert (t x)) -> inert (tfor l t).
Proof. intros Ht. induction l; simpl; [by apply inert_reads, reads_ret|by apply inert_bind]. Qed.

Lemma asks_store_call {A} (t : txn A) : inert t -> moves asks_nothing (store_call t).
Proof. intros Ht w r w' E. split; [by eapply sends_store_call|]. by eapply moves_store_call; [exact _|exact Ht|]. Qed.
Lemma asks_time_now : moves asks_nothing time_now.
Proof. intros w r w' E. split; [by eapply sends_time_now|by eapply moves_time_now; [exact _|]]. Qed.
Lemma asks_net_call {R} c (reply : nat -> R) : harmless c -> moves asks_nothing (net_call c reply).
Proof. intros Hc w r w' E. split; [by eapply sends_net_call|by eapply moves_net_call; [exact _|]]. Qed.
Lemma asks_reads {A} (m : M A) : moves only_others m -> moves asks_nothing m.
Proof.
  intros Hm w a w' E. apply Hm in E. split; [|by apply (only_others_evolves _)]. destruct E as (_ & _ & _ & E & _).
  exists []. by rewrite app_nil_r.
Qed.

(** Rows of other tables, fewer rows, and the same rows rewritten. *)
Ltac inert_tac :=
  intros ? ? ? ? Ht; do 8 (txn_inv; try case_match; simplify_eq); unfold adds_nothing; simpl; split_and!;
  try done; rewrite ?dom_delete_L, ?dom_insert_lookup_L by eauto; try set_solver; try apply delete_subseteq.

Create HintDb inert discriminated.
Create HintDb asks discriminated.
Create HintDb asks_ops.
#[export] Hint Resolve inert_reads inert_bind : inert.
Ltac asks_step :=
  match goal with
  | |- moves _ (mret _) => apply moves_ret; exact _
  | |- moves _ (store_call _) => apply asks_store_call; solve [eauto with inert reads]
  | |- moves _ time_now => apply asks_time_now
  | |- moves _ (net_call _ _) => apply asks_net_call; solve [done|reflexivity]
  | |- moves _ (mtry _ _) => apply moves_try; [exact _| |intros ?]
  | |- moves _ (mbind _ _) => apply moves_bind; [exact _| |intros ?]
  | |- moves _ (mcollect _ _) => apply moves_collect; [exact _|intros ?]
  | |- moves _ (match ?x with _ => _ end) => destruct x
  | |- moves _ _ => solve [eauto with asks]
  | |- moves _ _ => progress autounfold with asks_ops
  end.
Ltac asks_tac := repeat asks_step.

Section Inert.
Context `{UuidGen, StoreConfig, OpsPolicy}.

Lemma inert_append_event ty cert p : inert (appendEventTx ty cert p).
Proof. unfold appendEventTx. inert_tac. Qed.
Lemma inert_update_cert id f : inert (update_cert id f).
Proof. intros c db db' n [(-> & x & Hx & ->)|(-> & _ & ->)]%update_cert_ok; [|done]. split_and!; simpl; try done. rewrite dom_insert_lookup_L; eauto. Qed.
#[local] Hint Resolve inert_append_event inert_update_cert : inert.
Lemma inert_mark_revoked id src : inert (mark_revoked_tx id src).
Proof.
  unfold mark_revoked_tx. apply inert_bind; [apply inert_update_cert|intros n].
  apply inert_bind; [apply inert_reads, reads_require|intros _; apply inert_append_event].
Qed.
Lemma inert_update_managed fp u : inert (update_managed_tx fp u).
Proof.
  intros c db db' b [= <- <-]. split_and!; simpl; try done. apply elem_of_subseteq. intros k.
  rewrite !elem_of_dom, lookup_update_where. by destruct (certificates db !! k).
Qed.
Lemma inert_upsert_findings id fs : inert (upsert_findings_tx id fs).
Proof. unfold upsert_findings_tx. apply inert_bind; [apply inert_tfor|]; intros ?; [unfold upsert_one|]; inert_tac. Qed.
Lemma inert_update_risk id score reasons :
  inert (n <-! update_cert id (fun c => set_risk score reasons c.(NOW)) ;; if n then tret tt else tfail ErrCertificateNotFound).
Proof. apply inert_bind; [apply inert_update_cert|]. intros []; inert_tac. Qed.
Lemma inert_insert_waiver id rule reason actor e : inert (insert_waiver id rule reason actor e).
Proof. unfold insert_waiver. inert_tac. Qed.
Lemma inert_delete_certificate id : inert (delete_certificate_tx id).
Proof. unfold delete_certificate_tx. inert_tac. Qed.
Lemma inert_upsert_connection row : inert (upsert_connection_tx row).
Proof. unfold upsert_connection_tx. inert_tac. Qed.
Lemma inert_update_job id f : inert (update_job id f).
Proof.
  intros c db db' u (j & Hj & ->)%update_job_ok. split_and!; simpl; try done. rewrite dom_insert_lookup_L; eauto.
Qed.
#[local] Hint Resolve inert_mark_revoked inert_update_managed inert_upsert_findings inert_update_risk inert_insert_waiver
  inert_delete_certificate inert_upsert_connection inert_update_job : inert.

End Inert.
#[export] Hint Resolve inert_append_event inert_update_cert inert_mark_revoked inert_update_managed inert_upsert_findings
  inert_update_risk inert_insert_waiver inert_delete_certificate inert_upsert_connection inert_update_job : inert.
#[export] Hint Unfold GetCertificate get_certificate_tx GetIssuerPEMForCert MarkRevoked CurrentOpsPolicyVersionID ActiveWaiver to_upsert
  UpsertFindings ListOpenFindings UpdateCertificateRisk UpdateCertificateEnrichment CountByManagedStatus
  UpdateManagedStatusByFingerprint GetLifecycleJobByIdempotency ClaimByIdempotency SetLifecycleAAPRef GetLifecycleJob get_job_tx
  AppendRenewalOutboxEvent appendEventStandalone
  DeleteCertificate GetWaiver CreateWaiver
  writeError writeJSON writeServerError writeLookupError with_uuid answer refuse server_refused lookup_refused answer_no_content
  with_param or_refuse quietly getConnection UpsertConnection GetConnections resolveConnections writeConnectionsView
  connectionByTarget requireSettingsAccess requireSettingsRead requireSettingsWrite serror sreply : asks_ops.


Section Handlers.
Context `{UuidGen, StoreConfig, UuidParse, OpsPolicy, Controller, Services, RevocationLib, HttpPeer, VaultLib,
  X509Lib, CollectLib, AapLib, AzureLib, SecretsLib}.

Lemma asks_pause d : moves asks_nothing (pause d).
Proof. intros w a w' [= <- <-]. split; [exists []; by rewrite app_nil_r|]. split_and!; simpl; [lia|done|by intros]. Qed.
Lemma asks_client_do url method der : moves asks_nothing (client_do url method der).
Proof.
  intros w r w'. unfold client_do. destruct (next_env w) as [e w1] eqn:He. intros E.
  apply (wr_trans w w1 w'); [split; [by eapply sends_env|by eapply evolves_next_env; [exact _|]]|].
  destruct (dial _); [|injection E as <- <-; apply wr_refl]. revert E. by apply asks_net_call.
Qed.
#[local] Hint Resolve asks_client_do : asks.
Lemma asks_first_crl crls : moves asks_nothing (first_crl crls).
Proof. induction crls; cbn [first_crl]; unfold fetchCRL; asks_tac. Qed.
Lemma asks_first_ocsp leaf issuer req servers : moves asks_nothing (first_ocsp leaf issuer req servers).
Proof. induction servers; cbn [first_ocsp]; unfold postOCSP; asks_tac. Qed.
#[local] Hint Resolve asks_first_crl asks_first_ocsp : asks.
Lemma asks_Check i : moves asks_nothing (Check_ i).
Proof. unfold Check_, CheckOCSP, CheckCRL. asks_tac. Qed.
Lemma asks_RecomputeCert id : moves asks_nothing (RecomputeCert id).
Proof. unfold RecomputeCert. asks_tac. Qed.
#[local] Hint Resolve asks_pause asks_Check asks_RecomputeCert : asks.
Lemma asks_claim body : moves asks_nothing (handleClaimLifecycleJob body).
Proof. unfold handleClaimLifecycleJob. asks_tac. Qed.
Lemma asks_revocation_check param : moves asks_nothing (handleRevocationCheck param).
Proof. unfold handleRevocationCheck. asks_tac. Qed.
Lemma asks_DeleteScan id : moves asks_nothing (DeleteScan id).
Proof. apply asks_store_call. inert_tac. Qed.
Lemma asks_DeleteIssuer id : moves asks_nothing (DeleteIssuer id).
Proof. apply asks_store_call. inert_tac. Qed.
Lemma asks_RevokeWaiver id : moves asks_nothing (RevokeWaiver id).
Proof. apply asks_store_call. inert_tac. Qed.
#[local] Hint Resolve asks_DeleteScan asks_DeleteIssuer asks_RevokeWaiver : asks.
Lemma asks_delete_scan param : moves asks_nothing (handleDeleteScan param).
Proof. unfold handleDeleteScan. asks_tac. Qed.
Lemma asks_delete_certificate param : moves asks_nothing (handleDeleteCertificate param).
Proof. unfold handleDeleteCertificate. asks_tac. Qed.
Lemma asks_delete_issuer param : moves asks_nothing (handleDeleteIssuer param).
Proof. unfold handleDeleteIssuer. asks_tac. Qed.
Lemma asks_patch param body : moves asks_nothing (handlePatchCertificate param body).
Proof. unfold handlePatchCertificate. asks_tac. Qed.
Lemma asks_waive actor param body : moves asks_nothing (handleCreateCertWaiver actor param body).
Proof. unfold handleCreateCertWaiver. asks_tac. Qed.
Lemma asks_unwaive param : moves asks_nothing (handleRevokeWaiver param).
Proof. unfold handleRevokeWaiver. asks_tac. Qed.

(** *** Vault and the settings *)

Definition vault_call (client : ClientConfig) (c : netcall) : Prop :=
  exists method url query token payload, c = vault_request client method url query token payload.
Lemma asks_vault client c0 c : vault_call client c0 -> c = c0 \/ redirected client c0 c -> moves asks_nothing (net_call c vault_reply).
Proof.
  intros (m & u & q & t & pl & ->) [->|(m0 & u0 & q0 & t0 & p0 & m' & u' & p' & n & rsp & from & _ & -> & _)]; by apply asks_net_call.
Qed.
Lemma login_vault client c : login_request client c -> vault_call client c.
Proof. intros [->|[token ->]]; by eexists _, _, _, _, _. Qed.
Lemma get_vault client c : get_request client c -> vault_call client c.
Proof. intros (path & query & token & ->). by eexists _, _, _, _, _. Qed.
Lemma asks_ListMounts client st : moves asks_nothing (ListMounts client st).
Proof. exact (moves_ListMounts client _ (vault_call client) (asks_vault client) asks_time_now (login_vault client) (get_vault client) st). Qed.
Lemma asks_ListPKIMounts client st : moves asks_nothing (ListPKIMounts client st).
Proof. exact (moves_ListPKIMounts client _ (vault_call client) (asks_vault client) asks_time_now (login_vault client) (get_vault client) st). Qed.
Lemma asks_Reconcile client st : moves asks_nothing (Reconcile (PKIReader0 := client_reader client) st).
Proof.
  apply moves_Reconcile; [exact _|apply asks_ListPKIMounts|..].
  - intros m. exact (moves_ListCertSerials client _ (vault_call client) (asks_vault client) asks_time_now (login_vault client) (get_vault client) m).
  - intros. asks_tac.
  - intros m n. exact (moves_ReadCert client _ (vault_call client) (asks_vault client) asks_time_now (login_vault client) (get_vault client) m n).
  - asks_tac.
Qed.
#[local] Hint Resolve asks_ListMounts asks_ListPKIMounts asks_Reconcile : asks.

Lemma asks_upsertTarget key t existing replace actor k : moves asks_nothing k -> moves asks_nothing (upsertTarget key t existing replace actor k).
Proof. intros Hk. unfold upsertTarget. asks_tac. Qed.
#[local] Hint Resolve asks_upsertTarget : asks.
Lemma asks_patch_target {A} key (t : option A) write existing actor k :
  moves asks_nothing k -> moves asks_nothing (patch_target key t write existing actor k).
Proof. intros Hk. unfold patch_target. asks_tac. Qed.
#[local] Hint Resolve asks_patch_target : asks.
Lemma asks_writeConnectionsView env key : moves asks_nothing (writeConnectionsView env key).
Proof. asks_tac. Qed.
#[local] Hint Resolve asks_writeConnectionsView : asks.
Lemma asks_connections server env key r : moves asks_nothing (handleGetConnections server env key r).
Proof. unfold handleGetConnections. asks_tac. Qed.
Lemma asks_put server env key r body : moves asks_nothing (handlePutConnections server env key r body).
Proof. unfold handlePutConnections. asks_tac. Qed.
Lemma asks_patch_connections server env key r body : moves asks_nothing (handlePatchConnections server env key r body).
Proof. unfold handlePatchConnections. asks_tac. Qed.
#[local] Hint Unfold Aap.get do_ Aap.send etry : asks_ops.
Lemma asks_list_pages client n path out : moves asks_nothing (list_pages client n path out).
Proof. revert path out. induction n; intros; cbn [list_pages]; asks_tac. Qed.
#[local] Hint Resolve asks_list_pages : asks.
#[local] Hint Unfold test_reply testVault testAAP testEDA Me Dispatcher.Ping postWebhook FindWorkflowJobTemplate FindJobTemplate findTemplate
  ListWorkflowJobTemplates ListJobTemplates listTemplates : asks_ops.
Lemma asks_test server env key r body id : moves asks_nothing (handleTestConnections server env key r body id).
Proof. unfold handleTestConnections. asks_tac. Qed.
Lemma asks_mounts server env key r : moves asks_nothing (handleOptionsVaultPKIMounts server env key r).
Proof. unfold handleOptionsVaultPKIMounts. asks_tac. Qed.
Lemma asks_templates server env key n r kind : moves asks_nothing (handleOptionsAAPTemplates server env key n r kind).
Proof.
  intros w a w'. unfold handleOptionsAAPTemplates. cbv zeta.
  lazymatch goal with |- ?m w = _ -> _ => revert w a w'; change (moves asks_nothing m) end. asks_tac.
Qed.

Lemma asks_reconcile_call client cfg v : moves asks_nothing (handleReconcile (PKIReader0 := client_reader client) cfg v).
Proof. unfold handleReconcile. asks_tac. Qed.

(** ** Consent *)

Context (fuel : nat) (s : ApiServer) (order : list (string * string)).

Lemma finish_asks {A} r (m : M A) write audit b out b' :
  moves asks_nothing m -> finish s r m write audit b = (out, b') -> asks_nothing b.(bk_world) b'.(bk_world).
Proof. intros Hm ->%finish_world. destruct (m _) as [a w] eqn:E. by eapply Hm. Qed.

(** A call that is not asked for consent. *)
Lemma respond_unasked c r b out b' :
  consent_of c = None -> respond fuel s c r b = (out, b') -> asks_nothing b.(bk_world) b'.(bk_world).
Proof.
  destruct c as [handler param q|q| | | | | | | | | | | | | | | |]; try done; intros Hc; cbn [respond].
  - destruct (read_handler _ _ _) as [m|] eqn:Em; [|by intros [= _ <-]; apply wr_refl]. apply finish_asks, asks_reads.
    intros w a w' E. apply read_handler_reader in Em. by destruct (Em w a w' E).
  - destruct q; try done; apply finish_asks; [apply asks_claim|apply asks_revocation_check].
  - apply finish_asks, asks_delete_scan.
  - apply finish_asks, asks_delete_certificate.
  - apply finish_asks, asks_delete_issuer.
  - apply finish_asks, asks_patch.
  - apply finish_asks, asks_waive.
  - apply finish_asks, asks_unwaive.
  - destruct (as_reconciler s) as [client|]; [|apply finish_asks; asks_tac].
    destruct (handleReconcile _ _ _) as [[a st] w] eqn:E. intros [= _ <-]. rewrite audited_world. simpl.
    revert E. generalize (Some (bk_vault b)). intros v E. refine (asks_reconcile_call client _ v _ _ _ E).
  - apply finish_asks, asks_connections.
  - apply finish_asks, asks_put.
  - apply finish_asks, asks_patch_connections.
  - apply finish_asks, asks_test.
  - apply finish_asks, asks_mounts.
  - apply finish_asks, asks_templates.
Qed.

(** A call that is asked for consent and does not get it. *)
Lemma respond_refused c r b out b' :
  consent_of c = Some false -> respond fuel s c r b = (out, b') -> refused out /\ b' = b.
Proof.
  assert (forall A r (m : M A) write audit a, m b.(bk_world) = (a, b.(bk_world)) -> audit a = None -> refused (write a) ->
    finish s r m write audit b = (out, b') -> refused out /\ b' = b) as Hf.
  { intros A r0 m write audit a Ha Hn Hw. unfold finish. rewrite Ha, Hn. intros [= <- <-]. split; [done|]. by destruct b. }
  destruct c as [| q| | | | | | | |body|dl body|body| | | | | |]; try done; simpl; intros Hc.
  - destruct (launch_refused (api_config s) q (bk_world b)) as (rep & E & ? & ?); [done|]. by apply (Hf _ _ _ _ _ rep).
  - assert (exists msg, handleCollectScan body = writeError 400 msg) as [msg ->].
    { unfold handleCollectScan. destruct body as [[[consent src] items]|]; [|by eexists]. injection Hc as ->. by eexists. }
    by eapply Hf.
  - unfold handleCollectADCS. destruct (as_aapClient s) as [client|]; [|by eapply Hf].
    destruct (negb _); [by eapply Hf|]. destruct body as [[consent host]|]; [|by eapply Hf]. injection Hc as ->. by eapply Hf.
  - unfold handleCollectAKV. destruct (String.eqb _ ""); [by eapply Hf|]. destruct body as [consent|]; [|by eapply Hf].
    simpl in Hc. injection Hc as ->. by eapply Hf.
Qed.

(** The middleware refuses, or lets the handler answer. *)
Lemma guarded_answers next r b out b' :
  guarded (access_server s) order next r b = (out, b') ->
  refused out /\ b'.(bk_world) = b.(bk_world) /\ b'.(bk_vault) = b.(bk_vault) \/ exists r', next r' b = (out, b').
Proof.
  assert (forall r1, requirePermission (access_server s) next r1 b = (out, b') ->
    refused out /\ b'.(bk_world) = b.(bk_world) /\ b'.(bk_vault) = b.(bk_vault) \/ exists r', next r' b = (out, b')) as Hp.
  { intros r1. unfold requirePermission. repeat case_match; try (by intros [= <- <-]; left). intros E. right. by exists r1. }
  unfold guarded, requireAuth. repeat case_match; try apply Hp. intros [= <- <-]. by left.
Qed.

(** C11. Nothing that needs consent happens without it.  Whatever a request
    asks for, in every environment: it gives consent in its body; or it was
    asked for consent and does not give it, or its body does not decode, and
    then it is refused and nothing happens to the database, to the Vault client
    or at any service; or its route is one that does not ask, and then no
    launch or revocation is started in AAP and nothing is imported into Vault,
    and unless others add some, there is no certificate, scan or lifecycle job
    that was not there, and every issuer that is left is as it was. *)
Theorem no_consent_no_effect i b out b' :
  serve fuel s order i b = (out, b') ->
  match consent_of i.(in_call) with
  | Some true => True
  | Some false => refused out /\ b'.(bk_world) = b.(bk_world) /\ b'.(bk_vault) = b.(bk_vault)
  | None => exists l, b'.(bk_world).(w_sent) = b.(bk_world).(w_sent) ++ l /\ Forall harmless l /\
      (others_ok adds_nothing b.(bk_world) -> adds_nothing b.(bk_world).(w_db) b'.(bk_world).(w_db))
  end.
Proof.
  assert (forall w w', asks_nothing w w' -> exists l, w'.(w_sent) = w.(w_sent) ++ l /\ Forall harmless l /\
    (others_ok adds_nothing w -> adds_nothing w.(w_db) w'.(w_db))) as Hasks.
  { intros w w' [(l & E & Hl) (_ & _ & He)]. exists l. split_and!; [done..|]. intros Ho. by apply He. }
  unfold serve. destruct (String.eqb_spec (call_handler (in_call i)).1 "handleHealth") as [Eh|_].
  { destruct (in_call i) as [| []| | | | | | | | | | | | | | | |]; try done. simpl. intros Hf. apply Hasks.
    eapply finish_asks; [|exact Hf]. apply asks_reads. intros w a w' E.
    by destruct (read_handler_reader "handleHealth" "" (fun _ => ""%string) handleHealth eq_refl w a w' E). }
  assert (asks_nothing b.(bk_world) b.(bk_world)) as Hsame by apply wr_refl.
  destruct (route_of _) as [rt|]; [|by intros [= <- <-]; destruct (consent_of _) as [[]|]; auto].
  destruct (rt_id rt && _); [by intros [= <- <-]; destruct (consent_of _) as [[]|]; auto|].
  intros [(Hr & Ew & Ev)|[r' E]]%guarded_answers.
  - destruct (consent_of _) as [[]|]; [done|done|]. rewrite Ew. by apply Hasks.
  - destruct (consent_of _) as [[]|] eqn:Ec; [done| |by apply Hasks; eapply respond_unasked].
    by apply respond_refused in E as [? ->].
Qed.
End Handlers.

(** ** Witness *)

Section Demo.
Import Demonstration.

(** A renewal is asked for without consent; then a certificate is given an
    owner, for which no consent is asked. *)
Definition demo_unwilling : Incoming := demo_http "r" (CallLaunch (ReqRenew "1" (Some (demo_body false)))).
Definition demo_patch : Incoming := demo_http "r" (CallPatch "1" (Some {| eu_Owner := Some "ops"%string; eu_Team := None; eu_Environment := None; eu_Tags := None |})).

Lemma demo_patched :
  (c_Owner <$> (demo_serve demo_patch (demo_after 1)).2.(bk_world).(w_db).(certificates) !! "1"%string) = Some (Some "ops"%string).
Proof. vm_compute. reflexivity. Qed.
Lemma demo_after_others : others_ok adds_nothing (demo_after 1).(bk_world).
Proof. vm_compute. constructor. Qed.

Lemma no_consent_no_effect_witness :
  (refused (demo_serve demo_unwilling (demo_after 1)).1 /\
   (demo_serve demo_unwilling (demo_after 1)).2.(bk_world) = (demo_after 1).(bk_world)) /\
  (c_Owner <$> (demo_serve demo_patch (demo_after 1)).2.(bk_world).(w_db).(certificates) !! "1"%string) = Some (Some "ops"%string) /\
  adds_nothing (demo_after 1).(bk_world).(w_db) (demo_serve demo_patch (demo_after 1)).2.(bk_world).(w_db).
Proof.
  split; [|split; [exact demo_patched|]].
  - destruct (no_consent_no_effect 5 demo_srv demo_order demo_unwilling (demo_after 1) _ _
      (surjective_pairing (serve 5 demo_srv demo_order demo_unwilling (demo_after 1)))) as (Hr & Hw & _). exact (conj Hr Hw).
  - destruct (no_consent_no_effect 5 demo_srv demo_order demo_patch (demo_after 1) _ _
      (surjective_pairing (serve 5 demo_srv demo_order demo_patch (demo_after 1)))) as (l & _ & _ & Ha). exact (Ha demo_after_others).
Defined.
End Demo.
