(* ===== verification/Program.v ===== *)
(** * The program as a whole

    What the server does, one activity at a time: requests, the ticks of its
    workers, the steps of its scans.  Any sequence of activities, whatever
    fails and whatever other replicas commit meanwhile, follows every law of
    the store: it keeps the tables well-formed, forgets no history and refines
    the abstract outbox. *)

From S2P Require Import Prelude GoLib Records Db Queue Outbox Dispatcher OutboxSpec CertStore JobStore Worker Issuers ScanQueue ScanRunner Compliance Report Posture Access Ip Sends Revocation LaunchApi LaunchSpec Scanner Json Vault VaultSpec Aap Connections Settings SettingsSpec ScanWorker Inventory CertParse Probe Collectors ResourceApi ResourceSpec Cmd Schema History Store Server.

Open Scope clm_scope.

(** ** Activities *)

Section Activities.
Context `{UuidGen, StoreConfig, UuidParse, OpsPolicy, Controller, Services, RevocationLib, HttpPeer, VaultLib,
  X509Lib, CollectLib, AapLib, AzureLib, SecretsLib, TLSLib, Resolver}.

Inductive Activity :=
| Serving (s : ApiServer) (order : list (string * string)) (i : Incoming) (audit : AuditTable) (vault : ClientState)
| WorkerTick (cfg : WorkerConfig)
| DispatcherTick (cfg : Dispatcher.Config)
| ScanTick (wk : ScanWorker) (stop : option nat) (r : Running)
| ScanBeat (wk : ScanWorker) (scan : Scan)
| ScanExecute (cfg : ScanWorkerConfig) (wk : ScanWorker) (scan : Scan) (cs : list choice) (cancelled : bool)
    (client : ClientConfig) (s : option ClientState)
| Idle (d : duration)
| CommandScan (fl : ScanFlags) (processed : result string Config) (connected : bool) (cs : list choice).

(** What the command takes from the configuration. *)
Definition allow_private (processed : result string Config) : option bool :=
  match Load processed with Ok cfg => Some cfg.(AllowPrivateRanges) | Err _ => None end.

Definition void {A} (m : M A) : M unit := mbind m (fun _ => mret tt).

Context (fuel : nat).
Definition perform (a : Activity) : M unit :=
  match a with
  | Serving s order i audit vault => fun w => (tt, (serve fuel s order i (Build_Backend w audit vault)).2.(bk_world))
  | WorkerTick cfg => Worker.tick cfg
  | DispatcherTick cfg => void (RunOnce cfg)
  | ScanTick wk stop r => void (ScanWorker.tick wk stop r)
  | ScanBeat wk scan => void (heartbeat wk scan)
  | ScanExecute cfg wk scan cs cancelled client s => fun w =>
      match execute (PKIReader0 := client_reader client) cfg wk scan cs cancelled s w with
      | Some (_, w') => (tt, w')
      | None => (tt, w)
      end
  | Idle d => pause d
  | CommandScan fl processed connected cs => fun w =>
      match clm_scan fl (allow_private processed) connected cs w with
      | Some (_, w') => (tt, w')
      | None => (tt, w)
      end
  end.


(** ** Every activity follows every law of the store *)

Section Lawful.
Context {P : DB -> DB -> Prop} `{!Law P}.
#[local] Abbreviation lawful m := (moves (evolves P) m).

#[local] Hint Unfold GetCertificateCounted ListCertificatesCounted CreateScan open_migrate writeError writeJSON
  writeServerError writeLookupError with_uuid launchRenewal answer refuse server_refused lookup_refused answer_no_content
  with_param or_refuse void quietly : lawful_ops.

(** What only reads changes nothing of its own. *)
Lemma lawful_read {A} (m : M A) : moves only_others m -> lawful m.
Proof. by intros Hm w a w' ?%Hm%(only_others_evolves P). Qed.

(** From a run of [m] to [m]. *)
Ltac lawful_world :=
  lazymatch goal with
  | |- ?m ?w = (_, ?w') -> evolves ?P ?w ?w' =>
      let E := fresh in intros E; revert E; generalize w'; apply (fun (Hm : moves (evolves P) m) => Hm w)
  end.
Lemma lawful_pause d : lawful (pause d).
Proof. intros w a w' [= <- <-]. split_and!; simpl; [lia|done|by intros]. Qed.
Lemma lawful_client_do url method der : lawful (client_do url method der).
Proof.
  intros w r w'. unfold client_do. destruct (next_env w) as [e w1] eqn:He. intros E.
  eapply wr_trans; [by eapply evolves_next_env; [exact _|]|]. destruct (dial _); [|by injection E as <- <-].
  revert E. by apply moves_net_call; exact _.
Qed.
#[local] Hint Resolve lawful_pause lawful_client_do : lawful.

Lemma types_get_certificate id : types (get_certificate_tx id).
Proof. unfold get_certificate_tx. auto with types. Qed.
Lemma grows_get_certificate id : grows (get_certificate_tx id).
Proof. unfold get_certificate_tx. auto with grows. Qed.
#[local] Hint Resolve types_get_certificate : types.
#[local] Hint Resolve grows_get_certificate : grows.

(** *** Requests *)

Lemma lawful_first_crl crls : lawful (first_crl crls).
Proof. induction crls; cbn [first_crl]; unfold fetchCRL; lawful_tac. Qed.
Lemma lawful_first_ocsp leaf issuer req servers : lawful (first_ocsp leaf issuer req servers).
Proof. induction servers; cbn [first_ocsp]; unfold postOCSP; lawful_tac. Qed.
#[local] Hint Resolve lawful_first_crl lawful_first_ocsp : lawful.
Lemma lawful_Check i : lawful (Check_ i).
Proof. unfold Check_, CheckOCSP, CheckCRL. lawful_tac. Qed.
#[local] Hint Resolve lawful_Check : lawful.

Lemma lawful_enqueue cfg certs limit n next : lawful (enqueue_eligible cfg certs limit n next).
Proof. revert n. induction certs as [|[c o] certs IH]; intros n; cbn [enqueue_eligible]; lawful_tac. Qed.
Lemma lawful_renew_batch certs : lawful (renew_batch certs).
Proof. induction certs; cbn [renew_batch]; unfold renew_one; lawful_tac. Qed.
Lemma lawful_migrate_launch cfg id c b : lawful (migrate_launch cfg id c b).
Proof. unfold migrate_launch. lawful_tac. Qed.
#[local] Hint Resolve lawful_enqueue lawful_renew_batch lawful_migrate_launch : lawful.

Lemma lawful_handle cfg q : lawful (handle cfg q).
Proof.
  destruct q; unfold handle, handleCreateScan, handleRenewCertificate, handleMigrateCertificate, handleMigrateEligible,
    handleClaimLifecycleJob, handleRevokeCertificate, handleRenewExpiring, handleRevocationCheck, handleCatalogImport,
    handleImportIssuer; lawful_tac.
Qed.
#[local] Hint Resolve lawful_handle : lawful.

(** *** Posture and deletions *)

Lemma lawful_RecomputeCert id : lawful (RecomputeCert id).
Proof. unfold RecomputeCert, to_upsert, CurrentOpsPolicyVersionID. lawful_tac. Qed.
#[local] Hint Resolve lawful_RecomputeCert : lawful.
Lemma lawful_recompute_all certs : lawful (recompute_all certs).
Proof. induction certs; cbn [recompute_all]; lawful_tac. Qed.
Lemma lawful_load_pages n scanID offset all : lawful (load_pages n scanID offset all).
Proof. revert offset all. induction n; intros; cbn [load_pages]; unfold list_certificates, pg_cert_lister; lawful_tac. Qed.
Lemma lawful_load_all scanID : lawful (loadAllCertificates scanID).
Proof. intros w. apply lawful_load_pages. Qed.
#[local] Hint Resolve lawful_recompute_all lawful_load_all : lawful.

#[local] Hint Unfold handleDeleteScan handleDeleteCertificate handleDeleteIssuer handlePatchCertificate handleCreateCertWaiver
  handleRevokeWaiver : lawful_ops.

(** *** Vault *)

Lemma lawful_Reconcile client s : lawful (Reconcile (PKIReader0 := client_reader client) s).
Proof.
  apply moves_Reconcile; [exact _|..|lawful_tac].
  - apply (moves_ListPKIMounts client _ (fun _ => True)); intros; try done; lawful_tac.
  - apply (moves_ListCertSerials client _ (fun _ => True)); intros; try done; lawful_tac.
  - intros. lawful_tac.
  - apply (moves_ReadCert client _ (fun _ => True)); intros; try done; lawful_tac.
Qed.
#[local] Hint Resolve lawful_Reconcile : lawful.

(** *** Collectors *)

Lemma lawful_ingest scanID source now items n : lawful (ingest scanID source now items n).
Proof. revert n. induction items; intros n; cbn [ingest]; lawful_tac. Qed.
#[local] Hint Resolve lawful_ingest : lawful.
Lemma lawful_fetch_items src names : (forall name, lawful (src.(src_GetPublicPEM) name)) -> lawful (fetch_items src names).
Proof. intros Hs. induction names; cbn [fetch_items]; lawful_tac. Qed.

#[local] Hint Unfold IngestPublicPEMs scan_after collected_reply finish_collect etry Aap.get Aap.post do_ send azure_call getJSON
  resolveAzureToken akv_List akv_GetPublicPEM : lawful_ops.

Lemma lawful_cloud_Collect scanID source uri token : lawful (cloud_Collect scanID source (VaultSource uri token)).
Proof.
  unfold cloud_Collect. cbn [VaultSource src_List]. lawful_tac. apply lawful_fetch_items. intros name.
  cbn [VaultSource src_GetPublicPEM]. lawful_tac.
Qed.
#[local] Hint Resolve lawful_cloud_Collect : lawful.

Lemma lawful_handleCollectScan body : lawful (handleCollectScan body).
Proof. unfold handleCollectScan. lawful_tac. Qed.
Lemma lawful_handleCollectAKV cfg body : lawful (handleCollectAKV cfg body).
Proof. unfold handleCollectAKV. lawful_tac. Qed.
Lemma lawful_wait_loop n deadline interval client res failures last : lawful (wait_loop client n deadline interval res failures last).
Proof. revert failures last. induction n; intros; cbn [wait_loop]; unfold JobStatus; lawful_tac. Qed.
#[local] Hint Resolve lawful_wait_loop : lawful.
Lemma lawful_handleCollectADCS deadline client template body : lawful (handleCollectADCS fuel deadline client template body).
Proof.
  unfold handleCollectADCS, adcs_Collect, failed_collect, FindJobTemplate, findTemplate, LaunchJobTemplate, Aap.launch, WaitForJob, JobStdout.
  lawful_tac.
Qed.
#[local] Hint Resolve lawful_handleCollectScan lawful_handleCollectAKV lawful_handleCollectADCS : lawful.

(** *** Settings *)

#[local] Hint Unfold getConnection UpsertConnection GetConnections resolveConnections writeConnectionsView connectionByTarget
  requireSettingsAccess requireSettingsWrite serror sreply : lawful_ops.

Lemma lawful_upsertTarget key t existing replace actor k : lawful k -> lawful (upsertTarget key t existing replace actor k).
Proof. intros Hk. unfold upsertTarget. lawful_tac. Qed.
#[local] Hint Resolve lawful_upsertTarget : lawful.
Lemma lawful_patch_target {A} key (t : option A) write existing actor k :
  lawful k -> lawful (patch_target key t write existing actor k).
Proof. intros Hk. unfold patch_target. lawful_tac. Qed.
#[local] Hint Resolve lawful_patch_target : lawful.
Lemma lawful_writeConnectionsView env key : lawful (writeConnectionsView env key).
Proof. lawful_tac. Qed.
#[local] Hint Resolve lawful_writeConnectionsView : lawful.
Lemma lawful_handlePutConnections server env key r body : lawful (handlePutConnections server env key r body).
Proof. unfold handlePutConnections. lawful_tac. Qed.
Lemma lawful_handlePatchConnections server env key r body : lawful (handlePatchConnections server env key r body).
Proof. unfold handlePatchConnections. lawful_tac. Qed.
Lemma lawful_ListMounts client st : lawful (ListMounts client st).
Proof. apply (moves_ListMounts client _ (fun _ => True)); intros; try done; lawful_tac. Qed.
Lemma lawful_ListPKIMounts client st : lawful (ListPKIMounts client st).
Proof. apply (moves_ListPKIMounts client _ (fun _ => True)); intros; try done; lawful_tac. Qed.
Lemma lawful_list_pages client n path out : lawful (list_pages client n path out).
Proof. revert path out. induction n; intros; cbn [list_pages]; lawful_tac. Qed.
#[local] Hint Resolve lawful_ListMounts lawful_ListPKIMounts lawful_list_pages : lawful.
#[local] Hint Unfold test_reply testVault testAAP testEDA Me Dispatcher.Ping postWebhook FindWorkflowJobTemplate FindJobTemplate findTemplate
  ListWorkflowJobTemplates ListJobTemplates listTemplates : lawful_ops.
Lemma lawful_handleTestConnections server env key r body id : lawful (handleTestConnections server env key r body id).
Proof. unfold handleTestConnections. lawful_tac. Qed.
Lemma lawful_handleOptionsVaultPKIMounts server env key r : lawful (handleOptionsVaultPKIMounts server env key r).
Proof. unfold handleOptionsVaultPKIMounts, requireSettingsRead. lawful_tac. Qed.
Lemma lawful_handleOptionsAAPTemplates server env key r kind : lawful (handleOptionsAAPTemplates server env key fuel r kind).
Proof.
  intros w x w'. unfold handleOptionsAAPTemplates. cbv zeta.
  lawful_world. lawful_tac.
Qed.
#[local] Hint Resolve lawful_handlePutConnections lawful_handlePatchConnections lawful_handleTestConnections
  lawful_handleOptionsVaultPKIMounts lawful_handleOptionsAAPTemplates : lawful.

(** *** Serving *)

Lemma lawful_finish {A} s r (m : M A) write audit b out b' :
  lawful m -> finish s r m write audit b = (out, b') -> evolves P b.(bk_world) b'.(bk_world).
Proof. intros Hm ->%finish_world. destruct (m _) as [a w] eqn:E. by eapply Hm. Qed.

Lemma lawful_respond s c r b out b' : respond fuel s c r b = (out, b') -> evolves P b.(bk_world) b'.(bk_world).
Proof.
  destruct c; cbn [respond]; try (apply lawful_finish; unfold handleGetConnections, requireSettingsRead; lawful_tac).
  - destruct (read_handler _ _ _) as [m|] eqn:Em; [|by intros [= _ <-]]. apply lawful_finish, lawful_read.
    intros w a w' E. apply read_handler_reader in Em. by destruct (Em w a w' E).
  - destruct (as_reconciler s) as [client|]; [|apply lawful_finish; lawful_tac].
    destruct (handleReconcile _ _ _) as [[a st] w] eqn:E. intros [= _ <-]. rewrite audited_world. simpl.
    revert E. unfold handleReconcile. lawful_world. lawful_tac.
Qed.
Lemma lawful_serve s order i b out b' : serve fuel s order i b = (out, b') -> evolves P b.(bk_world) b'.(bk_world).
Proof.
  unfold serve. destruct (String.eqb _ _); [apply lawful_finish, lawful_read|].
  { intros w a w' E. pose proof (read_handler_reader "handleHealth" "" (fun _ => ""%string) handleHealth eq_refl) as Hm.
    by destruct (Hm w a w' E). }
  destruct (route_of _) as [rt|]; [|by intros [= _ <-]]. destruct (rt_id rt && _); [by intros [= _ <-]|].
  intros [->|[r' E]]%guarded_runs; [done|]. by eapply lawful_respond.
Qed.

(** *** The workers *)

Lemma lawful_enterPendingVerify job : lawful (enterPendingVerify job).
Proof. unfold enterPendingVerify. cbn [js_ScheduleNextVerify pg_job_store]. lawful_tac. Qed.
#[local] Hint Resolve lawful_enterPendingVerify : lawful.
#[local] Hint Unfold fail_with js_ClaimLifecycleJobs js_ClaimDueVerifyJobs js_GetCertificate js_ListCertificates
  js_SetLifecycleAAPRef js_UpdateLifecycleStatus js_ScheduleNextVerify js_ExpireTimedOutVerifyJobs
  js_AppendLifecycleJobEvent js_AppendRenewalOutboxEvent pg_job_store observeSuccessor
  postWebhook : lawful_ops.
Lemma lawful_verifyPending job now : lawful (verifyPending job now).
Proof. unfold verifyPending. lawful_tac. Qed.
#[local] Hint Resolve lawful_verifyPending : lawful.
Lemma lawful_process cfg job : lawful (process cfg job).
Proof. unfold process, Worker.launch, pollAAP. lawful_tac. Qed.
#[local] Hint Resolve lawful_process : lawful.
Lemma lawful_tick cfg : lawful (Worker.tick cfg).
Proof. unfold Worker.tick, expireTimedOut, tick_jobs. lawful_tac. Qed.

#[local] Hint Resolve lawful_tick : lawful.

(** *** Scans *)

Lemma lawful_start_scans wk scans stop r : lawful (start_scans wk scans stop r).
Proof. revert stop r. induction scans; intros; cbn [start_scans]; lawful_tac. Qed.
#[local] Hint Resolve lawful_start_scans : lawful.
#[local] Hint Unfold ScanWorker.tick heartbeat quietly maybeRecomputePostureAfterScan maybeReconcileAfterScan RecomputeScan
  loadScanCerts failScan : lawful_ops.

Lemma lawful_step_pc job targets i t p st : lawful (step_pc job targets i t p st).
Proof. destruct p; unfold step_pc; lawful_tac. Qed.
Lemma lawful_run_pool job n cs s w s' w' : run_pool job n cs s w = Some (s', w') -> evolves P w w'.
Proof.
  revert s w. induction cs as [|c cs IH]; intros s w; simpl; [by intros [= <- <-]|].
  destruct (pool_step _ _ _ _ _) as [[s1 w1]|] eqn:E; [|done]. intros Hr%IH. etransitivity; [|exact Hr]. clear Hr.
  destruct c as [|i]; simpl in E; repeat case_match; simplify_eq; [done|]. by eapply lawful_step_pc.
Qed.
Lemma lawful_Run job expansion cs w r w' : Run job expansion cs w = Some (r, w') -> evolves P w w'.
Proof.
  assert (forall {A} (m : M A) w x, lawful m -> x = (m w).2 -> evolves P w x) as Hsnd
    by (intros A m w0 x Hm ->; destruct (m w0) eqn:E; by eapply Hm).
  unfold Run. destruct expansion as [[ts warnings]|e]; [|intros [= <- <-]; by eapply Hsnd; [|reflexivity]; lawful_tac].
  destruct (UpdateScanRunning _ _ w) as [u w1] eqn:Eu. intros Hr.
  eapply wr_trans; [by eapply lawful_UpdateScanRunning|]. destruct u as [u|e].
  - destruct (run_pool _ _ _ _ _) as [[s w2]|] eqn:Ep; [|done]. destruct (finished s); [|done]. injection Hr as <- <-.
    eapply wr_trans; [by eapply lawful_run_pool|]. by eapply Hsnd; [|reflexivity]; lawful_tac.
  - injection Hr as <- <-. by eapply Hsnd; [|reflexivity]; lawful_tac.
Qed.
Lemma lawful_execute client cfg wk scan cs cancelled s w s' w' :
  execute (PKIReader0 := client_reader client) cfg wk scan cs cancelled s w = Some (s', w') -> evolves P w w'.
Proof.
  unfold execute. destruct (Run _ _ _ _) as [[err w1]|] eqn:E; [|done]. intros [= Ht].
  eapply wr_trans; [by eapply lawful_Run|]. revert Ht.
  destruct cancelled; [|destruct err; [|by intros [= <- <-]]];
    lazymatch goal with |- ?m w1 = _ -> _ => enough (lawful m) as Hm by (intros Ht; exact (Hm _ _ _ Ht)) end; lawful_tac.
Qed.
Lemma lawful_clm_scan fl loaded connected cs w r w' :
  clm_scan fl loaded connected cs w = Some (r, w') -> evolves P w w'.
Proof.
  unfold clm_scan. destruct (negb _); [by intros [= _ <-]|]. destruct (_ && _); [by intros [= _ <-]|].
  destruct loaded as [priv|]; [|by intros [= _ <-]]. destruct (negb _); [by intros [= _ <-]|].
  destruct (ParsePorts _) as [portList|]; [|by intros [= _ <-]].
  destruct (CreateScan _ _ _ _ _ w) as [created w1] eqn:Ec. intros Hr.
  eapply wr_trans; [by eapply lawful_CreateScanWithSource|]. destruct created as [scan|e]; [|by injection Hr as _ <-].
  destruct (Run _ _ _ _) as [[[u|e] w2]|] eqn:Er; [..|done].
  - eapply wr_trans; [by eapply lawful_Run|]. destruct (GetScan _ w2) as [completed w3] eqn:Eg.
    injection Hr as _ <-. by eapply lawful_GetScan.
  - injection Hr as _ <-. by eapply lawful_Run.
Qed.

Definition dispatcher_tick (a : Activity) : bool := match a with DispatcherTick _ => true | _ => false end.
Lemma lawful_perform a : dispatcher_tick a = false -> lawful (perform a).
Proof.
  destruct a; unfold perform; intros Ha; try solve [lawful_tac|discriminate Ha].
  - intros w [] w' [= <-]. destruct (serve _ _ _ _ _) as [out b'] eqn:E. by apply lawful_serve in E.
  - intros w [] w'. destruct (execute _ _ _ _ _ _ _) as [[s' w1]|] eqn:E; intros [= <-]; [by eapply lawful_execute|reflexivity].
  - intros w [] w'. destruct (clm_scan _ _ _ _ _) as [[r w1]|] eqn:E; intros [= <-]; [by eapply lawful_clm_scan|reflexivity].
Qed.
End Lawful.

(** The dispatcher follows the laws that allow for it. *)
Section Dispatchers.
Context {P : DB -> DB -> Prop} `{!DispatchLaw P}.
#[local] Abbreviation lawful m := (moves (evolves P) m).
#[local] Hint Unfold es_ClaimUndeliveredEvents es_MarkEventDelivered es_MarkEventFailed pg_event_store
  deliver postWebhook Sink_Deliver dispatch_one RunOnce void : lawful_ops.

Lemma lawful_dispatch_all cfg l d f : lawful (dispatch_all cfg l d f).
Proof. revert d f. induction l; intros; cbn [dispatch_all]; lawful_tac. Qed.
#[local] Hint Resolve lawful_dispatch_all : lawful.
Lemma lawful_activity a : lawful (perform a).
Proof. destruct (dispatcher_tick a) eqn:Ea; [|by apply lawful_perform]. destruct a; try discriminate. unfold perform. lawful_tac. Qed.
End Dispatchers.

Lemma program_lawful P `{!DispatchLaw P} acts w w' :
  mfor acts perform w = (tt, w') -> others_ok P w -> P w.(w_db) w'.(w_db) /\ others_ok P w'.
Proof.
  intros E Ho. assert (evolves P w w') as (_ & _ & He); [|by destruct (He Ho)].
  revert E. apply moves_for; [exact _|]. intros. apply lawful_activity.
Qed.

(** C16. The tables stay well-formed.  Whatever the server does, in any order and
    for any number of requests, ticks and scans, whatever calls fail before or
    after their effect and whatever the other replicas commit in between, as
    long as they too keep them so: primary keys agree with their rows,
    fingerprints and idempotency keys are unique, and no job, event,
    observation, finding, waiver, approval or history entry refers to a row
    that is gone, deletions included. *)
Theorem program_keeps_schema acts w w' :
  mfor acts perform w = (tt, w') -> others_ok schema_kept w -> schema_ok w.(w_db) ->
  schema_ok w'.(w_db) /\ others_ok schema_kept w'.
Proof. intros E Ho Hok. destruct (program_lawful schema_kept acts w w' E Ho) as [Hk ?]. split; [by apply Hk|done]. Qed.

(** C17. Nothing is forgotten.  Whatever the server does, whatever fails and
    whatever the other replicas commit in between, as long as they forget
    nothing either: every lifecycle job is still there under its id, with its
    kind, idempotency key, deadline and time of creation; the timeline and the
    approvals only get longer; every event is still there with its type,
    payload and time, and a delivered event stays delivered.  Deleting a
    certificate, an issuer or a scan is no exception. *)
Theorem history_only_grows acts w w' :
  mfor acts perform w = (tt, w') -> others_ok history_grows w -> history_grows w.(w_db) w'.(w_db).
Proof. intros E Ho. by destruct (program_lawful history_grows acts w w' E Ho). Qed.
(** ** The outbox *)

#[local] Hint Unfold void : lawful_ops.
Lemma program_outbox acts cap elsewhere w w' :
  mfor acts perform w = (tt, w') -> (forall cfg, DispatcherTick cfg ∈ acts -> cap_of cfg <= cap) ->
  let T := Build_Terms cap w'.(w_clock) in
  let ticked cfg := DispatcherTick cfg ∈ acts in
  others_ok (outbox_steps (T elsewhere)) w ->
  outbox_steps (T (vouched elsewhere ticked w.(w_sent) w'.(w_sent))) w.(w_db) w'.(w_db).
Proof.
  intros E Hcap T ticked Ho. assert (mails cap w'.(w_clock) elsewhere ticked w w') as (_ & _ & Hm); [|by apply Hm].
  revert E. apply moves_for; [exact _|]. intros a Ha. destruct (dispatcher_tick a) eqn:Ea.
  - destruct a; try discriminate. unfold perform, void. apply moves_bind; [exact _|by apply moves_mails_RunOnce; auto|].
    intros x. apply moves_ret. exact _.
  - intros v u v' Ev. exact (evolves_mails _ _ _ _ _ _ (lawful_perform a Ea v u v' Ev)).
Qed.

(** C2. The outbox refines its specification.  Whatever the server does, whatever
    fails and whatever the other replicas do with the outbox under the same
    terms: the events of the database go through steps of letters only.  A
    letter is posted waiting; it is held by a dispatcher while it has failed
    fewer times than the cap, and taken over from another only when its lease
    has run out; it is refused, or sent, and sent only if it was accepted by
    every sink of one of the server's dispatchers, or elsewhere. *)
Theorem outbox_refines acts cap elsewhere w w' :
  mfor acts perform w = (tt, w') -> (forall cfg, DispatcherTick cfg ∈ acts -> cap_of cfg <= cap) ->
  others_ok (outbox_steps (Build_Terms cap w'.(w_clock) elsewhere)) w ->
  outbox_steps (Build_Terms cap w'.(w_clock) (fun k => elsewhere k \/
    exists cfg, DispatcherTick cfg ∈ acts /\ sinks_accepted cfg k w.(w_sent) w'.(w_sent))) w.(w_db) w'.(w_db).
Proof. apply program_outbox. Qed.

(** C18. What the outbox promises.  Under the same conditions, an event of the
    outbox is still there at the end, announces the same and has failed no
    fewer times; if it is delivered it stays so, and it was delivered only if
    the sinks accepted it; once its failures have reached the cap no
    dispatcher holds it again; and a lease that has not run out is not taken
    over: the event is still held by its owner until the same time, or its
    owner has given it back, one failure later or delivered. *)
Theorem outbox_promises acts cap elsewhere w w' k e :
  mfor acts perform w = (tt, w') -> (forall cfg, DispatcherTick cfg ∈ acts -> cap_of cfg <= cap) ->
  others_ok (outbox_steps (Build_Terms cap w'.(w_clock) elsewhere)) w ->
  w.(w_db).(events) !! k = Some e ->
  exists e', w'.(w_db).(events) !! k = Some e' /\
    promised (Build_Terms cap w'.(w_clock) (fun k => elsewhere k \/
      exists cfg, DispatcherTick cfg ∈ acts /\ sinks_accepted cfg k w.(w_sent) w'.(w_sent))) k e e'.
Proof.
  intros E Hcap Ho He. pose proof (program_outbox acts cap elsewhere w w' E Hcap Ho k) as Hs. unfold mail_at in Hs. rewrite He in Hs.
  by apply mail_promised in Hs.
Qed.
End Activities.

(** ** Witness *)

Section Demo.
Import Demonstration.
#[local] Existing Instance Probe.demo_tls.
#[local] Existing Instance Scanner.demo_resolver.

Definition demo_start : World := demo_backend.(bk_world).
Definition demo_serving (token : string) (c : Call) : Activity :=
  Serving demo_srv demo_order (demo_http token c) (Build_AuditTable [] []) new_state.
(** A certificate is collected and its renewal launched; the worker polls it
    and waits to verify; the certificate is deleted. *)
Definition demo_day : list Activity := [
  demo_serving "o" (CallCollect (Some (true, "cloud_acm", [Build_Item "good" ""])));
  demo_serving "r" (CallLaunch (ReqRenew "1" (Some (demo_body true))));
  WorkerTick (NewWorker (Build_WorkerConfig "a" 0 0 true));
  DispatcherTick (New Dispatcher.demo_config);
  demo_serving "p" (CallDeleteCertificate "1");
  demo_serving "v" (CallRead "handleListEvents" "" (fun _ => ""))]%string.
Definition demo_day_end : DB := (mfor demo_day (perform 5) demo_start).2.(w_db).

Lemma program_keeps_schema_witness :
  size demo_day_end.(lifecycle_jobs) = 1%nat /\ size demo_day_end.(events) = 3%nat /\
  demo_day_end.(certificates) = ∅ /\ schema_ok demo_day_end.
Proof.
  split_and!; [vm_compute; reflexivity..|].
  destruct (mfor demo_day (perform 5) demo_start) as [[] w'] eqn:E. unfold demo_day_end. rewrite E.
  apply (program_keeps_schema 5 demo_day demo_start w' E); [constructor|exact schema_empty].
Defined.

(** The certificate's deletion, and what follows, after its renewal. *)
Definition demo_noon : World := (mfor (firstn 4 demo_day) (perform 5) demo_start).2.
Definition demo_evening : World := (mfor (skipn 4 demo_day) (perform 5) demo_noon).2.

Lemma history_only_grows_witness :
  size demo_noon.(w_db).(lifecycle_jobs) = 1%nat /\ size demo_noon.(w_db).(certificates) = 1%nat /\
  size demo_evening.(w_db).(certificates) = 0%nat /\ history_grows demo_noon.(w_db) demo_evening.(w_db).
Proof.
  split_and!; [vm_compute; reflexivity..|].
  destruct (mfor (skipn 4 demo_day) (perform 5) demo_noon) as [[] w'] eqn:E. unfold demo_evening. rewrite E.
  apply (history_only_grows 5 (skipn 4 demo_day) demo_noon w' E). vm_compute. constructor.
Defined.

(** The dispatcher delivers what the launch announced. *)
Definition demo_morning : World := (mfor (firstn 3 demo_day) (perform 5) demo_start).2.
Definition demo_cycle : list Activity := [DispatcherTick (New Dispatcher.demo_config)].
Lemma demo_cycle_runs : mfor demo_cycle (perform 5) demo_morning = (tt, demo_noon).
Proof. vm_compute. reflexivity. Qed.
Lemma demo_caps acts : Forall (fun a => match a with DispatcherTick cfg => cap_of cfg <= 10 | _ => True end) acts ->
  forall cfg, DispatcherTick cfg ∈ acts -> cap_of cfg <= 10.
Proof. intros Hf cfg Hc. rewrite Forall_forall in Hf. exact (Hf _ Hc). Qed.

Lemma outbox_refines_witness :
  snd <$> mail_at demo_morning.(w_db) "5" = Some (Waiting 0) /\ snd <$> mail_at demo_noon.(w_db) "5" = Some (Sent 0) /\
  outbox_steps (Build_Terms 10 0 (fun k => False \/ exists cfg, DispatcherTick cfg ∈ demo_cycle /\
    sinks_accepted cfg k demo_morning.(w_sent) demo_noon.(w_sent))) demo_morning.(w_db) demo_noon.(w_db).
Proof.
  split_and!; [vm_compute; reflexivity..|].
  apply (outbox_refines 5 demo_cycle 10 (fun _ => False) demo_morning demo_noon demo_cycle_runs).
  - apply demo_caps. repeat constructor. vm_compute. discriminate.
  - vm_compute. constructor.
Defined.

Lemma outbox_promises_witness :
  exists e e', demo_morning.(w_db).(events) !! "5" = Some e /\ e.(e_DeliveredAt) = None /\
    demo_noon.(w_db).(events) !! "5" = Some e' /\ e'.(e_DeliveredAt) = Some 0 /\
    promised (Build_Terms 10 0 (fun k => False \/ exists cfg, DispatcherTick cfg ∈ demo_cycle /\
      sinks_accepted cfg k demo_morning.(w_sent) demo_noon.(w_sent))) "5" e e'.
Proof.
  destruct (events (w_db demo_morning) !! "5"%string) as [e|] eqn:E; [|vm_compute in E; discriminate].
  destruct (outbox_promises 5 demo_cycle 10 (fun _ => False) demo_morning demo_noon "5" e demo_cycle_runs) as (e' & E' & Hp).
  - apply demo_caps. repeat constructor. vm_compute. discriminate.
  - vm_compute. constructor.
  - exact E.
  - exists e, e'. split_and!; [reflexivity| |exact E'| |exact Hp]; [vm_compute in E; by injection E as <-|vm_compute in E'; by injection E' as <-].
Defined.
End Demo.
