(* ===== verification/Main.v ===== *)
(** * The server process (cmd/clm-discovery/main.go)

    What [main] starts, how its goroutines interleave, and how it stops: the
    loops of the dispatcher, the scan worker and the lifecycle worker, and
    the HTTP server, from the configuration to the exit status. *)

From S2P Require Import Prelude GoLib Records Db Queue Outbox Dispatcher CertStore JobStore Worker ScanQueue ScanRunner Posture Access Ip Revocation LaunchApi LaunchSpec Scanner Json Vault VaultSpec Aap Connections Settings ScanWorker Inventory CertParse Probe Collectors ResourceApi Cmd Schema History Store Server Program.

Open Scope clm_scope.

(** ** What main starts *)

(** [eventbus.New] and [lifecyclejobs.New] as [main] calls them. *)
Definition dispatcher_config (cfg : Config) : Dispatcher.Config :=
  Dispatcher.New (Dispatcher.Build_Config cfg.(EDAWebhookURL) cfg.(EDAWebhookToken) cfg.(EventDispatchInterval)
    cfg.(EventDispatchBatch) cfg.(EventMaxAttempts) "" 0 cfg.(ITSMWebhookURL) cfg.(ITSMWebhookHMACSecret)).
(** [newLifecycleWorkerDeps] sets both clients or none. *)
Definition lifecycle_config (s : ApiServer) : WorkerConfig := NewWorker (Build_WorkerConfig "" 0 0 (is_set s.(as_aapClient))).

(** Where [main] is: serving, waiting for the loops after a signal, waiting
    for the HTTP server until [deadline], or gone with a status. *)
Inductive Phase := Running_ | Draining | Closing (deadline : time) | Exited (status : Z).

(** The process: whether the dispatcher's and the lifecycle worker's loops
    run; the scans in flight as long as the scan worker's loop runs; the
    requests accepted whose handlers have not run, those whose handlers are
    still polling or paging, and those answered, with the answers. *)
Record Process := Build_Process {
  pr_backend : Backend;
  pr_dispatcher : bool;
  pr_lifecycle : bool;
  pr_scans : option (list Scan);
  pr_inflight : list Incoming;
  pr_waiting : list Incoming;
  pr_answered : list (Incoming * Output);
  pr_phase : Phase
}.
#[export] Instance Process_eta : Eta Process := fun x =>
  Build_Process (x.(pr_backend)) (x.(pr_dispatcher)) (x.(pr_lifecycle)) (x.(pr_scans)) (x.(pr_inflight)) (x.(pr_waiting)) (x.(pr_answered)) (x.(pr_phase)).

(** What happens next: [k] picks one of the requests or scans in flight; [cs]
    is the schedule of a scan's goroutines; [Passes] lets time pass. *)
Inductive Happening :=
| Accept (i : Incoming)
| Answer (k : nat)
| DispatcherCycle
| LifecycleTick
| ScansTick (stop : option nat)
| ScanHeartbeat (k : nat)
| ScanEnds (k : nat) (cs : list choice)
| DispatcherReturns
| LifecycleReturns
| ScansReturn
| Signal
| Drained
| Closed
| ListenFails
| Passes (d : duration).

(** [server.Shutdown] waits at most this long. *)
Definition shutdown_timeout : duration := 10 * Second.

Definition remove_at {A} (k : nat) (l : list A) : list A := take k l ++ drop (S k) l.

(** Whether the context of the loops is cancelled; whether the HTTP server accepts. *)
Definition cancelled (p : Phase) : bool := match p with Running_ => false | _ => true end.
Definition accepting (p : Phase) : bool := match p with Running_ | Draining => true | _ => false end.
Definition alive (p : Phase) : bool := match p with Exited _ => false | _ => true end.

Section Main.
Context `{UuidGen, StoreConfig, UuidParse, OpsPolicy, Controller, Services, RevocationLib, HttpPeer, VaultLib,
  X509Lib, CollectLib, AapLib, AzureLib, SecretsLib, TLSLib, Resolver}.
Context (fuel : nat) (order : list (string * string)).

(** [main] until the loops start; [processed] is what the environment gives,
    [pool] whether the database could be configured. *)
Definition start (processed : result string Config) (pool : bool) (generated : string) (b : Backend) :
    option ApiServer * Process :=
  let gone := Build_Process b false false None [] [] [] (Exited 1) in
  match Load processed with
  | Err _ => (None, gone)
  | Ok cfg =>
      if negb pool then (None, gone)
      else
        let s := NewServer cfg generated in
        (Some s, Build_Process b (Dispatcher.Configured (dispatcher_config cfg)) true (Some []) [] [] [] Running_)
  end.

Context (s : ApiServer).
Definition cfg_of : Config := s.(as_cfg).

Definition on_world {A} (m : M A) (b : Backend) : Backend := b <| bk_world := (m b.(bk_world)).2 |>.

(** A handler has run: its answer is written, unless it needs more than
    [fuel] polls of a job or pages of templates.  Then it goes on; what it has
    done so far is done, and nobody has been answered. *)
Definition handled (i : Incoming) (r : Output * Backend) (p : Process) : Process :=
  let p := p <| pr_backend := r.2 |> in
  match r.1 with
  | OutRunning => p <| pr_waiting ::= (fun l => l ++ [i]) |>
  | out => p <| pr_answered ::= (fun l => l ++ [(i, out)]) |>
  end.

(** One step; [None] when it cannot happen.  A loop may tick once more after
    its context is cancelled, since a select takes any ready branch. *)
Definition step (h : Happening) (p : Process) : option Process :=
  let ph := p.(pr_phase) in
  let b := p.(pr_backend) in
  if negb (alive ph) then None
  else match h with
  | Accept i => if accepting ph then Some (p <| pr_inflight ::= (fun l => l ++ [i]) |>) else None
  | Answer k =>
      i ← p.(pr_inflight) !! k;
      Some (handled i (serve fuel s order i b) (p <| pr_inflight ::= remove_at k |>))
  | DispatcherCycle =>
      if p.(pr_dispatcher) then Some (p <| pr_backend := on_world (RunOnce (dispatcher_config cfg_of)) b |>) else None
  | LifecycleTick =>
      if p.(pr_lifecycle) then Some (p <| pr_backend := on_world (Worker.tick (lifecycle_config s)) b |>) else None
  | ScansTick stop =>
      scans ← p.(pr_scans);
      let '(r, w) := ScanWorker.tick s.(as_worker) stop (Build_Running scans (cancelled ph)) b.(bk_world) in
      Some (p <| pr_backend := b <| bk_world := w |> |> <| pr_scans := Some r.(rn_scans) |>)
  | ScanHeartbeat k =>
      scans ← p.(pr_scans);
      scan ← scans !! k;
      Some (p <| pr_backend := on_world (heartbeat s.(as_worker) scan) b |>)
  | ScanEnds k cs =>
      scans ← p.(pr_scans);
      scan ← scans !! k;
      let client := default (vault_config cfg_of) s.(as_reconciler) in
      x ← execute (PKIReader0 := client_reader client) (scan_worker_config cfg_of) s.(as_worker) scan cs (cancelled ph)
            (if s.(as_reconciler) then Some b.(bk_vault) else None) b.(bk_world);
      Some (p <| pr_backend := Build_Backend x.2 b.(bk_audit) (default b.(bk_vault) x.1) |> <| pr_scans := Some (remove_at k scans) |>)
  | DispatcherReturns => if cancelled ph && p.(pr_dispatcher) then Some (p <| pr_dispatcher := false |>) else None
  | LifecycleReturns => if cancelled ph && p.(pr_lifecycle) then Some (p <| pr_lifecycle := false |>) else None
  | ScansReturn =>
      match p.(pr_scans) with Some [] => if cancelled ph then Some (p <| pr_scans := None |>) else None | _ => None end
  | Signal => match ph with Running_ => Some (p <| pr_phase := Draining |>) | _ => None end
  | Drained =>
      match ph, p.(pr_scans) with
      | Draining, None =>
          if p.(pr_dispatcher) || p.(pr_lifecycle) then None
          else Some (p <| pr_phase := Closing (b.(bk_world).(w_clock) + shutdown_timeout) |>)
      | _, _ => None
      end
  | Closed =>
      match ph with
      | Closing deadline =>
          if bool_decide (p.(pr_inflight) ++ p.(pr_waiting) = []) || (deadline <=? b.(bk_world).(w_clock))
          then Some (p <| pr_phase := Exited 0 |>) else None
      | _ => None
      end
  | ListenFails => if accepting ph then Some (p <| pr_phase := Exited 1 |>) else None
  | Passes d => Some (p <| pr_backend := on_world (pause d) b |>)
  end.

(** A run under a schedule. *)
Fixpoint run (hs : list Happening) (p : Process) : option Process :=
  match hs with
  | [] => Some p
  | h :: hs' => p' ← step h p; run hs' p'
  end.
End Main.

(** ** A run is a sequence of activities *)

Section Runs.
Context `{UuidGen, StoreConfig, UuidParse, OpsPolicy, Controller, Services, RevocationLib, HttpPeer, VaultLib,
  X509Lib, CollectLib, AapLib, AzureLib, SecretsLib, TLSLib, Resolver}.
Context (fuel : nat) (order : list (string * string)) (s : ApiServer).

Definition world_of (p : Process) : World := p.(pr_backend).(bk_world).

(** What a step does to the world, as an activity of Program.v. *)
Definition activity_of (h : Happening) (p : Process) : list Activity :=
  let b := p.(pr_backend) in
  match h with
  | Answer k => match p.(pr_inflight) !! k with Some i => [Serving s order i b.(bk_audit) b.(bk_vault)] | None => [] end
  | DispatcherCycle => [Program.DispatcherTick (dispatcher_config (cfg_of s))]
  | LifecycleTick => [WorkerTick (lifecycle_config s)]
  | ScansTick stop =>
      match p.(pr_scans) with
      | Some scans => [ScanTick s.(as_worker) stop (Build_Running scans (cancelled p.(pr_phase)))]
      | None => []
      end
  | ScanHeartbeat k => match p.(pr_scans) ≫= (.!! k) with Some scan => [ScanBeat s.(as_worker) scan] | None => [] end
  | ScanEnds k cs =>
      match p.(pr_scans) ≫= (.!! k) with
      | Some scan =>
          [ScanExecute (scan_worker_config (cfg_of s)) s.(as_worker) scan cs (cancelled p.(pr_phase))
             (default (vault_config (cfg_of s)) s.(as_reconciler)) (if s.(as_reconciler) then Some b.(bk_vault) else None)]
      | None => []
      end
  | Passes d => [Idle d]
  | _ => []
  end.

Lemma void_world {A} (m : M A) w : (void m w).2 = (m w).2.
Proof. unfold void, mbind. by destruct (m w). Qed.

Lemma mfor_one {A} (a : A) (m : A -> M unit) w : (mfor [a] m w).2 = (m a w).2.
Proof. cbn [mfor]. unfold mbind. by destruct (m a w). Qed.

Ltac stepped :=
  repeat match goal with
  | E : None = Some _ |- _ => discriminate E
  | E : Some _ = Some _ |- _ => injection E as <-
  | E : (match ?x with _ => _ end) = Some _ |- _ => destruct x eqn:?
  | E : (?o ≫= _) = Some _ |- _ => apply bind_Some in E as (? & ? & E)
  end.

Lemma handled_backend i r p : (handled i r p).(pr_backend) = r.2.
Proof. unfold handled. by destruct r.1. Qed.

Lemma step_activities h p p' :
  step fuel order s h p = Some p' -> world_of p' = (mfor (activity_of h p) (perform fuel) (world_of p)).2.
Proof.
  destruct p as [[w audit vault] disp life scans inflight waiting answered ph].
  unfold step, world_of, on_world. cbn -[handled serve perform execute ScanWorker.tick mfor remove_at]. destruct (negb (alive _)); [done|].
  destruct h; cbn [activity_of]; intros E; stepped; try reflexivity; rewrite ?handled_backend; cbn -[serve perform execute ScanWorker.tick mfor remove_at];
    repeat match goal with E : _ = Some _ |- _ => rewrite E; cbn -[serve perform execute ScanWorker.tick mfor remove_at] end;
    rewrite ?mfor_one; cbn [perform]; rewrite ?void_world; try reflexivity.
  - match goal with E : _ = (_, _) |- _ => by rewrite E end.
  - match goal with E : execute _ _ _ _ _ _ _ = Some ?x |- _ => rewrite E; by destruct x end.
Qed.

Lemma mfor_app {A} (l l' : list A) (m : A -> M unit) w : mfor (l ++ l') m w = mfor l' m (mfor l m w).2.
Proof.
  revert w. induction l as [|a l IH]; intros w; [done|]. cbn [mfor app]. unfold mbind. destruct (m a w) as [[] w1]. apply IH.
Qed.
Lemma mfor_unit {A} (l : list A) (m : A -> M unit) w : mfor l m w = (tt, (mfor l m w).2).
Proof. by destruct (mfor l m w) as [[] w']. Qed.

(** Every run of the process is a sequence of the activities of Program.v. *)
Lemma run_activities hs p p' :
  run fuel order s hs p = Some p' -> exists acts, mfor acts (perform fuel) (world_of p) = (tt, world_of p').
Proof.
  revert p. induction hs as [|h hs IH]; intros p; cbn [run]; [intros [= <-]; by exists []|].
  intros (p1 & E%step_activities & (acts & Ha)%IH)%bind_Some. exists (activity_of h p ++ acts).
  by rewrite mfor_app, <- E.
Qed.

(** ** What holds of every process *)

Record process_ok (p : Process) : Prop := {
  (** the scan worker keeps to its slots *)
  ok_slots : forall scans, p.(pr_scans) = Some scans -> Z.of_nat (length scans) <= s.(as_worker).(sw_slots);
  (** a loop ends only after the signal *)
  ok_serving : p.(pr_phase) = Running_ -> p.(pr_lifecycle) = true /\ is_Some p.(pr_scans);
  (** past the wait group nothing runs but requests *)
  ok_drained : (exists d, p.(pr_phase) = Closing d) \/ p.(pr_phase) = Exited 0 ->
    p.(pr_dispatcher) = false /\ p.(pr_lifecycle) = false /\ p.(pr_scans) = None
}.

Lemma length_remove_at {A} k (l : list A) : (length (remove_at k l) <= length l)%nat.
Proof. unfold remove_at. rewrite length_app, length_take, length_drop. lia. Qed.

Lemma step_ok h p p' : process_ok p -> step fuel order s h p = Some p' -> process_ok p'.
Proof.
  destruct p as [[w audit vault] disp life scans inflight waiting answered ph]. intros [Hs Hr Hd]. simpl in *.
  unfold step, on_world. destruct (negb (alive ph)) eqn:Ea; [by simpl; rewrite Ea|].
  cbn -[handled serve perform execute ScanWorker.tick remove_at alive cancelled accepting]. rewrite Ea.
  destruct h; intros E; stepped; (try (unfold handled; destruct (serve _ _ _ _ _).1)); split; cbn -[serve execute remove_at Z.of_nat ScanWorker.tick cancelled accepting];
    try exact Hs; try exact Hr; try exact Hd; try discriminate;
    try (by intros [[? [=]]|[=]]);
    try (intros Hc; destruct (Hd Hc) as (? & ? & ?); by simplify_eq);
    try (intros ->; destruct (Hr eq_refl); by (simplify_eq; eauto)).
  - intros scans' [= <-]. match goal with E : ScanWorker.tick _ _ _ _ = _ |- _ => apply tick_spec in E as (_ & l & El & Hl) end.
    destruct Hl as [->|Hl]; [rewrite El, app_nil_r; simpl; by apply Hs|exact Hl].
  - intros scans' [= <-]. etransitivity; [apply inj_le, length_remove_at|by apply Hs].
  - intros _. match goal with E : _ || _ = false |- _ => apply orb_false_iff in E as [-> ->] end. done.
  - intros _. apply Hd. left. by eexists.
Qed.
Lemma run_ok hs p p' : process_ok p -> run fuel order s hs p = Some p' -> process_ok p'.
Proof.
  revert p. induction hs as [|h hs IH]; intros p Hok; cbn [run]; [by intros [= <-]|].
  intros (p1 & E & Hr)%bind_Some. eapply IH; [by eapply step_ok|exact Hr].
Qed.

(** ** It can always stop, and accounts for its requests *)

Lemma run_app hs hs' p : run fuel order s (hs ++ hs') p = run fuel order s hs p ≫= run fuel order s hs'.
Proof. revert p. induction hs as [|h hs IH]; intros p; cbn [run app]; [done|]. destruct (step _ _ _ _ p); [apply IH|done]. Qed.

Lemma execute_some client cfg wk scan c st w :
  exists cs x, execute (PKIReader0 := client_reader client) cfg wk scan cs c st w = Some x.
Proof.
  destruct (Run_some (Build_Job scan.(s_ID) scan.(s_Concurrency)) (expansion_of cfg scan) w) as (cs & [r w1] & E).
  eexists cs, _. unfold execute. by rewrite E.
Qed.

(** *** Every request is accounted for *)

(** The requests that may wait for a job of AAP, or for its pages. *)
Definition may_wait (i : Incoming) : bool := match i.(in_call) with CallADCS _ _ | CallTemplates _ => true | _ => false end.

Lemma running_of_handler next r b b' :
  guarded (access_server s) order next r b = (OutRunning, b') -> exists r', next r' b = (OutRunning, b').
Proof.
  assert (forall r1, requirePermission (access_server s) next r1 b = (OutRunning, b') -> exists r', next r' b = (OutRunning, b')) as Hp.
  { intros r1. unfold requirePermission. repeat case_match; try done. intros E. by exists r1. }
  unfold guarded, requireAuth. repeat case_match; try apply Hp. done.
Qed.
Lemma serve_running i b b' : serve fuel s order i b = (OutRunning, b') -> may_wait i = true.
Proof.
  assert (forall A r (m : M A) write audit b0 b1, (forall a, write a <> OutRunning) -> finish s r m write audit b0 <> (OutRunning, b1)) as Hf.
  { intros A r m write audit b0 b1 Hw. unfold finish. destruct (m _) as [a w]. intros [= E _]. by apply (Hw a). }
  unfold serve, may_wait. destruct (String.eqb _ "handleHealth"); [by intros E; apply Hf in E|].
  destruct (route_of _) as [rt|]; [|done]. destruct (_ && _); [done|]. intros [r Hr]%running_of_handler. revert Hr.
  destruct (in_call i); simpl; try done; repeat case_match; try done; intros E; by apply Hf in E.
Qed.

Definition accepted_in (hs : list Happening) : list Incoming :=
  omap (fun h => match h with Accept i => Some i | _ => None end) hs.

(** The requests of [l] are those answered, those that wait and those whose
    handlers have not run, each as often as it was accepted. *)
Record accounted (l : list Incoming) (p : Process) : Prop := {
  ac_all : map fst p.(pr_answered) ++ p.(pr_waiting) ++ p.(pr_inflight) ≡ₚ l;
  ac_answered : Forall (fun a => a.2 <> OutRunning) p.(pr_answered);
  ac_waiting : Forall (fun i => may_wait i = true) p.(pr_waiting)
}.
Lemma remove_at_perm {A} k (l : list A) x : l !! k = Some x -> l ≡ₚ x :: remove_at k l.
Proof. intros Hk. unfold remove_at. rewrite <- (take_drop_middle _ _ _ Hk) at 1. by rewrite Permutation_middle. Qed.

Lemma handled_accounted l i k b p :
  accounted l p -> p.(pr_inflight) !! k = Some i ->
  accounted l (handled i (serve fuel s order i b) (p <| pr_inflight ::= remove_at k |>)).
Proof.
  destruct p as [b0 disp life sc inflight waiting answered ph]. intros [Hl Ha Hw] Hk. simpl in *.
  rewrite (remove_at_perm _ _ _ Hk) in Hl. destruct (serve fuel s order i b) as [out b1] eqn:E. unfold handled.
  assert (out = OutRunning \/ out <> OutRunning) as [->|Hout] by (destruct out; auto).
  - split; simpl; [|done|]; [by rewrite <- Hl, <- app_assoc|]. apply Forall_app. split; [done|]. constructor; [by eapply serve_running|done].
  - assert (Forall (fun a => a.2 <> OutRunning) (answered ++ [(i, out)])) by (apply Forall_app; split; [done|by constructor]).
    destruct out; try done; (split; simpl; [|done|done]); rewrite <- Hl, map_app; simpl; by solve_Permutation.
Qed.
Lemma step_accounted l h p p' : accounted l p -> step fuel order s h p = Some p' -> accounted (l ++ accepted_in [h]) p'.
Proof.
  intros Hac. assert (forall q, q.(pr_answered) = p.(pr_answered) -> q.(pr_waiting) = p.(pr_waiting) ->
    q.(pr_inflight) = p.(pr_inflight) -> accounted (l ++ []) q) as Hsame.
  { intros q E1 E2 E3. rewrite app_nil_r. destruct Hac. by split; rewrite ?E1, ?E2, ?E3. }
  unfold step. destruct (negb _); [done|]. destruct h; intros E; stepped; try (by apply Hsame); simpl.
  - destruct Hac as [Hl Ha Hw]. split; simpl; [|done|done]. by rewrite <- Hl, <- !app_assoc.
  - rewrite app_nil_r. by apply handled_accounted.
Qed.
Lemma run_accounted l hs p p' : accounted l p -> run fuel order s hs p = Some p' -> accounted (l ++ accepted_in hs) p'.
Proof.
  revert l p. induction hs as [|h hs IH]; intros l p Hac; cbn [run]; [intros [= <-]; by rewrite app_nil_r|].
  intros (p1 & E & Hr)%bind_Some. change (h :: hs) with ([h] ++ hs). unfold accepted_in. rewrite omap_app, app_assoc.
  eapply IH; [by eapply step_accounted|exact Hr].
Qed.

(** *** It can always stop *)

Definition no_accept (h : Happening) : Prop := match h with Accept _ => False | _ => True end.
(** From [p], without new requests, [p'] can be reached. *)
Definition reaches (p p' : Process) : Prop := exists hs, Forall no_accept hs /\ run fuel order s hs p = Some p'.
#[local] Instance reaches_preorder : PreOrder reaches.
Proof.
  split; [by exists []|]. intros p1 p2 p3 (hs & Hn & Hr) (hs' & Hn' & Hr'). exists (hs ++ hs').
  split; [by apply Forall_app|]. by rewrite run_app, Hr.
Qed.
Lemma reaches_step h p p' : no_accept h -> step fuel order s h p = Some p' -> reaches p p'.
Proof. intros Hn E. exists [h]. split; [by constructor|]. cbn [run]. by rewrite E. Qed.

Lemma scans_end p scans :
  alive p.(pr_phase) = true -> p.(pr_scans) = Some scans ->
  exists b, reaches p (p <| pr_backend := b |> <| pr_scans := Some [] |>).
Proof.
  destruct p as [b disp life sc inflight waiting answered ph]. simpl. intros Ha ->. revert b.
  induction scans as [|scan scans IH]; intros b; [by exists b; exists []|].
  destruct (execute_some (default (vault_config (cfg_of s)) (as_reconciler s)) (scan_worker_config (cfg_of s)) (as_worker s) scan
    (cancelled ph) (if as_reconciler s then Some (bk_vault b) else None) (bk_world b)) as (cs & x & E).
  destruct (IH (Build_Backend x.2 (bk_audit b) (default (bk_vault b) x.1))) as [b' Hb']. exists b'.
  etransitivity; [|exact Hb']. apply (reaches_step (ScanEnds 0 cs)); [done|]. unfold step. simpl. rewrite Ha. simpl. by rewrite E.
Qed.
Lemma requests_handled b disp life sc inflight waiting answered ph :
  alive ph = true ->
  exists b' waiting' answered', reaches (Build_Process b disp life sc inflight waiting answered ph)
                                        (Build_Process b' disp life sc [] waiting' answered' ph).
Proof.
  intros Ha. revert b waiting answered. induction inflight as [|i l IH]; intros b waiting answered; [by eexists _, _, _|].
  set (p := Build_Process b disp life sc l waiting answered ph).
  assert (exists b1 w1 a1, handled i (serve fuel s order i b) p = Build_Process b1 disp life sc l w1 a1 ph) as (b1 & w1 & a1 & E).
  { unfold handled, p. destruct (serve _ _ _ _ _).1; by eexists _, _, _. }
  destruct (IH b1 w1 a1) as (b' & w' & a' & Hr). exists b', w', a'. etransitivity; [|exact Hr].
  apply (reaches_step (Answer 0)); [done|]. rewrite <- E. unfold step. cbn -[handled serve]. by rewrite Ha.
Qed.

Lemma drains b disp life sc inflight waiting answered :
  exists b', reaches (Build_Process b disp life sc inflight waiting answered Draining)
                     (Build_Process b' false false None inflight waiting answered Draining).
Proof.
  destruct sc as [scans|].
  - destruct (scans_end (Build_Process b disp life (Some scans) inflight waiting answered Draining) scans) as [b' Hb']; [done..|].
    exists b'. etransitivity; [exact Hb'|]. cbn.
    etransitivity; [by apply (reaches_step ScansReturn)|]. cbn.
    destruct disp; [etransitivity; [by apply (reaches_step DispatcherReturns)|]; cbn|];
      (destruct life; [by apply (reaches_step LifecycleReturns)|reflexivity]).
  - exists b. destruct disp; [etransitivity; [by apply (reaches_step DispatcherReturns)|]; cbn|];
      (destruct life; [by apply (reaches_step LifecycleReturns)|reflexivity]).
Qed.
(** With handlers that go on, the timeout of the shutdown ends the process. *)
Lemma closes b d inflight waiting answered :
  exists p', reaches (Build_Process b false false None inflight waiting answered (Closing d)) p' /\
    p'.(pr_phase) = Exited 0 /\ p'.(pr_inflight) = [].
Proof.
  destruct (requests_handled b false false None inflight waiting answered (Closing d)) as (b' & w' & a' & Hr); [done|].
  exists (Build_Process (on_world (pause (d - b'.(bk_world).(w_clock))) b') false false None [] w' a' (Exited 0)). split; [|done].
  etransitivity; [exact Hr|]. etransitivity; [by apply (reaches_step (Passes (d - b'.(bk_world).(w_clock))))|].
  apply (reaches_step Closed); [done|]. unfold step. cbn. rewrite (proj2 (Z.leb_le d _)) by lia. by rewrite orb_true_r.
Qed.
Lemma can_stop p :
  process_ok p -> alive p.(pr_phase) = true ->
  exists p', reaches p p' /\ p'.(pr_phase) = Exited 0 /\ p'.(pr_inflight) = [].
Proof.
  destruct p as [b disp life sc inflight waiting answered ph]. intros [_ _ Hd] Ha. simpl in *.
  assert (forall b, exists p', reaches (Build_Process b disp life sc inflight waiting answered Draining) p' /\
    pr_phase p' = Exited 0 /\ pr_inflight p' = []) as Hdrain.
  { intros b0. destruct (drains b0 disp life sc inflight waiting answered) as [b1 Hb1].
    destruct (closes b1 (w_clock (bk_world b1) + shutdown_timeout) inflight waiting answered) as (p' & Hp' & ?).
    exists p'. split; [|done]. etransitivity; [exact Hb1|]. etransitivity; [apply (reaches_step Drained); [done|reflexivity]|]. exact Hp'. }
  destruct ph as [| |d|]; [|apply Hdrain| |done].
  - destruct (Hdrain b) as (p' & Hp' & ?). exists p'. split; [|done]. etransitivity; [by apply (reaches_step Signal)|exact Hp'].
  - destruct Hd as (-> & -> & ->); [by left; eexists|]. apply closes.
Qed.
End Runs.

(** The laws of Program.v hold of the process. *)
Lemma main_lawful `{UuidGen, StoreConfig, UuidParse, OpsPolicy, Controller, Services, RevocationLib, HttpPeer, VaultLib,
    CertParse.X509Lib, CollectLib, AapLib, AzureLib, SecretsLib, TLSLib, Resolver} fuel order s P `{!DispatchLaw P} hs p p' :
  run fuel order s hs p = Some p' -> others_ok P (world_of p) -> P (world_of p).(w_db) (world_of p').(w_db).
Proof. intros (acts & Ha)%run_activities Ho. by destruct (program_lawful fuel P acts _ _ Ha Ho). Qed.

Lemma no_accept_nil hs : Forall no_accept hs -> accepted_in hs = [].
Proof. induction 1 as [|h hs Hh _ IH]; [done|]. by destruct h. Qed.

Section Stops.
Context `{UuidGen, StoreConfig, UuidParse, OpsPolicy, Controller, Services, RevocationLib, HttpPeer, VaultLib,
  X509Lib, CollectLib, AapLib, AzureLib, SecretsLib, TLSLib, Resolver}.

Lemma start_ok processed pool generated b s p : start processed pool generated b = (Some s, p) -> process_ok s p.
Proof.
  unfold start. destruct (Load processed) as [cfg|]; [|done]. destruct pool; [|done]. intros [= <- <-].
  split; simpl; [|by split; [|eexists]|by intros [[? [=]]|[=]]].
  intros scans [= <-]. simpl. destruct (Z.leb_spec (ScanWorkerSlots cfg) 0); lia.
Qed.

Lemma start_accounted processed pool generated b s p : start processed pool generated b = (Some s, p) -> accounted [] p.
Proof. unfold start. destruct (Load processed) as [cfg|]; [|done]. destruct pool; [|done]. intros [= _ <-]. by split. Qed.

(** C34. The server stops cleanly.  Whatever the configuration, the requests, the
    faults and the interleaving of its goroutines: the scan worker never runs
    more scans than its slots; when the process ends with status 0, the loops
    of the dispatcher, the lifecycle worker and the scan worker have returned
    and no scan is running; every request accepted is answered, once, or its
    handler has not run, or it is one that waits for a job of AAP or pages
    through AAP's templates and has not ended within [fuel] polls or pages;
    and as long as the process has not ended, it can: after a signal it is
    never stuck, and without further requests it reaches status 0 with every
    accepted request answered, but for those that still wait for AAP, which
    the timeout of the shutdown cuts off. *)
Theorem main_stops fuel order processed pool generated b s p0 hs p :
  start processed pool generated b = (Some s, p0) -> run fuel order s hs p0 = Some p ->
  (forall scans, p.(pr_scans) = Some scans -> Z.of_nat (length scans) <= s.(as_worker).(sw_slots)) /\
  (p.(pr_phase) = Exited 0 -> p.(pr_dispatcher) = false /\ p.(pr_lifecycle) = false /\ p.(pr_scans) = None) /\
  accounted (accepted_in hs) p /\
  (alive p.(pr_phase) = true ->
   exists hs' p', Forall no_accept hs' /\ run fuel order s hs' p = Some p' /\
     p'.(pr_phase) = Exited 0 /\ p'.(pr_inflight) = [] /\ accounted (accepted_in hs) p').
Proof.
  intros Hs Hr. assert (process_ok s p) as Hok by (eapply run_ok; [by eapply start_ok|exact Hr]).
  assert (accounted (accepted_in hs) p) as Hac by (eapply (run_accounted _ _ _ []); [by eapply start_accounted|exact Hr]).
  split_and!; [by apply ok_slots|intros E; apply (ok_drained _ _ Hok); by right|done|].
  intros Ha. destruct (can_stop fuel order s p Hok Ha) as (p' & (hs' & Hn & Hp') & Hph & Hin). exists hs', p'.
  split_and!; try done. rewrite <- (app_nil_r (accepted_in hs)), <- (no_accept_nil hs') by done. by eapply run_accounted.
Qed.
End Stops.

Section Demo.
Import Demonstration.
#[local] Existing Instance Probe.demo_tls.
#[local] Existing Instance Scanner.demo_resolver.

#[local] Abbreviation demo_started := (start (Ok demo_processed) true "host-1" demo_backend).
(** An operator collects a certificate and queues a scan of it; the worker
    claims the scan; a signal arrives, and then another request. *)
Definition demo_schedule : list Happening := [
  Accept (demo_http "o" (CallCollect (Some (true, "cloud_acm", [Build_Item "good" ""])))); Answer 0; LifecycleTick;
  Accept (demo_http "o" (CallLaunch (ReqCreateScan (Some (true, ["192.0.2.0/30"], [], [443], 2))))); Answer 0;
  ScansTick None; Signal; Accept (demo_http "v" (CallRead "handleListScans" "" (fun _ => ""))); LifecycleReturns]%string.
#[local] Abbreviation demo_process := (run 5 demo_order demo_srv demo_schedule demo_started.2).

Lemma demo_started_server : demo_started = (Some demo_srv, demo_started.2).
Proof. vm_compute. reflexivity. Qed.

Definition process_shape (p : Process) : Phase * option nat * nat :=
  (p.(pr_phase), length <$> p.(pr_scans), length p.(pr_inflight)).
Lemma demo_process_shape : process_shape <$> demo_process = Some (Draining, Some 1%nat, 1%nat).
Proof. vm_compute. reflexivity. Qed.

Lemma main_stops_witness :
  exists p, demo_process = Some p /\ process_shape p = (Draining, Some 1%nat, 1%nat) /\
    exists hs' p', Forall no_accept hs' /\ run 5 demo_order demo_srv hs' p = Some p' /\
      p'.(pr_phase) = Exited 0 /\ p'.(pr_inflight) = [] /\ accounted (accepted_in demo_schedule) p'.
Proof.
  pose proof demo_process_shape as Hshape. destruct demo_process as [p|] eqn:E; [|discriminate]. exists p.
  split; [reflexivity|]. simpl in Hshape. injection Hshape as Hp Hs Hi.
  destruct (main_stops 5 demo_order (Ok demo_processed) true "host-1" demo_backend demo_srv demo_started.2 demo_schedule p
    demo_started_server E) as (_ & _ & _ & Hstop).
  split; [unfold process_shape; congruence|]. apply Hstop. rewrite Hp. reflexivity.
Defined.
End Demo.
