(* ===== verification/ScanFlow.v ===== *)
(** * A scan from the queue to its end

    What becomes of a queued scan when nothing interferes: the poller of
    [scan_worker.go] claims it, the runner of [runner.go] probes its targets
    under some schedule, and the row in [scans] says how it ended. *)

From S2P Require Import Prelude GoLib Records Db Queue Outbox Dispatcher CertStore JobStore Worker Issuers ScanQueue ScanRunner Compliance Posture Access Ip Revocation LaunchApi LaunchSpec Scanner Vault VaultSpec Aap Connections Settings Sends ScanWorker CertParse Probe Collectors Cmd Schema Server Main.

Open Scope clm_scope.

(** ** Without interference

    Once the environment has nothing more in store it stays so, and the
    database follows [P]. *)
Definition calmly (P : DB -> DB -> Prop) (w w' : World) : Prop :=
  w.(w_env) = [] -> w'.(w_env) = [] /\ P w.(w_db) w'.(w_db).

Section Calmly.
Context (P : DB -> DB -> Prop) `{!PreOrder P}.

#[export] Instance calmly_rel : WorldRel (calmly P).
Proof.
  split; [intros w He; by split|]. intros w1 w2 w3 H12 H23 He. destruct (H12 He) as [He2 ?], (H23 He2) as [? ?].
  split; [done|by etransitivity].
Qed.
Lemma next_env_none w : w.(w_env) = [] -> next_env w = (calm, w).
Proof. intros E. unfold next_env. by rewrite E. Qed.
Lemma calmly_store_call {A} (t : txn A) :
  (forall c db db' a, t c db = Ok (db', a) -> P db db') -> moves (calmly P) (store_call t).
Proof.
  intros Ht w r w' E He. rewrite store_call_calm in E by done. destruct (t _ _) as [[db' a]|e] eqn:Et; injection E as <- <-.
  - split; [done|]. by eapply Ht.
  - by split.
Qed.
Lemma calmly_time_now : moves (calmly P) time_now.
Proof. intros w r w' E He. unfold time_now in E. rewrite next_env_none in E by done. injection E as <- <-. by split. Qed.
Lemma calmly_net_call {R} c (reply : nat -> R) : moves (calmly P) (net_call c reply).
Proof. intros w r w' E He. unfold net_call in E. rewrite next_env_none in E by done. injection E as <- <-. by split. Qed.
End Calmly.
Lemma calmly_impl (P Q : DB -> DB -> Prop) {A} (m : M A) :
  (forall db db', P db db' -> Q db db') -> moves (calmly P) m -> moves (calmly Q) m.
Proof. intros HPQ Hm w a w' E He. destruct (Hm w a w' E He). split; auto. Qed.

(** ** What leaves the queue alone *)

Definition same_scans (db db' : DB) : Prop := db'.(scans) = db.(scans).
#[export] Instance same_scans_preorder : PreOrder same_scans.
Proof. split; [done|]. unfold same_scans. intros d1 d2 d3. congruence. Qed.

Definition off_queue {A} (t : txn A) : Prop := forall c db db' a, t c db = Ok (db', a) -> same_scans db db'.
Ltac off_queue_tac := intros ? ? ? ? Ht; unfold same_scans; do 8 (txn_inv; try case_match; simplify_eq); done.

Lemma off_reads {A} (t : txn A) : reads t -> off_queue t.
Proof. intros Ht c db db' a ->%Ht. done. Qed.
Lemma off_bind {A B} (t : txn A) (f : A -> txn B) : off_queue t -> (forall a, off_queue (f a)) -> off_queue (tbind t f).
Proof. intros Ht Hf c db db' b (db1 & a & E1%Ht & E2%Hf)%tbind_ok. by etransitivity. Qed.
Lemma off_tfor {A} (l : list A) (t : A -> txn unit) : (forall x, off_queue (t x)) -> off_queue (tfor l t).
Proof. intros Ht. induction l; simpl; [by apply off_reads, reads_ret|by apply off_bind]. Qed.

Lemma flow_store_call {A} (t : txn A) : off_queue t -> moves (calmly same_scans) (store_call t).
Proof. apply calmly_store_call. exact _. Qed.

Create HintDb off_queue discriminated.
Create HintDb flow discriminated.
Create HintDb flow_ops.
#[export] Hint Resolve off_reads : off_queue.

Ltac flow_step :=
  match goal with
  | |- moves _ (mret _) => apply moves_ret; exact _
  | |- moves _ (store_call _) => apply flow_store_call; solve [eauto with off_queue reads]
  | |- moves _ time_now => apply calmly_time_now; exact _
  | |- moves _ (net_call _ _) => apply calmly_net_call; exact _
  | |- moves _ (mtry _ _) => apply moves_try; [exact _| |intros ?]
  | |- moves _ (mbind _ _) => apply moves_bind; [exact _| |intros ?]
  | |- moves _ (mcollect _ _) => apply moves_collect; [exact _|intros ?]
  | |- moves _ (match ?x with _ => _ end) => destruct x
  | |- moves _ _ => solve [eauto with flow]
  | |- moves _ _ => progress autounfold with flow_ops
  end.
Ltac flow_tac := repeat flow_step.

Section OffQueue.
Context `{UuidGen, StoreConfig, OpsPolicy}.
#[local] Abbreviation off m := (moves (calmly same_scans) m).

Lemma off_upsert_certificate parsed obs st days sc : off_queue (upsert_certificate_tx parsed obs st days sc).
Proof. unfold upsert_certificate_tx. off_queue_tac. Qed.
Lemma off_upsert_observation o : off_queue (upsert_observation_tx o).
Proof. unfold upsert_observation_tx. off_queue_tac. Qed.
Lemma off_append_event ty cert p : off_queue (appendEventTx ty cert p).
Proof. unfold appendEventTx. off_queue_tac. Qed.
Lemma off_update_cert id f : off_queue (update_cert id f).
Proof. unfold update_cert. off_queue_tac. Qed.
#[local] Hint Resolve off_upsert_certificate off_upsert_observation off_append_event off_update_cert : off_queue.
Lemma off_mark_revoked id src : off_queue (mark_revoked_tx id src).
Proof.
  unfold mark_revoked_tx. apply off_bind; [apply off_update_cert|intros n].
  apply off_bind; [apply off_reads, reads_require|intros _; apply off_append_event].
Qed.
Lemma off_upsert_issuer parsed st days chain : off_queue (upsert_issuer_tx parsed st days chain).
Proof. unfold upsert_issuer_tx. off_queue_tac. Qed.
Lemma off_upsert_findings id fs : off_queue (upsert_findings_tx id fs).
Proof.
  unfold upsert_findings_tx. apply off_bind; [apply off_tfor|]; intros ?; [unfold upsert_one|]; off_queue_tac.
Qed.
Lemma off_update_risk id score reasons :
  off_queue (n <-! update_cert id (fun c => set_risk score reasons c.(NOW)) ;; if n then tret tt else tfail ErrCertificateNotFound).
Proof. apply off_bind; [apply off_update_cert|]. intros []; off_queue_tac. Qed.
Lemma off_update_managed fp u : off_queue (update_managed_tx fp u).
Proof. unfold update_managed_tx. off_queue_tac. Qed.
#[local] Hint Resolve off_mark_revoked off_upsert_issuer off_upsert_findings off_update_risk off_update_managed : off_queue.
#[local] Hint Unfold UpsertCertificate emitDiscoveryCatalogueEvents appendEventStandalone MarkRevoked UpsertIssuer quietly
  GetCertificate get_certificate_tx CurrentOpsPolicyVersionID ActiveWaiver to_upsert UpsertFindings ListOpenFindings
  UpdateCertificateRisk ListCertificates CountByManagedStatus UpdateManagedStatusByFingerprint list_certificates pg_cert_lister : flow_ops.

Lemma flow_UpsertCertificate id p o : off (UpsertCertificate id p o).
Proof. flow_tac. Qed.
Lemma flow_MarkRevoked id s : off (MarkRevoked id s).
Proof. flow_tac. Qed.
Lemma flow_UpsertIssuer p l : off (UpsertIssuer p l).
Proof. flow_tac. Qed.
Lemma flow_RecomputeCert id : off (RecomputeCert id).
Proof. unfold RecomputeCert. flow_tac. Qed.
#[local] Hint Resolve flow_RecomputeCert : flow.
Lemma flow_recompute_all certs : off (recompute_all certs).
Proof. induction certs; cbn [recompute_all]; flow_tac. Qed.
Lemma flow_load_pages n scanID offset all : off (load_pages n scanID offset all).
Proof. revert offset all. induction n; intros; cbn [load_pages]; flow_tac. Qed.
Lemma flow_load_all scanID : off (loadAllCertificates scanID).
Proof. intros w. apply flow_load_pages. Qed.
#[local] Hint Resolve flow_recompute_all flow_load_all : flow.
Lemma flow_RecomputeScan id : off (RecomputeScan id).
Proof. unfold RecomputeScan, loadScanCerts. flow_tac. Qed.
Lemma flow_Reconcile `{VaultLib} client s : off (Reconcile (PKIReader0 := client_reader client) s).
Proof.
  apply moves_Reconcile; [exact _|..|flow_tac].
  - apply (moves_ListPKIMounts client _ (fun _ => True)); intros; try done; flow_tac.
  - apply (moves_ListCertSerials client _ (fun _ => True)); intros; try done; flow_tac.
  - intros. flow_tac.
  - apply (moves_ReadCert client _ (fun _ => True)); intros; try done; flow_tac.
Qed.
End OffQueue.
#[export] Hint Resolve flow_UpsertCertificate flow_MarkRevoked flow_UpsertIssuer flow_RecomputeScan flow_Reconcile : flow.

(** ** One run *)

(** What was asked for. *)
Definition submitted (s : Scan) : uuid * string * list string * list string * list Z * Z * time :=
  (s.(s_ID), s.(s_Source), s.(s_CIDRs), s.(s_Hostnames), s.(s_Ports), s.(s_Concurrency), s.(s_CreatedAt)).
Definition same_request (s s' : Scan) : Prop := submitted s' = submitted s /\ s'.(s_TargetsTotal) = s.(s_TargetsTotal).

Definition row_kept (id : uuid) (db db' : DB) : Prop :=
  forall s, db.(scans) !! id = Some s -> exists s', db'.(scans) !! id = Some s' /\ same_request s s'.
#[export] Instance row_kept_preorder id : PreOrder (row_kept id).
Proof.
  split; [intros db s Hs; by exists s|]. intros d1 d2 d3 H12 H23 s Hs. destruct (H12 s Hs) as (s1 & Hs1 & E1 & T1).
  destruct (H23 s1 Hs1) as (s2 & Hs2 & E2 & T2). exists s2. split; [done|split; congruence].
Qed.
Lemma row_kept_same id db db' : same_scans db db' -> row_kept id db db'.
Proof. intros E s. rewrite E. intros Hs. by exists s. Qed.

(** The row a run leaves when its targets were expanded to [e]. *)
Record completed (ts : list Target) (warnings : list string) (s : Scan) : Prop := {
  cp_status : s.(s_Status) = scan_completed /\ s.(s_ClaimedBy) = None /\ s.(s_ClaimedAt) = None /\ s.(s_Error) = None;
  cp_total : s.(s_TargetsTotal) = Z.of_nat (length ts);
  cp_scanned : s.(s_TargetsScanned) = Z.of_nat (length ts);
  cp_outcome : s.(s_TargetsSucceeded) + s.(s_TargetsFailed) = Z.of_nat (length ts);
  cp_stored : s.(s_CertsFound) + s.(s_UpsertFailures) = s.(s_TargetsSucceeded);
  cp_warnings : s.(s_ExpansionWarnings) = warnings
}.
Definition failed_with (e : error) (s : Scan) : Prop :=
  s.(s_Status) = scan_failed /\ s.(s_ClaimedBy) = None /\ s.(s_ClaimedAt) = None /\ s.(s_Error) = Some (error_text e).
Definition ended (expansion : res (list Target * list string)) (s s' : Scan) : Prop :=
  submitted s' = submitted s /\
  match expansion with Ok (ts, warnings) => completed ts warnings s' | Err e => failed_with e s' end.

Section OneRun.
Context `{UuidGen, StoreConfig, Prober}.

(** An update of a scan that is there, without interference. *)
Lemma update_scan_calm id f w s : w.(w_env) = [] -> w.(w_db).(scans) !! id = Some s ->
  store_call (_ <-! update_scan id (fun _ => true) f ;; tret tt) w =
  (Ok tt, w <| w_db ::= (fun db => db <| scans ::= <[id := f (Build_Ctx w.(w_clock) ∅) s]> |>) |>).
Proof. intros He Hs. rewrite store_call_calm by done. unfold tbind, update_scan. by rewrite Hs. Qed.

Lemma update_scan_keeps id id' f c db db' u : (forall c s, same_request s (f c s)) ->
  (_ <-! update_scan id' (fun _ => true) f ;; tret tt) c db = Ok (db', u) -> row_kept id db db'.
Proof.
  intros Hf (db1 & b & Hu & E)%tbind_ok s Hs. injection E as <- _. apply update_scan_ok in Hu as [->|(s0 & Hs0 & _ & ->)]; [by exists s|].
  simpl. rewrite lookup_insert. case_decide as E; [subst|by exists s]. exists (f c s0). split; [done|]. simplify_eq. apply Hf.
Qed.
Lemma step_pc_keeps id job n i t p st : moves (calmly (row_kept id)) (step_pc job n i t p st).
Proof.
  assert (forall A (m : M A), moves (calmly same_scans) m -> moves (calmly (row_kept id)) m) as Hoff
    by (intros A m; apply calmly_impl; apply row_kept_same).
  destruct p as [| | | | | | | |todo pems cur certs| | |]; unfold step_pc, quietly; try (apply moves_ret; exact _).
  - apply moves_bind; [exact _|apply calmly_time_now; exact _|intros ?; apply moves_ret; exact _].
  - apply moves_bind; [exact _|apply Hoff, flow_UpsertCertificate|intros ?; apply moves_ret; exact _].
  - case_match; [|apply moves_ret; exact _]. apply moves_bind; [exact _|apply Hoff, flow_MarkRevoked|intros ?; apply moves_ret; exact _].
  - destruct todo; [apply moves_ret; exact _|].
    apply moves_bind; [exact _|apply Hoff, flow_UpsertIssuer|intros ?; apply moves_ret; exact _].
  - apply moves_bind; [exact _| |intros ?; apply moves_ret; exact _]. apply calmly_store_call; [exact _|].
    intros c db db' u. by apply update_scan_keeps.
Qed.
Lemma run_pool_keeps id job n cs st w st' w' : run_pool job n cs st w = Some (st', w') -> calmly (row_kept id) w w'.
Proof.
  revert st w. induction cs as [|c cs IH]; intros st w; cbn [run_pool]; [intros [= <- <-]; apply wr_refl|].
  destruct (pool_step job n c st w) as [[st1 w1]|] eqn:E; [|done]. intros Hr%IH. eapply wr_trans; [|exact Hr].
  destruct c as [|i]; simpl in E; repeat case_match; simplify_eq; [apply wr_refl|]. by eapply step_pc_keeps.
Qed.

(** However its goroutines were scheduled, a run leaves the row ended. *)
Lemma Run_calm job e cs w r w' s :
  w.(w_env) = [] -> w.(w_db).(scans) !! job.(job_ScanID) = Some s -> Run job e cs w = Some (r, w') ->
  is_ok r = is_ok e /\ w'.(w_env) = [] /\ exists s', w'.(w_db).(scans) !! job.(job_ScanID) = Some s' /\ ended e s s'.
Proof.
  intros He Hs. destruct e as [[ts warnings]|e]; cbn [Run].
  - unfold UpdateScanRunning, mbind, time_now. rewrite next_env_none by done. rewrite (update_scan_calm _ _ _ s) by done.
    set (s1 := s <| s_Status := _ |> <| s_StartedAt := _ |> <| s_TargetsTotal := _ |>). set (w1 := w <| w_db ::= _ |>).
    destruct (run_pool _ _ _ _ _) as [[st w2]|] eqn:Er; [|done]. destruct (finished st) eqn:Hf; [|done].
    pose proof (run_pool_ok job ts _ _ _ _ _ _ Er (start_pool_ok job ts (concurrency_pos job))) as Hok.
    destruct (finished_totals job ts st Hok Hf) as (T1 & T2 & T3). destruct Hok as [_ H1' H2 H3 _ _].
    destruct (run_pool_keeps job.(job_ScanID) _ _ _ _ _ _ _ Er) as [He2 Hk]; [done|].
    destruct (Hk s1) as (s2 & Hs2 & E2 & Ht2); [unfold w1; simpl; by rewrite lookup_insert_eq|].
    unfold CompleteScan, mbind, time_now. rewrite next_env_none by done. rewrite (update_scan_calm _ _ _ s2) by done.
    intros [= <- <-]. split_and!; [done|done|]. simpl. rewrite lookup_insert_eq. eexists. split; [reflexivity|].
    split; [exact E2|]. split; simpl; try done; try lia.
  - unfold failScan, quietly, FailScan, mbind, time_now. rewrite next_env_none by done. rewrite (update_scan_calm _ _ _ s) by done.
    intros [= <- <-]. split_and!; [done|done|]. simpl. rewrite lookup_insert_eq. by eexists.
Qed.
End OneRun.

(** ** From the claim to the end *)

Section Claimed.
Context `{UuidGen, StoreConfig}.

(** A claim returns the rows it took. *)
Lemma ClaimNextScans_calm owner lease limit w :
  w.(w_env) = [] -> (forall k s, w.(w_db).(scans) !! k = Some s -> s.(s_ID) = k) -> owner <> ""%string -> 0 < limit ->
  exists t ids rows,
    claim (scan_claimable (w.(w_clock) - lease_ttl lease)) oldest_scan (Z.to_nat limit) (run_scan owner w.(w_clock)) ∅
      w.(w_db).(scans) = (t, ids) /\
    ClaimNextScans owner lease limit w = (Ok rows, w <| w_db ::= (fun db => db <| scans := t |>) |>) /\
    Forall2 (fun k r => t !! k = Some r) ids rows.
Proof.
  intros He Hkey Ho Hl. unfold ClaimNextScans. destruct (String.eqb_spec owner ""); [done|].
  fold (lease_ttl lease). rewrite (proj2 (Z.leb_gt limit 0)) by done. unfold mtry, mbind, time_now. rewrite next_env_none by done.
  cbv zeta. destruct (claim (scan_claimable (w_clock w - lease_ttl lease)) oldest_scan (Z.to_nat limit) (run_scan owner (w_clock w)) ∅
    (scans (w_db w))) as [t ids] eqn:EC.
  rewrite store_call_calm by done. unfold claim_scans_tx. cbn [NOW locked]. rewrite EC.
  assert (exists rows, Forall2 (fun k r => t !! k = Some r) ids rows) as [rows Hrows].
  { apply Forall_exists_Forall2_l, Forall_forall. intros k Hk.
    destruct (claim_sound _ _ _ _ _ _ _ _ _ EC Hk) as (r & _ & _ & _ & Ht). by eexists. }
  exists t, ids, rows. split_and!; [done| |done].
  apply mcollect_reads. eapply Forall2_impl; [exact Hrows|]. intros k r Hr.
  apply store_call_read; [done|]. unfold get_scan_tx, tbind, tget, tsome, tret. simpl. by rewrite Hr.
Qed.

(** A poller that is not shut down gives nothing back. *)
Lemma start_scans_running wk rows stop l w r w' : start_scans wk rows stop (Build_Running l false) w = (r, w') -> w' = w.
Proof.
  revert stop l. induction rows as [|s rows IH]; intros stop l; cbn [start_scans]; [by intros [= _ <-]|].
  destruct stop as [[|k]|]; apply IH.
Qed.

(** With slots to spare the poller starts every scan that waits. *)
Lemma tick_calm wk stop l w k s :
  w.(w_env) = [] -> (forall k s, w.(w_db).(scans) !! k = Some s -> s.(s_ID) = k) -> wk.(sw_owner) <> ""%string ->
  let claimable := free_rows (scan_claimable (w.(w_clock) - lease_ttl wk.(sw_lease))) ∅ w.(w_db).(scans) in
  w.(w_db).(scans) !! k = Some s -> scan_claimable (w.(w_clock) - lease_ttl wk.(sw_lease)) s = true ->
  Z.of_nat (length l) + Z.of_nat (length claimable) <= wk.(sw_slots) ->
  exists r w', ScanWorker.tick wk stop (Build_Running l false) w = (r, w') /\ w'.(w_env) = [] /\
    run_scan wk.(sw_owner) w.(w_clock) s ∈ r.(rn_scans) /\
    w'.(w_db).(scans) !! k = Some (run_scan wk.(sw_owner) w.(w_clock) s).
Proof.
  intros He Hkey Ho claimable Hs Hc Hslots.
  assert ((k, s) ∈ claimable) as Hin by (unfold claimable; rewrite (elem_of_free_rows _ oldest_scan); split; [exact Hs|split; [exact Hc|apply not_elem_of_empty]]).
  assert (0 < Z.of_nat (length claimable)) as Hpos by (destruct claimable; [by apply elem_of_nil in Hin|simpl; lia]).
  destruct (ClaimNextScans_calm wk.(sw_owner) wk.(sw_lease) (wk.(sw_slots) - Z.of_nat (length l)) w He Hkey Ho) as (t & ids & rows & EC & E & Hrows); [lia|].
  assert (k ∈ ids) as Hk by (eapply claim_all; [exact EC|fold claimable; lia|exact Hs|exact Hc|apply not_elem_of_empty]).
  pose proof (claim_lookup _ _ _ _ _ _ _ _ k EC) as Ht. rewrite decide_True, Hs in Ht by done. simpl in Ht.
  unfold ScanWorker.tick. cbn [rn_scans]. rewrite (proj2 (Z.leb_gt _ 0)) by lia. unfold mbind. rewrite E.
  destruct (start_scans wk rows stop (Build_Running l false) _) as [r w'] eqn:Es.
  pose proof (start_scans_spec _ _ _ _ _ _ _ Es) as (_ & n & Hr & [->|[_ ?]]); [|done].
  assert (w' = w <| w_db ::= (fun db => db <| scans := t |>) |>) as -> by (by eapply start_scans_running).
  exists r, (w <| w_db ::= (fun db => db <| scans := t |>) |>). split_and!; [done|done| |done].
  rewrite Hr, firstn_all. apply elem_of_app. right.
  apply list_elem_of_lookup in Hk as [i Hi]. destruct (Forall2_lookup_l _ _ _ _ _ Hrows Hi) as (r0 & Hr0 & Hx).
  rewrite Ht in Hx. injection Hx as <-. by eapply list_elem_of_lookup_2.
Qed.
End Claimed.

Section Executed.
Context `{UuidGen, StoreConfig, OpsPolicy, Prober, Resolver, VaultLib}.

(** A row that is not running is not given back. *)
Lemma release_ended id owner w s :
  w.(w_env) = [] -> w.(w_db).(scans) !! id = Some s -> s.(s_Status) <> scan_running ->
  ReleaseScanClaim id owner w = (Ok tt, w).
Proof.
  intros He Hs Hr. apply store_call_read; [done|]. unfold tbind, update_scan. rewrite Hs.
  unfold owned_by. by rewrite (bool_decide_eq_false_2 _ Hr), andb_false_r.
Qed.
Lemma ended_not_running e s s' : ended e s s' -> s'.(s_Status) <> scan_running.
Proof. intros [_ He]. destruct e as [[ts warnings]|e]; [destruct He as [(-> & _) _ _ _ _ _]|destruct He as (-> & _)]; done. Qed.

(** Posture and Vault are looked at afterwards; the row stays. *)
Lemma execute_calm client cfg wk scan cs cancelled st w st' w' s :
  w.(w_env) = [] -> w.(w_db).(scans) !! scan.(s_ID) = Some s ->
  execute (PKIReader0 := client_reader client) cfg wk scan cs cancelled st w = Some (st', w') ->
  w'.(w_env) = [] /\ exists s', w'.(w_db).(scans) !! scan.(s_ID) = Some s' /\ ended (expansion_of cfg scan) s s'.
Proof.
  intros He Hs. unfold execute. destruct (Run _ _ _ _) as [[r w1]|] eqn:Er; [|done].
  destruct (Run_calm (Build_Job scan.(s_ID) scan.(s_Concurrency)) _ _ _ _ _ s He Hs Er) as (_ & He1 & s1 & Hs1 & E1).
  intros [= Hw]. enough (w'.(w_env) = [] /\ same_scans w1.(w_db) w'.(w_db)) as [? Ew] by (rewrite Ew; eauto).
  destruct cancelled.
  - unfold mbind in Hw. rewrite (release_ended _ _ _ s1) in Hw by (done || by eapply ended_not_running).
    injection Hw as _ <-. by split.
  - destruct r as [u|e]; [|by injection Hw as _ <-]. refine ((_ : moves (calmly same_scans) _) w1 st' w' Hw He1).
    unfold maybeRecomputePostureAfterScan, maybeReconcileAfterScan, quietly. flow_tac.
Qed.
End Executed.

(** ** A scan request *)

Section Request.
Context `{UuidGen, StoreConfig, UuidParse, OpsPolicy, Controller, Services, RevocationLib, HttpPeer, VaultLib,
  X509Lib, CollectLib, AapLib, AzureLib, SecretsLib, TLSLib, Resolver}.
Context (fuel : nat) (order : list (string * string)) (s : ApiServer).

(** A reply is the handler's, not the middleware's. *)
Lemma reply_of_handler next r b rep b1 :
  guarded (access_server s) order next r b = (OutReply rep, b1) -> exists r', next r' b = (OutReply rep, b1).
Proof.
  assert (forall r1, requirePermission (access_server s) next r1 b = (OutReply rep, b1) -> exists r', next r' b = (OutReply rep, b1)) as Hp.
  { intros r1. unfold requirePermission. repeat case_match; try done. intros E. by exists r1. }
  unfold guarded, requireAuth. repeat case_match; try apply Hp. done.
Qed.

(** An accepted request has appended a waiting scan to the queue. *)
Lemma create_scan_accepted i body b rep b1 :
  i.(in_call) = CallLaunch (ReqCreateScan body) -> b.(bk_world).(w_env) = [] ->
  serve fuel s order i b = (OutReply rep, b1) -> rep.(rp_status) = 202 ->
  exists scan, rep.(rp_body) = BScan scan /\ scan.(s_Status) = scan_pending /\ b1.(bk_world).(w_env) = [] /\
    b1.(bk_world).(w_db).(scans) = <[scan.(s_ID) := scan]> b.(bk_world).(w_db).(scans).
Proof.
  intros Hi He. unfold serve. rewrite Hi. cbn [call_handler fst snd String.eqb Ascii.eqb Bool.eqb andb].
  destruct (route_of _) as [rt|]; [|done]. destruct (rt_id rt && _); [done|].
  intros [r Hr]%reply_of_handler Hst. cbn [respond] in Hr. unfold write_reply in Hr.
  pose proof (finish_world _ _ _ _ _ _ _ _ Hr) as Hw. unfold finish in Hr.
  destruct (handle _ _ _) as [rep' w1] eqn:Eh. injection Hr as -> _. rewrite Hw. simpl. clear Hw b1. cbn [handle] in Eh.
  unfold handleCreateScan in Eh. destruct body as [[[[[consent cidrs] hosts] ports] n]|]; [|by injection Eh as <- _].
  destruct (negb consent); [by injection Eh as <- _|]. destruct (_ && _); [by injection Eh as <- _|].
  unfold mbind in Eh. destruct (CreateScan _ _ _ _ _ _) as [[scan|e] w2] eqn:Ec; [|by destruct e; injection Eh as <- _].
  apply CreateScanWithSource_calm in Ec as (He2 & _ & Hs & Hp); [|done]. injection Eh as <- <-. by exists scan.
Qed.

Lemma run_cons h hs p1 p : step fuel order s h p = Some p1 -> run fuel order s (h :: hs) p = run fuel order s hs p1.
Proof. intros E. cbn [run]. by rewrite E. Qed.

(** C9. A scan that is accepted is carried out.  When nothing interferes and the
    scan worker has slots for the scans that wait, a request for a scan that
    is answered 202 has put the scan its reply shows into the queue; the next
    tick of the worker starts it; and however the goroutines of its run are
    scheduled, and there is such a schedule, its row in the end says that it
    completed, with every target of the expansion counted as reached or
    failed and every certificate found as stored or not, or that it failed
    because its targets could not be expanded; no lease is left on it. *)
Theorem accepted_scan_ends p scans0 i body rep b1 stop :
  let w1 := b1.(bk_world) in
  let wk := s.(as_worker) in
  p.(pr_phase) = Running_ -> p.(pr_scans) = Some scans0 -> schema_ok (world_of p).(w_db) -> (world_of p).(w_env) = [] ->
  i.(in_call) = CallLaunch (ReqCreateScan body) ->
  serve fuel s order i p.(pr_backend) = (OutReply rep, b1) -> rep.(rp_status) = 202 ->
  wk.(sw_owner) <> ""%string ->
  Z.of_nat (length scans0) +
    Z.of_nat (length (free_rows (scan_claimable (w1.(w_clock) - lease_ttl wk.(sw_lease))) ∅ w1.(w_db).(scans))) <= wk.(sw_slots) ->
  exists scan k, rep.(rp_body) = BScan scan /\
    let hs cs := [Accept i; Answer (length p.(pr_inflight)); ScansTick stop; ScanEnds k cs] in
    (forall cs p', run fuel order s (hs cs) p = Some p' ->
       exists row, (world_of p').(w_db).(scans) !! scan.(s_ID) = Some row /\
         ended (expansion_of (scan_worker_config (cfg_of s)) scan) scan row) /\
    exists cs p', run fuel order s (hs cs) p = Some p'.
Proof.
  intros w1 wk Hph Hsc Hok He Hi Hserve Hst Ho Hslots.
  destruct (create_scan_accepted i body _ _ _ Hi He Hserve Hst) as (scan & Hb & Hp & He1 & Hq).
  assert (forall k r, w1.(w_db).(scans) !! k = Some r -> r.(s_ID) = k) as Hkey.
  { unfold w1. rewrite Hq. intros k r. rewrite lookup_insert. case_decide; [intros [= <-]; done|apply (sch_scans _ Hok)]. }
  destruct (tick_calm wk stop scans0 w1 scan.(s_ID) scan He1 Hkey Ho) as (r & w2 & Et & He2 & Hin & Hrow).
  { unfold w1. by rewrite Hq, lookup_insert_eq. }
  { unfold scan_claimable. by rewrite Hp. }
  { done. }
  set (claimed := run_scan _ _ scan) in *. apply list_elem_of_lookup in Hin as [k Hk].
  exists scan, k. split; [done|]. cbv zeta.
  set (p2 := p <| pr_inflight := remove_at (length p.(pr_inflight)) (p.(pr_inflight) ++ [i]) |>
               <| pr_answered ::= (fun l => l ++ [(i, OutReply rep)]) |>
               <| pr_backend := b1 <| bk_world := w2 |> |> <| pr_scans := Some r.(rn_scans) |>).
  assert (forall cs, run fuel order s [Accept i; Answer (length p.(pr_inflight)); ScansTick stop; ScanEnds k cs] p =
                     run fuel order s [ScanEnds k cs] p2) as Hrun.
  { intros cs. unfold p2. destruct p as [b disp life sc inflight waiting answered ph]. simpl in Hph, Hsc, Hserve. subst ph sc.
    rewrite (run_cons _ _ (Build_Process b disp life (Some scans0) (inflight ++ [i]) waiting answered Running_)) by done.
    rewrite (run_cons _ _ (Build_Process b1 disp life (Some scans0) (remove_at (length inflight) (inflight ++ [i])) waiting
      (answered ++ [(i, OutReply rep)]) Running_)).
    2: { unfold step. cbn -[serve remove_at]. rewrite lookup_app_r, Nat.sub_diag by lia. cbn -[serve remove_at]. by rewrite Hserve. }
    apply run_cons. unfold step. cbn -[ScanWorker.tick remove_at]. fold wk w1. by rewrite Et. }
  split.
  - intros cs p'. rewrite Hrun. cbn [run]. unfold step. cbn -[execute remove_at]. rewrite Hph. cbn -[execute remove_at]. rewrite Hk. cbn -[execute remove_at].
    destruct (execute _ _ _ _ _ _ _) as [[st w3]|] eqn:Ee; [|done]. intros [= <-]. simpl.
    destruct (execute_calm _ _ _ claimed _ _ _ _ _ _ claimed He2 Hrow Ee) as (_ & row & Hr & Hend). by exists row.
  - destruct (execute_some (default (vault_config (cfg_of s)) s.(as_reconciler)) (scan_worker_config (cfg_of s)) wk claimed false
      (if s.(as_reconciler) then Some b1.(bk_vault) else None) w2) as (cs & [st w3] & Ee).
    exists cs. eexists. rewrite Hrun. cbn [run]. unfold step. cbn -[execute remove_at]. rewrite Hph. cbn -[execute remove_at]. rewrite Hk. cbn -[execute remove_at].
    fold wk. rewrite Ee. reflexivity.
Qed.
End Request.

(** ** The same from the command line *)

Section CommandLine.
Context `{UuidGen, StoreConfig, Prober, Resolver}.

Lemma get_scan_calm id w s : w.(w_env) = [] -> w.(w_db).(scans) !! id = Some s -> GetScan id w = (Ok s, w).
Proof. intros He Hs. apply store_call_read; [done|]. unfold get_scan_tx, tbind, tget, tsome, tret. simpl. by rewrite Hs. Qed.

Lemma create_scan_calm cidrs hosts ports n w r w1 : w.(w_env) = [] -> CreateScan cidrs hosts ports n 0 w = (r, w1) ->
  w1.(w_env) = [] /\
  match r with
  | Ok scan => w.(w_db).(scans) !! scan.(s_ID) = None /\ w1.(w_db).(scans) = <[scan.(s_ID) := scan]> w.(w_db).(scans)
  | Err _ => w1 = w
  end.
Proof. intros He Hc. apply CreateScanWithSource_calm in Hc as [? Hr]; [|done]. split; [done|]. destruct r; [by destruct Hr as (? & ? & _)|done]. Qed.

(** There is consent, a target, a configuration, a database, ports that can
    be read, and a row for the scan. *)
Definition can_start (fl : ScanFlags) (loaded : option bool) (connected : bool) (w : World) : bool :=
  fl.(fl_consent) && negb (String.eqb fl.(fl_cidrs) "" && String.eqb fl.(fl_hostnames) "") &&
  bool_decide (is_Some loaded) && connected &&
  match ParsePorts fl.(fl_ports) with
  | Some ports => is_ok (CreateScan (SplitCSV fl.(fl_cidrs)) (SplitCSV fl.(fl_hostnames)) ports fl.(fl_concurrency) 0 w).1
  | None => false
  end.

Ltac refused := split; [by eexists [], _, _|intros ? ? ? [= <- <-]; by eauto 8].

(** C12. The command says how the scan went.  When nothing interferes, the command
    ends under some schedule of the goroutines, and however they are
    scheduled: when it cannot start it prints nothing, logs the reason,
    leaves everything as it was and exits with 1; otherwise it announces the
    scan, and exits with 0 after a summary of the counters of the completed
    row, or with 1 when the targets cannot be expanded and the row says so. *)
Theorem clm_scan_reports fl loaded connected w :
  w.(w_env) = [] ->
  (exists cs f w', clm_scan fl loaded connected cs w = Some (f, w')) /\
  forall cs f w', clm_scan fl loaded connected cs w = Some (f, w') ->
  if can_start fl loaded connected w then
    exists id row priv ports, loaded = Some priv /\ ParsePorts fl.(fl_ports) = Some ports /\
      f.(fn_stdout) = [starting_line id] /\
      w.(w_db).(scans) !! id = None /\ w'.(w_db).(scans) !! id = Some row /\
      match ExpandScanTargets ports priv (SplitCSV fl.(fl_cidrs)) (SplitCSV fl.(fl_hostnames)) with
      | (Ok ts, warnings) => completed ts warnings row /\ f.(fn_status) = 0 /\ f.(fn_stderr) = [summary_line row]
      | (Err e, _) => failed_with (ErrMsg e) row /\ f.(fn_status) = 1 /\ f.(fn_stderr) = []
      end
  else f.(fn_status) = 1 /\ f.(fn_stdout) = [] /\ f.(fn_stderr) = [] /\ is_Some f.(fn_error) /\ w' = w.
Proof.
  intros He. unfold clm_scan, can_start.
  destruct (fl_consent fl); [|refused]. destruct (String.eqb _ _ && _); [refused|].
  destruct loaded as [priv|]; [|refused]. destruct connected; [|refused].
  destruct (ParsePorts _) as [ports|]; [|refused]. cbn [negb andb].
  destruct (CreateScan _ _ _ _ _ w) as [created w1] eqn:Ec. apply create_scan_calm in Ec as [He1 Hc]; [|done].
  destruct created as [scan|e]; [|subst w1; refused]. cbn [fst is_ok]. rewrite bool_decide_eq_true_2 by done. cbn [andb].
  destruct Hc as [Hnew Hrows].
  set (expansion := match ExpandScanTargets _ _ _ _ with (Ok ts, warnings) => _ | _ => _ end).
  assert (w1.(w_db).(scans) !! scan.(s_ID) = Some scan) as Hs by (by rewrite Hrows, lookup_insert_eq).
  set (job := Build_Job _ _). split.
  - destruct (Run_some job expansion w1) as (cs & [r w2] & Er). exists cs. rewrite Er.
    destruct r as [u|e]; [destruct (GetScan _ w2) as [g w3]|]; by eexists _, _.
  - intros cs f w'. destruct (Run job expansion cs w1) as [[r w2]|] eqn:Er; [|done].
    destruct (Run_calm job expansion cs w1 r w2 scan He1 Hs Er) as (Hr & He2 & row & Hrow & _ & Hend).
    revert Hr Hend. unfold expansion. simpl in Hrow.
    destruct (ExpandScanTargets _ _ _ _) as [[ts|e] warnings] eqn:Ex; destruct r as [u|e']; intros [=] Hend.
    + rewrite (get_scan_calm _ _ row) by done. intros [= <- <-]. simpl. exists scan.(s_ID), row, priv, ports. rewrite Ex. by split_and!.
    + intros [= <- <-]. simpl. exists scan.(s_ID), row, priv, ports. rewrite Ex. by split_and!.
Qed.
End CommandLine.

Section Demo.
Import Demonstration.
#[local] Existing Instance Probe.demo_tls.
#[local] Existing Instance Scanner.demo_resolver.

#[local] Abbreviation demo_started := (start (Ok demo_processed) true "host-1" demo_backend).2.
Definition demo_request : Incoming :=
  demo_http "o" (CallLaunch (ReqCreateScan (Some (true, ["192.0.2.0/30"], [], [443], 2))))%string.
Definition demo_reply : option (Z * uuid) :=
  match (serve 5 demo_srv demo_order demo_request demo_backend).1 with
  | OutReply rep => match rep.(rp_body) with BScan scan => Some (rep.(rp_status), scan.(s_ID)) | _ => None end
  | _ => None
  end.

Lemma accepted_scan_ends_witness :
  demo_reply = Some (202, "0"%string) /\
  exists k cs p row, run 5 demo_order demo_srv [Accept demo_request; Answer 0; ScansTick None; ScanEnds k cs] demo_started = Some p /\
    (world_of p).(w_db).(scans) !! "0"%string = Some row /\ row.(s_Status) = scan_completed /\ row.(s_TargetsTotal) = 4 /\
    row.(s_TargetsSucceeded) + row.(s_TargetsFailed) = 4.
Proof.
  split; [vm_compute; reflexivity|].
  destruct (serve 5 demo_srv demo_order demo_request demo_backend) as [out b1] eqn:E.
  assert (exists rep scan, out = OutReply rep /\ rep.(rp_status) = 202 /\ rep.(rp_body) = BScan scan /\ scan.(s_ID) = "0"%string /\
    exists ts, expansion_of (scan_worker_config (cfg_of demo_srv)) scan = Ok (ts, []) /\ length ts = 4%nat) as (rep & scan & -> & Hst & Hb & Hid & ts & Hts & Hlen).
  { apply (f_equal fst) in E. simpl in E. subst out. eexists _, _. split; [vm_compute; reflexivity|].
    split; [reflexivity|]. split; [reflexivity|]. split; [reflexivity|]. eexists. split; vm_compute; reflexivity. }
  destruct (accepted_scan_ends 5 demo_order demo_srv demo_started [] demo_request (Some (true, ["192.0.2.0/30"], [], [443], 2))%string rep b1 None) as (scan' & k & Hb' & Hall & cs & p & Hp);
    [reflexivity|reflexivity|exact schema_empty|reflexivity|reflexivity|exact E|exact Hst|vm_compute; discriminate| |].
  { apply (f_equal snd) in E. simpl in E. subst b1. vm_compute. discriminate. }
  rewrite Hb in Hb'. injection Hb' as <-. destruct (Hall cs p Hp) as (row & Hr & _ & Hend). rewrite Hts in Hend. rewrite Hid in Hr.
  destruct Hend as [[Hs _] Ht _ Ho _ _]. exists k, cs, p, row. rewrite Hlen in *. split_and!; done.
Defined.

Definition demo_flags : ScanFlags := default_flags <| fl_cidrs := "192.0.2.0/30"%string |> <| fl_consent := true |>.
Lemma clm_scan_reports_witness :
  exists cs f w' row, clm_scan demo_flags (Some false) true cs demo_backend.(bk_world) = Some (f, w') /\
    f.(fn_status) = 0 /\ f.(fn_stderr) = [summary_line row] /\ row.(s_TargetsTotal) = 20.
Proof.
  destruct (clm_scan_reports demo_flags (Some false) true demo_backend.(bk_world)) as [(cs & f & w' & E) Hall]; [reflexivity|].
  specialize (Hall cs f w' E). replace (can_start _ _ _ _) with true in Hall by (vm_compute; reflexivity).
  destruct Hall as (id & row & priv & ports & [= <-] & Hports & _ & _ & _ & Hend). vm_compute in Hports. injection Hports as <-.
  exists cs, f, w', row. split; [exact E|].
  assert (exists ts, ExpandScanTargets [443; 8443; 6443; 993; 465] false (SplitCSV demo_flags.(fl_cidrs)) (SplitCSV demo_flags.(fl_hostnames))
    = (Ok ts, []) /\ length ts = 20%nat) as (ts & Ex & Hlen) by (eexists; split; vm_compute; reflexivity).
  rewrite Ex in Hend. destruct Hend as ([_ Ht _ _ _ _] & Hst & Herr). rewrite Hlen in Ht. split_and!; [exact Hst|exact Herr|exact Ht].
Defined.
End Demo.
